(** * JSDev: a shallow embedding of [jsdev.c] and its specification

    [jsdev.c] is a filter: it copies a JavaScript program from stdin to
    stdout and rewrites the slash-star comments whose first word is a
    command declared on the command line.  The embedding below follows the
    C text function by function.  Characters are C [int]s (here [Z]); the
    input stream is the list of bytes still to be read; stdout is the list
    of bytes written so far; [exit(1)] after a diagnostic is the [Fatal]
    outcome.  Every C loop is a [Fixpoint] on a fuel argument, and
    [process] supplies fuel computed from the length of the input.

    Two idealisations: the counters [line_nr] and [paren] are unbounded
    integers, where the C [int]s would overflow after 2^31 lines or
    brackets; and in [JSDev] writes to stdout always succeed, so the
    "write error." exit of [emit] and [emits] is never taken.  [Sink]
    below is the same program over an [emit] and an [emits] that can
    fail; it agrees with [JSDev] up to the first write that is refused. *)

From Stdlib Require Import ZArith List String Ascii Bool Lia DecimalString.
Import ListNotations.
Open Scope Z_scope.

Module JSDev.

(** ** Characters and C strings *)

Definition EOF : Z := -1.
Definition MAX_CMD_LENGTH : nat := 80.
Definition MAX_NR_CMDS : nat := 100.

Abbreviation CR := 13 (only parsing).
Abbreviation LF := 10 (only parsing).
Abbreviation SPACE := 32 (only parsing).
Abbreviation DQUOTE := 34 (only parsing).
Abbreviation SQUOTE := 39 (only parsing).
Abbreviation BACKTICK := 96 (only parsing).
Abbreviation STAR := 42 (only parsing).
Abbreviation SLASH := 47 (only parsing).
Abbreviation BACKSLASH := 92 (only parsing).
Abbreviation LPAREN := 40 (only parsing).
Abbreviation RPAREN := 41 (only parsing).
Abbreviation LBRACKET := 91 (only parsing).
Abbreviation RBRACKET := 93 (only parsing).
Abbreviation LBRACE := 123 (only parsing).
Abbreviation RBRACE := 125 (only parsing).
Abbreviation COLON := 58 (only parsing).

(** The bytes of a string literal of the C source. *)
Fixpoint bytes (s : String.string) : list Z :=
  match s with
  | EmptyString => []
  | String a r => Z.of_N (N_of_ascii a) :: bytes r
  end.
Arguments bytes s%_string.

(** The text of a C string, for diagnostics. *)
Fixpoint text (l : list Z) : String.string :=
  match l with
  | [] => EmptyString
  | c :: r => String (ascii_of_N (Z.to_N c)) (text r)
  end.

(** [strcmp(a, b) == 0] *)
Fixpoint str_eqb (a b : list Z) : bool :=
  match a, b with
  | [], [] => true
  | x :: a', y :: b' => (x =? y) && str_eqb a' b'
  | _, _ => false
  end.

(** ** Program state and outcomes *)

Record state : Type := mkState {
  input : list Z;     (* bytes of stdin not yet read by fgetc *)
  preview : Z;        (* static int preview *)
  cr : bool;          (* static int cr *)
  line_nr : Z;        (* static int line_nr *)
  out : list Z        (* bytes written to stdout, oldest first *)
}.

Definition set_input (i : list Z) (s : state) : state :=
  mkState i (preview s) (cr s) (line_nr s) (out s).
Definition set_preview (p : Z) (s : state) : state :=
  mkState (input s) p (cr s) (line_nr s) (out s).
Definition set_cr (b : bool) (s : state) : state :=
  mkState (input s) (preview s) b (line_nr s) (out s).
Definition set_line_nr (n : Z) (s : state) : state :=
  mkState (input s) (preview s) (cr s) n (out s).
Definition set_out (o : list Z) (s : state) : state :=
  mkState (input s) (preview s) (cr s) (line_nr s) o.

(** The two command-line tables, [cmds] and [commands]; [nr_cmds] is their
    common length, so a loop over [cmd_nr < nr_cmds] is a recursion on the
    list. *)
Record tables : Type := mkTables {
  cmds : list (list Z);
  commands : list (list Z)
}.

Inductive result (A : Type) : Type :=
| Ok (a : A) (s : state)                 (* the call returns *)
| Fatal (msg : String.string) (s : state) (* error(msg) was called: exit(1) *)
| OutOfFuel                               (* the loop bound of the model was hit *)
| Undefined.                              (* a write past the end of an array *)
Arguments Ok {A} a s.
Arguments Fatal {A} msg%_string s.
Arguments OutOfFuel {A}.
Arguments Undefined {A}.

Definition M (A : Type) : Type := state -> result A.

Definition ret {A} (a : A) : M A := fun s => Ok a s.

Definition bind {A B} (m : M A) (k : A -> M B) : M B :=
  fun s =>
    match m s with
    | Ok a s' => k a s'
    | Fatal msg s' => Fatal msg s'
    | OutOfFuel => OutOfFuel
    | Undefined => Undefined
    end.

Notation "x <- m ;; k" := (bind m (fun x => k))
  (at level 61, m at next level, right associativity).
Notation "m ;; k" := (bind m (fun _ => k))
  (at level 61, right associativity).

Definition out_of_fuel {A} : M A := fun _ => OutOfFuel.
Definition undefined {A} : M A := fun _ => Undefined.
Definition read {A} (f : state -> A) : M A := fun s => Ok (f s) s.
Definition modify (f : state -> state) : M unit := fun s => Ok tt (f s).

(** ** error

    The diagnostic goes to stderr and the process exits; the state kept in
    [Fatal] holds the value of [line_nr] that [error] prints. *)
Definition error {A} (message : String.string) : M A :=
  fun s => Fatal message s.
Arguments error {A} message%_string.

Definition decimal (n : Z) : String.string :=
  NilZero.string_of_int (Z.to_int n).

(** What [error] writes to stderr. *)
Definition stderr_text (message : String.string) (s : state) : String.string :=
  String.append "JSDev: "
    (String.append
       (if line_nr s =? 0 then "bad command line "%string
        else String.append (decimal (line_nr s)) ". ")
       (String.append message (text [CR; LF]))).

(** ** is_alphanum

    The C parameter is a [char]; for the values it is applied to (-1 and
    0..255) a letter, digit, underscore, dollar or period survives the
    conversion unchanged and nothing else converts to one. *)
Definition is_alphanum (c : Z) : bool :=
  ((97 <=? c) && (c <=? 122)) ||
  ((48 <=? c) && (c <=? 57)) ||
  ((65 <=? c) && (c <=? 90)) ||
  (c =? 95) || (c =? 36) || (c =? 46).

(** ** emit, emits

    [fputc] writes [c] converted to [unsigned char].  Writes to stdout are
    taken to succeed here, so the "write error." exits never happen;
    [Sink.emit] and [Sink.emits] below are the two functions with that
    exit. *)
Definition emit (c : Z) : M Z :=
  fun s => Ok c (if 0 <? c then set_out (out s ++ [c mod 256]) s else s).

Definition emits (str : list Z) : M unit :=
  fun s => Ok tt (set_out (out s ++ str) s).

(** ** peek, get, unget *)

Definition fgetc : M Z :=
  fun s =>
    match input s with
    | [] => Ok EOF s
    | b :: r => Ok b (set_input r s)
    end.

Definition peek : M Z :=
  p <- read preview ;;
  if negb (p =? 0) then ret p
  else c <- fgetc ;; modify (set_preview c) ;; ret c.

Definition get (echo : bool) : M Z :=
  p <- read preview ;;
  c <- (if negb (p =? 0) then modify (set_preview 0) ;; ret p else fgetc) ;;
  if c <=? 0 then ret EOF
  else
    (if c =? CR then
       modify (set_cr true) ;;
       modify (fun s => set_line_nr (line_nr s + 1) s)
     else
       was_cr <- read cr ;;
       (if (c =? LF) && negb was_cr
        then modify (fun s => set_line_nr (line_nr s + 1) s)
        else ret tt) ;;
       modify (set_cr false)) ;;
    (if echo then emit c ;; ret tt else ret tt) ;;
    ret c.

Definition unget (c : Z) : M unit := modify (set_preview c).

(** [peek() == x] *)
Definition peek_is (x : Z) : M bool := p <- peek ;; ret (p =? x).

(** [peek() == '/' || peek() == '*']: the second call happens only when the
    first comparison fails. *)
Definition peek_comment : M bool :=
  b <- peek_is SLASH ;; if b then ret true else peek_is STAR.

Definition is_quote (c : Z) : bool :=
  (c =? SQUOTE) || (c =? DQUOTE) || (c =? BACKTICK).

(** ** string *)

Fixpoint string_loop (fuel : nat) (quote : Z) (in_comment : bool) (was : Z)
  : M unit :=
  match fuel with
  | O => out_of_fuel
  | S fuel' =>
      c <- get true ;;
      if c =? quote then ret tt
      else
        c <- (if c =? BACKSLASH then get true else ret c) ;;
        close <- (if in_comment && (c =? STAR) then peek_is SLASH
                  else ret false) ;;
        if close then error "unexpected close comment in string."
        else if c =? EOF then
          modify (set_line_nr was) ;;
          error "unterminated string literal."
        else string_loop fuel' quote in_comment was
  end.

Definition string (fuel : nat) (quote : Z) (in_comment : bool) : M unit :=
  was <- read line_nr ;;
  string_loop fuel quote in_comment was.

(** ** pre_regexp *)

Definition pre_regexp (left : Z) : bool :=
  (left =? LPAREN) || (left =? 44) || (left =? 61) ||
  (left =? COLON) || (left =? LBRACKET) || (left =? 33) ||
  (left =? 38) || (left =? 124) || (left =? 63) ||
  (left =? LBRACE) || (left =? RBRACE) || (left =? 59).

(** ** regexp *)

(** The inner loop, over a bracketed set; it is left with [c == ']']. *)
Fixpoint regexp_set (fuel : nat) (in_comment : bool) : M Z :=
  match fuel with
  | O => out_of_fuel
  | S fuel' =>
      c <- get true ;;
      if c =? RBRACKET then ret c
      else
        c <- (if c =? BACKSLASH then get true else ret c) ;;
        close <- (if in_comment && (c =? STAR) then peek_is SLASH
                  else ret false) ;;
        if close then error "unexpected close comment in regexp."
        else if c =? EOF then
          error "unterminated set in Regular Expression literal."
        else regexp_set fuel' in_comment
  end.

(** The outer loop.  The branch on [c] yields [None] where the C code
    returns and otherwise the value of [c] that reaches the two checks at
    the bottom of the loop body. *)
Fixpoint regexp_loop (fuel : nat) (in_comment : bool) (was : Z) : M unit :=
  match fuel with
  | O => out_of_fuel
  | S fuel' =>
      c <- get true ;;
      r <- (if c =? LBRACKET then
              c <- regexp_set fuel in_comment ;; ret (Some c)
            else if c =? SLASH then
              cm <- (if in_comment then peek_comment else ret false) ;;
              if cm then error "unexpected comment." else ret None
            else if c =? BACKSLASH then
              c <- get true ;; ret (Some c)
            else ret (Some c)) ;;
      match r with
      | None => ret tt
      | Some c =>
          close <- (if in_comment && (c =? STAR) then peek_is SLASH
                    else ret false) ;;
          if close then error "unexpected comment."
          else if c =? EOF then
            modify (set_line_nr was) ;;
            error "unterminated regexp literal."
          else regexp_loop fuel' in_comment was
      end
  end.

Definition regexp (fuel : nat) (in_comment : bool) : M unit :=
  was <- read line_nr ;;
  regexp_loop fuel in_comment was.

(** ** condition

    [left] is not initialised in the C function; it is a parameter of the
    loop here.  The branch on [c] yields [None] where the C code returns
    and otherwise the new value of [paren]. *)
Fixpoint condition_loop (fuel : nat) (left paren : Z) : M unit :=
  match fuel with
  | O => out_of_fuel
  | S fuel' =>
      c <- get true ;;
      r <- (if (c =? LPAREN) || (c =? LBRACE) || (c =? LBRACKET) then
              ret (Some (paren + 1))
            else if (c =? RPAREN) || (c =? RBRACE) || (c =? RBRACKET) then
              if paren - 1 =? 0 then ret None else ret (Some (paren - 1))
            else if c =? EOF then error "Unterminated condition."
            else if is_quote c then
              string fuel c true ;; ret (Some paren)
            else if c =? SLASH then
              cm <- peek_comment ;;
              if cm then error "unexpected comment."
              else
                (if pre_regexp left then regexp fuel true else ret tt) ;;
                ret (Some paren)
            else
              close <- (if c =? STAR then peek_is SLASH else ret false) ;;
              if close then error "unclosed condition."
              else ret (Some paren)) ;;
      match r with
      | None => ret tt
      | Some paren' =>
          condition_loop fuel' (if SPACE <? c then c else left) paren'
      end
  end.

Definition condition (fuel : nat) (left0 : Z) : M unit :=
  condition_loop fuel left0 0.

(** ** stuff *)

(** The [while (peek() == '*')] loop; [true] when it consumed the closing
    star and slash, which is where [stuff] returns. *)
Fixpoint stuff_stars (fuel : nat) : M bool :=
  match fuel with
  | O => out_of_fuel
  | S fuel' =>
      star <- peek_is STAR ;;
      if star then
        get false ;;
        slash <- peek_is SLASH ;;
        if slash then get false ;; ret true
        else emit STAR ;; stuff_stars fuel'
      else ret false
  end.

Fixpoint stuff_loop (fuel : nat) (left : Z) : M unit :=
  match fuel with
  | O => out_of_fuel
  | S fuel' =>
      closed <- stuff_stars fuel ;;
      if closed then ret tt
      else
        c <- get true ;;
        (if c =? EOF then error "Unterminated stuff."
         else if is_quote c then string fuel c true
         else if c =? SLASH then
           cm <- peek_comment ;;
           if cm then error "unexpected comment."
           else if pre_regexp left then regexp fuel true else ret tt
         else ret tt) ;;
        stuff_loop fuel' (if SPACE <? c then c else left)
  end.

Definition stuff (fuel : nat) : M unit := stuff_loop fuel LBRACE.

(** ** expand

    [condition] starts with the value its uninitialised [left] happens to
    hold; 0 stands for it here, and [condition_left_irrelevant] below shows
    that the value is never looked at, because the first character that
    [condition] reads is the parenthesis that [expand] has peeked. *)
Definition expand (fuel : nat) (t : tables) (cmd_nr : Z) : M unit :=
  c <- peek ;;
  (if c =? LPAREN then emits (bytes "if ") ;; condition fuel 0
   else ret tt) ;;
  emit LBRACE ;;
  (let command := nth (Z.to_nat cmd_nr) (commands t) [] in
   match command with
   | _ :: _ =>
       emits command ;;
       emit LPAREN ;;
       stuff fuel ;;
       emit RPAREN ;; ret tt
   | [] => stuff fuel
   end) ;;
  emits (bytes ";}").

(** ** match *)

Fixpoint match_from (cmd : list Z) (l : list (list Z)) (cmd_nr : Z) : Z :=
  match l with
  | [] => EOF
  | x :: r => if str_eqb cmd x then cmd_nr else match_from cmd r (cmd_nr + 1)
  end.

Definition match_cmd (t : tables) (cmd : list Z) : Z :=
  match_from cmd (cmds t) 0.

(** ** process *)

(** The loop that echoes a slash-slash comment; it is left with the
    character that ended it. *)
Fixpoint line_comment (fuel : nat) : M Z :=
  match fuel with
  | O => out_of_fuel
  | S fuel' =>
      c <- get true ;;
      if (c =? LF) || (c =? CR) || (c =? EOF) then ret c
      else line_comment fuel'
  end.

(** The loop that reads the candidate command into [cmd]: [k] iterations
    are left, [c] is the last character read and [cmd] the text stored so
    far.  It yields the final [cmd] and [c]. *)
Fixpoint read_cmd (k : nat) (c : Z) (cmd : list Z) : M (list Z * Z) :=
  match k with
  | O => ret (cmd, c)
  | S k' =>
      c <- get false ;;
      if negb (is_alphanum c) then ret (cmd, c)
      else read_cmd k' c (cmd ++ [c])
  end.

(** The loop that echoes a comment that is not a pattern, up to the
    closing star and slash. *)
Fixpoint echo_comment (fuel : nat) (c : Z) : M unit :=
  match fuel with
  | O => out_of_fuel
  | S fuel' =>
      (if c =? EOF then error "unterminated comment." else ret tt) ;;
      if c =? SLASH then
        c <- get true ;;
        (if c =? STAR then error "nested comment." else ret tt) ;;
        echo_comment fuel' c
      else if c =? STAR then
        c <- get true ;;
        if c =? SLASH then ret tt else echo_comment fuel' c
      else
        c <- get true ;;
        echo_comment fuel' c
  end.

Fixpoint process_loop (fuel : nat) (t : tables) (c left : Z) : M unit :=
  match fuel with
  | O => out_of_fuel
  | S fuel' =>
      if c =? EOF then ret tt
      else if is_quote c then
        emit c ;;
        string fuel c false ;;
        process_loop fuel' t 0 left
      else if c =? SLASH then
        slash <- peek_is SLASH ;;
        if slash then
          emit SLASH ;;
          line_comment fuel ;;
          c <- get false ;;
          process_loop fuel' t c left
        else
          star <- peek_is STAR ;;
          if star then
            get false ;;
            r <- read_cmd MAX_CMD_LENGTH c [] ;;
            let (cmd, c) := r in
            unget c ;;
            let i := if (List.length cmd =? 0)%nat then -1 else match_cmd t cmd in
            if 0 <=? i then
              expand fuel t i ;;
              c <- get false ;;
              process_loop fuel' t c left
            else
              emits (bytes "/*") ;;
              emits cmd ;;
              echo_comment fuel c ;;
              c <- get false ;;
              process_loop fuel' t c left
          else
            emit SLASH ;;
            (if pre_regexp left then regexp fuel false else ret tt) ;;
            c <- get false ;;
            process_loop fuel' t c SLASH
      else
        emit c ;;
        c' <- get false ;;
        process_loop fuel' t c' (if SPACE <? c then c else left)
  end.

(** Every turn of every loop reads at least one byte or leaves the loop,
    so the number of bytes still to be read, plus a constant, bounds the
    number of turns. *)
Definition fuel_of (s : state) : nat := 3 + List.length (input s).

Definition process (t : tables) : M unit :=
  modify (set_line_nr 1) ;;
  c <- get false ;;
  fuel <- read fuel_of ;;
  process_loop fuel t c 0.

(** ** main *)

(** The loops that copy a name out of [argv[i]]: [n] iterations are left,
    [j] indexes [arg], whose terminating NUL is the default of [nth]. *)
Fixpoint copy_name (n : nat) (arg : list Z) (j : nat) (c : Z) (name : list Z)
  : nat * Z * list Z :=
  match n with
  | O => (j, c, name)
  | S n' =>
      let c := nth j arg 0 in
      if negb (is_alphanum c) then (j, c, name)
      else copy_name n' arg (S j) c (name ++ [c])
  end.

(** One declaration [cmd] or [cmd:command]. *)
Definition declare (arg : list Z) (t : tables) : M tables :=
  if (MAX_NR_CMDS <=? List.length (cmds t))%nat then undefined
  else
    let '(j, c, name) := copy_name MAX_CMD_LENGTH arg 0 0 [] in
    (if (j =? 0)%nat then error (text arg) else ret tt) ;;
    if c =? 0 then
      ret (mkTables (cmds t ++ [name]) (commands t ++ [[]]))
    else if c =? COLON then
      let '(k, c, command) :=
        copy_name MAX_CMD_LENGTH arg (j + 1) c [] in
      (if (Nat.eqb k (j + 1)) || negb (c =? 0)
       then error (text arg) else ret tt) ;;
      ret (mkTables (cmds t ++ [name]) (commands t ++ [command]))
    else error (text arg).

Fixpoint arguments (argv : list (list Z)) (comment : bool) (t : tables)
  : M tables :=
  match argv with
  | [] => ret t
  | arg :: rest =>
      if comment then
        emits (bytes "// ") ;;
        emits arg ;;
        emit LF ;;
        arguments rest false t
      else if str_eqb arg (bytes "-comment") then
        arguments rest true t
      else
        t' <- declare arg t ;;
        arguments rest false t'
  end.

Definition main (argv : list (list Z)) : M unit :=
  modify (set_cr false) ;;
  modify (set_line_nr 0) ;;
  t <- arguments argv false (mkTables [] []) ;;
  process t.

(** The state in which [main] starts, with [stdin] still to be read. *)
Definition initial (stdin : list Z) : state := mkState stdin 0 false 0 [].

End JSDev.

(** * The program against a sink that can refuse a write

    [fputc] and [fputs] return [EOF] when a write fails, and [emit] and
    [emits] then call [error("write error.")].  Whether a write fails is
    up to the environment: [accepts written w] tells whether the write of
    [w] succeeds once [written] has been sent.  A refused write leaves the
    output as it was.  The functions that write, and those that call
    them, are the ones of [JSDev] word for word, over this [emit] and
    [emits]; the others ([peek], [unget], [match], the declarations of
    [main]) do not write and are shared. *)

Module Sink.

Import JSDev.

Section Sink.

Variable accepts : list Z -> list Z -> bool.

Definition emit (c : Z) : M Z :=
  fun s =>
    if 0 <? c then
      if accepts (out s) [c mod 256]
      then Ok c (set_out (out s ++ [c mod 256]) s)
      else Fatal "write error." s
    else Ok c s.

Definition emits (str : list Z) : M unit :=
  fun s =>
    if accepts (out s) str
    then Ok tt (set_out (out s ++ str) s)
    else Fatal "write error." s.

Definition get (echo : bool) : M Z :=
  p <- read preview ;;
  c <- (if negb (p =? 0) then modify (set_preview 0) ;; ret p else fgetc) ;;
  if c <=? 0 then ret EOF
  else
    (if c =? CR then
       modify (set_cr true) ;;
       modify (fun s => set_line_nr (line_nr s + 1) s)
     else
       was_cr <- read cr ;;
       (if (c =? LF) && negb was_cr
        then modify (fun s => set_line_nr (line_nr s + 1) s)
        else ret tt) ;;
       modify (set_cr false)) ;;
    (if echo then emit c ;; ret tt else ret tt) ;;
    ret c.

Fixpoint string_loop (fuel : nat) (quote : Z) (in_comment : bool) (was : Z)
  : M unit :=
  match fuel with
  | O => out_of_fuel
  | S fuel' =>
      c <- get true ;;
      if c =? quote then ret tt
      else
        c <- (if c =? BACKSLASH then get true else ret c) ;;
        close <- (if in_comment && (c =? STAR) then peek_is SLASH
                  else ret false) ;;
        if close then error "unexpected close comment in string."
        else if c =? EOF then
          modify (set_line_nr was) ;;
          error "unterminated string literal."
        else string_loop fuel' quote in_comment was
  end.

Definition string (fuel : nat) (quote : Z) (in_comment : bool) : M unit :=
  was <- read line_nr ;;
  string_loop fuel quote in_comment was.

Fixpoint regexp_set (fuel : nat) (in_comment : bool) : M Z :=
  match fuel with
  | O => out_of_fuel
  | S fuel' =>
      c <- get true ;;
      if c =? RBRACKET then ret c
      else
        c <- (if c =? BACKSLASH then get true else ret c) ;;
        close <- (if in_comment && (c =? STAR) then peek_is SLASH
                  else ret false) ;;
        if close then error "unexpected close comment in regexp."
        else if c =? EOF then
          error "unterminated set in Regular Expression literal."
        else regexp_set fuel' in_comment
  end.

Fixpoint regexp_loop (fuel : nat) (in_comment : bool) (was : Z) : M unit :=
  match fuel with
  | O => out_of_fuel
  | S fuel' =>
      c <- get true ;;
      r <- (if c =? LBRACKET then
              c <- regexp_set fuel in_comment ;; ret (Some c)
            else if c =? SLASH then
              cm <- (if in_comment then peek_comment else ret false) ;;
              if cm then error "unexpected comment." else ret None
            else if c =? BACKSLASH then
              c <- get true ;; ret (Some c)
            else ret (Some c)) ;;
      match r with
      | None => ret tt
      | Some c =>
          close <- (if in_comment && (c =? STAR) then peek_is SLASH
                    else ret false) ;;
          if close then error "unexpected comment."
          else if c =? EOF then
            modify (set_line_nr was) ;;
            error "unterminated regexp literal."
          else regexp_loop fuel' in_comment was
      end
  end.

Definition regexp (fuel : nat) (in_comment : bool) : M unit :=
  was <- read line_nr ;;
  regexp_loop fuel in_comment was.

Fixpoint condition_loop (fuel : nat) (left paren : Z) : M unit :=
  match fuel with
  | O => out_of_fuel
  | S fuel' =>
      c <- get true ;;
      r <- (if (c =? LPAREN) || (c =? LBRACE) || (c =? LBRACKET) then
              ret (Some (paren + 1))
            else if (c =? RPAREN) || (c =? RBRACE) || (c =? RBRACKET) then
              if paren - 1 =? 0 then ret None else ret (Some (paren - 1))
            else if c =? EOF then error "Unterminated condition."
            else if is_quote c then
              string fuel c true ;; ret (Some paren)
            else if c =? SLASH then
              cm <- peek_comment ;;
              if cm then error "unexpected comment."
              else
                (if pre_regexp left then regexp fuel true else ret tt) ;;
                ret (Some paren)
            else
              close <- (if c =? STAR then peek_is SLASH else ret false) ;;
              if close then error "unclosed condition."
              else ret (Some paren)) ;;
      match r with
      | None => ret tt
      | Some paren' =>
          condition_loop fuel' (if SPACE <? c then c else left) paren'
      end
  end.

Definition condition (fuel : nat) (left0 : Z) : M unit :=
  condition_loop fuel left0 0.

Fixpoint stuff_stars (fuel : nat) : M bool :=
  match fuel with
  | O => out_of_fuel
  | S fuel' =>
      star <- peek_is STAR ;;
      if star then
        get false ;;
        slash <- peek_is SLASH ;;
        if slash then get false ;; ret true
        else emit STAR ;; stuff_stars fuel'
      else ret false
  end.

Fixpoint stuff_loop (fuel : nat) (left : Z) : M unit :=
  match fuel with
  | O => out_of_fuel
  | S fuel' =>
      closed <- stuff_stars fuel ;;
      if closed then ret tt
      else
        c <- get true ;;
        (if c =? EOF then error "Unterminated stuff."
         else if is_quote c then string fuel c true
         else if c =? SLASH then
           cm <- peek_comment ;;
           if cm then error "unexpected comment."
           else if pre_regexp left then regexp fuel true else ret tt
         else ret tt) ;;
        stuff_loop fuel' (if SPACE <? c then c else left)
  end.

Definition stuff (fuel : nat) : M unit := stuff_loop fuel LBRACE.

Definition expand (fuel : nat) (t : tables) (cmd_nr : Z) : M unit :=
  c <- peek ;;
  (if c =? LPAREN then emits (bytes "if ") ;; condition fuel 0
   else ret tt) ;;
  emit LBRACE ;;
  (let command := nth (Z.to_nat cmd_nr) (commands t) [] in
   match command with
   | _ :: _ =>
       emits command ;;
       emit LPAREN ;;
       stuff fuel ;;
       emit RPAREN ;; ret tt
   | [] => stuff fuel
   end) ;;
  emits (bytes ";}").

Fixpoint line_comment (fuel : nat) : M Z :=
  match fuel with
  | O => out_of_fuel
  | S fuel' =>
      c <- get true ;;
      if (c =? LF) || (c =? CR) || (c =? EOF) then ret c
      else line_comment fuel'
  end.

Fixpoint read_cmd (k : nat) (c : Z) (cmd : list Z) : M (list Z * Z) :=
  match k with
  | O => ret (cmd, c)
  | S k' =>
      c <- get false ;;
      if negb (is_alphanum c) then ret (cmd, c)
      else read_cmd k' c (cmd ++ [c])
  end.

Fixpoint echo_comment (fuel : nat) (c : Z) : M unit :=
  match fuel with
  | O => out_of_fuel
  | S fuel' =>
      (if c =? EOF then error "unterminated comment." else ret tt) ;;
      if c =? SLASH then
        c <- get true ;;
        (if c =? STAR then error "nested comment." else ret tt) ;;
        echo_comment fuel' c
      else if c =? STAR then
        c <- get true ;;
        if c =? SLASH then ret tt else echo_comment fuel' c
      else
        c <- get true ;;
        echo_comment fuel' c
  end.

Fixpoint process_loop (fuel : nat) (t : tables) (c left : Z) : M unit :=
  match fuel with
  | O => out_of_fuel
  | S fuel' =>
      if c =? EOF then ret tt
      else if is_quote c then
        emit c ;;
        string fuel c false ;;
        process_loop fuel' t 0 left
      else if c =? SLASH then
        slash <- peek_is SLASH ;;
        if slash then
          emit SLASH ;;
          line_comment fuel ;;
          c <- get false ;;
          process_loop fuel' t c left
        else
          star <- peek_is STAR ;;
          if star then
            get false ;;
            r <- read_cmd MAX_CMD_LENGTH c [] ;;
            let (cmd, c) := r in
            unget c ;;
            let i := if (List.length cmd =? 0)%nat then -1 else match_cmd t cmd in
            if 0 <=? i then
              expand fuel t i ;;
              c <- get false ;;
              process_loop fuel' t c left
            else
              emits (bytes "/*") ;;
              emits cmd ;;
              echo_comment fuel c ;;
              c <- get false ;;
              process_loop fuel' t c left
          else
            emit SLASH ;;
            (if pre_regexp left then regexp fuel false else ret tt) ;;
            c <- get false ;;
            process_loop fuel' t c SLASH
      else
        emit c ;;
        c' <- get false ;;
        process_loop fuel' t c' (if SPACE <? c then c else left)
  end.

Definition process (t : tables) : M unit :=
  modify (set_line_nr 1) ;;
  c <- get false ;;
  fuel <- read fuel_of ;;
  process_loop fuel t c 0.

Fixpoint arguments (argv : list (list Z)) (comment : bool) (t : tables)
  : M tables :=
  match argv with
  | [] => ret t
  | arg :: rest =>
      if comment then
        emits (bytes "// ") ;;
        emits arg ;;
        emit LF ;;
        arguments rest false t
      else if str_eqb arg (bytes "-comment") then
        arguments rest true t
      else
        t' <- declare arg t ;;
        arguments rest false t'
  end.

Definition main (argv : list (list Z)) : M unit :=
  modify (set_cr false) ;;
  modify (set_line_nr 0) ;;
  t <- arguments argv false (mkTables [] []) ;;
  process t.

End Sink.

End Sink.

Import JSDev.

(** * Vocabulary of the specification *)

(** What a run writes to stdout, whether it returns or exits. *)
Definition stdout {A} (r : result A) : list Z :=
  match r with
  | Ok _ s => out s
  | Fatal _ s => out s
  | _ => []
  end.

(** A byte that [get] hands to its caller: not NUL. *)
Definition byte (c : Z) : Prop := 0 < c < 256.

(** The text still to be scanned: the pushed-back character, when there is
    one, and then the bytes [fgetc] has not read. *)
Definition pending (s : state) : list Z :=
  if 0 <? preview s then preview s :: input s else input s.

(** States of a run over NUL-free input: the pushback slot is empty, holds
    a byte, or holds the EOF that [peek] met at the end of the input. *)
Definition wf (s : state) : Prop :=
  Forall byte (input s) /\
  (preview s = 0 \/ byte (preview s) \/ (preview s = EOF /\ input s = [])).

(** The pushback slot is empty or holds a character. *)
Definition ready (s : state) : Prop := 0 <= preview s.

(** What one byte does to the line counter, given the [cr] flag. *)
Definition newline (was_cr : bool) (c : Z) : Z :=
  if c =? CR then 1 else if (c =? LF) && negb was_cr then 1 else 0.

(** The state after [get] has fetched byte [c], with [r] left to scan. *)
Definition fetched (echo : bool) (c : Z) (r : list Z) (s : state) : state :=
  mkState r 0 (c =? CR) (line_nr s + newline (cr s) c)
          (if echo then out s ++ [c] else out s).

(** The state after [get] has met the end of the input. *)
Definition drained (s : state) : state :=
  mkState [] 0 (cr s) (line_nr s) (out s).

(** The state after [peek] has seen [c] (a byte, or EOF when [r] is
    empty). *)
Definition peeked (c : Z) (r : list Z) (s : state) : state :=
  mkState r c (cr s) (line_nr s) (out s).

(** ** Strings *)

(** The body of a string literal: any byte but the quote and the
    backslash, or a backslash and the byte it escapes. *)
Fixpoint str_body (quote : Z) (l : list Z) : bool :=
  match l with
  | [] => true
  | c :: r =>
      if c =? quote then false
      else if c =? BACKSLASH then
        match r with
        | [] => false
        | _ :: r' => str_body quote r'
        end
      else str_body quote r
  end.

(** No star is immediately followed by a slash. *)
Fixpoint star_slash_free (l : list Z) : bool :=
  match l with
  | [] => true
  | c :: r =>
      negb ((c =? STAR) && match r with d :: _ => d =? SLASH | [] => false end)
      && star_slash_free r
  end.

(** ** Comments that are not patterns *)

(** How the body of a comment ends, with the text copied up to there. *)
Inductive comment_end : Type :=
| Closed (body rest : list Z)
| Nested (body : list Z)
| Unterminated (body : list Z).

Definition and_body (c : Z) (e : comment_end) : comment_end :=
  match e with
  | Closed b r => Closed (c :: b) r
  | Nested b => Nested (c :: b)
  | Unterminated b => Unterminated (c :: b)
  end.

(** The specification of the copy, in its own words: the text is read up
    to the first slash-star (an error), the first star-slash (the end of
    the comment) or the end of the input (an error), whichever comes
    first. *)
Fixpoint spec_comment (l : list Z) : comment_end :=
  match l with
  | [] => Unterminated []
  | c :: r =>
      match r with
      | [] => Unterminated [c]
      | d :: r' =>
          if (c =? SLASH) && (d =? STAR) then Nested [c; d]
          else if (c =? STAR) && (d =? SLASH) then Closed [c; d] r'
          else and_body c (spec_comment r)
      end
  end.

(** The run [r] ends the way [e] says, having added the copied text to the
    output [o]. *)
Definition ends (o : list Z) (r : result unit) (e : comment_end) : Prop :=
  match e with
  | Closed b rest =>
      exists s', r = Ok tt s' /\ out s' = o ++ b /\ pending s' = rest /\
                 preview s' = 0 /\ wf s'
  | Nested b => exists s', r = Fatal "nested comment." s' /\ out s' = o ++ b
  | Unterminated b =>
      exists s', r = Fatal "unterminated comment." s' /\ out s' = o ++ b
  end.

(** ** Lines *)

(** [n] successive calls of [get]. *)
Fixpoint gets (n : nat) : M unit :=
  match n with
  | O => ret tt
  | S n' => get false ;; gets n'
  end.

(** The line terminators of a text that follows the character [prev]: every
    CR, and every LF that does not immediately follow a CR. *)
Fixpoint line_breaks (prev : Z) (l : list Z) : Z :=
  match l with
  | [] => 0
  | c :: r =>
      (if (c =? CR) || ((c =? LF) && negb (prev =? CR)) then 1 else 0)
      + line_breaks c r
  end.

(** Lines of text, each followed by the terminator [eol]. *)
Definition unlines (eol : list Z) (lines : list (list Z)) : list Z :=
  flat_map (fun l => l ++ eol) lines.

(** A line holds no CR and no LF. *)
Definition one_line (l : list Z) : bool :=
  forallb (fun c => negb (c =? CR) && negb (c =? LF)) l.

(** The three line-terminator styles: CR LF, LF alone, CR alone. *)
Definition eol_styles : list (list Z) := [[CR; LF]; [LF]; [CR]].

(** ** Pass-through *)

(** A call that only copies: what it has written is what it has consumed.
    With [strict] it has consumed something when it returns. *)
Definition echoes {A} (strict : bool) (s : state) (r : result A) : Prop :=
  match r with
  | Ok _ s' =>
      wf s' /\ preview s' = 0 /\
      exists t, pending s = t ++ pending s' /\ out s' = out s ++ t /\
                (strict = true -> t <> [])
  | Fatal _ s' => exists t u, pending s = t ++ u /\ out s' = out s ++ t
  | _ => False
  end.
Arguments echoes : simpl never.

(** The run of identifier characters at the head of [l], [k] at most: what
    the main loop stores in [cmd]. *)
Fixpoint ident (k : nat) (l : list Z) : list Z :=
  match k, l with
  | S k', c :: r => if is_alphanum c then c :: ident k' r else []
  | _, _ => []
  end.

(** The text [r] after a slash-star does not start a pattern: the
    identifier ends before [MAX_CMD_LENGTH] characters and is empty or
    absent from the table. *)
Definition not_a_pattern (t : tables) (r : list Z) : bool :=
  let cmd := ident MAX_CMD_LENGTH r in
  (List.length cmd <? MAX_CMD_LENGTH)%nat &&
  ((List.length cmd =? 0)%nat || (match_cmd t cmd <? 0)).

(** No slash-star of [l] is followed by a trigger of the table. *)
Fixpoint no_trigger (t : tables) (l : list Z) : bool :=
  match l with
  | [] => true
  | c :: r =>
      (if c =? SLASH then
         match r with
         | d :: r' => if d =? STAR then not_a_pattern t r' else true
         | [] => true
         end
       else true) && no_trigger t r
  end.

(** The character the main loop holds in [c], as text: nothing for EOF and
    for the 0 that follows a string. *)
Definition cur (c : Z) : list Z := if 0 <? c then [c] else [].

(** The main loop, holding [c] in state [s], copies [c] and the pending
    text; a fatal error leaves a prefix of them written. *)
Definition passes {A} (s : state) (c : Z) (r : result A) : Prop :=
  match r with
  | Ok _ s' => out s' = out s ++ cur c ++ pending s
  | Fatal _ s' => exists u v, cur c ++ pending s = u ++ v /\ out s' = out s ++ u
  | _ => False
  end.
Arguments passes : simpl never.

(** [c] is echoed by the last branch of the main loop. *)
Definition ordinary (c : Z) : bool :=
  negb (c =? EOF) && negb (is_quote c) && negb (c =? SLASH).

(** ** The main loop on ordinary text *)

(** An ordinary byte: the main loop echoes it and moves on. *)
Definition plain (c : Z) : bool := ordinary c && (0 <? c) && (c <? 256).

(** The [left] register after the main loop has echoed [text]. *)
Definition significant (left : Z) (text : list Z) : Z :=
  fold_left (fun l c => if SPACE <? c then c else l) text left.

(** The state of the main loop once it has echoed [c] and all of [text]
    but its last character, which it then holds, with [rest] pending. *)
Fixpoint scanned (c : Z) (text rest : list Z) (s : state) : state :=
  match text with
  | [] => s
  | d :: r =>
      scanned d r rest (fetched false d (r ++ rest) (set_out (out s ++ [c]) s))
  end.

(** ** Expansion *)

(** A byte of a simple macro body or condition: no quote, slash, star,
    bracket, brace or parenthesis. *)
Definition simple (c : Z) : bool :=
  plain c && negb (c =? STAR) &&
  negb ((c =? LPAREN) || (c =? LBRACE) || (c =? LBRACKET)) &&
  negb ((c =? RPAREN) || (c =? RBRACE) || (c =? RBRACKET)).

(** The text of a condition around [inner]. *)
Definition parenthesised (inner : list Z) : list Z := LPAREN :: inner ++ [RPAREN].

(** The four shapes of the expansion: [cond] is the text inside the
    parentheses of the condition, when there is one, [command] the
    replacement, empty when there is none, and [body] the stuff. *)
Definition shape (cond : option (list Z)) (command body : list Z) : list Z :=
  match cond with
  | Some inner => bytes "if " ++ parenthesised inner
  | None => []
  end ++
  [LBRACE] ++
  match command with
  | [] => body
  | _ :: _ => command ++ [LPAREN] ++ body ++ [RPAREN]
  end ++
  bytes ";}".

(** ** The command line *)

(** [rest] ends a name: it is empty, so that the terminating NUL follows,
    or starts with a character that is not of the identifier class. *)
Definition stops (rest : list Z) : bool :=
  match rest with
  | [] => true
  | x :: _ => negb (is_alphanum x)
  end.

(** ** Termination *)

(** The number of characters [get] can still hand out. *)
Definition weight (s : state) : nat :=
  (List.length (input s) + (if (0 <? preview s)%Z then 1 else 0))%nat.

(** One more character for a pushed-back [c]. *)
Definition held (c : Z) : nat := if 0 <? c then 1 else 0.

(** The call ends, by returning or by a fatal error, and on return at most
    [n] characters are left and [Q] holds. *)
Definition returns {A} (n : nat) (r : result A) (Q : A -> state -> Prop) : Prop :=
  match r with
  | Ok a s' => (weight s' <= n)%nat /\ Q a s'
  | Fatal _ _ => True
  | _ => False
  end.
Arguments returns : simpl never.

(** ** The examples of the specification *)

Definition sample_argv : list (list Z) :=
  [bytes "debug"; bytes "log:console.log"; bytes "alarm:alert"].

(** [/*log "hi"*/] *)
Definition log_hi : list Z :=
  bytes "/*log " ++ [DQUOTE] ++ bytes "hi" ++ [DQUOTE] ++ bytes "*/".

(** [/*debug x=1*/] *)
Definition debug_x : list Z := bytes "/*debug x=1*/".

(** [/*alarm(x>0) "go"*/] *)
Definition alarm_go : list Z :=
  bytes "/*alarm(x>0) " ++ [DQUOTE] ++ bytes "go" ++ [DQUOTE] ++ bytes "*/".

(** [/*debug(x>0) y*/] *)
Definition debug_cond : list Z := bytes "/*debug(x>0) y*/".

(** A comment of three lines, the first of
    which holds [first] alone, and a string left open on the fourth
    line. *)
Definition note_then_string (first eol : list Z) : list Z :=
  unlines eol [first; bytes " * note"; bytes " */"]
  ++ bytes "var s = " ++ [DQUOTE] ++ bytes "abc".

(** * Vocabulary of the further properties *)

(** ** Diagnostics *)

(** The fatal errors of the scan outside pattern comments. *)
Definition scan_messages : list String.string :=
  [ "unterminated string literal.";
    "unterminated set in Regular Expression literal.";
    "unterminated regexp literal.";
    "unterminated comment.";
    "nested comment." ]%string.

(** The fatal errors raised only while a pattern comment is expanded. *)
Definition macro_messages : list String.string :=
  [ "unexpected close comment in string.";
    "unexpected close comment in regexp.";
    "unexpected comment.";
    "Unterminated condition.";
    "unclosed condition.";
    "Unterminated stuff." ]%string.

(** The run [r], if it ends, ends with the line counter at [n] or above,
    and a fatal error it stops at is one of [L]. *)
Definition good {A} (n : Z) (L : list String.string) (r : result A) : Prop :=
  match r with
  | Ok _ s' => n <= line_nr s'
  | Fatal m s' => n <= line_nr s' /\ In m L
  | _ => True
  end.
Arguments good : simpl never.

(** The fatal errors of [process] with the tables [t]. *)
Definition process_messages (t : tables) : list String.string :=
  scan_messages ++ match cmds t with [] => [] | _ :: _ => macro_messages end.

(** ** Output already written *)

(** The state [s] with [o] written before its output. *)
Definition shift (o : list Z) (s : state) : state := set_out (o ++ out s) s.

Definition shift_result {A} (o : list Z) (r : result A) : result A :=
  match r with
  | Ok a s => Ok a (shift o s)
  | Fatal msg s => Fatal msg (shift o s)
  | OutOfFuel => OutOfFuel
  | Undefined => Undefined
  end.

(** A computation that does not look at the output written so far and only
    adds to it. *)
Definition framed {A} (m : M A) : Prop :=
  forall o s, m (shift o s) = shift_result o (m s).

(** ** Regular expression literals *)

(** The parts of the body of a regular expression literal, as [regexp]
    tells them apart. *)
Inductive re_item : Type :=
| Chr (c : Z)            (* a byte that is no slash, backslash or bracket *)
| Esc (c : Z)            (* a backslash and the byte it escapes *)
| Class (l : list Z).    (* a bracketed set and what is inside it *)

Definition re_text (i : re_item) : list Z :=
  match i with
  | Chr c => [c]
  | Esc c => [BACKSLASH; c]
  | Class l => LBRACKET :: l ++ [RBRACKET]
  end.

(** The inside of a set is read the way the body of a string is, with the
    closing bracket for the quote. *)
Definition re_ok (i : re_item) : bool :=
  match i with
  | Chr c => negb (c =? SLASH) && negb (c =? BACKSLASH) && negb (c =? LBRACKET)
  | Esc _ => true
  | Class l => str_body RBRACKET l
  end.

(** A literal that is cut while a bracketed set is open: the opening
    bracket and the inside of the set read so far. *)
Definition re_open (set : option (list Z)) : list Z :=
  match set with
  | Some l => LBRACKET :: l
  | None => []
  end.

(** The diagnostic of [regexp] for a star followed by a slash: one inside
    a bracketed set, another outside. *)
Definition close_message (set : option (list Z)) : String.string :=
  match set with
  | Some _ => "unexpected close comment in regexp."%string
  | None => "unexpected comment."%string
  end.

(** ** The text of a pattern comment *)

(** The pieces of a macro body or a condition that holds no slash outside
    its string literals: single bytes and string literals. *)
Inductive piece : Type :=
| Byte (c : Z)
| Quoted (q : Z) (body : list Z).

Definition piece_text (p : piece) : list Z :=
  match p with
  | Byte c => [c]
  | Quoted q body => q :: body ++ [q]
  end.

Definition pieces_text (ps : list piece) : list Z := flat_map piece_text ps.

(** A byte is neither a quote nor a slash; a string literal has a body as
    [string] reads it, with no star followed by a slash. *)
Definition piece_ok (p : piece) : bool :=
  match p with
  | Byte c => plain c
  | Quoted q body => is_quote q && str_body q body && star_slash_free body
  end.

Definition opener (c : Z) : bool := (c =? LPAREN) || (c =? LBRACE) || (c =? LBRACKET).
Definition closer (c : Z) : bool := (c =? RPAREN) || (c =? RBRACE) || (c =? RBRACKET).

(** Counting every opening bracket, brace or parenthesis outside a string
    up and every closing one down, whatever its kind, from [paren]: the
    count comes to zero at the last piece of [ps] and not before. *)
Fixpoint closes (paren : Z) (ps : list piece) : bool :=
  match ps with
  | [] => false
  | Byte c :: r =>
      if opener c then closes (paren + 1) r
      else if closer c then
        if paren - 1 =? 0 then match r with [] => true | _ :: _ => false end
        else closes (paren - 1) r
      else closes paren r
  | Quoted _ _ :: r => closes paren r
  end.

(** What follows the pieces of a macro body: the star and slash that
    close the comment, a comment, or the end of the input. *)
Inductive body_end : Type :=
| Close (rest : list Z)
| Comment (x : Z) (rest : list Z)
| Cut.

Definition body_end_text (e : body_end) : list Z :=
  match e with
  | Close rest => STAR :: SLASH :: rest
  | Comment x rest => SLASH :: x :: rest
  | Cut => []
  end.

(** How [stuff] ends on a body [b] that started with the output [o]. *)
Definition stuff_ends (o b : list Z) (e : body_end) (r : result unit) : Prop :=
  match e with
  | Close rest =>
      exists s', r = Ok tt s' /\ out s' = o ++ b /\ pending s' = rest /\
                 preview s' = 0 /\ wf s'
  | Comment _ _ =>
      exists s', r = Fatal "unexpected comment." s' /\ out s' = o ++ b ++ [SLASH]
  | Cut => exists s', r = Fatal "Unterminated stuff." s' /\ out s' = o ++ b
  end.

(** The text that [expand] writes for the condition [cond], given with its
    brackets when there is one, the replacement [command], empty when
    there is none, and the body [body]. *)
Definition expansion (cond : option (list Z)) (command body : list Z) : list Z :=
  match cond with
  | Some c => bytes "if " ++ c
  | None => []
  end ++
  [LBRACE] ++
  match command with
  | [] => body
  | _ :: _ => command ++ [LPAREN] ++ body ++ [RPAREN]
  end ++
  bytes ";}".

(** ** Programs without bare slashes *)

(** The segments of a program in which every slash outside a string
    literal opens a comment: an ordinary byte, a string literal, a line
    comment with the line terminator that ends it (none at the end of the
    input), a block comment that is not a pattern, and a pattern comment
    with its trigger, its condition and its body. *)
Inductive segment : Type :=
| Plain (c : Z)
| Str (q : Z) (body : list Z)
| Line (text : list Z) (nl : option Z)
| Block (body : list Z)
| Pattern (name : list Z) (cond : option (list piece)) (body : list piece).

Definition cond_text (cond : option (list piece)) : list Z :=
  match cond with
  | Some cps => pieces_text cps
  | None => []
  end.

Definition segment_text (g : segment) : list Z :=
  match g with
  | Plain c => [c]
  | Str q body => q :: body ++ [q]
  | Line text nl =>
      SLASH :: SLASH :: text ++ match nl with Some c => [c] | None => [] end
  | Block body => SLASH :: STAR :: body ++ [STAR; SLASH]
  | Pattern name cond body =>
      SLASH :: STAR :: name ++ cond_text cond ++ pieces_text body
        ++ [STAR; SLASH]
  end.

Definition program_text (gs : list segment) : list Z :=
  flat_map segment_text gs.

(** What the segment becomes: a pattern comment is replaced by its
    expansion, with the replacement of the first entry of the table equal
    to its trigger; everything else stays. *)
Definition segment_image (t : tables) (g : segment) : list Z :=
  match g with
  | Pattern name cond body =>
      expansion (option_map pieces_text cond)
                (nth (Z.to_nat (match_cmd t name)) (commands t) [])
                (pieces_text body)
  | _ => segment_text g
  end.

(** The first star-slash after [body] is the one that follows it, and no
    slash-star comes before it. *)
Definition closed_body (body : list Z) : bool :=
  match spec_comment (body ++ [STAR; SLASH]) with
  | Closed _ [] => true
  | _ => false
  end.

(** The segment is what its constructor says; [final] tells whether it is
    the last one. *)
Definition segment_ok (t : tables) (final : bool) (g : segment) : bool :=
  match g with
  | Plain c => plain c
  | Str q body => is_quote q && str_body q body
  | Line text nl =>
      one_line text &&
      match nl with
      | Some c => (c =? LF) || (c =? CR)
      | None => final
      end
  | Block body => not_a_pattern t (body ++ [STAR]) && closed_body body
  | Pattern name cond body =>
      forallb is_alphanum name &&
      (0 <? List.length name)%nat && (List.length name <? MAX_CMD_LENGTH)%nat &&
      (0 <=? match_cmd t name) &&
      match cond with
      | Some cps =>
          forallb piece_ok cps && closes 0 cps &&
          (hd 0 (pieces_text cps) =? LPAREN)
      | None =>
          stops (pieces_text body ++ [STAR]) &&
          negb (hd 0 (pieces_text body ++ [STAR]) =? LPAREN)
      end &&
      forallb piece_ok body
  end.

Fixpoint program_ok (t : tables) (gs : list segment) : bool :=
  match gs with
  | [] => true
  | g :: r =>
      segment_ok t (match r with [] => true | _ :: _ => false end) g &&
      program_ok t r
  end.

(** ** Declarations on the command line *)

(** The identifier characters at the head of a text, and what follows
    them. *)
Fixpoint span_ident (l : list Z) : list Z * list Z :=
  match l with
  | c :: r =>
      if is_alphanum c then let (a, b) := span_ident r in (c :: a, b)
      else ([], l)
  | [] => ([], [])
  end.

(** A name that fits: 1 to [MAX_CMD_LENGTH - 1] characters. *)
Definition fits (name : list Z) : bool :=
  (0 <? List.length name)%nat && (List.length name <? MAX_CMD_LENGTH)%nat.

(** A declaration read as the command line takes it: a trigger that fits,
    alone or followed by a colon and a replacement that fits, and nothing
    else. *)
Definition parse_declaration (arg : list Z) : option (list Z * list Z) :=
  let (name, rest) := span_ident arg in
  if fits name then
    match rest with
    | [] => Some (name, [])
    | c :: r =>
        if c =? COLON then
          let (command, rest') := span_ident r in
          match rest' with
          | [] => if fits command then Some (name, command) else None
          | _ :: _ => None
          end
        else None
    end
  else None.

(** ** Refused writes *)

(** The run [r] from [s], if it ends, ends with the line counter at [n]
    or above and has only added to the output. *)
Definition grows {A} (n : Z) (s : state) (r : result A) : Prop :=
  match r with
  | Ok _ s1 => n <= line_nr s1 /\ exists u, out s1 = out s ++ u
  | Fatal _ s1 => n <= line_nr s1 /\ exists u, out s1 = out s ++ u
  | _ => True
  end.

(** The run [r'] from [s] against a sink that can refuse a write, beside
    the run [r] of the same call against a sink that accepts every write:
    they are the same, or [r'] has stopped with "write error." at a write
    [w] that the sink refused, the line counter being [n] at least, and
    what it had written by then is the beginning of what [r] writes. *)
Definition refused {A} (accepts : list Z -> list Z -> bool) (n : Z)
           (s : state) (r r' : result A) : Prop :=
  r' = r \/
  exists s' w,
    r' = Fatal "write error." s' /\ accepts (out s') w = false /\
    n <= line_nr s' /\
    (exists u, out s' = out s ++ u) /\
    match r with
    | Ok _ s1 => exists v, out s1 = out s' ++ v
    | Fatal _ s1 => exists v, out s1 = out s' ++ v
    | _ => True
    end.

(** [m'] is [m] against a sink that can refuse a write, from every state
    with the line counter at [n] or above. *)
Definition follows {A} (accepts : list Z -> list Z -> bool) (n : Z)
           (m m' : M A) : Prop :=
  forall s, n <= line_nr s ->
    grows n s (m s) /\ refused accepts n s (m s) (m' s).

(** The fatal errors of [process] when a write can fail. *)
Definition sink_messages (t : tables) : list String.string :=
  process_messages t ++ ["write error."%string].

(** * Proof tools *)

Ltac splits := repeat match goal with |- _ /\ _ => split end.

Create HintDb jsdev.

(** * The primitives on NUL-free input *)

Section Primitives.

Lemma bind_ok {A B} (m : M A) (k : A -> M B) s a s' :
  m s = Ok a s' -> bind m k s = k a s'.
Proof. intros H. unfold bind. now rewrite H. Qed.

Lemma bind_assoc {A B C} (m : M A) (f : A -> M B) (g : B -> M C) s :
  bind (bind m f) g s = bind m (fun x => bind (f x) g) s.
Proof. unfold bind. destruct (m s); reflexivity. Qed.

Lemma bind_ret {A B} (a : A) (k : A -> M B) s : bind (ret a) k s = k a s.
Proof. reflexivity. Qed.

Lemma byte_mod (c : Z) : byte c -> c mod 256 = c.
Proof. intros [H0 H1]. apply Z.mod_small. lia. Qed.

Lemma byte_pos (c : Z) : byte c -> (0 <? c) = true.
Proof. intros [H0 _]. apply Z.ltb_lt. exact H0. Qed.

Lemma is_quote_byte q : is_quote q = true -> byte q.
Proof. unfold is_quote, byte. lia. Qed.

Lemma is_quote_cases q : is_quote q = true -> q = 39 \/ q = 34 \/ q = 96.
Proof. unfold is_quote. lia. Qed.

Lemma is_quote_facts q :
  is_quote q = true ->
  (q =? 92) = false /\ (q =? 47) = false /\ (q =? 42) = false /\
  (q =? EOF) = false.
Proof. unfold is_quote, EOF. lia. Qed.

Lemma is_alphanum_byte c : is_alphanum c = true -> byte c.
Proof. unfold is_alphanum, byte. lia. Qed.

Lemma wf_pending (s : state) : wf s -> Forall byte (pending s).
Proof.
  intros [Hi Hp]. unfold pending.
  destruct (0 <? preview s) eqn:E; [|exact Hi].
  constructor; [|exact Hi].
  apply Z.ltb_lt in E.
  destruct Hp as [Hp | [Hp | [Hp _]]]; [lia | exact Hp | unfold EOF in Hp; lia].
Qed.

Lemma get_nil (e : bool) (s : state) :
  wf s -> pending s = [] -> get e s = Ok EOF (drained s).
Proof.
  intros [Hi Hp] Hpend. unfold pending in Hpend.
  destruct s as [i p c l o]; simpl in *.
  unfold get, bind, read, modify, fgetc, ret; simpl.
  destruct (0 <? p) eqn:E; [discriminate|]. subst i.
  apply Z.ltb_ge in E.
  destruct Hp as [Hp | [[Hp _] | [Hp _]]]; [subst p; reflexivity | lia |].
  subst p. reflexivity.
Qed.

Lemma get_cons (e : bool) (s : state) (c : Z) (r : list Z) :
  wf s -> pending s = c :: r -> get e s = Ok c (fetched e c r s).
Proof.
  intros Hwf Hpend.
  assert (Hc : byte c).
  { apply wf_pending in Hwf. rewrite Hpend in Hwf. now inversion Hwf. }
  destruct Hwf as [Hi Hp]. unfold pending in Hpend.
  destruct s as [i p c0 l o]; simpl in *.
  assert (Hle : (c <=? 0) = false) by (apply Z.leb_gt; destruct Hc; lia).
  assert (Hm := byte_mod c Hc). assert (Hpos := byte_pos c Hc).
  unfold get, bind, read, modify, fgetc, ret, emit, fetched, newline; simpl.
  destruct (0 <? p) eqn:E.
  - injection Hpend as -> ->.
    assert (Hz : (c =? 0) = false) by (apply Z.eqb_neq; destruct Hc; lia).
    rewrite Hz; simpl. rewrite Hle.
    destruct (c =? 13); simpl.
    + destruct e; simpl; unfold set_out; simpl; rewrite ?Hpos, ?Hm; reflexivity.
    + destruct ((c =? 10) && negb c0); simpl;
        destruct e; simpl; unfold set_out; simpl; rewrite ?Hpos, ?Hm;
        rewrite ?Z.add_0_r; reflexivity.
  - apply Z.ltb_ge in E.
    destruct Hp as [Hp | [[Hp _] | [Hp Hnil]]]; [| lia | subst i; discriminate].
    subst p i; simpl. rewrite Hle.
    destruct (c =? 13); simpl.
    + destruct e; simpl; unfold set_out; simpl; rewrite ?Hpos, ?Hm; reflexivity.
    + destruct ((c =? 10) && negb c0); simpl;
        destruct e; simpl; unfold set_out; simpl; rewrite ?Hpos, ?Hm;
        rewrite ?Z.add_0_r; reflexivity.
Qed.

Lemma peek_nil (s : state) :
  wf s -> pending s = [] -> peek s = Ok EOF (peeked EOF [] s).
Proof.
  intros [Hi Hp] Hpend. unfold pending in Hpend.
  destruct s as [i p c l o]; simpl in *.
  unfold peek, bind, read, modify, fgetc, ret, peeked; simpl.
  destruct (0 <? p) eqn:E; [discriminate|]. subst i.
  apply Z.ltb_ge in E.
  destruct Hp as [Hp | [[Hp _] | [Hp _]]]; [subst p; reflexivity | lia |].
  subst p. reflexivity.
Qed.

Lemma peek_cons (s : state) (c : Z) (r : list Z) :
  wf s -> pending s = c :: r -> peek s = Ok c (peeked c r s).
Proof.
  intros Hwf Hpend.
  assert (Hc : byte c).
  { apply wf_pending in Hwf. rewrite Hpend in Hwf. now inversion Hwf. }
  destruct Hwf as [Hi Hp]. unfold pending in Hpend.
  destruct s as [i p c0 l o]; simpl in *.
  unfold peek, bind, read, modify, fgetc, ret, peeked; simpl.
  destruct (0 <? p) eqn:E.
  - injection Hpend as -> ->.
    assert (Hz : (c =? 0) = false) by (apply Z.eqb_neq; destruct Hc; lia).
    rewrite Hz; reflexivity.
  - apply Z.ltb_ge in E.
    destruct Hp as [Hp | [[Hp _] | [Hp Hnil]]]; [| lia | subst i; discriminate].
    subst p i; reflexivity.
Qed.

Lemma wf_fetched e c r s : Forall byte r -> wf (fetched e c r s).
Proof. intros H. split; [exact H | left; reflexivity]. Qed.

Lemma wf_drained s : wf (drained s).
Proof. split; [constructor | left; reflexivity]. Qed.

Lemma wf_peeked c r s : byte c -> Forall byte r -> wf (peeked c r s).
Proof. intros Hc H. split; [exact H | right; left; exact Hc]. Qed.

Lemma wf_peeked_eof s : wf (peeked EOF [] s).
Proof. split; [constructor | right; right; split; reflexivity]. Qed.

Lemma wf_set_out o s : wf s -> wf (set_out o s).
Proof. intros H. exact H. Qed.

Lemma wf_set_line_nr n s : wf s -> wf (set_line_nr n s).
Proof. intros H. exact H. Qed.

Lemma wf_initial stdin : Forall byte stdin -> wf (initial stdin).
Proof. intros H. split; [exact H | left; reflexivity]. Qed.

Lemma pending_peeked c r s : byte c -> pending (peeked c r s) = c :: r.
Proof. intros Hc. unfold pending; simpl. now rewrite (byte_pos c Hc). Qed.

Lemma emit_byte (c : Z) (s : state) :
  byte c -> emit c s = Ok c (set_out (out s ++ [c]) s).
Proof. intros Hc. unfold emit. now rewrite (byte_pos c Hc), (byte_mod c Hc). Qed.

Lemma ready_cases (s : state) (c : Z) (r : list Z) :
  ready s -> pending s = c :: r ->
  (preview s = c /\ 0 < c /\ input s = r) \/ (preview s = 0 /\ input s = c :: r).
Proof.
  unfold ready, pending. intros H0 Hp.
  destruct (0 <? preview s) eqn:E.
  - apply Z.ltb_lt in E. injection Hp as <- <-. left. auto.
  - apply Z.ltb_ge in E. right. split; [lia | exact Hp].
Qed.

Lemma peek_is_spec (x : Z) (s : state) :
  wf s -> 0 < x ->
  exists s',
    peek_is x s =
      Ok (match pending s with d :: _ => d =? x | [] => false end) s' /\
    wf s' /\ pending s' = pending s /\ out s' = out s.
Proof.
  intros Hwf Hx. unfold peek_is.
  destruct (pending s) as [|d r] eqn:Hp.
  - rewrite (bind_ok _ _ _ _ _ (peek_nil s Hwf Hp)). exists (peeked EOF [] s).
    assert (E : (EOF =? x) = false) by (unfold EOF; lia).
    unfold ret. rewrite E. splits; auto using wf_peeked_eof.
  - assert (Hb : Forall byte (d :: r)) by (rewrite <- Hp; now apply wf_pending).
    inversion Hb; subst.
    rewrite (bind_ok _ _ _ _ _ (peek_cons s d r Hwf Hp)). exists (peeked d r s).
    splits; auto using wf_peeked, pending_peeked.
Qed.

(** The value of the uninitialised [left] of [condition] is never looked
    at when the next character is the parenthesis that [expand] peeked. *)
Lemma condition_left_irrelevant (fuel : nat) (left1 left2 paren : Z) (s : state) :
  preview s = LPAREN ->
  condition_loop fuel left1 paren s = condition_loop fuel left2 paren s.
Proof.
  intros Hp. destruct s as [i p c l o]. simpl in Hp. subst p.
  destruct fuel; reflexivity.
Qed.

End Primitives.

#[local] Hint Resolve wf_fetched wf_drained wf_peeked wf_peeked_eof
  wf_set_out wf_set_line_nr pending_peeked : jsdev.

Ltac mstep := repeat (rewrite bind_assoc || rewrite bind_ret).

Ltac norm :=
  repeat match goal with
  | H : context [pending (fetched ?e ?c ?l ?s)] |- _ =>
      change (pending (fetched e c l s)) with l in H
  | |- context [pending (fetched ?e ?c ?l ?s)] =>
      change (pending (fetched e c l s)) with l
  | H : context [pending (drained ?s)] |- _ =>
      change (pending (drained s)) with (@nil Z) in H
  | |- context [pending (drained ?s)] =>
      change (pending (drained s)) with (@nil Z)
  end.

(** * Termination: the fuel of [process] is never used up *)

Section Termination.

(** The rule for sequencing: the bound [n] and the postcondition pass from
    one call to the next. *)
Lemma returns_bind {A B} n (m : M A) (k : A -> M B) s Q R :
  returns n (m s) Q ->
  (forall a s', Q a s' -> (weight s' <= n)%nat -> returns n (k a s') R) ->
  returns n (bind m k s) R.
Proof.
  unfold bind, returns at 1. destruct (m s); try tauto.
  intros [H1 H2] Hk. auto.
Qed.

Lemma returns_le {A} n n' (r : result A) (Q Q' : A -> state -> Prop) :
  (n <= n')%nat ->
  (forall a s, (weight s <= n)%nat -> Q a s -> Q' a s) ->
  returns n r Q -> returns n' r Q'.
Proof.
  unfold returns. destruct r; auto. intros Hn HQ [H1 H2]. split; [lia | auto].
Qed.

Lemma returns_ret {A} n (a : A) s (Q : A -> state -> Prop) :
  (weight s <= n)%nat -> Q a s -> returns n (ret a s) Q.
Proof. unfold returns, ret. auto. Qed.

Lemma returns_error {A} n msg s (Q : A -> state -> Prop) :
  returns n (@error A msg s) Q.
Proof. exact I. Qed.

(** [get] ends with the pushback slot empty: it either returns a
    character and leaves less to read, or returns [EOF]. *)
Lemma returns_get (e : bool) (s : state) :
  returns (weight s) (get e s)
    (fun c s' => preview s' = 0 /\
                 ((c = EOF /\ ~ 0 < preview s) \/
                  (0 < c /\ (weight s' < weight s)%nat))).
Proof.
  destruct s as [i p c0 l o]. unfold returns, weight, get, bind, read, modify, fgetc, ret.
  simpl. destruct (p =? 0) eqn:Ep; simpl.
  - apply Z.eqb_eq in Ep. subst p. simpl.
    destruct i as [|b i]; simpl.
    + split; [lia|]. split; [reflexivity|]. left. split; [reflexivity | lia].
    + destruct (b <=? 0) eqn:Eb; simpl.
      * split; [lia|]. split; [reflexivity|]. left. split; [reflexivity | lia].
      * apply Z.leb_gt in Eb.
        destruct (b =? 13); simpl;
          [| destruct ((b =? 10) && negb c0); simpl];
          destruct e; simpl; unfold emit, set_out; simpl;
          destruct (0 <? b); simpl;
          (split; [lia | split; [reflexivity | right; split; lia]]).
  - apply Z.eqb_neq in Ep.
    destruct (p <=? 0) eqn:Eb; simpl.
    + apply Z.leb_le in Eb. assert (E : (0 <? p) = false) by lia. rewrite E.
      split; [lia|]. split; [reflexivity|]. left. split; [reflexivity | lia].
    + apply Z.leb_gt in Eb. assert (E : (0 <? p) = true) by lia. rewrite E.
      destruct (p =? 13); simpl;
        [| destruct ((p =? 10) && negb c0); simpl];
        destruct e; simpl; unfold emit, set_out; simpl; rewrite ?E; simpl;
        (split; [lia | split; [reflexivity | right; split; lia]]).
Qed.

(** [peek] ends without using up any input, and a character it returns
    other than NUL is then in the pushback slot. *)
Lemma returns_peek (s : state) :
  returns (weight s) (peek s) (fun c s' => c <> 0 -> preview s' = c).
Proof.
  destruct s as [i p c0 l o]. unfold returns, weight, peek, bind, read, modify, fgetc, ret.
  simpl. destruct (p =? 0) eqn:Ep; simpl.
  - apply Z.eqb_eq in Ep. subst p. simpl.
    destruct i as [|b i]; simpl; [split; [lia | auto]|].
    split; [|auto]. destruct (0 <? b); lia.
  - split; [lia | auto].
Qed.

Lemma returns_peek_is (x : Z) (s : state) :
  x <> 0 ->
  returns (weight s) (peek_is x s) (fun b s' => b = true -> preview s' = x).
Proof.
  intros Hx. unfold peek_is. eapply returns_bind; [apply returns_peek|].
  intros c s' Hc Hw. apply returns_ret; [exact Hw|].
  intros Hb. apply Z.eqb_eq in Hb. subst c. apply Hc. exact Hx.
Qed.

Lemma returns_peek_comment (s : state) :
  returns (weight s) (peek_comment s) (fun _ _ => True).
Proof.
  unfold peek_comment. eapply returns_bind; [apply (returns_peek_is 47); lia|].
  intros b s' _ Hw. destruct b; [apply returns_ret; auto|].
  apply returns_le with (n := weight s') (Q := fun b s'' => b = true -> preview s'' = 42);
    [exact Hw | auto | apply (returns_peek_is 42); lia].
Qed.

Lemma returns_emit n (c : Z) (s : state) (Q : Z -> state -> Prop) :
  (weight s <= n)%nat ->
  (forall o, Q c (set_out o s)) -> Q c s ->
  returns n (emit c s) Q.
Proof.
  intros Hw HQ HQ'. unfold emit, returns. destruct (0 <? c); auto.
Qed.


Lemma returns_mono {A} n n' (r : result A) (Q : A -> state -> Prop) :
  (n <= n')%nat -> returns n r Q -> returns n' r Q.
Proof. intros Hn. apply returns_le; auto. Qed.

Lemma returns_post {A} n (r : result A) (Q Q' : A -> state -> Prop) :
  (forall a s, (weight s <= n)%nat -> Q a s -> Q' a s) ->
  returns n r Q -> returns n r Q'.
Proof. intros H. apply returns_le; auto. Qed.

Lemma returns_any {A} n (r : result A) (Q : A -> state -> Prop) :
  returns n r Q -> returns n r (fun _ _ => True).
Proof. apply returns_post. auto. Qed.

Ltac rget c s1 Hpv Hc Hw :=
  eapply returns_bind; [apply returns_get|]; intros c s1 [Hpv Hc] Hw.

Lemma returns_close (ic : bool) (c : Z) (s : state) :
  returns (weight s)
    ((if ic && (c =? 42) then peek_is 47 else ret false) s) (fun _ _ => True).
Proof.
  destruct (ic && (c =? 42)).
  - eapply returns_any. apply (returns_peek_is 47). lia.
  - apply returns_ret; auto.
Qed.

(** [string] ends; when it returns it has read its quote, so the input
    left is shorter than it was. *)
Lemma returns_string_loop (fuel : nat) :
  forall q ic was s, (weight s < fuel)%nat ->
    returns (weight s) (string_loop fuel q ic was s)
            (fun _ s' => 0 < q -> (weight s' < weight s)%nat).
Proof.
  induction fuel as [|fuel IH]; intros q ic was s Hlen; [inversion Hlen|].
  cbn [string_loop]. rget c s1 Hpv Hc Hw.
  destruct (c =? q) eqn:Ecq.
  { apply returns_ret; [exact Hw|]. intros Hq. apply Z.eqb_eq in Ecq. subst c.
    destruct Hc as [[Hc _] | [_ Hc]]; [unfold EOF in Hc; lia | exact Hc]. }
  destruct Hc as [[Hc _] | [Hc Hlt]].
  - (* the input has ended *)
    subst c. change (EOF =? 92) with false. cbv iota. rewrite bind_ret.
    change (EOF =? 42) with false. rewrite andb_false_r. rewrite bind_ret.
    cbv iota. change (EOF =? EOF) with true. cbv iota. exact I.
  - apply returns_mono with (n := weight s1); [lia|].
    apply returns_post with (Q := fun _ _ => True); [intros; lia|].
    apply returns_bind with (Q := fun _ _ => True).
    { destruct (c =? 92).
      - eapply returns_any. apply returns_get.
      - apply returns_ret; auto. }
    intros c2 s2 _ Hw2.
    apply returns_bind with (Q := fun _ _ => True).
    { apply returns_mono with (n := weight s2); [lia|]. apply returns_close. }
    intros close s3 _ Hw3.
    destruct close; [exact I|]. destruct (c2 =? EOF); [exact I|].
    apply returns_mono with (n := weight s3); [lia|].
    eapply returns_any. apply IH. lia.
Qed.

Lemma returns_string (fuel : nat) (q : Z) (ic : bool) (s : state) :
  (weight s < fuel)%nat ->
  returns (weight s) (string fuel q ic s)
          (fun _ s' => 0 < q -> (weight s' < weight s)%nat).
Proof. intros H. unfold string, bind, read. now apply returns_string_loop. Qed.

(** The loop over a bracketed set ends. *)
Lemma returns_regexp_set (fuel : nat) :
  forall ic s, (weight s < fuel)%nat ->
    returns (weight s) (regexp_set fuel ic s) (fun _ _ => True).
Proof.
  induction fuel as [|fuel IH]; intros ic s Hlen; [inversion Hlen|].
  cbn [regexp_set]. rget c s1 Hpv Hc Hw.
  destruct (c =? 93); [apply returns_ret; auto|].
  destruct Hc as [[Hc _] | [Hc Hlt]].
  - subst c. destruct ic; exact I.
  - apply returns_mono with (n := weight s1); [lia|].
    apply returns_bind with (Q := fun _ _ => True).
    { destruct (c =? 92).
      - eapply returns_any. apply returns_get.
      - apply returns_ret; auto. }
    intros c2 s2 _ Hw2.
    apply returns_bind with (Q := fun _ _ => True).
    { apply returns_mono with (n := weight s2); [lia|]. apply returns_close. }
    intros close s3 _ Hw3.
    destruct close; [exact I|]. destruct (c2 =? EOF); [exact I|].
    apply returns_mono with (n := weight s3); [lia|]. apply IH. lia.
Qed.

(** [regexp] ends. *)
Lemma returns_regexp_loop (fuel : nat) :
  forall ic was s, (weight s < fuel)%nat ->
    returns (weight s) (regexp_loop fuel ic was s) (fun _ _ => True).
Proof.
  induction fuel as [|fuel IH]; intros ic was s Hlen; [inversion Hlen|].
  cbn [regexp_loop]. rget c s1 Hpv Hc Hw.
  destruct Hc as [[Hc _] | [Hc Hlt]].
  - subst c. destruct ic; exact I.
  - apply returns_mono with (n := weight s1); [lia|].
    apply returns_bind with (Q := fun _ _ => True).
    { destruct (c =? 91).
      - apply returns_bind with (Q := fun _ _ => True).
        + apply returns_regexp_set. lia.
        + intros. apply returns_ret; auto.
      - destruct (c =? 47).
        + apply returns_bind with (Q := fun _ _ => True).
          * destruct ic; [apply returns_peek_comment | apply returns_ret; auto].
          * intros cm s2 _ Hw2. destruct cm; [exact I | apply returns_ret; auto].
        + destruct (c =? 92).
          * apply returns_bind with (Q := fun _ _ => True).
            -- eapply returns_any. apply returns_get.
            -- intros. apply returns_ret; auto.
          * apply returns_ret; auto. }
    intros r s2 _ Hw2. destruct r as [c2|]; [|apply returns_ret; auto].
    apply returns_bind with (Q := fun _ _ => True).
    { apply returns_mono with (n := weight s2); [lia|]. apply returns_close. }
    intros close s3 _ Hw3.
    destruct close; [exact I|]. destruct (c2 =? EOF); [exact I|].
    apply returns_mono with (n := weight s3); [lia|]. apply IH. lia.
Qed.

Lemma returns_regexp (fuel : nat) (ic : bool) (s : state) :
  (weight s < fuel)%nat ->
  returns (weight s) (regexp fuel ic s) (fun _ _ => True).
Proof. intros H. unfold regexp, bind, read. now apply returns_regexp_loop. Qed.

(** The slash branch shared by [condition] and [stuff]. *)
Lemma returns_slash (fuel : nat) (left : Z) (s : state) :
  (weight s < fuel)%nat ->
  returns (weight s)
    ((cm <- peek_comment ;;
      if cm then error "unexpected comment."
      else if pre_regexp left then regexp fuel true else ret tt) s)
    (fun _ _ => True).
Proof.
  intros Hlen. apply returns_bind with (Q := fun _ _ => True).
  - apply returns_peek_comment.
  - intros cm s1 _ Hw. destruct cm; [exact I|].
    destruct (pre_regexp left); [|apply returns_ret; auto].
    apply returns_mono with (n := weight s1); [lia|]. apply returns_regexp. lia.
Qed.

(** [condition] ends. *)
Lemma returns_condition_loop (fuel : nat) :
  forall left paren s, (weight s < fuel)%nat ->
    returns (weight s) (condition_loop fuel left paren s) (fun _ _ => True).
Proof.
  induction fuel as [|fuel IH]; intros left paren s Hlen; [inversion Hlen|].
  cbn [condition_loop]. rget c s1 Hpv Hc Hw.
  destruct Hc as [[Hc _] | [Hc Hlt]].
  - subst c. exact I.
  - apply returns_mono with (n := weight s1); [lia|].
    apply returns_bind with (Q := fun _ _ => True).
    { destruct ((c =? 40) || (c =? 123) || (c =? 91)); [apply returns_ret; auto|].
      destruct ((c =? 41) || (c =? 125) || (c =? 93)).
      { destruct (paren - 1 =? 0); apply returns_ret; auto. }
      destruct (c =? EOF); [exact I|].
      destruct (is_quote c).
      { apply returns_bind with (Q := fun _ _ => True).
        - eapply returns_any. apply returns_string. lia.
        - intros. apply returns_ret; auto. }
      destruct (c =? 47).
      { apply returns_bind with (Q := fun _ _ => True).
        - apply returns_peek_comment.
        - intros cm s2 _ Hw2. destruct cm; [exact I|].
          apply returns_bind with (Q := fun _ _ => True).
          + destruct (pre_regexp left); [|apply returns_ret; auto].
            apply returns_mono with (n := weight s2); [lia|].
            apply returns_regexp. lia.
          + intros. apply returns_ret; auto. }
      apply returns_bind with (Q := fun _ _ => True).
      - destruct (c =? 42); [|apply returns_ret; auto].
        eapply returns_any. apply (returns_peek_is 47). lia.
      - intros close s2 _ Hw2. destruct close; [exact I | apply returns_ret; auto]. }
    intros r s2 _ Hw2. destruct r as [paren'|]; [|apply returns_ret; auto].
    apply returns_mono with (n := weight s2); [lia|]. apply IH. lia.
Qed.

Lemma returns_emits n (l : list Z) (s : state) :
  (weight s <= n)%nat -> returns n (emits l s) (fun _ _ => True).
Proof. intros H. unfold emits, returns. auto. Qed.

Lemma returns_emit_any n (c : Z) (s : state) :
  (weight s <= n)%nat -> returns n (emit c s) (fun _ _ => True).
Proof. intros H. unfold emit, returns. destruct (0 <? c); auto. Qed.

(** The loop over the stars of a macro body ends: every star it sees it
    also reads. *)
Lemma returns_stuff_stars (fuel : nat) :
  forall s, (weight s < fuel)%nat ->
    returns (weight s) (stuff_stars fuel s) (fun _ _ => True).
Proof.
  induction fuel as [|fuel IH]; intros s Hlen; [inversion Hlen|].
  cbn [stuff_stars].
  eapply returns_bind; [apply (returns_peek_is 42); lia|].
  intros star s1 Hstar Hw1. destruct star; [|apply returns_ret; auto].
  specialize (Hstar eq_refl).
  apply returns_mono with (n := weight s1); [lia|].
  rget c s2 Hpv Hc Hw2.
  destruct Hc as [[_ Hc] | [Hc Hlt]]; [rewrite Hstar in Hc; lia|].
  apply returns_mono with (n := weight s2); [lia|].
  eapply returns_bind; [apply (returns_peek_is 47); lia|].
  intros slash s3 _ Hw3. destruct slash.
  - apply returns_bind with (Q := fun _ _ => True).
    + apply returns_mono with (n := weight s3); [lia|].
      eapply returns_any. apply returns_get.
    + intros. apply returns_ret; auto.
  - apply returns_bind with (Q := fun _ _ => True);
      [apply returns_emit_any; lia|].
    intros _ s4 _ Hw4.
    apply returns_mono with (n := weight s4); [lia|]. apply IH. lia.
Qed.

(** [stuff] ends. *)
Lemma returns_stuff_loop (fuel : nat) :
  forall left s, (weight s < fuel)%nat ->
    returns (weight s) (stuff_loop fuel left s) (fun _ _ => True).
Proof.
  induction fuel as [|fuel IH]; intros left s Hlen; [inversion Hlen|].
  cbn [stuff_loop].
  eapply returns_bind; [apply returns_stuff_stars; exact Hlen|].
  intros closed s1 _ Hw1. destruct closed; [apply returns_ret; auto|].
  apply returns_mono with (n := weight s1); [lia|].
  rget c s2 Hpv Hc Hw2.
  destruct Hc as [[Hc _] | [Hc Hlt]].
  - subst c. exact I.
  - apply returns_mono with (n := weight s2); [lia|].
    apply returns_bind with (Q := fun _ _ => True).
    { destruct (c =? EOF); [exact I|].
      destruct (is_quote c).
      { eapply returns_any. apply returns_string. lia. }
      destruct (c =? 47); [|apply returns_ret; auto].
      apply returns_slash. lia. }
    intros _ s3 _ Hw3.
    apply returns_mono with (n := weight s3); [lia|]. apply IH. lia.
Qed.

(** [expand] ends. *)
Lemma returns_expand (fuel : nat) (t : tables) (cmd_nr : Z) (s : state) :
  (weight s < fuel)%nat ->
  returns (weight s) (expand fuel t cmd_nr s) (fun _ _ => True).
Proof.
  intros Hlen. unfold expand.
  eapply returns_bind; [apply returns_peek|].
  intros c s1 _ Hw1.
  apply returns_bind with (Q := fun _ _ => True).
  { destruct (c =? 40); [|apply returns_ret; auto].
    apply returns_bind with (Q := fun _ _ => True);
      [apply returns_emits; exact Hw1|].
    intros _ s2 _ Hw2. apply returns_mono with (n := weight s2); [lia|].
    apply returns_condition_loop. lia. }
  intros _ s2 _ Hw2.
  apply returns_bind with (Q := fun _ _ => True);
    [apply returns_emit_any; exact Hw2|].
  intros _ s3 _ Hw3.
  apply returns_bind with (Q := fun _ _ => True);
    [|intros; apply returns_emits; assumption].
  destruct (nth (Z.to_nat cmd_nr) (commands t) []) as [|x command].
  - apply returns_mono with (n := weight s3); [lia|].
    apply returns_stuff_loop. lia.
  - apply returns_bind with (Q := fun _ _ => True);
      [apply returns_emits; exact Hw3|].
    intros _ s4 _ Hw4.
    apply returns_bind with (Q := fun _ _ => True);
      [apply returns_emit_any; exact Hw4|].
    intros _ s5 _ Hw5.
    apply returns_bind with (Q := fun _ _ => True).
    + apply returns_mono with (n := weight s5); [lia|].
      apply returns_stuff_loop. lia.
    + intros _ s6 _ Hw6.
      apply returns_bind with (Q := fun _ _ => True);
        [apply returns_emit_any; exact Hw6|].
      intros. apply returns_ret; auto.
Qed.

(** The loop over a line comment ends. *)
Lemma returns_line_comment (fuel : nat) :
  forall s, (weight s < fuel)%nat ->
    returns (weight s) (line_comment fuel s) (fun _ _ => True).
Proof.
  induction fuel as [|fuel IH]; intros s Hlen; [inversion Hlen|].
  cbn [line_comment]. rget c s1 Hpv Hc Hw.
  destruct ((c =? 10) || (c =? 13) || (c =? EOF)) eqn:E;
    [apply returns_ret; auto|].
  destruct Hc as [[Hc _] | [Hc Hlt]].
  - subst c. rewrite orb_true_r in E. discriminate.
  - apply returns_mono with (n := weight s1); [lia|]. apply IH. lia.
Qed.

(** The loop that reads the command ends with the pushback slot empty;
    the character it returns is counted with the input left, as [unget]
    puts it back. *)
Lemma returns_read_cmd (k : nat) :
  forall c cmd s W, preview s = 0 -> (weight s + held c <= W)%nat ->
    returns W (read_cmd k c cmd s)
            (fun r s' => preview s' = 0 /\ (weight s' + held (snd r) <= W)%nat).
Proof.
  induction k as [|k IH]; intros c cmd s W Hpv HW.
  - apply returns_ret; [lia | auto].
  - cbn [read_cmd].
    apply returns_bind
      with (Q := fun c1 s1 => preview s1 = 0 /\ (weight s1 + held c1 <= W)%nat).
    + apply returns_mono with (n := weight s); [lia|].
      eapply returns_post; [|apply returns_get].
      intros c1 s1 Hw1 [Hpv1 Hc1]. split; [exact Hpv1|].
      unfold held. destruct Hc1 as [[-> _] | [Hc1 Hlt]]; simpl; [lia|].
      assert (E : (0 <? c1) = true) by lia. rewrite E. lia.
    + intros c1 s1 [Hpv1 HW1] _.
      destruct (negb (is_alphanum c1)); [apply returns_ret; [lia | auto]|].
      apply IH; auto.
Qed.

Lemma returns_read_cmd_first (k : nat) (c : Z) (cmd : list Z) (s : state) :
  returns (weight s) (read_cmd (S k) c cmd s)
          (fun r s' => preview s' = 0 /\
                       (weight s' + held (snd r) <= weight s)%nat).
Proof.
  cbn [read_cmd].
  apply returns_bind
    with (Q := fun c2 s' => preview s' = 0 /\
                            (weight s' + held c2 <= weight s)%nat).
  - eapply returns_post; [|apply returns_get].
    intros c2 s' Hw' [Hpv' Hc2]. split; [exact Hpv'|].
    unfold held. destruct Hc2 as [[-> _] | [Hc2 Hlt2]]; simpl; [lia|].
    assert (E : (0 <? c2) = true) by lia. rewrite E. lia.
  - intros c2 s' [Hpv' HW'] _.
    destruct (negb (is_alphanum c2)); [apply returns_ret; [lia | auto]|].
    apply returns_read_cmd; auto.
Qed.

(** The loop that copies a comment ends. *)
Lemma returns_echo_comment (fuel : nat) :
  forall c s, (weight s + (if (c =? EOF)%Z then 0 else 1) < fuel)%nat ->
    returns (weight s) (echo_comment fuel c s) (fun _ _ => True).
Proof.
  induction fuel as [|fuel IH]; intros c s Hlen; [inversion Hlen|].
  cbn [echo_comment]. destruct (c =? EOF) eqn:EcE; [exact I|].
  cbv iota in Hlen.
  rewrite bind_ret.
  assert (Hrec : forall c1 s1,
             preview s1 = 0 /\
             (c1 = EOF /\ ~ 0 < preview s \/ 0 < c1 /\ (weight s1 < weight s)%nat) ->
             (weight s1 <= weight s)%nat ->
             returns (weight s) (echo_comment fuel c1 s1) (fun _ _ => True)).
  { intros c1 s1 [_ Hc1] Hw1.
    apply returns_mono with (n := weight s1); [lia|]. apply IH.
    destruct Hc1 as [[-> _] | [Hc1 Hlt]].
    - change (EOF =? EOF) with true. cbv iota. lia.
    - destruct (c1 =? EOF); lia. }
  destruct (c =? 47); [|destruct (c =? 42)];
    (eapply returns_bind; [apply returns_get|]); intros c1 s1 Hc1 Hw1.
  - destruct (c1 =? 42); [exact I|]. rewrite bind_ret. auto.
  - destruct (c1 =? 47); [apply returns_ret; auto | auto].
  - auto.
Qed.

(** The main loop ends: every turn reads a character, or follows a turn
    that did. *)
Lemma returns_process_loop (t : tables) (fuel : nat) :
  forall c left s, (weight s + (if (c =? EOF)%Z then 0 else 1) < fuel)%nat ->
    returns (weight s) (process_loop fuel t c left s) (fun _ _ => True).
Proof.
  induction fuel as [|fuel IH]; intros c left s Hlen; [inversion Hlen|].
  cbn [process_loop]. destruct (c =? EOF) eqn:EcE; [apply returns_ret; auto|].
  cbv iota in Hlen.
  assert (Htail : forall left' s1, (weight s1 <= weight s)%nat ->
             returns (weight s1)
               (bind (get false) (fun c' => process_loop fuel t c' left') s1)
               (fun _ _ => True)).
  { intros left' s1 Hw1. rget c1 s2 Hpv Hc Hw2.
    apply returns_mono with (n := weight s2); [lia|]. apply IH.
    destruct Hc as [[-> _] | [Hc Hlt]].
    - change (EOF =? EOF) with true. cbv iota. lia.
    - destruct (c1 =? EOF); lia. }
  destruct (is_quote c) eqn:Eq.
  { apply returns_bind with (Q := fun _ _ => True);
      [apply returns_emit_any; lia|].
    intros _ s1 _ Hw1.
    apply returns_mono with (n := weight s1); [lia|].
    eapply returns_bind; [apply returns_string; lia|].
    intros u s2 Hstrict Hw2. cbv beta in Hstrict.
    assert (Hq := is_quote_byte c Eq). destruct Hq as [Hq _].
    specialize (Hstrict Hq).
    apply returns_mono with (n := weight s2); [lia|]. apply IH.
    change (0 =? EOF) with false. cbv iota. lia. }
  destruct (c =? 47).
  2:{ apply returns_bind with (Q := fun _ _ => True);
        [apply returns_emit_any; lia|].
      intros _ s1 _ Hw1.
      apply returns_mono with (n := weight s1); [lia|]. apply Htail. lia. }
  eapply returns_bind; [apply (returns_peek_is 47); lia|].
  intros slash s1 _ Hw1. destruct slash.
  { (* a line comment *)
    apply returns_bind with (Q := fun _ _ => True);
      [apply returns_emit_any; lia|].
    intros _ s2 _ Hw2.
    apply returns_bind with (Q := fun _ _ => True).
    - apply returns_mono with (n := weight s2); [lia|].
      apply returns_line_comment. lia.
    - intros _ s3 _ Hw3.
      apply returns_mono with (n := weight s3); [lia|]. apply Htail. lia. }
  apply returns_mono with (n := weight s1); [lia|].
  eapply returns_bind; [apply (returns_peek_is 42); lia|].
  intros star s2 Hstar Hw2. destruct star.
  2:{ (* a slash on its own *)
    apply returns_bind with (Q := fun _ _ => True);
      [apply returns_emit_any; lia|].
    intros _ s3 _ Hw3.
    apply returns_bind with (Q := fun _ _ => True).
    - destruct (pre_regexp left); [|apply returns_ret; auto].
      apply returns_mono with (n := weight s3); [lia|].
      apply returns_regexp. lia.
    - intros _ s4 _ Hw4.
      apply returns_mono with (n := weight s4); [lia|]. apply Htail. lia. }
  (* a comment *)
  specialize (Hstar eq_refl).
  apply returns_mono with (n := weight s2); [lia|].
  rget c1 s3 Hpv3 Hc1 Hw3.
  destruct Hc1 as [[_ Hc1] | [Hc1 Hlt]]; [rewrite Hstar in Hc1; lia|].
  apply returns_mono with (n := weight s3); [lia|].
  apply returns_bind
    with (Q := fun r s' => preview s' = 0 /\
                           (weight s' + held (snd r) <= weight s3)%nat).
  { change MAX_CMD_LENGTH with (S 79). apply returns_read_cmd_first. }
  intros [cmd c2] s4 [Hpv4 HW4] Hw4. cbn [snd] in HW4.
  unfold unget. unfold bind at 1. unfold modify at 1.
  set (s5 := set_preview c2 s4).
  assert (Hw5 : (weight s5 <= weight s3)%nat).
  { unfold weight, held in *. simpl. rewrite Hpv4 in HW4. simpl in HW4. lia. }
  destruct (0 <=? (if (List.length cmd =? 0)%nat then -1 else match_cmd t cmd)).
  - apply returns_bind with (Q := fun _ _ => True).
    + apply returns_mono with (n := weight s5); [lia|].
      apply returns_expand. lia.
    + intros _ s6 _ Hw6.
      apply returns_mono with (n := weight s6); [lia|]. apply Htail. lia.
  - apply returns_bind with (Q := fun _ _ => True);
      [apply returns_emits; lia|].
    intros _ s6 _ Hw6.
    apply returns_bind with (Q := fun _ _ => True);
      [apply returns_emits; lia|].
    intros _ s7 _ Hw7.
    apply returns_bind with (Q := fun _ _ => True).
    + apply returns_mono with (n := weight s7); [lia|].
      apply returns_echo_comment. destruct (c2 =? EOF); lia.
    + intros _ s8 _ Hw8.
      apply returns_mono with (n := weight s8); [lia|]. apply Htail. lia.
Qed.

(** [process] never comes to the end of its fuel: on every input, NUL
    bytes included, it returns or stops at a fatal error. *)
Theorem process_total (t : tables) (s : state) :
  returns (weight s) (process t s) (fun _ _ => True).
Proof.
  unfold process. unfold bind at 1. unfold modify at 1.
  set (s1 := set_line_nr 1 s).
  change (weight s) with (weight s1).
  rget c s2 Hpv Hc Hw.
  unfold bind, read.
  apply returns_mono with (n := weight s2); [lia|].
  apply returns_process_loop.
  unfold fuel_of, weight. rewrite Hpv. simpl. destruct (c =? EOF); lia.
Qed.

End Termination.

(** * Strings and the close-comment check *)

Section Strings.

(** The close-comment check lets a character through when no slash follows a star. *)
Lemma close_check_pass (ic : bool) (c : Z) (s : state) :
  wf s ->
  (ic = true -> c = 42 -> forall d r, pending s = d :: r -> d <> 47) ->
  exists s1,
    (if ic && (c =? 42) then peek_is 47 else ret false) s = Ok false s1 /\
    wf s1 /\ pending s1 = pending s /\ out s1 = out s /\
    line_nr s1 = line_nr s /\ cr s1 = cr s.
Proof.
  intros Hwf Hfree.
  destruct (ic && (c =? 42)) eqn:E.
  - apply andb_prop in E as [-> E]. apply Z.eqb_eq in E.
    specialize (Hfree eq_refl E).
    unfold peek_is.
    destruct (pending s) as [|d r] eqn:Hp.
    + rewrite (bind_ok _ _ _ _ _ (peek_nil s Hwf Hp)).
      exists (peeked EOF [] s). splits; auto with jsdev.
    + assert (Hb : Forall byte (d :: r)) by (rewrite <- Hp; now apply wf_pending).
      inversion Hb; subst.
      rewrite (bind_ok _ _ _ _ _ (peek_cons s d r Hwf Hp)).
      exists (peeked d r s). unfold ret.
      assert (Hd : (d =? 47) = false) by (apply Z.eqb_neq; eapply Hfree; eauto).
      rewrite Hd. splits; auto with jsdev.
  - exists s. unfold ret. splits; auto.
Qed.

(** The loop of [string] on a well-formed body followed by its quote. *)
Lemma string_loop_skips (fuel : nat) :
  forall (q : Z) (ic : bool) (was : Z) (s : state) (body rest : list Z),
    wf s ->
    is_quote q = true ->
    str_body q body = true ->
    (ic = true -> star_slash_free body = true) ->
    pending s = body ++ q :: rest ->
    (List.length body < fuel)%nat ->
    exists s',
      string_loop fuel q ic was s = Ok tt s' /\
      out s' = out s ++ body ++ [q] /\
      pending s' = rest /\ preview s' = 0 /\ wf s'.
Proof.
  induction fuel as [|fuel IH]; intros q ic was s body rest Hwf Hq Hbody Hfree Hp Hlen;
    [inversion Hlen|].
  assert (Hall : Forall byte (body ++ q :: rest))
    by (rewrite <- Hp; now apply wf_pending).
  destruct (is_quote_facts q Hq) as (Hq92 & Hq47 & Hq42 & HqE).
  cbn [string_loop].
  destruct body as [|c b]; simpl in Hp.
  - rewrite (bind_ok _ _ _ _ _ (get_cons true s q rest Hwf Hp)).
    rewrite Z.eqb_refl. eexists; split; [reflexivity|].
    inversion Hall; subst. simpl. splits; auto with jsdev.
  - rewrite (bind_ok _ _ _ _ _ (get_cons true s c _ Hwf Hp)).
    simpl in Hbody. inversion Hall as [|? ? Hc Hall']; subst.
    destruct (c =? q) eqn:Ecq; [discriminate|].
    destruct (c =? 92) eqn:Ec92.
    + (* an escaped character *)
      destruct b as [|e b']; [discriminate|].
      simpl in Hall'. inversion Hall' as [|? ? He Hall'']; subst.
      set (s1 := fetched true c (e :: b' ++ q :: rest) s).
      assert (Hwf1 : wf s1) by (apply wf_fetched; assumption).
      rewrite (bind_ok _ _ _ _ _ (get_cons true s1 e (b' ++ q :: rest) Hwf1 eq_refl)).
      set (s2 := fetched true e (b' ++ q :: rest) s1).
      assert (Hwf2 : wf s2) by (apply wf_fetched; assumption).
      destruct (close_check_pass ic e s2 Hwf2) as (s3 & Hs3 & Hwf3 & Hp3 & Ho3 & _).
      { intros Hic He42 d r Hd. specialize (Hfree Hic). subst e.
        simpl in Hfree, Hd. apply andb_prop in Hfree as [_ Hfree].
        destruct b' as [|d' b'']; simpl in Hd; injection Hd as <- <-.
        - apply Z.eqb_neq; assumption.
        - simpl in Hfree. apply andb_prop in Hfree as [Hfree _].
          apply negb_true_iff in Hfree. now apply Z.eqb_neq. }
      rewrite (bind_ok _ _ _ _ _ Hs3).
      assert (HeE : (e =? EOF) = false) by (unfold EOF; destruct He; lia).
      rewrite HeE.
      destruct (IH q ic was s3 b' rest Hwf3 Hq Hbody) as (s' & Hrun & Hout & Hpend & Hwf').
      { intros Hic. specialize (Hfree Hic). simpl in Hfree.
        apply andb_prop in Hfree as [_ Hfree].
        apply andb_prop in Hfree as [_ Hfree]. exact Hfree. }
      { rewrite Hp3. reflexivity. }
      { simpl in Hlen. lia. }
      exists s'. split; [exact Hrun|]. split; [|tauto].
      rewrite Hout, Ho3. simpl. apply Z.eqb_eq in Ec92. subst c.
      rewrite <- !app_assoc. reflexivity.
    + set (s1 := fetched true c (b ++ q :: rest) s).
      assert (Hwf1 : wf s1) by (apply wf_fetched; assumption).
      rewrite bind_ret.
      destruct (close_check_pass ic c s1 Hwf1) as (s3 & Hs3 & Hwf3 & Hp3 & Ho3 & _).
      { intros Hic Hc42 d r Hd. specialize (Hfree Hic). subst c.
        simpl in Hfree, Hd.
        destruct b as [|d' b'']; simpl in Hd; injection Hd as <- <-.
        - apply Z.eqb_neq; assumption.
        - apply andb_prop in Hfree as [Hfree _].
          apply negb_true_iff in Hfree. now apply Z.eqb_neq. }
      rewrite (bind_ok _ _ _ _ _ Hs3).
      assert (HcE : (c =? EOF) = false) by (unfold EOF; destruct Hc; lia).
      rewrite HcE.
      destruct (IH q ic was s3 b rest Hwf3 Hq Hbody) as (s' & Hrun & Hout & Hpend & Hwf').
      { intros Hic. specialize (Hfree Hic). simpl in Hfree.
        apply andb_prop in Hfree as [_ Hfree]. exact Hfree. }
      { rewrite Hp3. reflexivity. }
      { simpl in Hlen. lia. }
      exists s'. split; [exact Hrun|]. split; [|tauto].
      rewrite Hout, Ho3. simpl. rewrite <- !app_assoc. reflexivity.
Qed.

(** C5.  [string] consumes and echoes the body of the literal, up to and
    including the first quote that no backslash escapes, and returns: for
    every body made of plain bytes and of backslash-byte pairs (the escaped
    byte may be the quote or another backslash), followed by the quote.
    Inside a pattern comment the body must not hold a star followed by a
    slash, which is the fatal error of C10. *)
Theorem string_skips (fuel : nat) (quote : Z) (in_comment : bool) (s : state)
        (body rest : list Z) :
  wf s ->
  is_quote quote = true ->
  str_body quote body = true ->
  (in_comment = true -> star_slash_free body = true) ->
  pending s = body ++ quote :: rest ->
  (List.length body < fuel)%nat ->
  exists s',
    string fuel quote in_comment s = Ok tt s' /\
    out s' = out s ++ body ++ [quote] /\
    pending s' = rest /\ preview s' = 0 /\ wf s'.
Proof.
  intros Hwf Hq Hbody Hfree Hp Hlen. unfold string, bind, read.
  now apply string_loop_skips.
Qed.

End Strings.

(** * Comments that are not patterns *)

Section Comments.

(** The defining equation of [spec_comment] on two characters or more. *)
Lemma spec_comment_cons c d l :
  spec_comment (c :: d :: l) =
  if (c =? 47) && (d =? 42) then Nested [c; d]
  else if (c =? 42) && (d =? 47) then Closed [c; d] l
  else and_body c (spec_comment (d :: l)).
Proof. reflexivity. Qed.

Lemma ends_and_body o c r e : ends (o ++ [c]) r e -> ends o r (and_body c e).
Proof.
  destruct e; simpl; intros (s' & H); exists s';
    rewrite <- app_assoc in H; simpl in H; exact H.
Qed.

(** The invariant of the copy loop: [c] is the character read last, it is
    already written, and the loop ends as the specification says for [c]
    followed by the pending text. *)
Lemma echo_comment_from (fuel : nat) :
  forall c s o, wf s -> byte c -> out s = o ++ [c] ->
    (List.length (pending s) + 1 < fuel)%nat ->
    ends o (echo_comment fuel c s) (spec_comment (c :: pending s)).
Proof.
  induction fuel as [|fuel IH]; intros c s o Hwf Hc Ho Hlen; [inversion Hlen|].
  cbn [echo_comment].
  assert (HcE : (c =? EOF) = false) by (unfold EOF; destruct Hc; lia).
  rewrite HcE, bind_ret.
  destruct (pending s) as [|d l] eqn:Hp.
  - (* the input ends here *)
    assert (Hend : forall k : Z -> M unit,
               (forall s', k EOF s' = echo_comment fuel EOF s') ->
               ends o (bind (get true) k s) (Unterminated [c])).
    { intros k Hk. rewrite (bind_ok _ _ _ _ _ (get_nil true s Hwf Hp)), Hk.
      simpl in Hlen. destruct fuel as [|fuel']; [lia|].
      simpl. eexists. split; [reflexivity|]. exact Ho. }
    simpl spec_comment.
    destruct (c =? 47); [|destruct (c =? 42)]; apply Hend; reflexivity.
  - assert (Hb : Forall byte (d :: l)) by (rewrite <- Hp; now apply wf_pending).
    inversion Hb as [|? ? Hd Hl]; subst.
    assert (Hrec : ends o (echo_comment fuel d (fetched true d l s))
                     (and_body c (spec_comment (d :: l)))).
    { apply ends_and_body.
      apply (IH d (fetched true d l s) (o ++ [c])); auto with jsdev.
      - simpl. now rewrite Ho.
      - norm. simpl in Hlen. lia. }
    rewrite spec_comment_cons.
    destruct (c =? 47) eqn:Ec47; cbn [andb].
    + rewrite (bind_ok _ _ _ _ _ (get_cons true s d l Hwf Hp)).
      destruct (d =? 42) eqn:Ed42.
      * simpl. eexists. split; [reflexivity|].
        simpl. rewrite Ho, <- app_assoc. reflexivity.
      * rewrite bind_ret.
        assert (E : (c =? 42) = false) by (apply Z.eqb_eq in Ec47; subst c; reflexivity).
        rewrite E. cbn [andb]. exact Hrec.
    + destruct (c =? 42) eqn:Ec42; cbn [andb].
      * rewrite (bind_ok _ _ _ _ _ (get_cons true s d l Hwf Hp)).
        destruct (d =? 47) eqn:Ed47.
        -- simpl. eexists. split; [reflexivity|].
           simpl. rewrite Ho, <- app_assoc. splits; auto with jsdev.
        -- exact Hrec.
      * rewrite (bind_ok _ _ _ _ _ (get_cons true s d l Hwf Hp)). exact Hrec.
Qed.

End Comments.

(** * Line counting *)

Section Lines.

(** The last element of a non-empty list does not depend on the default. *)
Lemma last_indep (l : list Z) (a b : Z) : l <> [] -> last l a = last l b.
Proof.
  induction l as [|c l IH]; [congruence|]. intros _.
  destruct l as [|d l]; [reflexivity|].
  change (last (d :: l) a = last (d :: l) b). apply IH. discriminate.
Qed.

(** The line counter and the [cr] flag after [text] has been read. *)
Lemma gets_lines (text : list Z) :
  forall (s : state) (prev : Z) (rest : list Z),
    wf s -> cr s = (prev =? 13) -> pending s = text ++ rest ->
    exists s',
      gets (List.length text) s = Ok tt s' /\
      pending s' = rest /\ out s' = out s /\ wf s' /\
      line_nr s' = line_nr s + line_breaks prev text /\
      cr s' = (last text prev =? 13).
Proof.
  induction text as [|c text IH]; intros s prev rest Hwf Hcr Hp.
  - exists s. simpl. rewrite Z.add_0_r. splits; auto.
  - simpl in Hp. cbn [List.length gets].
    rewrite (bind_ok _ _ _ _ _ (get_cons false s c _ Hwf Hp)).
    assert (Hb : Forall byte (c :: text ++ rest))
      by (rewrite <- Hp; now apply wf_pending).
    inversion Hb as [|? ? Hc Hl]; subst.
    destruct (IH (fetched false c (text ++ rest) s) c rest) as
      (s' & Hrun & Hp' & Ho' & Hwf' & Hline & Hcr'); auto with jsdev.
    exists s'. splits; auto.
    + rewrite Hline. simpl. unfold newline. rewrite Hcr.
      destruct (c =? 13), (c =? 10), (prev =? 13); cbn [orb andb negb]; lia.
    + rewrite Hcr'. destruct text as [|d text]; [reflexivity|].
      change (last (c :: d :: text) prev) with (last (d :: text) prev).
      now rewrite (last_indep (d :: text) prev c).
Qed.

(** Line terminators are counted piecewise. *)
Lemma line_breaks_app (a b : list Z) :
  forall prev, line_breaks prev (a ++ b) =
               line_breaks prev a + line_breaks (last a prev) b.
Proof.
  induction a as [|c a IH]; intros prev; [simpl; lia|].
  cbn [app line_breaks]. rewrite IH.
  replace (last (c :: a) prev) with (last a c); [lia|].
  destruct a as [|d a]; [reflexivity|].
  change (last (c :: d :: a) prev) with (last (d :: a) prev).
  apply last_indep. discriminate.
Qed.


(** A line holds no terminator and does not end with a CR. *)
Lemma one_line_breaks (l : list Z) :
  one_line l = true ->
  forall prev, line_breaks prev l = 0 /\ (l <> [] -> (last l prev =? 13) = false).
Proof.
  induction l as [|c l IH]; intros H prev; [split; [reflexivity | congruence]|].
  simpl in H. apply andb_prop in H as [Hc Hl]. apply andb_prop in Hc as [Hc1 Hc2].
  apply negb_true_iff in Hc1, Hc2.
  destruct (IH Hl c) as [IH1 IH2]. split.
  - simpl. rewrite Hc1, Hc2, IH1. reflexivity.
  - intros _. destruct l as [|d l]; [exact Hc1|].
    change (last (c :: d :: l) prev) with (last (d :: l) prev).
    rewrite (last_indep (d :: l) prev c); [apply IH2|]; discriminate.
Qed.


(** Lines in any of the three styles hold one terminator each. *)
Lemma unlines_breaks (eol : list Z) (lines : list (list Z)) :
  In eol eol_styles ->
  forallb one_line lines = true ->
  forall prev, (eol = [10] -> (prev =? 13) = false) ->
    line_breaks prev (unlines eol lines) = Z.of_nat (List.length lines).
Proof.
  intros Heol. induction lines as [|l lines IH]; intros Hlines prev Hprev;
    [reflexivity|].
  cbn [forallb] in Hlines. apply andb_prop in Hlines as [Hl Hlines].
  change (unlines eol (l :: lines)) with ((l ++ eol) ++ unlines eol lines).
  rewrite <- app_assoc, line_breaks_app.
  destruct (one_line_breaks l Hl prev) as [-> Hlast].
  cbn [List.length]. rewrite Nat2Z.inj_succ, Z.add_0_l.
  destruct Heol as [<- | [<- | [<- | []]]]; cbn [app line_breaks].
  - rewrite (IH Hlines 10) by reflexivity.
    change (13 =? 13) with true. change (10 =? 13) with false.
    change (10 =? 10) with true. cbn [orb andb negb]. lia.
  - rewrite (IH Hlines 10) by reflexivity.
    assert (E : (last l prev =? 13) = false).
    { destruct l as [|c l]; [apply Hprev; reflexivity | apply Hlast; discriminate]. }
    rewrite E. change (10 =? 13) with false. change (10 =? 10) with true.
    cbn [orb andb negb]. lia.
  - rewrite (IH Hlines 13) by discriminate.
    change (13 =? 13) with true. cbn [orb]. lia.
Qed.

(** Reading a text advances the line counter by the number of its
    line terminators, a CR LF pair being one: every CR counts and sets the
    flag, an LF counts unless the flag is set, and every character but CR
    clears the flag.  So the same lines terminated by CR LF, by LF or by CR
    advance the counter by the same amount, the number of lines. *)
Theorem line_counting (text : list Z) (s : state) (prev : Z) (rest : list Z) :
  wf s -> cr s = (prev =? CR) -> pending s = text ++ rest ->
  exists s',
    gets (List.length text) s = Ok tt s' /\
    pending s' = rest /\
    line_nr s' = line_nr s + line_breaks prev text /\
    cr s' = (last text prev =? CR) /\
    (forall eol lines,
        In eol eol_styles -> forallb one_line lines = true ->
        cr s = false -> text = unlines eol lines ->
        line_nr s' = line_nr s + Z.of_nat (List.length lines)).
Proof.
  intros Hwf Hcr Hp.
  destruct (gets_lines text s prev rest Hwf Hcr Hp)
    as (s' & Hrun & Hp' & _ & _ & Hline & Hcr').
  exists s'. splits; auto.
  intros eol lines Heol Hlines Hfalse ->.
  rewrite Hline. f_equal. apply unlines_breaks; auto.
  intros _. now rewrite <- Hcr.
Qed.

End Lines.

(** * Pass-through *)

Section PassThrough.

Lemma echoes_weaken {A} strict s (r : result A) :
  echoes strict s r -> echoes false s r.
Proof.
  destruct r; unfold echoes; auto.
  intros (Hwf & Hp & t & H1 & H2 & _). splits; auto.
  exists t. splits; auto. discriminate.
Qed.

Lemma echoes_fetched {A} strict s c l (r : result A) :
  pending s = c :: l ->
  echoes false (fetched true c l s) r -> echoes strict s r.
Proof.
  intros Hp. destruct r; unfold echoes; auto.
  - intros (Hwf & Hpv & t & H1 & H2 & _). splits; auto.
    change (pending (fetched true c l s)) with l in H1. simpl in H2.
    exists (c :: t). rewrite Hp, H2, <- app_assoc. subst l. splits; auto. discriminate.
  - intros (t & u & H1 & H2). exists (c :: t), u.
    change (pending (fetched true c l s)) with l in H1. simpl in H2.
    rewrite Hp, H2, <- app_assoc. subst l. auto.
Qed.

(** The rule for [get(true)]: at the end of the input the continuation
    runs on the drained state, and otherwise on the state in which the
    character is read and written. *)
Lemma echoes_get {A} strict (s : state) (k : Z -> M A) :
  wf s ->
  (pending s = [] -> echoes strict (drained s) (k EOF (drained s))) ->
  (forall c l, pending s = c :: l -> byte c -> wf (fetched true c l s) ->
               echoes false (fetched true c l s) (k c (fetched true c l s))) ->
  echoes strict s (bind (get true) k s).
Proof.
  intros Hwf Hnil Hcons.
  destruct (pending s) as [|c l] eqn:Hp.
  - rewrite (bind_ok _ _ _ _ _ (get_nil true s Hwf Hp)).
    specialize (Hnil eq_refl).
    destruct (k EOF (drained s)); unfold echoes in *; auto; rewrite Hp; auto.
  - rewrite (bind_ok _ _ _ _ _ (get_cons true s c l Hwf Hp)).
    assert (Hb : Forall byte (c :: l)) by (rewrite <- Hp; now apply wf_pending).
    inversion Hb; subst.
    eapply echoes_fetched; eauto with jsdev.
Qed.

Lemma echoes_ok {A} (s : state) (a : A) : wf s -> preview s = 0 -> echoes false s (Ok a s).
Proof. intros. unfold echoes. splits; auto. exists []. splits; auto using app_nil_r. discriminate. Qed.

Lemma echoes_fatal {A} strict (s s' : state) msg :
  out s' = out s -> echoes strict s (@Fatal A msg s').
Proof. intros H. unfold echoes. exists [], (pending s). rewrite H, app_nil_r. auto. Qed.

(** Outside a comment [string] only copies, whatever the input. *)
Lemma string_loop_echo (fuel : nat) :
  forall q was s, wf s -> 0 < q ->
    (List.length (pending s) < fuel)%nat ->
    echoes true s (string_loop fuel q false was s).
Proof.
  induction fuel as [|fuel IH]; intros q was s Hwf Hq Hlen; [inversion Hlen|].
  cbn [string_loop]. apply echoes_get; auto.
  - intros Hp. assert (E : (EOF =? q) = false) by (unfold EOF; lia).
    rewrite E. simpl. apply echoes_fatal. reflexivity.
  - intros c l Hp Hc Hwf1.
    destruct (c =? q); [apply echoes_ok; auto|].
    destruct (c =? 92).
    + apply echoes_weaken with (strict := true). apply echoes_get; auto.
      * intros _. simpl. apply echoes_fatal. reflexivity.
      * intros e l' Hp' He Hwf2. simpl andb. cbv iota. rewrite bind_ret.
        assert (E : (e =? EOF) = false) by (unfold EOF; destruct He; lia).
        rewrite E. apply echoes_weaken with (strict := true). apply IH; auto.
        norm. subst l. rewrite Hp in Hlen. simpl in *. lia.
    + rewrite bind_ret. simpl andb. cbv iota. rewrite bind_ret.
      assert (E : (c =? EOF) = false) by (unfold EOF; destruct Hc; lia).
      rewrite E. apply echoes_weaken with (strict := true). apply IH; auto.
      norm. rewrite Hp in Hlen. simpl in *. lia.
Qed.

(** Copies compose. *)
Lemma echoes_trans {A} strict s s1 t (r : result A) :
  pending s = t ++ pending s1 -> out s1 = out s ++ t ->
  (strict = true -> t <> []) ->
  echoes false s1 r -> echoes strict s r.
Proof.
  intros Hp Ho Hs. destruct r; unfold echoes; auto.
  - intros (Hwf & Hpv & t' & H1 & H2 & _). splits; auto.
    exists (t ++ t'). rewrite Hp, H1, H2, Ho, <- !app_assoc. splits; auto.
    intros Hst. specialize (Hs Hst). destruct t; [congruence | discriminate].
  - intros (t' & u & H1 & H2). exists (t ++ t'), u.
    rewrite Hp, H1, H2, Ho, <- !app_assoc. auto.
Qed.

(** The rule for sequencing. *)
Lemma echoes_bind {A B} strict s (m : M A) (k : A -> M B) :
  echoes strict s (m s) ->
  (forall a s', m s = Ok a s' -> wf s' -> preview s' = 0 ->
                echoes false s' (k a s')) ->
  echoes strict s (bind m k s).
Proof.
  intros Hm Hk. unfold bind. destruct (m s) as [a s'| | |] eqn:E; auto.
  unfold echoes in Hm. destruct Hm as (Hwf & Hpv & t & H1 & H2 & H3).
  eapply echoes_trans; eauto.
Qed.

(** The loop over a bracketed set returns the closing bracket. *)
Lemma regexp_set_value (fuel : nat) :
  forall ic s c s', regexp_set fuel ic s = Ok c s' -> c = 93.
Proof.
  induction fuel as [|fuel IH]; intros ic s c s' H; [discriminate|].
  cbn [regexp_set] in H. unfold bind at 1 in H.
  destruct (get true s) as [c1 s1| | |]; try discriminate.
  destruct (c1 =? 93) eqn:E93.
  - injection H as <- <-. now apply Z.eqb_eq.
  - unfold bind at 1 in H.
    destruct ((if c1 =? 92 then get true else ret c1) s1) as [c2 s2| | |];
      try discriminate.
    unfold bind at 1 in H.
    destruct ((if ic && (c2 =? 42) then peek_is 47 else ret false) s2)
      as [b s3| | |]; try discriminate.
    destruct b; [discriminate|].
    destruct (c2 =? EOF); [discriminate|]. eauto.
Qed.

(** Outside a comment the loop over a bracketed set only copies. *)
Lemma regexp_set_echo (fuel : nat) :
  forall s, wf s ->
    (List.length (pending s) < fuel)%nat ->
    echoes true s (regexp_set fuel false s).
Proof.
  induction fuel as [|fuel IH]; intros s Hwf Hlen; [inversion Hlen|].
  cbn [regexp_set]. apply echoes_get; auto.
  - intros Hp. simpl. apply echoes_fatal. reflexivity.
  - intros c l Hp Hc Hwf1.
    destruct (c =? 93); [apply echoes_ok; auto|].
    destruct (c =? 92).
    + apply echoes_weaken with (strict := true). apply echoes_get; auto.
      * intros _. simpl. apply echoes_fatal. reflexivity.
      * intros e l' Hp' He Hwf2. simpl andb. cbv iota. rewrite bind_ret.
        assert (E : (e =? EOF) = false) by (unfold EOF; destruct He; lia).
        rewrite E. apply echoes_weaken with (strict := true). apply IH; auto.
        norm. subst l. rewrite Hp in Hlen. simpl in *. lia.
    + rewrite bind_ret. simpl andb. cbv iota. rewrite bind_ret.
      assert (E : (c =? EOF) = false) by (unfold EOF; destruct Hc; lia).
      rewrite E. apply echoes_weaken with (strict := true). apply IH; auto.
      norm. rewrite Hp in Hlen. simpl in *. lia.
Qed.

Lemma echoes_length {A} strict s (r : result A) a s' :
  echoes strict s r -> r = Ok a s' ->
  (List.length (pending s') <= List.length (pending s))%nat.
Proof.
  intros H ->. unfold echoes in H. destruct H as (_ & _ & t & H1 & _).
  rewrite H1, length_app. lia.
Qed.

(** Outside a comment [regexp] only copies. *)
Lemma regexp_loop_echo (fuel : nat) :
  forall was s, wf s ->
    (List.length (pending s) < fuel)%nat ->
    echoes true s (regexp_loop fuel false was s).
Proof.
  induction fuel as [|fuel IH]; intros was s Hwf Hlen; [inversion Hlen|].
  cbn [regexp_loop]. apply echoes_get; auto.
  - intros Hp. simpl. apply echoes_fatal. reflexivity.
  - intros c l Hp Hc Hwf1.
    assert (Hl : (List.length l < fuel)%nat)
      by (rewrite Hp in Hlen; simpl in Hlen; lia).
    destruct (c =? 91).
    + apply echoes_bind.
      * apply echoes_bind.
        -- apply echoes_weaken with (strict := true).
           apply regexp_set_echo; auto; norm; lia.
        -- intros a s' Hs' Hwf' Hpv'. apply echoes_ok; auto.
      * intros r s2 Hr Hwf2 Hpv2.
        unfold bind in Hr.
        destruct (regexp_set (S fuel) false (fetched true c l s))
          as [c2 s3| | |] eqn:Eset; try discriminate.
        injection Hr as <- <-.
        assert (Hle := echoes_length true _ _ _ _
                         (regexp_set_echo (S fuel) _ Hwf1 ltac:(norm; lia)) Eset).
        apply regexp_set_value in Eset. subst c2.
        simpl andb. cbv iota. rewrite bind_ret.
        change (93 =? EOF) with false. cbv iota.
        apply echoes_weaken with (strict := true). apply IH; auto.
        norm. lia.
    + destruct (c =? 47).
      * mstep. apply echoes_ok; auto.
      * destruct (c =? 92).
        -- apply echoes_weaken with (strict := true).
           rewrite bind_assoc.
           apply echoes_get; auto.
           ++ intros _. simpl. apply echoes_fatal. reflexivity.
           ++ intros e l' Hp' He Hwf2. rewrite bind_ret.
              simpl andb. cbv iota. rewrite bind_ret.
              assert (E : (e =? EOF) = false) by (unfold EOF; destruct He; lia).
              rewrite E. apply echoes_weaken with (strict := true). apply IH; auto.
              norm. subst l. simpl in *. lia.
        -- rewrite bind_ret. simpl andb. cbv iota. rewrite bind_ret.
           assert (E : (c =? EOF) = false) by (unfold EOF; destruct Hc; lia).
           rewrite E. apply echoes_weaken with (strict := true). apply IH; auto.
Qed.

(** The loop over a line comment only copies. *)
Lemma line_comment_echo (fuel : nat) :
  forall s, wf s ->
    (List.length (pending s) < fuel)%nat ->
    echoes false s (line_comment fuel s).
Proof.
  induction fuel as [|fuel IH]; intros s Hwf Hlen; [inversion Hlen|].
  cbn [line_comment]. apply echoes_get; auto.
  - intros Hp. simpl. apply echoes_ok; auto with jsdev.
  - intros c l Hp Hc Hwf1.
    destruct ((c =? 10) || (c =? 13) || (c =? EOF)); [apply echoes_ok; auto|].
    apply IH; auto. norm. rewrite Hp in Hlen. simpl in Hlen. lia.
Qed.

(** The loop over a comment that is not a pattern only copies. *)
Lemma echo_comment_echo (fuel : nat) :
  forall c s, wf s ->
    (List.length (pending s) + (if (c =? EOF)%Z then 0 else 1) < fuel)%nat ->
    echoes false s (echo_comment fuel c s).
Proof.
  induction fuel as [|fuel IH]; intros c s Hwf Hlen; [inversion Hlen|].
  cbn [echo_comment].
  destruct (c =? EOF) eqn:EcE.
  { simpl. apply echoes_fatal. reflexivity. }
  rewrite bind_ret.
  assert (Hnil : forall k : Z -> M unit,
             (forall s', k EOF s' = echo_comment fuel EOF s') ->
             pending s = [] -> echoes false (drained s) (k EOF (drained s))).
  { intros k Hk Hp. rewrite Hk. rewrite Hp in Hlen. simpl in Hlen.
    destruct fuel as [|fuel']; [lia|]. simpl. apply echoes_fatal. reflexivity. }
  assert (Hrec : forall d l, pending s = d :: l -> wf (fetched true d l s) ->
             echoes false (fetched true d l s)
               (echo_comment fuel d (fetched true d l s))).
  { intros d l Hp Hwf1. apply IH; auto. norm. rewrite Hp in Hlen. simpl in Hlen.
    destruct (d =? EOF); lia. }
  destruct (c =? 47); [|destruct (c =? 42)];
    (apply echoes_get; [exact Hwf | apply Hnil; reflexivity |]);
    intros d l Hp Hd Hwf1.
  - destruct (d =? 42).
    + simpl. apply echoes_fatal. reflexivity.
    + rewrite bind_ret. auto.
  - destruct (d =? 47); [apply echoes_ok; auto | auto].
  - auto.
Qed.

(** [no_trigger] passes to the rest of the text. *)
Lemma no_trigger_app t u v : no_trigger t (u ++ v) = true -> no_trigger t v = true.
Proof.
  induction u as [|c u IH]; simpl; auto.
  intros H. apply andb_prop in H as [_ H]. auto.
Qed.

(** Reading the command and pushing back the character that ended it:
    the identifier is consumed and nothing else, provided it ends before
    [k] characters. *)
Lemma read_cmd_unget (k : nat) :
  forall c0 cmd s, wf s -> preview s = 0 ->
    (List.length (ident k (pending s)) < k)%nat ->
    exists c s',
      read_cmd k c0 cmd s = Ok (cmd ++ ident k (pending s), c) s' /\
      wf (set_preview c s') /\
      pending s = ident k (pending s) ++ pending (set_preview c s') /\
      out s' = out s /\
      (if c =? EOF then pending (set_preview c s') = []
       else exists l, pending (set_preview c s') = c :: l).
Proof.
  induction k as [|k IH]; intros c0 cmd s Hwf Hpv Hlen; [inversion Hlen|].
  cbn [read_cmd]. destruct (pending s) as [|c l] eqn:Hp.
  - rewrite (bind_ok _ _ _ _ _ (get_nil false s Hwf Hp)).
    change (is_alphanum EOF) with false. simpl negb. cbv iota.
    exists EOF, (drained s). simpl ident. rewrite app_nil_r.
    splits; try reflexivity.
    split; [constructor | right; right; split; reflexivity].
  - rewrite (bind_ok _ _ _ _ _ (get_cons false s c l Hwf Hp)).
    assert (Hb : Forall byte (c :: l)) by (rewrite <- Hp; now apply wf_pending).
    inversion Hb as [|? ? Hc Hl]; subst.
    simpl ident. simpl ident in Hlen.
    destruct (is_alphanum c) eqn:Ea; simpl negb; cbv iota.
    + simpl in Hlen.
      destruct (IH c (cmd ++ [c]) (fetched false c l s)) as (c' & s' & Hrun & Hwf' & Hpend & Hout & Hc');
        auto with jsdev; [norm; lia|].
      norm. exists c', s'. unfold negb. rewrite Hrun, <- app_assoc. simpl.
      splits; auto. now rewrite <- Hpend.
    + exists c, (fetched false c l s). unfold negb. rewrite app_nil_r.
      assert (HcE : (c =? EOF) = false) by (unfold EOF; destruct Hc; lia).
      rewrite HcE. unfold pending, set_preview; simpl. rewrite (byte_pos c Hc).
      splits; eauto. split; simpl; auto.
Qed.

(** What has been copied so far may be put in front. *)
Lemma passes_trans {A} s c s1 u (r : result A) :
  cur c ++ pending s = u ++ pending s1 -> out s1 = out s ++ u ->
  passes s1 0 r -> passes s c r.
Proof.
  intros Hp Ho. destruct r; unfold passes; simpl; auto.
  - intros ->. rewrite Ho, Hp, <- app_assoc. reflexivity.
  - intros (u' & v & H1 & H2). exists (u ++ u'), v.
    rewrite Hp, H1, H2, Ho, <- !app_assoc. auto.
Qed.

Lemma passes_drained {A} s (r : result A) :
  pending s = [] -> passes (drained s) EOF r -> passes s 0 r.
Proof.
  intros Hp. destruct r; unfold passes; simpl; auto; rewrite Hp; auto.
Qed.

Lemma passes_fetched {A} s d l (r : result A) :
  pending s = d :: l -> byte d ->
  passes (fetched false d l s) d r -> passes s 0 r.
Proof.
  intros Hp Hd. destruct r; unfold passes, cur; norm; simpl;
    rewrite ?Hp, ?(byte_pos d Hd); auto.
Qed.

(** A call that only copies, followed by a run that passes. *)
Lemma passes_echoes_bind {A B} strict s (m : M A) (k : A -> M B) :
  echoes strict s (m s) ->
  (forall a s' u, m s = Ok a s' -> wf s' -> preview s' = 0 ->
      pending s = u ++ pending s' -> (strict = true -> u <> []) ->
      passes s' 0 (k a s')) ->
  passes s 0 (bind m k s).
Proof.
  intros Hm Hk. unfold bind. destruct (m s) as [a s'|msg s'| |] eqn:E; unfold echoes in Hm.
  - destruct Hm as (Hwf & Hpv & u & H1 & H2 & H3).
    eapply passes_trans; eauto.
  - destruct Hm as (u & v & H1 & H2). unfold passes. simpl. eauto.
  - contradiction.
  - contradiction.
Qed.

(** After a slash-star that starts no pattern the index [i] of the main
    loop is negative. *)
Lemma not_a_pattern_index t r :
  not_a_pattern t r = true ->
  (List.length (ident MAX_CMD_LENGTH r) < MAX_CMD_LENGTH)%nat /\
  (0 <=? (if (List.length (ident MAX_CMD_LENGTH r) =? 0)%nat then -1
          else match_cmd t (ident MAX_CMD_LENGTH r))) = false.
Proof.
  unfold not_a_pattern. intros H. apply andb_prop in H as [H1 H2].
  apply Nat.ltb_lt in H1. split; [exact H1|].
  destruct (List.length (ident MAX_CMD_LENGTH r) =? 0)%nat; [reflexivity|].
  simpl in H2. apply Z.ltb_lt in H2. apply Z.leb_gt. exact H2.
Qed.

Lemma length_app_le {X} (u v w : list X) :
  w = u ++ v -> (List.length v <= List.length w)%nat.
Proof. intros ->. rewrite length_app. lia. Qed.

(** The main loop copies, as long as no comment starts a pattern. *)
Lemma process_loop_pass (t : tables) (fuel : nat) :
  forall c left s, wf s ->
    (c = EOF /\ pending s = [] \/ c = 0 \/ byte c) ->
    no_trigger t (cur c ++ pending s) = true ->
    (List.length (pending s) + (if (c =? EOF)%Z then 0 else 1) < fuel)%nat ->
    passes s c (process_loop fuel t c left s).
Proof.
  induction fuel as [|fuel IH]; intros c left s Hwf Hc Hnt Hlen; [inversion Hlen|].
  cbn [process_loop].
  destruct (c =? EOF) eqn:EcE.
  { apply Z.eqb_eq in EcE.
    destruct Hc as [[_ Hp] | [Hc | Hc]];
      [| subst; discriminate | unfold EOF, byte in *; lia].
    unfold passes, ret. subst c. rewrite Hp. simpl. now rewrite app_nil_r. }
  assert (Hlen' : (List.length (pending s) < fuel)%nat) by lia. clear Hlen.
  assert (Htail : forall left' s1, wf s1 ->
             no_trigger t (pending s1) = true ->
             (List.length (pending s1) < fuel)%nat ->
             passes s1 0 (bind (get false)
                            (fun c' => process_loop fuel t c' left') s1)).
  { intros left' s1 Hwf1 Hnt1 Hlen1. destruct (pending s1) as [|d l] eqn:Hp1.
    - rewrite (bind_ok _ _ _ _ _ (get_nil false s1 Hwf1 Hp1)).
      apply passes_drained; [exact Hp1|].
      apply IH; auto with jsdev; simpl; lia.
    - rewrite (bind_ok _ _ _ _ _ (get_cons false s1 d l Hwf1 Hp1)).
      assert (Hb : Forall byte (d :: l)) by (rewrite <- Hp1; now apply wf_pending).
      inversion Hb as [|? ? Hd Hl]; subst.
      assert (HdE : (d =? EOF) = false) by (unfold EOF; destruct Hd; lia).
      apply passes_fetched with (d := d) (l := l); auto.
      apply IH; auto with jsdev.
      + norm. unfold cur. rewrite (byte_pos d Hd). exact Hnt1.
      + norm. rewrite HdE. simpl in Hlen1. lia. }
  destruct (is_quote c) eqn:Eq.
  { (* a string literal *)
    assert (Hcb := is_quote_byte c Eq).
    unfold cur in Hnt |- *. 
    rewrite (bind_ok _ _ _ _ _ (emit_byte c s Hcb)).
    set (se := set_out (out s ++ [c]) s).
    apply passes_trans with (s1 := se) (u := cur c);
      [unfold cur; reflexivity | unfold cur; rewrite (byte_pos c Hcb); reflexivity |].
    apply passes_echoes_bind with (strict := true).
    - unfold string, bind at 1, read.
      apply string_loop_echo; auto with jsdev;
        try change (pending se) with (pending s); destruct Hcb; lia.
    - intros a s' u Hrun Hwf' Hpv' Hu Hne.
      apply IH; auto.
      + simpl. apply no_trigger_app with (u := cur c ++ u).
        rewrite <- app_assoc. change (pending se) with (pending s) in Hu.
        rewrite <- Hu. exact Hnt.
      + simpl. change (pending se) with (pending s) in Hu.
        assert (List.length u <> 0)%nat by (destruct u; [now elim Hne | discriminate]).
        rewrite Hu, length_app in Hlen'. lia. }
  destruct (c =? 47) eqn:Ec47.
  2:{ (* an ordinary character, or the 0 left after a string *)
    assert (Hemit : exists se, emit c s = Ok c se /\ wf se /\
                      pending se = pending s /\ out se = out s ++ cur c).
    { destruct Hc as [[Hc _] | [Hc | Hc]].
      - subst c. discriminate.
      - subst c. exists s. unfold emit, cur. simpl. rewrite app_nil_r. auto.
      - rewrite (emit_byte c s Hc). eexists. splits; eauto with jsdev.
        unfold cur. rewrite (byte_pos c Hc). reflexivity. }
    destruct Hemit as (se & Hem & Hwfe & Hpe & Hoe).
    rewrite (bind_ok _ _ _ _ _ Hem).
    apply passes_trans with (s1 := se) (u := cur c); auto.
    { now rewrite Hpe. }
    apply Htail; auto.
    - rewrite Hpe. eapply no_trigger_app; eauto.
    - rewrite Hpe. exact Hlen'. }
  (* a slash *)
  apply Z.eqb_eq in Ec47. subst c. change (cur 47) with [47] in *. simpl in Hnt.
  destruct (peek_is_spec 47 s Hwf ltac:(lia)) as (s1 & Hpk1 & Hwf1 & Hp1 & Ho1).
  rewrite (bind_ok _ _ _ _ _ Hpk1).
  destruct (peek_is_spec 42 s1 Hwf1 ltac:(lia)) as (s2 & Hpk2 & Hwf2 & Hp2 & Ho2).
  rewrite Hp1 in Hpk2.
  assert (Hnt0 : no_trigger t (pending s) = true)
    by (apply andb_prop in Hnt as [_ Hnt]; exact Hnt).
  assert (Hbare :
    passes s 47
      ((emit 47;;
        (if pre_regexp left then regexp (S fuel) false else ret tt);;
        c0 <- get false;; process_loop fuel t c0 47) s2)).
  { rewrite (bind_ok _ _ _ _ _ (emit_byte 47 s2 ltac:(unfold byte; lia))).
    set (se := set_out (out s2 ++ [47]) s2).
    apply passes_trans with (s1 := se) (u := [47]).
    { unfold cur. simpl. change (pending se) with (pending s2). now rewrite Hp2, Hp1. }
    { simpl. now rewrite Ho2, Ho1. }
    assert (Hpse : pending se = pending s)
      by (change (pending se) with (pending s2); now rewrite Hp2, Hp1).
    destruct (pre_regexp left).
    - apply passes_echoes_bind with (strict := true).
      + unfold regexp, bind at 1, read. apply regexp_loop_echo; auto with jsdev.
        rewrite Hpse. lia.
      + intros a s' u Hrun Hwf' Hpv' Hu Hne. apply Htail; auto.
        * apply no_trigger_app with (u := u). rewrite <- Hu, Hpse. exact Hnt0.
        * rewrite Hpse in Hu. apply length_app_le in Hu. lia.
    - rewrite bind_ret. apply Htail; auto with jsdev; rewrite Hpse; auto. }
  destruct (pending s) as [|d r] eqn:Hp.
  { rewrite (bind_ok _ _ _ _ _ Hpk2). exact Hbare. }
  assert (Hb : Forall byte (d :: r)) by (rewrite <- Hp; now apply wf_pending).
  inversion Hb as [|? ? Hd Hr]; subst.
  destruct (d =? 47) eqn:Ed47.
  { (* a line comment *)
    apply Z.eqb_eq in Ed47. subst d.
    rewrite (bind_ok _ _ _ _ _ (emit_byte 47 s1 ltac:(unfold byte; lia))).
    set (se := set_out (out s1 ++ [47]) s1).
    assert (Hpse : pending se = 47 :: r)
      by (change (pending se) with (pending s1); exact Hp1).
    apply passes_trans with (s1 := se) (u := [47]).
    { unfold cur. simpl. now rewrite Hpse, Hp. }
    { simpl. now rewrite Ho1. }
    apply passes_echoes_bind with (strict := false).
    - apply line_comment_echo; auto with jsdev. rewrite Hpse. simpl in *. lia.
    - intros a s' u Hrun Hwf' Hpv' Hu Hne. apply Htail; auto.
      + apply no_trigger_app with (u := u). rewrite <- Hu, Hpse. exact Hnt0.
      + rewrite Hpse in Hu. apply length_app_le in Hu. simpl in *. lia. }
  rewrite (bind_ok _ _ _ _ _ Hpk2).
  destruct (d =? 42) eqn:Ed42; [|exact Hbare].
  (* a comment that is not a pattern *)
  apply Z.eqb_eq in Ed42. subst d. clear Hbare.
  simpl in Hnt. apply andb_prop in Hnt as [Hnap _].
  apply not_a_pattern_index in Hnap as [Hidlen Hidx].
  assert (Hp2' : pending s2 = 42 :: r) by (now rewrite Hp2, Hp1).
  rewrite (bind_ok _ _ _ _ _ (get_cons false s2 42 r Hwf2 Hp2')).
  set (s3 := fetched false 42 r s2).
  destruct (read_cmd_unget MAX_CMD_LENGTH 47 [] s3
              (wf_fetched false 42 r s2 Hr) eq_refl Hidlen)
    as (c' & s4 & Hrun & Hwf4 & Hp4 & Ho4 & Hc').
  change (pending s3) with r in *.
  rewrite (bind_ok _ _ _ _ _ Hrun). rewrite app_nil_l.
  unfold unget. unfold modify at 1. unfold bind at 1.
  rewrite Hidx.
  unfold emits at 1. unfold bind at 1. unfold emits at 1. unfold bind at 1.
  set (cmd := ident MAX_CMD_LENGTH r) in *.
  set (se := set_out _ _).
  assert (Hpse : pending se = pending (set_preview c' s4)) by reflexivity.
  assert (Hose : out se = out s ++ [47; 42] ++ cmd).
  { unfold se. simpl. rewrite Ho4. simpl. rewrite Ho2, Ho1, <- app_assoc. reflexivity. }
  apply passes_trans with (s1 := se) (u := [47; 42] ++ cmd).
  { rewrite Hpse, Hp. simpl. do 2 f_equal. exact Hp4. }
  { exact Hose. }
  assert (Hle : (List.length (pending se) <= List.length r)%nat).
  { rewrite Hpse. apply length_app_le in Hp4. exact Hp4. }
  apply passes_echoes_bind with (strict := false).
  - apply echo_comment_echo; [exact Hwf4|].
    simpl in Hlen'. destruct (c' =? EOF); lia.
  - intros a s' u Hrun' Hwf' Hpv' Hu Hne. apply Htail; auto.
    + apply no_trigger_app with (u := 42 :: cmd ++ u). simpl.
      rewrite <- app_assoc, <- Hu, Hpse, <- Hp4. exact Hnt0.
    + apply length_app_le in Hu. simpl in Hlen'. lia.
Qed.

(** C2, as amended.  On NUL-free input in which no slash-star is followed
    by a trigger of the table, nor by 80 or more identifier characters,
    [process] writes the input byte for byte when it returns, and a prefix
    of it when it stops at a fatal error. *)
Theorem pass_through (t : tables) (s : state) :
  wf s ->
  no_trigger t (pending s) = true ->
  match process t s with
  | Ok _ s' => out s' = out s ++ pending s
  | Fatal _ s' => exists u v, pending s = u ++ v /\ out s' = out s ++ u
  | _ => False
  end.
Proof.
  intros Hwf Hnt. change (passes s 0 (process t s)).
  unfold process. unfold bind at 1. unfold modify at 1.
  set (s1 := set_line_nr 1 s).
  assert (Hwf1 : wf s1) by exact Hwf.
  apply passes_trans with (s1 := s1) (u := []);
    [reflexivity | simpl; now rewrite app_nil_r |].
  change (pending s) with (pending s1) in Hnt.
  destruct (pending s1) as [|d l] eqn:Hp1.
  - rewrite (bind_ok _ _ _ _ _ (get_nil false s1 Hwf1 Hp1)).
    unfold bind, read. apply passes_drained; [exact Hp1|].
    apply process_loop_pass; auto with jsdev. unfold fuel_of. simpl. lia.
  - rewrite (bind_ok _ _ _ _ _ (get_cons false s1 d l Hwf1 Hp1)).
    assert (Hb : Forall byte (d :: l)) by (rewrite <- Hp1; now apply wf_pending).
    inversion Hb as [|? ? Hd Hl]; subst.
    assert (HdE : (d =? EOF) = false) by (unfold EOF; destruct Hd; lia).
    unfold bind, read. apply passes_fetched with (d := d) (l := l); auto.
    apply process_loop_pass; auto with jsdev.
    + norm. unfold cur. rewrite (byte_pos d Hd). exact Hnt.
    + norm. rewrite HdE. unfold fuel_of. simpl. lia.
Qed.

End PassThrough.

(** * The main loop on ordinary text *)

Section MainLoop.

Lemma plain_byte c : plain c = true -> byte c.
Proof. unfold plain, byte. lia. Qed.

Lemma plain_ordinary c :
  plain c = true ->
  (c =? EOF) = false /\ is_quote c = false /\ (c =? 47) = false.
Proof.
  unfold plain, ordinary. intros H.
  apply andb_prop in H as [H _]. apply andb_prop in H as [H _].
  apply andb_prop in H as [H H47]. apply andb_prop in H as [HE Hq].
  apply negb_true_iff in H47, HE, Hq. auto.
Qed.

(** One turn of the main loop on an ordinary character. *)
Lemma process_loop_step (fuel : nat) (t : tables) (c left d : Z) (r : list Z)
      (s : state) :
  wf s -> plain c = true -> pending s = d :: r ->
  process_loop (S fuel) t c left s =
  process_loop fuel t d (if 32 <? c then c else left)
               (fetched false d r (set_out (out s ++ [c]) s)).
Proof.
  intros Hwf Hc Hp. destruct (plain_ordinary c Hc) as (HE & Hq & H47).
  cbn [process_loop]. rewrite HE, Hq, H47.
  rewrite (bind_ok _ _ _ _ _ (emit_byte c s (plain_byte c Hc))).
  rewrite (bind_ok _ _ _ _ _ (get_cons false (set_out (out s ++ [c]) s) d r
                                (wf_set_out _ s Hwf) Hp)).
  reflexivity.
Qed.

(** The turns of the main loop over a run of ordinary characters. *)
Lemma process_loop_plain (t : tables) (text : list Z) :
  forall (fuel : nat) (c left : Z) (rest : list Z) (s : state),
    wf s -> plain c = true -> forallb plain text = true ->
    pending s = text ++ rest ->
    process_loop (List.length text + fuel) t c left s =
    process_loop fuel t (last text c)
                 (significant left (removelast (c :: text)))
                 (scanned c text rest s).
Proof.
  induction text as [|d text IH]; intros fuel c left rest s Hwf Hc Htext Hp.
  - reflexivity.
  - cbn [forallb] in Htext. apply andb_prop in Htext as [Hd Htext].
    simpl in Hp.
    assert (Hb : Forall byte (d :: text ++ rest))
      by (rewrite <- Hp; now apply wf_pending).
    inversion Hb as [|? ? _ Hl]; subst.
    change (List.length (d :: text) + fuel)%nat
      with (S (List.length text + fuel)).
    rewrite (process_loop_step _ t c left d (text ++ rest) s Hwf Hc Hp).
    rewrite (IH fuel d (if 32 <? c then c else left) rest
               (fetched false d (text ++ rest) (set_out (out s ++ [c]) s))
               (wf_fetched _ _ _ _ Hl) Hd Htext eq_refl).
    f_equal.
    destruct text as [|e text]; [reflexivity|].
    change (last (d :: e :: text) c) with (last (e :: text) c).
    apply last_indep. discriminate.
Qed.

(** The state after those turns. *)
Lemma scanned_facts (text : list Z) :
  forall (c prev : Z) (rest : list Z) (s : state),
    wf s -> pending s = text ++ rest -> cr s = (prev =? 13) ->
    let s' := scanned c text rest s in
    wf s' /\ pending s' = rest /\
    out s' = out s ++ removelast (c :: text) /\
    line_nr s' = line_nr s + line_breaks prev text /\
    cr s' = (last text prev =? 13).
Proof.
  induction text as [|d text IH]; intros c prev rest s Hwf Hp Hcr; cbn zeta.
  - simpl. rewrite app_nil_r, Z.add_0_r. auto.
  - simpl in Hp.
    assert (Hb : Forall byte (d :: text ++ rest))
      by (rewrite <- Hp; now apply wf_pending).
    inversion Hb as [|? ? _ Hl]; subst.
    cbn [scanned].
    set (s1 := fetched false d (text ++ rest) (set_out (out s ++ [c]) s)).
    destruct (IH d d rest s1) as (H1 & H2 & H3 & H4 & H5);
      [apply wf_fetched; exact Hl | reflexivity | reflexivity |].
    splits; auto.
    + rewrite H3. simpl out. rewrite <- app_assoc. reflexivity.
    + rewrite H4. simpl line_nr. unfold newline. rewrite Hcr.
      cbn [line_breaks].
      destruct (d =? 13), (d =? 10), (prev =? 13); cbn [orb andb negb]; lia.
    + rewrite H5. destruct text as [|e text]; [reflexivity|].
      change (last (d :: e :: text) prev) with (last (e :: text) prev).
      now rewrite (last_indep (e :: text) prev d).
Qed.

(** A quote met when nothing follows: the string is unterminated, and the
    line reported is the line of the quote. *)
Lemma process_loop_open_string (fuel : nat) (t : tables) (q left : Z) (s : state) :
  wf s -> is_quote q = true -> pending s = [] ->
  process_loop (S fuel) t q left s =
  Fatal "unterminated string literal."
        (set_line_nr (line_nr s) (drained (set_out (out s ++ [q]) s))).
Proof.
  intros Hwf Hq Hp. destruct (is_quote_facts q Hq) as (H92 & _ & _ & HE).
  cbn [process_loop]. rewrite HE, Hq.
  rewrite (bind_ok _ _ _ _ _ (emit_byte q s (is_quote_byte q Hq))).
  unfold string. unfold bind at 1. unfold bind at 1. unfold read at 1.
  cbn [string_loop].
  rewrite (bind_ok _ _ _ _ _ (get_nil true (set_out (out s ++ [q]) s)
                                (wf_set_out _ s Hwf) Hp)).
  assert (E : (EOF =? q) = false) by (rewrite Z.eqb_sym; exact HE).
  rewrite E. reflexivity.
Qed.

Lemma last_In (l : list Z) (d : Z) : l <> [] -> In (last l d) l.
Proof.
  induction l as [|c l IH]; [congruence|]. intros _.
  destruct l as [|e l]; [left; reflexivity|].
  right. apply IH. discriminate.
Qed.

Lemma removelast_last_cons (text : list Z) :
  forall c, removelast (c :: text) ++ [last text c] = c :: text.
Proof.
  induction text as [|d text IH]; intros c; [reflexivity|].
  change (removelast (c :: d :: text)) with (c :: removelast (d :: text)).
  change (last (d :: text) c) with
    (match text with [] => d | _ :: _ => last text c end).
  simpl app. f_equal. rewrite <- (IH d). f_equal.
  destruct text as [|e text]; [reflexivity|].
  f_equal. apply last_indep. discriminate.
Qed.

(** Lines of ordinary characters, with their terminators, are ordinary
    text. *)
Lemma plain_unlines (eol : list Z) (lines : list (list Z)) :
  In eol eol_styles ->
  forallb (forallb plain) lines = true ->
  forallb plain (unlines eol lines) = true.
Proof.
  intros Heol. induction lines as [|l lines IH]; intros H; [reflexivity|].
  cbn [forallb] in H. apply andb_prop in H as [Hl H].
  change (unlines eol (l :: lines)) with ((l ++ eol) ++ unlines eol lines).
  rewrite !forallb_app, Hl, (IH H).
  destruct Heol as [<- | [<- | [<- | []]]]; reflexivity.
Qed.

(** X21.  The same lines of ordinary text in the three styles, CR LF, LF
    and CR, with a string left open on the line after them: the scan
    stops at the unterminated string with the same line number, one more
    than the number of lines, and has written the whole input. *)
Corollary diagnostic_line_styles (t : tables) (eol : list Z) (lines : list (list Z)) :
  In eol eol_styles ->
  forallb (forallb plain) lines = true ->
  forallb one_line lines = true ->
  exists s,
    process t (initial (unlines eol lines ++ [34])) =
      Fatal "unterminated string literal." s /\
    line_nr s = 1 + Z.of_nat (List.length lines) /\
    out s = unlines eol lines ++ [34].
Proof.
  intros Heol Hplain Hone.
  assert (Hcount := unlines_breaks eol lines Heol Hone 0 (fun _ => eq_refl)).
  assert (Hall := plain_unlines eol lines Heol Hplain).
  set (full := unlines eol lines) in *.
  assert (Hbytes : Forall byte (full ++ [34])).
  { apply Forall_app. split.
    - apply Forall_forall. intros x Hx. apply plain_byte.
      rewrite forallb_forall in Hall. auto.
    - repeat constructor; unfold byte; lia. }
  unfold process. unfold bind at 1. unfold modify at 1.
  set (s1 := set_line_nr 1 (initial (full ++ [34]))).
  assert (Hwf1 : wf s1) by (apply wf_set_line_nr, wf_initial; exact Hbytes).
  destruct full as [|c0 text] eqn:Hfull.
  - rewrite (bind_ok _ _ _ _ _ (get_cons false s1 34 [] Hwf1 eq_refl)).
    unfold bind, read. unfold fuel_of. simpl Nat.add.
    rewrite process_loop_open_string; auto with jsdev.
    eexists. split; [reflexivity|]. simpl. rewrite <- Hcount. auto.
  - cbn [forallb] in Hall. apply andb_prop in Hall as [Hc0 Htext].
    simpl app in *. inversion Hbytes as [|? ? _ Hl]; subst.
    rewrite (bind_ok _ _ _ _ _ (get_cons false s1 c0 (text ++ [34]) Hwf1 eq_refl)).
    set (s2 := fetched false c0 (text ++ [34]) s1).
    assert (Hwf2 : wf s2) by (apply wf_fetched; exact Hl).
    unfold bind, read. unfold fuel_of.
    change (input s2) with (text ++ [34]).
    rewrite length_app. simpl List.length.
    replace (3 + (List.length text + 1))%nat with (List.length text + 4)%nat by lia.
    rewrite (process_loop_plain t text 4 c0 0 [34] s2 Hwf2 Hc0 Htext eq_refl).
    destruct (scanned_facts text c0 c0 [34] s2 Hwf2 eq_refl eq_refl)
      as (Hwf3 & Hp3 & Ho3 & Hl3 & Hcr3).
    set (s3 := scanned c0 text [34] s2) in *.
    assert (Hlast : plain (last text c0) = true).
    { destruct text as [|e text']; [exact Hc0|].
      rewrite forallb_forall in Htext. apply Htext.
      apply last_In. discriminate. }
    rewrite (process_loop_step 3 t (last text c0) _ 34 [] s3 Hwf3 Hlast Hp3).
    rewrite process_loop_open_string;
      [| apply wf_fetched; constructor | reflexivity | reflexivity].
    eexists. split; [reflexivity|]. split.
    + simpl line_nr. rewrite Hl3. simpl line_nr. rewrite <- Hcount.
      cbn [line_breaks]. unfold newline. change (0 =? 13) with false.
      change (34 =? 13) with false. change (34 =? 10) with false.
      destruct (c0 =? 13), (c0 =? 10); cbn [orb andb negb]; lia.
    + simpl out. rewrite Ho3. simpl out.
      rewrite app_nil_l, removelast_last_cons. reflexivity.
Qed.

(** The twelve characters of [pre_regexp]. *)
Lemma pre_regexp_iff (left : Z) :
  pre_regexp left = true <->
  In left [40; 44; 61; 58; 91; 33; 38; 124; 63; 123; 125; 59].
Proof.
  unfold pre_regexp. simpl. split.
  - intros H. repeat (apply orb_prop in H; destruct H as [H | H]);
      apply Z.eqb_eq in H; subst; tauto.
  - intros H. repeat (destruct H as [<- | H]; [reflexivity|]). contradiction.
Qed.

(** The [left] register after the last character of the run. *)
Lemma significant_last (left c : Z) (text : list Z) :
  (if 32 <? last text c then last text c
   else significant left (removelast (c :: text))) =
  significant left (c :: text).
Proof.
  rewrite <- (f_equal (significant left) (removelast_last_cons text c)).
  unfold significant. rewrite fold_left_app. reflexivity.
Qed.

(** X20.  What the main loop does at a slash that opens no comment, after
    a run of ordinary characters: it writes the slash and skips a regular
    expression exactly when the last of those characters above the blank
    (or [left], when there is none) is one of the twelve of [pre_regexp];
    otherwise the slash is a division and the scan goes on. *)
Lemma slash_context (t : tables) (text : list Z) (fuel : nat) (c left d : Z)
      (rest : list Z) (s : state) :
  wf s -> plain c = true -> forallb plain text = true ->
  pending s = text ++ 47 :: d :: rest -> d <> 47 -> d <> 42 ->
  exists s',
    wf s' /\ pending s' = d :: rest /\ out s' = out s ++ (c :: text) ++ [47] /\
    process_loop (List.length text + S (S fuel)) t c left s =
    ((if pre_regexp (significant left (c :: text))
      then regexp (S fuel) false else ret tt) ;;
     c' <- get false ;; process_loop fuel t c' 47) s'.
Proof.
  intros Hwf Hc Htext Hp Hd47 Hd42.
  rewrite (process_loop_plain t text (S (S fuel)) c left (47 :: d :: rest) s
             Hwf Hc Htext Hp).
  destruct (scanned_facts text c (if cr s then 13 else 0) (47 :: d :: rest) s
              Hwf Hp ltac:(destruct (cr s); reflexivity))
    as (Hwf3 & Hp3 & Ho3 & _).
  set (s3 := scanned c text (47 :: d :: rest) s) in *.
  assert (Hlast : plain (last text c) = true).
  { destruct text as [|e text']; [exact Hc|].
    rewrite forallb_forall in Htext. apply Htext. apply last_In. discriminate. }
  rewrite (process_loop_step (S fuel) t (last text c) _ 47 (d :: rest) s3
             Hwf3 Hlast Hp3).
  rewrite significant_last.
  set (s4 := fetched false 47 (d :: rest) (set_out (out s3 ++ [last text c]) s3)).
  assert (Hb : Forall byte (47 :: d :: rest))
    by (rewrite <- Hp3; now apply wf_pending).
  inversion Hb as [|? ? _ Hb']; subst.
  assert (Hwf4 : wf s4) by (apply wf_fetched; exact Hb').
  destruct (peek_is_spec 47 s4 Hwf4 ltac:(lia)) as (s5 & Hpk5 & Hwf5 & Hp5 & Ho5).
  destruct (peek_is_spec 42 s5 Hwf5 ltac:(lia)) as (s6 & Hpk6 & Hwf6 & Hp6 & Ho6).
  rewrite Hp5 in Hpk6. change (pending s4) with (d :: rest) in *.
  cbv iota in Hpk5, Hpk6.
  apply Z.eqb_neq in Hd47, Hd42. rewrite Hd47 in Hpk5. rewrite Hd42 in Hpk6.
  exists (set_out (out s6 ++ [47]) s6). splits.
  - apply wf_set_out. exact Hwf6.
  - change (pending (set_out (out s6 ++ [47]) s6)) with (pending s6).
    now rewrite Hp6, Hp5.
  - simpl out. rewrite Ho6, Ho5. simpl out. rewrite Ho3.
    rewrite <- !app_assoc. rewrite (app_assoc (removelast (c :: text))).
    rewrite removelast_last_cons. reflexivity.
  - cbn [process_loop]. change (47 =? EOF) with false.
    change (is_quote 47) with false. change (47 =? 47) with true. cbv iota.
    rewrite (bind_ok _ _ _ _ _ Hpk5). rewrite (bind_ok _ _ _ _ _ Hpk6).
    rewrite (bind_ok _ _ _ _ _ (emit_byte 47 s6 ltac:(unfold byte; lia))).
    reflexivity.
Qed.

End MainLoop.

(** * Expansion *)

Section Expansion.

(** What the scanners test on a simple byte. *)
Lemma simple_facts c :
  simple c = true ->
  byte c /\ (c =? EOF) = false /\ is_quote c = false /\ (c =? 47) = false /\
  (c =? 42) = false /\
  ((c =? 40) || (c =? 123) || (c =? 91)) = false /\
  ((c =? 41) || (c =? 125) || (c =? 93)) = false.
Proof.
  unfold simple. intros H.
  apply andb_prop in H as [H H4]. apply andb_prop in H as [H H3].
  apply andb_prop in H as [H H2].
  apply negb_true_iff in H2, H3, H4.
  destruct (plain_ordinary c H) as (HE & Hq & H47).
  repeat split; auto; apply (plain_byte c H).
Qed.

(** [stuff] copies a simple body and consumes the star-slash after it. *)
Lemma stuff_loop_simple (body : list Z) :
  forall fuel left s rest,
    wf s -> forallb simple body = true ->
    pending s = body ++ 42 :: 47 :: rest ->
    (List.length body < fuel)%nat ->
    exists s',
      stuff_loop fuel left s = Ok tt s' /\
      out s' = out s ++ body /\ pending s' = rest /\ wf s' /\ preview s' = 0.
Proof.
  induction body as [|c body IH]; intros fuel left s rest Hwf Hbody Hp Hlen;
    (destruct fuel as [|fuel]; [inversion Hlen|]).
  - simpl in Hp.
    assert (Hb : Forall byte (42 :: 47 :: rest))
      by (rewrite <- Hp; now apply wf_pending).
    inversion Hb as [|? ? H42 Hb1]; subst. inversion Hb1 as [|? ? H47 Hb2]; subst.
    cbn [stuff_loop stuff_stars].
    unfold peek_is at 1. rewrite !bind_assoc.
    rewrite (bind_ok _ _ _ _ _ (peek_cons s 42 (47 :: rest) Hwf Hp)).
    rewrite bind_ret. change (42 =? 42) with true. cbv iota.
    rewrite !bind_assoc.
    set (s1 := peeked 42 (47 :: rest) s).
    assert (Hwf1 : wf s1) by (apply wf_peeked; assumption).
    rewrite (bind_ok _ _ _ _ _ (get_cons false s1 42 (47 :: rest) Hwf1
                                  (pending_peeked _ _ _ H42))).
    set (s2 := fetched false 42 (47 :: rest) s1).
    assert (Hwf2 : wf s2) by (apply wf_fetched; assumption).
    unfold peek_is at 1. rewrite !bind_assoc.
    rewrite (bind_ok _ _ _ _ _ (peek_cons s2 47 rest Hwf2 eq_refl)).
    rewrite bind_ret. change (47 =? 47) with true. cbv iota.
    set (s3 := peeked 47 rest s2).
    assert (Hwf3 : wf s3) by (apply wf_peeked; assumption).
    rewrite !bind_assoc.
    rewrite (bind_ok _ _ _ _ _ (get_cons false s3 47 rest Hwf3
                                  (pending_peeked _ _ _ H47))).
    rewrite !bind_ret.
    eexists. split; [reflexivity|]. simpl. rewrite app_nil_r.
    splits; auto with jsdev.
  - simpl in Hp. cbn [forallb] in Hbody. apply andb_prop in Hbody as [Hc Hbody].
    destruct (simple_facts c Hc) as (Hcb & HE & Hq & H47 & H42 & _).
    assert (Hb : Forall byte (c :: body ++ 42 :: 47 :: rest))
      by (rewrite <- Hp; now apply wf_pending).
    inversion Hb as [|? ? _ Hb1]; subst.
    cbn [stuff_loop stuff_stars].
    unfold peek_is at 1. rewrite !bind_assoc.
    rewrite (bind_ok _ _ _ _ _ (peek_cons s c _ Hwf Hp)).
    rewrite bind_ret. rewrite H42. cbv iota. rewrite bind_ret.
    set (s1 := peeked c (body ++ 42 :: 47 :: rest) s).
    assert (Hwf1 : wf s1) by (apply wf_peeked; assumption).
    rewrite (bind_ok _ _ _ _ _ (get_cons true s1 c _ Hwf1
                                  (pending_peeked _ _ _ Hcb))).
    rewrite HE, Hq, H47. rewrite bind_ret.
    set (s2 := fetched true c (body ++ 42 :: 47 :: rest) s1).
    destruct (IH fuel (if 32 <? c then c else left) s2 rest)
      as (s' & Hrun & Hout & Hpend & Hwf' & Hpv');
      [apply wf_fetched; assumption | exact Hbody | reflexivity
      | simpl in Hlen; lia |].
    exists s'. split; [exact Hrun|]. rewrite Hout. simpl.
    rewrite <- app_assoc. splits; auto.
Qed.

(** [condition], inside the parentheses, copies a simple condition
    through the closing parenthesis. *)
Lemma condition_loop_inner (inner : list Z) :
  forall fuel left s rest,
    wf s -> forallb simple inner = true ->
    pending s = inner ++ 41 :: rest ->
    (List.length inner < fuel)%nat ->
    exists s',
      condition_loop fuel left 1 s = Ok tt s' /\
      out s' = out s ++ inner ++ [41] /\ pending s' = rest /\ wf s' /\
      preview s' = 0.
Proof.
  induction inner as [|c inner IH]; intros fuel left s rest Hwf Hin Hp Hlen;
    (destruct fuel as [|fuel]; [inversion Hlen|]); simpl in Hp;
    cbn [condition_loop].
  - assert (Hb : Forall byte (41 :: rest))
      by (rewrite <- Hp; now apply wf_pending).
    inversion Hb; subst.
    rewrite (bind_ok _ _ _ _ _ (get_cons true s 41 rest Hwf Hp)).
    eexists. split; [reflexivity|]. simpl. splits; auto with jsdev.
  - cbn [forallb] in Hin. apply andb_prop in Hin as [Hc Hin].
    destruct (simple_facts c Hc) as (Hcb & HE & Hq & H47 & H42 & Hopen & Hclose).
    assert (Hb : Forall byte (c :: inner ++ 41 :: rest))
      by (rewrite <- Hp; now apply wf_pending).
    inversion Hb; subst.
    rewrite (bind_ok _ _ _ _ _ (get_cons true s c _ Hwf Hp)).
    rewrite Hopen, Hclose, HE, Hq, H47, H42. mstep.
    set (s1 := fetched true c (inner ++ 41 :: rest) s).
    destruct (IH fuel (if 32 <? c then c else left) s1 rest)
      as (s' & Hrun & Hout & Hpend & Hwf' & Hpv');
      [apply wf_fetched; assumption | exact Hin | reflexivity
      | simpl in Hlen; lia |].
    exists s'. split; [exact Hrun|]. rewrite Hout. simpl.
    rewrite <- app_assoc. splits; auto.
Qed.

(** [condition] copies a simple condition with its parentheses. *)
Lemma condition_simple (inner : list Z) (fuel : nat) (left0 : Z) (s : state)
      (rest : list Z) :
  wf s -> forallb simple inner = true ->
  pending s = parenthesised inner ++ rest ->
  (List.length inner + 1 < fuel)%nat ->
  exists s',
    condition fuel left0 s = Ok tt s' /\
    out s' = out s ++ parenthesised inner /\ pending s' = rest /\ wf s' /\
    preview s' = 0.
Proof.
  intros Hwf Hin Hp Hlen. unfold parenthesised in *. simpl in Hp.
  rewrite <- app_assoc in Hp. simpl in Hp.
  destruct fuel as [|fuel]; [inversion Hlen|].
  unfold condition. cbn [condition_loop].
  assert (Hb : Forall byte (40 :: inner ++ 41 :: rest))
    by (rewrite <- Hp; now apply wf_pending).
  inversion Hb; subst.
  rewrite (bind_ok _ _ _ _ _ (get_cons true s 40 _ Hwf Hp)).
  change ((40 =? 40) || (40 =? 123) || (40 =? 91)) with true. cbv iota.
  rewrite bind_ret. change (0 + 1) with 1.
  set (s1 := fetched true 40 (inner ++ 41 :: rest) s).
  destruct (condition_loop_inner inner fuel (if 32 <? 40 then 40 else left0) s1 rest)
    as (s' & Hrun & Hout & Hpend & Hwf' & Hpv');
    [apply wf_fetched; assumption | exact Hin | reflexivity | lia |].
  exists s'. split; [exact Hrun|]. rewrite Hout. simpl.
  rewrite <- app_assoc. splits; auto.
Qed.

(** The four shapes.  [expand], called on a simple condition (or none) and
    a simple body closed by star-slash, writes the shape of the table of
    the specification, the body and the condition being copied from their
    first character to their last. *)
Lemma expand_shapes (fuel : nat) (t : tables) (cmd_nr : Z) (s : state)
      (cond : option (list Z)) (body rest : list Z) :
  wf s ->
  match cond with
  | Some inner => forallb simple inner = true
  | None => True
  end ->
  forallb simple body = true ->
  pending s =
    match cond with Some inner => parenthesised inner | None => [] end
    ++ body ++ 42 :: 47 :: rest ->
  (List.length (pending s) < fuel)%nat ->
  exists s',
    expand fuel t cmd_nr s = Ok tt s' /\
    out s' = out s ++ shape cond (nth (Z.to_nat cmd_nr) (commands t) []) body /\
    pending s' = rest.
Proof.
  intros Hwf Hcond Hbody Hp Hlen.
  assert (Hstuff : forall s1 o,
            wf s1 -> pending s1 = body ++ 42 :: 47 :: rest -> out s1 = out s ++ o ->
            exists s',
              (emit 123 ;;
               (match nth (Z.to_nat cmd_nr) (commands t) [] with
                | [] => stuff fuel
                | _ :: _ =>
                    emits (nth (Z.to_nat cmd_nr) (commands t) []) ;;
                    emit 40 ;; stuff fuel ;; emit 41 ;; ret tt
                end) ;;
               emits (bytes ";}")) s1 = Ok tt s' /\
              out s' =
                out s ++ o ++ [123] ++
                match nth (Z.to_nat cmd_nr) (commands t) [] with
                | [] => body
                | _ :: _ =>
                    nth (Z.to_nat cmd_nr) (commands t) [] ++ [40] ++ body ++ [41]
                end ++ bytes ";}" /\
              pending s' = rest).
  { intros s1 o Hwf1 Hp1 Ho1.
    assert (Hlen1 : (List.length body < fuel)%nat).
    { rewrite Hp in Hlen. rewrite !length_app in Hlen. lia. }
    rewrite (bind_ok _ _ _ _ _ (emit_byte 123 s1 ltac:(unfold byte; lia))).
    set (s2 := set_out (out s1 ++ [123]) s1).
    destruct (nth (Z.to_nat cmd_nr) (commands t) []) as [|x command] eqn:Ecmd.
    - destruct (stuff_loop_simple body fuel 123 s2 rest)
        as (s' & Hrun & Hout & Hpend & Hwf' & Hpv'); auto with jsdev.
      unfold stuff. rewrite (bind_ok _ _ _ _ _ Hrun).
      eexists. split; [reflexivity|]. simpl. rewrite Hout. simpl. rewrite Ho1.
      rewrite <- !app_assoc. split; [reflexivity | exact Hpend].
    - rewrite !bind_assoc. unfold emits at 1. unfold bind at 1.
      rewrite !bind_assoc.
      set (s3 := set_out _ s2).
      rewrite (bind_ok _ _ _ _ _ (emit_byte 40 s3 ltac:(unfold byte; lia))).
      rewrite !bind_assoc.
      set (s4 := set_out (out s3 ++ [40]) s3).
      destruct (stuff_loop_simple body fuel 123 s4 rest)
        as (s' & Hrun & Hout & Hpend & Hwf' & Hpv'); auto with jsdev.
      unfold stuff. rewrite (bind_ok _ _ _ _ _ Hrun).
      rewrite !bind_assoc.
      rewrite (bind_ok _ _ _ _ _ (emit_byte 41 s' ltac:(unfold byte; lia))).
      rewrite !bind_ret.
      eexists. split; [reflexivity|]. simpl. rewrite Hout. simpl. rewrite Ho1.
      split; [|exact Hpend].
      repeat (rewrite <- app_assoc; simpl). reflexivity. }
  unfold expand, shape.
  destruct cond as [inner|].
  - unfold parenthesised in Hp. simpl in Hp.
    assert (Hp' : pending s = parenthesised inner ++ body ++ 42 :: 47 :: rest)
      by (rewrite Hp; reflexivity).
    rewrite (bind_ok _ _ _ _ _ (peek_cons s 40 _ Hwf Hp)).
    change (40 =? 40) with true. cbv iota.
    set (s1 := peeked 40 ((inner ++ [41]) ++ body ++ 42 :: 47 :: rest) s).
    assert (Hb : Forall byte (40 :: (inner ++ [41]) ++ body ++ 42 :: 47 :: rest))
      by (rewrite <- Hp; now apply wf_pending).
    inversion Hb; subst.
    assert (Hwf1 : wf s1) by (apply wf_peeked; assumption).
    rewrite !bind_assoc. unfold emits at 1. unfold bind at 1.
    set (s2 := set_out _ s1).
    assert (Hwf2 : wf s2) by (apply wf_set_out; exact Hwf1).
    assert (Hp2 : pending s2 = parenthesised inner ++ body ++ 42 :: 47 :: rest).
    { unfold s2, s1. apply pending_peeked. assumption. }
    assert (Hlen2 : (List.length inner + 1 < fuel)%nat).
    { rewrite Hp in Hlen. simpl in Hlen. rewrite !length_app in Hlen.
      simpl in Hlen. lia. }
    destruct (condition_simple inner fuel 0 s2 (body ++ 42 :: 47 :: rest)
                Hwf2 Hcond Hp2 Hlen2)
      as (s3 & Hrun & Hout & Hpend & Hwf3 & Hpv3).
    rewrite ?bind_assoc. rewrite (bind_ok _ _ _ _ _ Hrun).
    destruct (Hstuff s3 (bytes "if " ++ parenthesised inner) Hwf3 Hpend)
      as (s' & Hrun' & Hout' & Hpend').
    { rewrite Hout. simpl. rewrite <- app_assoc. reflexivity. }
    exists s'. split; [exact Hrun'|]. split; [|exact Hpend'].
    rewrite Hout'. rewrite <- !app_assoc. reflexivity.
  - simpl in Hp.
    assert (Hpeek : exists c l, pending s = c :: l /\ (c =? 40) = false).
    { destruct body as [|c body].
      - exists 42, (47 :: rest). split; [exact Hp | reflexivity].
      - exists c, (body ++ 42 :: 47 :: rest). split; [exact Hp|].
        cbn [forallb] in Hbody. apply andb_prop in Hbody as [Hc _].
        destruct (simple_facts c Hc) as (_ & _ & _ & _ & _ & Hopen & _).
        apply orb_false_elim in Hopen as [Hopen _].
        apply orb_false_elim in Hopen as [Hopen _]. exact Hopen. }
    destruct Hpeek as (c & l & Hcl & Hc40).
    rewrite (bind_ok _ _ _ _ _ (peek_cons s c l Hwf Hcl)).
    rewrite Hc40. rewrite bind_ret.
    assert (Hb : Forall byte (c :: l)) by (rewrite <- Hcl; now apply wf_pending).
    inversion Hb; subst.
    destruct (Hstuff (peeked c l s) []) as (s' & Hrun' & Hout' & Hpend').
    + apply wf_peeked; assumption.
    + rewrite pending_peeked by assumption. rewrite <- Hcl. exact Hp.
    + simpl. now rewrite app_nil_r.
    + exists s'. split; [exact Hrun'|]. split; [|exact Hpend'].
      rewrite Hout'. reflexivity.
Qed.

End Expansion.

(** * The command line *)

Section CommandLine.

(** [argv[i][j]] at the end of the part already read. *)
Lemma nth_app_length (pre rest : list Z) :
  nth (List.length pre) (pre ++ rest) 0 = hd 0 rest.
Proof.
  induction pre as [|x pre IH]; [destruct rest; reflexivity | exact IH].
Qed.

(** The copy loop on a name shorter than its bound. *)
Lemma copy_name_stops (name : list Z) :
  forall n pre rest c0 acc,
    forallb is_alphanum name = true ->
    (List.length name < n)%nat ->
    stops rest = true ->
    copy_name n (pre ++ name ++ rest) (List.length pre) c0 acc =
    ((List.length pre + List.length name)%nat, hd 0 rest, acc ++ name).
Proof.
  induction name as [|x name IH]; intros n pre rest c0 acc Hname Hlen Hstop.
  - destruct n as [|n]; [inversion Hlen|]. cbn [copy_name app].
    rewrite nth_app_length.
    assert (E : is_alphanum (hd 0 rest) = false).
    { destruct rest as [|y rest]; [reflexivity|].
      simpl in *. now apply negb_true_iff. }
    rewrite E. simpl. rewrite Nat.add_0_r, app_nil_r. reflexivity.
  - destruct n as [|n]; [inversion Hlen|]. cbn [copy_name].
    cbn [forallb] in Hname. apply andb_prop in Hname as [Hx Hname].
    rewrite nth_app_length. cbn [app hd]. rewrite Hx. cbn [negb].
    replace (pre ++ x :: name ++ rest) with ((pre ++ [x]) ++ name ++ rest)
      by (rewrite <- app_assoc; reflexivity).
    replace (S (List.length pre)) with (List.length (pre ++ [x]))
      by (rewrite length_app; simpl; lia).
    rewrite IH; auto; [|simpl in Hlen; lia].
    rewrite length_app, <- app_assoc. simpl.
    replace (List.length pre + 1 + List.length name)%nat
      with (List.length pre + S (List.length name))%nat by lia.
    reflexivity.
Qed.

(** The copy loop on a name that fills its bound: [c] is left holding the
    last character copied, not the one that follows. *)
Lemma copy_name_full (n : nat) :
  forall name pre rest c0 acc,
    forallb is_alphanum name = true ->
    List.length name = n ->
    copy_name n (pre ++ name ++ rest) (List.length pre) c0 acc =
    ((List.length pre + n)%nat, last name c0, acc ++ name).
Proof.
  induction n as [|n IH]; intros name pre rest c0 acc Hname Hlen.
  - destruct name; [|discriminate]. simpl.
    rewrite Nat.add_0_r, app_nil_r. reflexivity.
  - destruct name as [|x name]; [discriminate|]. cbn [copy_name].
    cbn [forallb] in Hname. apply andb_prop in Hname as [Hx Hname].
    rewrite nth_app_length. cbn [app hd]. rewrite Hx. cbn [negb].
    replace (pre ++ x :: name ++ rest) with ((pre ++ [x]) ++ name ++ rest)
      by (rewrite <- app_assoc; reflexivity).
    replace (S (List.length pre)) with (List.length (pre ++ [x]))
      by (rewrite length_app; simpl; lia).
    rewrite IH; auto.
    rewrite length_app, <- app_assoc. simpl.
    replace (List.length pre + 1 + n)%nat with (List.length pre + S n)%nat by lia.
    destruct name as [|y name]; [reflexivity|].
    change (last (x :: y :: name) c0) with (last (y :: name) c0).
    now rewrite (last_indep (y :: name) x c0).
Qed.

(** The last character of a name is of the identifier class. *)
Lemma last_alphanum (name : list Z) (c0 : Z) :
  forallb is_alphanum name = true -> name <> [] ->
  is_alphanum (last name c0) = true.
Proof.
  intros H Hne. rewrite forallb_forall in H. apply H.
  apply last_In. exact Hne.
Qed.

(** A declaration whose trigger, and replacement when there is one, has 1
    to 79 identifier characters is added to the tables. *)
Lemma declare_accepts (name command : list Z) (t : tables) (s : state) :
  forallb is_alphanum name = true ->
  (1 <= List.length name < MAX_CMD_LENGTH)%nat ->
  forallb is_alphanum command = true ->
  (List.length command < MAX_CMD_LENGTH)%nat ->
  (List.length (cmds t) < MAX_NR_CMDS)%nat ->
  declare (name ++ match command with [] => [] | _ => 58 :: command end) t s =
  Ok (mkTables (cmds t ++ [name]) (commands t ++ [command])) s.
Proof.
  intros Hname Hlen Hcommand Hclen Hfull. unfold declare.
  assert (E : (MAX_NR_CMDS <=? List.length (cmds t))%nat = false)
    by (apply Nat.leb_gt; exact Hfull).
  rewrite E.
  assert (Hj : (List.length name =? 0)%nat = false)
    by (apply Nat.eqb_neq; lia).
  destruct command as [|x command].
  - pose proof (copy_name_stops name MAX_CMD_LENGTH [] [] 0 [] Hname
                  ltac:(lia) eq_refl) as Hcopy.
    cbn [List.length Nat.add hd app] in Hcopy. rewrite Hcopy.
    rewrite Hj. rewrite app_nil_r. reflexivity.
  - pose proof (copy_name_stops name MAX_CMD_LENGTH [] (58 :: x :: command) 0 []
                  Hname ltac:(lia) eq_refl) as Hcopy.
    cbn [List.length Nat.add hd app] in Hcopy. rewrite Hcopy.
    rewrite Hj.
    change (58 =? 0) with false. change (58 =? 58) with true. cbv iota.
    rewrite bind_ret.
    replace (name ++ 58 :: x :: command)
      with ((name ++ [58]) ++ (x :: command) ++ [])
      by (rewrite <- !app_assoc, app_nil_r; reflexivity).
    replace (List.length name + 1)%nat with (List.length (name ++ [58%Z]))
      by (rewrite length_app; reflexivity).
    rewrite (copy_name_stops (x :: command) MAX_CMD_LENGTH (name ++ [58]) [] 58 []
               Hcommand Hclen eq_refl).
    cbn [hd app]. change (0 =? 0) with true. cbn [negb].
    assert (Hk : (List.length (name ++ [58%Z]) + List.length (x :: command) =?
                  List.length (name ++ [58%Z]))%nat = false)
      by (apply Nat.eqb_neq; simpl; lia).
    rewrite Hk. reflexivity.
Qed.

(** A trigger of [MAX_CMD_LENGTH] identifier characters is refused,
    whatever follows it. *)
Lemma declare_rejects_full (name rest : list Z) (t : tables) (s : state) :
  forallb is_alphanum name = true ->
  List.length name = MAX_CMD_LENGTH ->
  (List.length (cmds t) < MAX_NR_CMDS)%nat ->
  declare (name ++ rest) t s = Fatal (text (name ++ rest)) s.
Proof.
  intros Hname Hlen Hfull. unfold declare.
  assert (E : (MAX_NR_CMDS <=? List.length (cmds t))%nat = false)
    by (apply Nat.leb_gt; exact Hfull).
  rewrite E.
  pose proof (copy_name_full MAX_CMD_LENGTH name [] rest 0 [] Hname Hlen) as Hcopy.
  cbn [List.length Nat.add app] in Hcopy. rewrite Hcopy.
  assert (Hne : name <> []) by (intros ->; discriminate).
  assert (Ha := last_alphanum name 0 Hname Hne).
  assert (E0 : (last name 0 =? 0) = false) by (unfold is_alphanum in Ha; lia).
  assert (E58 : (last name 0 =? 58) = false) by (unfold is_alphanum in Ha; lia).
  change (MAX_CMD_LENGTH =? 0)%nat with false. cbv iota.
  rewrite bind_ret, E0, E58. reflexivity.
Qed.

(** A fatal error met while the command line is read carries no line
    number and comes before anything is read from stdin. *)
Lemma arguments_fatal (argv : list (list Z)) :
  forall comment t s msg s',
    arguments argv comment t s = Fatal msg s' ->
    line_nr s' = line_nr s /\ input s' = input s /\ preview s' = preview s.
Proof.
  induction argv as [|arg argv IH]; intros comment t s msg s' H; [discriminate|].
  cbn [arguments] in H. destruct comment.
  - unfold bind, emits, emit in H. apply IH in H. exact H.
  - destruct (str_eqb arg (bytes "-comment")); [apply IH in H; exact H|].
    unfold bind at 1 in H.
    destruct (declare arg t s) as [t' s1|m s1| |] eqn:E; try discriminate.
    + assert (s1 = s).
      { unfold declare in E.
        destruct (MAX_NR_CMDS <=? List.length (cmds t))%nat; [discriminate|].
        destruct (copy_name MAX_CMD_LENGTH arg 0 0 []) as [[j c] name].
        destruct (j =? 0)%nat; [discriminate|]. rewrite bind_ret in E.
        destruct (c =? 0); [injection E as _ <-; reflexivity|].
        destruct (c =? 58); [|discriminate].
        destruct (copy_name MAX_CMD_LENGTH arg (j + 1) c []) as [[k c'] command].
        destruct ((k =? j + 1)%nat || negb (c' =? 0)); [discriminate|].
        injection E as _ <-. reflexivity. }
      subst s1. apply IH in H. exact H.
    + injection H as <- <-.
      assert (s1 = s).
      { unfold declare in E.
        destruct (MAX_NR_CMDS <=? List.length (cmds t))%nat; [discriminate|].
        destruct (copy_name MAX_CMD_LENGTH arg 0 0 []) as [[j c] name].
        destruct (j =? 0)%nat; [injection E as _ <-; reflexivity|].
        rewrite bind_ret in E.
        destruct (c =? 0); [discriminate|].
        destruct (c =? 58); [|injection E as _ <-; reflexivity].
        destruct (copy_name MAX_CMD_LENGTH arg (j + 1) c []) as [[k c'] command].
        destruct ((k =? j + 1)%nat || negb (c' =? 0));
          [injection E as _ <-; reflexivity | discriminate]. }
      subst s1. auto.
Qed.

End CommandLine.

(** * The line of the unterminated-literal diagnostics *)

Section Diagnostics.

(** [get] and [peek] call [error] on no input. *)
Lemma get_not_fatal e s msg s' : get e s <> Fatal msg s'.
Proof.
  unfold get, bind, read, modify, fgetc, ret, emit.
  destruct s as [i p c l o]; simpl.
  destruct (negb (p =? 0)); simpl;
    [| destruct i as [|b i]; simpl];
    repeat match goal with
           | |- context [if ?b then _ else _] => destruct b; simpl
           end; discriminate.
Qed.

Lemma peek_is_not_fatal x s msg s' : peek_is x s <> Fatal msg s'.
Proof.
  unfold peek_is, peek, bind, read, modify, fgetc, ret.
  destruct s as [i p c l o]; simpl.
  destruct (negb (p =? 0)); simpl; [discriminate|].
  destruct i; simpl; discriminate.
Qed.

(** The sibling paths of C4: when [string] reports an unterminated
    literal, the line it reports is the line on which it was called. *)
Lemma string_loop_reports_opening (fuel : nat) :
  forall q ic was s s',
    string_loop fuel q ic was s = Fatal "unterminated string literal." s' ->
    line_nr s' = was.
Proof.
  induction fuel as [|fuel IH]; intros q ic was s s' H; [discriminate|].
  cbn [string_loop] in H.
  unfold bind at 1 in H.
  destruct (get true s) as [c s1|m s1| |] eqn:E1; try discriminate.
  2:{ exfalso. eapply get_not_fatal; eauto. }
  destruct (c =? q); [discriminate|].
  unfold bind at 1 in H.
  destruct ((if c =? 92 then get true else ret c) s1) as [c2 s2|m s2| |] eqn:E2;
    try discriminate.
  2:{ exfalso. destruct (c =? 92); [eapply get_not_fatal; eauto | discriminate]. }
  unfold bind at 1 in H.
  destruct ((if ic && (c2 =? 42) then peek_is 47 else ret false) s2)
    as [b s3|m s3| |] eqn:E3; try discriminate.
  2:{ exfalso. destruct (ic && (c2 =? 42));
        [eapply peek_is_not_fatal; eauto | discriminate]. }
  destruct b; [discriminate|].
  destruct (c2 =? EOF).
  - injection H as <-. reflexivity.
  - eauto.
Qed.

(** The same for [string] itself: the line is the current line at the
    call. *)
Lemma string_reports_opening (fuel : nat) (q : Z) (ic : bool) (s s' : state) :
  string fuel q ic s = Fatal "unterminated string literal." s' ->
  line_nr s' = line_nr s.
Proof. unfold string, bind, read. apply string_loop_reports_opening. Qed.

Lemma peek_comment_not_fatal s msg s' : peek_comment s <> Fatal msg s'.
Proof.
  unfold peek_comment, bind. intros H.
  destruct (peek_is 47 s) as [b s1|m s1| |] eqn:E; try discriminate.
  - destruct b; [discriminate|]. eapply peek_is_not_fatal; eauto.
  - eapply peek_is_not_fatal; eauto.
Qed.

(** The loop over a bracketed set never reports an unterminated regexp
    literal. *)
Lemma regexp_set_messages (fuel : nat) :
  forall ic s msg s',
    regexp_set fuel ic s = Fatal msg s' ->
    msg <> "unterminated regexp literal."%string.
Proof.
  induction fuel as [|fuel IH]; intros ic s msg s' H; [discriminate|].
  cbn [regexp_set] in H.
  unfold bind at 1 in H.
  destruct (get true s) as [c s1|m s1| |] eqn:E1; try discriminate.
  2:{ exfalso. eapply get_not_fatal; eauto. }
  destruct (c =? 93); [discriminate|].
  unfold bind at 1 in H.
  destruct ((if c =? 92 then get true else ret c) s1) as [c2 s2|m s2| |] eqn:E2;
    try discriminate.
  2:{ exfalso. destruct (c =? 92); [eapply get_not_fatal; eauto | discriminate]. }
  unfold bind at 1 in H.
  destruct ((if ic && (c2 =? 42) then peek_is 47 else ret false) s2)
    as [b s3|m s3| |] eqn:E3; try discriminate.
  2:{ exfalso. destruct (ic && (c2 =? 42));
        [eapply peek_is_not_fatal; eauto | discriminate]. }
  destruct b; [injection H as <- _; discriminate|].
  destruct (c2 =? EOF); [injection H as <- _; discriminate | eauto].
Qed.

(** And so does [regexp], outside a bracketed set. *)
Lemma regexp_loop_reports_opening (fuel : nat) :
  forall ic was s s',
    regexp_loop fuel ic was s = Fatal "unterminated regexp literal." s' ->
    line_nr s' = was.
Proof.
  induction fuel as [|fuel IH]; intros ic was s s' H; [discriminate|].
  cbn [regexp_loop] in H.
  unfold bind at 1 in H.
  destruct (get true s) as [c s1|m s1| |] eqn:E1; try discriminate.
  2:{ exfalso. eapply get_not_fatal; eauto. }
  unfold bind at 1 in H.
  match type of H with
  | match ?branch with _ => _ end = _ =>
      destruct branch as [r s2|m s2| |] eqn:E2; try discriminate
  end.
  2:{ exfalso. injection H as -> ->.
      destruct (c =? 91).
      - unfold bind in E2.
        destruct (regexp_set (S fuel) ic s1) as [c3 s3|m3 s3| |] eqn:E3;
          try discriminate.
        injection E2 as -> ->. eapply regexp_set_messages; eauto.
      - destruct (c =? 47).
        + unfold bind in E2.
          destruct ((if ic then peek_comment else ret false) s1)
            as [cm s3|m3 s3| |] eqn:E3; try discriminate.
          * destruct cm; discriminate.
          * destruct ic; [eapply peek_comment_not_fatal; eauto | discriminate].
        + destruct (c =? 92); [|discriminate].
          unfold bind in E2.
          destruct (get true s1) as [c3 s3|m3 s3| |] eqn:E3; try discriminate.
          eapply get_not_fatal; eauto. }
  destruct r as [c2|]; [|discriminate].
  unfold bind at 1 in H.
  destruct ((if ic && (c2 =? 42) then peek_is 47 else ret false) s2)
    as [b s3|m s3| |] eqn:E3; try discriminate.
  2:{ exfalso. destruct (ic && (c2 =? 42));
        [eapply peek_is_not_fatal; eauto | discriminate]. }
  destruct b; [discriminate|].
  destruct (c2 =? EOF).
  - injection H as <-. reflexivity.
  - eauto.
Qed.

End Diagnostics.

(** * NUL bytes *)

Section Nul.

(** C9, as amended.  [get] reports a NUL byte it fetches as the end of the
    input, exactly as it reports the physical end: nothing is emitted and
    the line counter is left alone, the main loop stops when that happens
    after an ordinary character, and an open string, regular-expression
    literal, bracketed set, condition or unmatched comment raises its
    unterminated-construct error. *)
Theorem nul_read_by_get (s : state) (fuel : nat) :
  preview s = 0 -> (exists rest, input s = 0 :: rest) \/ input s = [] ->
  let s' := set_input (tl (input s)) s in
  (forall echo, get echo s = Ok EOF s') /\
  (forall t c left, ordinary c = true ->
     process_loop (S (S fuel)) t c left s =
     Ok tt (if 0 <? c then set_out (out s ++ [c mod 256]) s' else s')) /\
  (forall q ic was, is_quote q = true ->
     string_loop (S fuel) q ic was s =
     Fatal "unterminated string literal." (set_line_nr was s')) /\
  (forall ic was,
     regexp_loop (S fuel) ic was s =
     Fatal "unterminated regexp literal." (set_line_nr was s')) /\
  (forall ic,
     regexp_set (S fuel) ic s =
     Fatal "unterminated set in Regular Expression literal." s') /\
  (forall left paren,
     condition_loop (S fuel) left paren s =
     Fatal "Unterminated condition." s') /\
  (forall c, c <> EOF ->
     echo_comment (S (S fuel)) c s = Fatal "unterminated comment." s').
Proof.
  intros Hpv Hin s'.
  assert (Hget : forall echo, get echo s = Ok EOF s').
  { intros echo. subst s'. destruct s as [i p c l o]. simpl in *. subst p.
    destruct Hin as [[rest ->] | ->]; reflexivity. }
  splits.
  - exact Hget.
  - intros t c left Hc. unfold ordinary in Hc.
    apply andb_prop in Hc as [Hc Hc47]. apply andb_prop in Hc as [HcE Hcq].
    apply negb_true_iff in Hc47, HcE, Hcq.
    cbn [process_loop]. rewrite HcE, Hcq, Hc47.
    unfold bind at 1. unfold emit at 1.
    assert (Hget' : forall s1, input s1 = input s -> preview s1 = 0 ->
               get false s1 = Ok EOF (set_input (tl (input s1)) s1)).
    { intros [i1 p1 c1 l1 o1] Hi Hp1. simpl in *. subst p1.
      rewrite Hi. destruct Hin as [[rest ->] | ->]; reflexivity. }
    unfold bind. destruct (0 <? c).
    + rewrite Hget'; auto. 
    + rewrite Hget. reflexivity.
  - intros q ic was Hq. apply is_quote_cases in Hq.
    cbn [string_loop]. unfold bind at 1. rewrite Hget.
    destruct Hq as [-> | [-> | ->]]; destruct ic; reflexivity.
  - intros ic was. cbn [regexp_loop]. unfold bind at 1. rewrite Hget.
    destruct ic; reflexivity.
  - intros ic. cbn [regexp_set]. unfold bind at 1. rewrite Hget.
    destruct ic; reflexivity.
  - intros left paren. cbn [condition_loop]. unfold bind at 1. rewrite Hget.
    reflexivity.
  - intros c Hc. apply Z.eqb_neq in Hc. cbn [echo_comment].
    rewrite Hc. unfold bind at 1. unfold ret at 1.
    destruct (c =? 47); [|destruct (c =? 42)];
      unfold bind at 1; rewrite Hget; reflexivity.
Qed.

End Nul.

(** * The examples of the specification, run *)

Section Examples.

(** C1, as the specification states it: none of the three outputs is what
    the program writes. *)
Lemma expansion_examples_as_claimed :
  stdout (main sample_argv (initial log_hi)) <>
    bytes "{console.log(" ++ [DQUOTE] ++ bytes "hi" ++ [DQUOTE] ++ bytes ");}" /\
  stdout (main sample_argv (initial debug_x)) <> bytes "{x=1;}" /\
  stdout (main sample_argv (initial alarm_go)) <>
    bytes "if (x>0) {alert(" ++ [DQUOTE] ++ bytes "go" ++ [DQUOTE] ++ bytes ");}".
Proof. vm_compute. splits; discriminate. Qed.

(** C2, as the specification states it: two inputs without any trigger
    that are not written byte for byte.  The first holds a NUL byte, at
    which the scan ends normally with the rest unread; the second stops at
    a fatal error. *)
Lemma pass_through_counterexample :
  (no_trigger (mkTables [] []) [97; 0; 98] = true /\
   main [] (initial [97; 0; 98]) = Ok tt (mkState [98] 0 false 1 [97]) /\
   stdout (main [] (initial [97; 0; 98])) <> [97; 0; 98]) /\
  (no_trigger (mkTables [] []) (bytes "/* /* */") = true /\
   stdout (main [] (initial (bytes "/* /* */"))) <> bytes "/* /* */").
Proof. vm_compute. splits; try reflexivity; discriminate. Qed.

Lemma pass_through_witness :
  match process (mkTables [bytes "debug"] [[]])
                (initial (bytes "a = b / c; /*x*/ // debug")) with
  | Ok _ s' => out s' = [] ++ bytes "a = b / c; /*x*/ // debug"
  | Fatal _ s' =>
      exists u v, bytes "a = b / c; /*x*/ // debug" = u ++ v /\ out s' = [] ++ u
  | _ => False
  end.
Proof.
  apply (pass_through (mkTables [bytes "debug"] [[]])
                      (initial (bytes "a = b / c; /*x*/ // debug"))).
  - apply wf_initial. repeat constructor; unfold byte; lia.
  - reflexivity.
Defined.

(** C3.  After a string literal the main loop still holds the character
    before the string in [left]: the slash of [x="b"/2;] starts a regular
    expression, which the end of the input leaves unterminated.  In a
    macro body [left] follows the string, and the same slash divides. *)
Theorem slash_after_string :
  main [] (initial (bytes "x=" ++ [DQUOTE] ++ bytes "b" ++ [DQUOTE] ++ bytes "/2;")) =
    Fatal "unterminated regexp literal."
          (mkState [] 0 false 1
             (bytes "x=" ++ [DQUOTE] ++ bytes "b" ++ [DQUOTE] ++ bytes "/2;")) /\
  main [bytes "debug"]
       (initial (bytes "/*debug x=" ++ [DQUOTE] ++ bytes "b" ++ [DQUOTE]
                 ++ bytes "/2*/")) =
    Ok tt (mkState [] 0 false 1
             (bytes "{ x=" ++ [DQUOTE] ++ bytes "b" ++ [DQUOTE] ++ bytes "/2;}")).
Proof. vm_compute. split; reflexivity. Qed.

(** C4.  A macro body, a condition and a bracketed set that open on line
    1 and are cut short on line 2 are reported on line 2; a string and a
    regular expression cut short the same way are reported on line 1. *)
Theorem unterminated_line :
  (let r := main [bytes "debug"] (initial (bytes "/*debug x" ++ [LF] ++ bytes "y")) in
   exists s, r = Fatal "Unterminated stuff." s /\ line_nr s = 2 /\
             stderr_text "Unterminated stuff." s =
             String.append "JSDev: 2. Unterminated stuff." (text [CR; LF])) /\
  (let r := main [bytes "debug"] (initial (bytes "/*debug(x" ++ [LF] ++ bytes "y")) in
   exists s, r = Fatal "Unterminated condition." s /\ line_nr s = 2) /\
  (let r := main [] (initial (bytes "a=/[" ++ [LF] ++ bytes "y")) in
   exists s, r = Fatal "unterminated set in Regular Expression literal." s /\
             line_nr s = 2) /\
  (let r := main [] (initial ([DQUOTE] ++ bytes "x" ++ [LF] ++ bytes "y")) in
   exists s, r = Fatal "unterminated string literal." s /\ line_nr s = 1) /\
  (let r := main [] (initial (bytes "a=/x" ++ [LF] ++ bytes "y")) in
   exists s, r = Fatal "unterminated regexp literal." s /\ line_nr s = 1).
Proof. vm_compute. splits; eexists; splits; reflexivity. Qed.

Lemma string_skips_witness :
  exists s',
    string 5 DQUOTE true
           (initial (bytes "a" ++ [BACKSLASH; DQUOTE] ++ bytes "b" ++ [DQUOTE]
                     ++ bytes "c")) = Ok tt s' /\
    out s' = [] ++ (bytes "a" ++ [BACKSLASH; DQUOTE] ++ bytes "b") ++ [DQUOTE] /\
    pending s' = bytes "c" /\ preview s' = 0 /\ wf s'.
Proof.
  apply (string_skips 5 DQUOTE true
           (initial (bytes "a" ++ [BACKSLASH; DQUOTE] ++ bytes "b" ++ [DQUOTE]
                     ++ bytes "c"))
           (bytes "a" ++ [BACKSLASH; DQUOTE] ++ bytes "b") (bytes "c")).
  - apply wf_initial. repeat constructor; unfold byte; lia.
  - reflexivity.
  - reflexivity.
  - reflexivity.
  - reflexivity.
  - simpl. lia.
Defined.

Lemma line_counting_witness :
  exists s',
    gets 6 (initial (unlines [CR; LF] [bytes "a"; bytes "b"] ++ bytes "c")) =
      Ok tt s' /\
    pending s' = bytes "c" /\
    line_nr s' = 0 + line_breaks 0 (unlines [CR; LF] [bytes "a"; bytes "b"]) /\
    cr s' = false /\
    (forall eol lines,
        In eol eol_styles -> forallb one_line lines = true ->
        false = false -> unlines [CR; LF] [bytes "a"; bytes "b"] = unlines eol lines ->
        line_nr s' = 0 + Z.of_nat (List.length lines)).
Proof.
  apply (line_counting (unlines [CR; LF] [bytes "a"; bytes "b"])
           (initial (unlines [CR; LF] [bytes "a"; bytes "b"] ++ bytes "c"))
           0 (bytes "c")).
  - apply wf_initial. repeat constructor; unfold byte; lia.
  - reflexivity.
  - reflexivity.
Defined.

(** C8.  A trigger of 80 identifier characters is refused, one of 79 is
    taken; so is a replacement of 80 and of 79. *)
Theorem trigger_of_80_rejected (stdin : list Z) :
  main [repeat 97 80] (initial stdin) =
    Fatal (text (repeat 97 80)) (initial stdin) /\
  arguments [repeat 97 79] false (mkTables [] []) (initial stdin) =
    Ok (mkTables [repeat 97 79] [[]]) (initial stdin) /\
  main [bytes "a:" ++ repeat 97 80] (initial stdin) =
    Fatal (text (bytes "a:" ++ repeat 97 80)) (initial stdin) /\
  arguments [bytes "a:" ++ repeat 97 79] false (mkTables [] []) (initial stdin) =
    Ok (mkTables [bytes "a"] [repeat 97 79]) (initial stdin).
Proof. splits; vm_compute; reflexivity. Qed.

(** C9, as the specification states it: the byte after the NUL that ends
    a line comment is read and written, and a NUL in an open macro body
    raises no error: the lookahead of [stuff] drops it and the expansion
    completes. *)
Lemma nul_not_end_of_input :
  (let r := main [] (initial (bytes "//" ++ [0] ++ bytes "b")) in
   r = Ok tt (mkState [] 0 false 1 (bytes "//b")) /\ In 98 (stdout r)) /\
  (let r := main [bytes "debug"]
                 (initial (bytes "/*debug a" ++ [0] ++ bytes "b*/")) in
   r = Ok tt (mkState [] 0 false 1 (bytes "{ ab;}")) /\
   forall msg s, r <> Fatal msg s).
Proof.
  split; split.
  - vm_compute. reflexivity.
  - vm_compute. do 2 right. left. reflexivity.
  - vm_compute. reflexivity.
  - intros msg s. vm_compute. discriminate.
Qed.

Lemma nul_read_by_get_witness :
  get true (initial [0; 98]) = Ok EOF (initial [98]) /\
  string_loop 1 DQUOTE true 7 (initial [0; 98]) =
    Fatal "unterminated string literal." (set_line_nr 7 (initial [98])).
Proof.
  pose proof (nul_read_by_get (initial [0; 98]) 0 eq_refl
                (or_introl (ex_intro _ [98] eq_refl))) as H.
  split.
  - exact (proj1 H true).
  - exact (proj1 (proj2 (proj2 H)) DQUOTE true 7 eq_refl).
Defined.

(** C6.  A comment that is not a pattern and opens with 80 identifier
    characters is not copied verbatim: the 80th is written twice.  With
    79 the copy is exact, and a nested and an unterminated comment stop the
    scan with their diagnostics. *)
Theorem long_comment_not_verbatim :
  main [] (initial (bytes "/*" ++ repeat 97 80 ++ bytes "*/")) =
    Ok tt (mkState [] 0 false 1 (bytes "/*" ++ repeat 97 81 ++ bytes "*/")) /\
  main [] (initial (bytes "/*" ++ repeat 97 79 ++ bytes "*/")) =
    Ok tt (mkState [] 0 false 1 (bytes "/*" ++ repeat 97 79 ++ bytes "*/")) /\
  main [] (initial (bytes "/*a/*b*/")) =
    Fatal "nested comment." (mkState (bytes "b*/") 0 false 1 (bytes "/*a/*")) /\
  main [] (initial (bytes "/*a*")) =
    Fatal "unterminated comment." (mkState [] 0 false 1 (bytes "/*a*")).
Proof. splits; vm_compute; reflexivity. Qed.

(** C7.  A line terminator that directly follows the slash and star of a
    block comment is counted twice: the string left open on line 4 is
    reported on line 5, in each of the three line styles.  With a blank
    between the star and the end of the line it is reported on line 4. *)
Theorem terminator_after_comment_open :
  Forall (fun eol =>
            exists s,
              main [] (initial (note_then_string (bytes "/*") eol)) =
                Fatal "unterminated string literal." s /\
              line_nr s = 5 /\
              stderr_text "unterminated string literal." s =
                String.append "JSDev: 5. unterminated string literal."
                              (text [CR; LF]))
         eol_styles /\
  Forall (fun eol =>
            exists s,
              main [] (initial (note_then_string (bytes "/* ") eol)) =
                Fatal "unterminated string literal." s /\
              line_nr s = 4)
         eol_styles.
Proof.
  split; repeat constructor; vm_compute; eexists; splits; reflexivity.
Qed.

End Examples.

(** * The diagnostics of the scan *)

Section ScanDiagnostics.

Lemma good_bind {A B} n L (m : M A) (k : A -> M B) s :
  good n L (m s) ->
  (forall a s1, n <= line_nr s1 -> good n L (k a s1)) ->
  good n L (bind m k s).
Proof.
  unfold bind, good at 1. destruct (m s); auto.
Qed.

Lemma good_ret {A} n L (a : A) s : n <= line_nr s -> good n L (ret a s).
Proof. auto. Qed.

Lemma good_error {A} n L msg s :
  n <= line_nr s -> In msg L -> good n L (@error A msg s).
Proof. unfold good, error. auto. Qed.

Lemma good_get n L e s : n <= line_nr s -> good n L (get e s).
Proof.
  intros H. destruct s as [i p c l o].
  unfold good, get, bind, read, modify, fgetc, ret, emit. simpl in *.
  destruct (negb (p =? 0)); simpl;
    [| destruct i as [|b i]; simpl];
    repeat match goal with
           | |- context [if ?b then _ else _] => destruct b; simpl
           end; lia.
Qed.

Lemma good_peek n L s : n <= line_nr s -> good n L (peek s).
Proof.
  intros H. destruct s as [i p c l o].
  unfold good, peek, bind, read, modify, fgetc, ret. simpl in *.
  destruct (negb (p =? 0)); simpl; [lia|].
  destruct i; simpl; lia.
Qed.

Lemma good_peek_is n L x s : n <= line_nr s -> good n L (peek_is x s).
Proof.
  intros H. unfold peek_is. apply good_bind; [now apply good_peek|].
  intros a s1 H1. now apply good_ret.
Qed.

Lemma good_peek_comment n L s : n <= line_nr s -> good n L (peek_comment s).
Proof.
  intros H. unfold peek_comment. apply good_bind; [now apply good_peek_is|].
  intros [] s1 H1; [now apply good_ret | now apply good_peek_is].
Qed.

Lemma good_emit n L c s : n <= line_nr s -> good n L (emit c s).
Proof. intros H. unfold good, emit. destruct (0 <? c); exact H. Qed.

Lemma good_emits n L l s : n <= line_nr s -> good n L (emits l s).
Proof. intros H. exact H. Qed.

Lemma good_close n L (b : bool) c s :
  n <= line_nr s ->
  good n L ((if b && (c =? 42) then peek_is 47 else ret false) s).
Proof.
  intros H. destruct (b && (c =? 42)); [now apply good_peek_is | now apply good_ret].
Qed.

Lemma good_escape n L c s :
  n <= line_nr s -> good n L ((if c =? 92 then get true else ret c) s).
Proof.
  intros H. destruct (c =? 92); [now apply good_get | now apply good_ret].
Qed.

Lemma good_string_loop (fuel : nat) :
  forall q ic was s n L,
    n <= line_nr s -> n <= was ->
    In "unterminated string literal."%string L ->
    (ic = true -> In "unexpected close comment in string."%string L) ->
    good n L (string_loop fuel q ic was s).
Proof.
  induction fuel as [|fuel IH]; intros q ic was s n L Hs Hwas H1 H2; [exact I|].
  cbn [string_loop].
  apply good_bind; [now apply good_get|]. intros c s1 Hs1.
  destruct (c =? q); [now apply good_ret|].
  apply good_bind; [now apply good_escape|]. intros c2 s2 Hs2.
  destruct ic; cbn [andb].
  - apply good_bind; [now apply (good_close n L true)|]. intros close s3 Hs3.
    destruct close; [apply good_error; auto|].
    destruct (c2 =? EOF); [|apply IH; auto].
    apply good_bind; [exact Hwas|]. intros _ s4 Hs4. apply good_error; auto.
  - rewrite bind_ret.
    destruct (c2 =? EOF); [|apply IH; auto].
    apply good_bind; [exact Hwas|]. intros _ s4 Hs4. apply good_error; auto.
Qed.

Lemma good_string fuel q ic s n L :
  n <= line_nr s ->
  In "unterminated string literal."%string L ->
  (ic = true -> In "unexpected close comment in string."%string L) ->
  good n L (string fuel q ic s).
Proof.
  intros Hs H1 H2. unfold string. unfold bind, read.
  apply good_string_loop; auto.
Qed.

Lemma good_regexp_set (fuel : nat) :
  forall ic s n L,
    n <= line_nr s ->
    In "unterminated set in Regular Expression literal."%string L ->
    (ic = true -> In "unexpected close comment in regexp."%string L) ->
    good n L (regexp_set fuel ic s).
Proof.
  induction fuel as [|fuel IH]; intros ic s n L Hs H1 H2; [exact I|].
  cbn [regexp_set].
  apply good_bind; [now apply good_get|]. intros c s1 Hs1.
  destruct (c =? 93); [now apply good_ret|].
  apply good_bind; [now apply good_escape|]. intros c2 s2 Hs2.
  destruct ic; cbn [andb].
  - apply good_bind; [now apply (good_close n L true)|]. intros close s3 Hs3.
    destruct close; [apply good_error; auto|].
    destruct (c2 =? EOF); [apply good_error; auto | apply IH; auto].
  - rewrite bind_ret.
    destruct (c2 =? EOF); [apply good_error; auto | apply IH; auto].
Qed.

Lemma good_regexp_loop (fuel : nat) :
  forall ic was s n L,
    n <= line_nr s -> n <= was ->
    In "unterminated set in Regular Expression literal."%string L ->
    In "unterminated regexp literal."%string L ->
    (ic = true -> In "unexpected close comment in regexp."%string L /\
                  In "unexpected comment."%string L) ->
    good n L (regexp_loop fuel ic was s).
Proof.
  induction fuel as [|fuel IH]; intros ic was s n L Hs Hwas H1 H2 H3; [exact I|].
  cbn [regexp_loop].
  apply good_bind; [now apply good_get|]. intros c s1 Hs1.
  apply good_bind.
  - destruct (c =? 91).
    + apply good_bind.
      * apply good_regexp_set; auto. intros ->. now apply H3.
      * intros a s2 Hs2. now apply good_ret.
    + destruct (c =? 47).
      * destruct ic.
        -- apply good_bind; [now apply good_peek_comment|]. intros cm s2 Hs2.
           destruct cm; [apply good_error; auto; now apply H3 | now apply good_ret].
        -- rewrite bind_ret. now apply good_ret.
      * destruct (c =? 92); [|now apply good_ret].
        apply good_bind; [now apply good_get|].
        intros a s2 Hs2. now apply good_ret.
  - intros [c2|] s2 Hs2; [|now apply good_ret].
    destruct ic; cbn [andb].
    + apply good_bind; [now apply (good_close n L true)|]. intros close s3 Hs3.
      destruct close; [apply good_error; auto; now apply H3|].
      destruct (c2 =? EOF); [|apply IH; auto].
      apply good_bind; [exact Hwas|]. intros _ s4 Hs4. apply good_error; auto.
    + rewrite bind_ret.
      destruct (c2 =? EOF); [|apply IH; auto].
      apply good_bind; [exact Hwas|]. intros _ s4 Hs4. apply good_error; auto.
Qed.

Lemma good_regexp fuel ic s n L :
  n <= line_nr s ->
  In "unterminated set in Regular Expression literal."%string L ->
  In "unterminated regexp literal."%string L ->
  (ic = true -> In "unexpected close comment in regexp."%string L /\
                In "unexpected comment."%string L) ->
  good n L (regexp fuel ic s).
Proof.
  intros Hs H1 H2 H3. unfold regexp. unfold bind, read.
  apply good_regexp_loop; auto.
Qed.

Ltac msg := cbv [scan_messages macro_messages app In]; tauto.

Lemma good_slash fuel left s n :
  n <= line_nr s ->
  good n (scan_messages ++ macro_messages)
       ((cm <- peek_comment ;;
         if cm then error "unexpected comment."
         else (if pre_regexp left then regexp fuel true else ret tt)) s).
Proof.
  intros Hs. apply good_bind; [now apply good_peek_comment|]. intros cm s1 Hs1.
  destruct cm; [apply good_error; [auto | msg]|].
  destruct (pre_regexp left); [|now apply good_ret].
  apply good_regexp; auto; try msg.
Qed.

Lemma good_condition_loop (fuel : nat) :
  forall left paren s n,
    n <= line_nr s ->
    good n (scan_messages ++ macro_messages) (condition_loop fuel left paren s).
Proof.
  induction fuel as [|fuel IH]; intros left paren s n Hs; [exact I|].
  cbn [condition_loop].
  apply good_bind; [now apply good_get|]. intros c s1 Hs1.
  apply good_bind.
  - destruct ((c =? 40) || (c =? 123) || (c =? 91)); [now apply good_ret|].
    destruct ((c =? 41) || (c =? 125) || (c =? 93)).
    { destruct (paren - 1 =? 0); now apply good_ret. }
    destruct (c =? EOF); [apply good_error; [auto | msg]|].
    destruct (is_quote c).
    { apply good_bind; [apply good_string; auto; intros; msg|].
      intros _ s2 Hs2. now apply good_ret. }
    destruct (c =? 47).
    + apply good_bind; [now apply good_peek_comment|]. intros cm s2 Hs2.
      destruct cm; [apply good_error; [auto | msg]|].
      apply good_bind; [|intros _ s3 Hs3; now apply good_ret].
      destruct (pre_regexp left); [|now apply good_ret].
      apply good_regexp; auto; try msg.
    + apply good_bind.
      * destruct (c =? 42); [now apply good_peek_is | now apply good_ret].
      * intros close s2 Hs2.
        destruct close; [apply good_error; [auto | msg] | now apply good_ret].
  - intros [p|] s2 Hs2; [now apply IH | now apply good_ret].
Qed.

Lemma good_stuff_stars (fuel : nat) :
  forall s n L, n <= line_nr s -> good n L (stuff_stars fuel s).
Proof.
  induction fuel as [|fuel IH]; intros s n L Hs; [exact I|].
  cbn [stuff_stars].
  apply good_bind; [now apply good_peek_is|]. intros star s1 Hs1.
  destruct star; [|now apply good_ret].
  apply good_bind; [now apply good_get|]. intros _ s2 Hs2.
  apply good_bind; [now apply good_peek_is|]. intros slash s3 Hs3.
  destruct slash.
  - apply good_bind; [now apply good_get|]. intros _ s4 Hs4. now apply good_ret.
  - apply good_bind; [now apply good_emit|]. intros _ s4 Hs4. now apply IH.
Qed.

Lemma good_stuff_loop (fuel : nat) :
  forall left s n,
    n <= line_nr s ->
    good n (scan_messages ++ macro_messages) (stuff_loop fuel left s).
Proof.
  induction fuel as [|fuel IH]; intros left s n Hs; [exact I|].
  cbn [stuff_loop].
  apply good_bind; [now apply good_stuff_stars|]. intros closed s1 Hs1.
  destruct closed; [now apply good_ret|].
  apply good_bind; [now apply good_get|]. intros c s2 Hs2.
  apply good_bind; [|intros _ s3 Hs3; now apply IH].
  destruct (c =? EOF); [apply good_error; [auto | msg]|].
  destruct (is_quote c); [apply good_string; auto; intros; msg|].
  destruct (c =? 47); [|now apply good_ret].
  now apply good_slash.
Qed.

Lemma good_expand fuel t cmd_nr s n :
  n <= line_nr s ->
  good n (scan_messages ++ macro_messages) (expand fuel t cmd_nr s).
Proof.
  intros Hs. unfold expand.
  apply good_bind; [now apply good_peek|]. intros c s1 Hs1.
  apply good_bind.
  { destruct (c =? 40); [|now apply good_ret].
    apply good_bind; [now apply good_emits|]. intros _ s2 Hs2.
    now apply good_condition_loop. }
  intros _ s2 Hs2.
  apply good_bind; [now apply good_emit|]. intros _ s3 Hs3.
  apply good_bind; [|intros _ s4 Hs4; now apply good_emits].
  destruct (nth (Z.to_nat cmd_nr) (commands t) []).
  - now apply good_stuff_loop.
  - apply good_bind; [now apply good_emits|]. intros _ s4 Hs4.
    apply good_bind; [now apply good_emit|]. intros _ s5 Hs5.
    apply good_bind; [now apply good_stuff_loop|]. intros _ s6 Hs6.
    apply good_bind; [now apply good_emit|]. intros _ s7 Hs7.
    now apply good_ret.
Qed.

Lemma good_line_comment (fuel : nat) :
  forall s n L, n <= line_nr s -> good n L (line_comment fuel s).
Proof.
  induction fuel as [|fuel IH]; intros s n L Hs; [exact I|].
  cbn [line_comment].
  apply good_bind; [now apply good_get|]. intros c s1 Hs1.
  destruct ((c =? 10) || (c =? 13) || (c =? EOF)); [now apply good_ret | now apply IH].
Qed.

Lemma good_read_cmd (k : nat) :
  forall c cmd s n L, n <= line_nr s -> good n L (read_cmd k c cmd s).
Proof.
  induction k as [|k IH]; intros c cmd s n L Hs; [now apply good_ret|].
  cbn [read_cmd].
  apply good_bind; [now apply good_get|]. intros c1 s1 Hs1.
  destruct (negb (is_alphanum c1)); [now apply good_ret | now apply IH].
Qed.

Lemma good_echo_comment (fuel : nat) :
  forall c s n L,
    n <= line_nr s ->
    In "unterminated comment."%string L -> In "nested comment."%string L ->
    good n L (echo_comment fuel c s).
Proof.
  induction fuel as [|fuel IH]; intros c s n L Hs H1 H2; [exact I|].
  cbn [echo_comment].
  apply good_bind.
  { destruct (c =? EOF); [now apply good_error | now apply good_ret]. }
  intros _ s1 Hs1.
  destruct (c =? 47).
  - apply good_bind; [now apply good_get|]. intros c1 s2 Hs2.
    apply good_bind; [|intros _ s3 Hs3; now apply IH].
    destruct (c1 =? 42); [now apply good_error | now apply good_ret].
  - destruct (c =? 42).
    + apply good_bind; [now apply good_get|]. intros c1 s2 Hs2.
      destruct (c1 =? 47); [now apply good_ret | now apply IH].
    + apply good_bind; [now apply good_get|]. intros c1 s2 Hs2. now apply IH.
Qed.

Lemma match_from_nil cmd l n :
  0 <= n -> 0 <= match_from cmd l n -> l <> [].
Proof. destruct l; [simpl; unfold EOF; lia | discriminate]. Qed.

Lemma process_messages_scan t m : In m scan_messages -> In m (process_messages t).
Proof. intros H. apply in_or_app. now left. Qed.

Lemma process_messages_macro t m :
  cmds t <> [] -> In m (scan_messages ++ macro_messages) ->
  In m (process_messages t).
Proof.
  unfold process_messages. destruct (cmds t); [congruence | auto].
Qed.

Lemma good_incl {A} n (L L' : list String.string) (r : result A) :
  (forall m, In m L -> In m L') -> good n L r -> good n L' r.
Proof. unfold good. destruct r; auto. intros H [H1 H2]. auto. Qed.

Lemma good_process_loop (t : tables) (fuel : nat) :
  forall c left s n,
    n <= line_nr s -> good n (process_messages t) (process_loop fuel t c left s).
Proof.
  induction fuel as [|fuel IH]; intros c left s n Hs; [exact I|].
  assert (Hscan : forall m, In m scan_messages -> In m (process_messages t))
    by apply process_messages_scan.
  cbn [process_loop].
  destruct (c =? EOF); [now apply good_ret|].
  destruct (is_quote c).
  { apply good_bind; [now apply good_emit|]. intros _ s1 Hs1.
    apply good_bind; [|intros _ s2 Hs2; now apply IH].
    apply good_string; auto; [apply Hscan; msg | discriminate]. }
  destruct (c =? 47).
  2:{ apply good_bind; [now apply good_emit|]. intros _ s1 Hs1.
      apply good_bind; [now apply good_get|]. intros c1 s2 Hs2. now apply IH. }
  apply good_bind; [now apply good_peek_is|]. intros slash s1 Hs1.
  destruct slash.
  { apply good_bind; [now apply good_emit|]. intros _ s2 Hs2.
    apply good_bind; [now apply good_line_comment|]. intros _ s3 Hs3.
    apply good_bind; [now apply good_get|]. intros c1 s4 Hs4. now apply IH. }
  apply good_bind; [now apply good_peek_is|]. intros star s2 Hs2.
  destruct star.
  2:{ apply good_bind; [now apply good_emit|]. intros _ s3 Hs3.
      apply good_bind.
      - destruct (pre_regexp left); [|now apply good_ret].
        apply good_regexp; auto; try (apply Hscan; msg). discriminate.
      - intros _ s4 Hs4.
        apply good_bind; [now apply good_get|]. intros c1 s5 Hs5. now apply IH. }
  apply good_bind; [now apply good_get|]. intros _ s3 Hs3.
  apply good_bind; [now apply good_read_cmd|]. intros [cmd c1] s4 Hs4.
  apply good_bind; [exact Hs4|]. intros _ s5 Hs5.
  destruct (0 <=? (if (List.length cmd =? 0)%nat then -1 else match_cmd t cmd))
    eqn:Ei.
  - assert (Hne : cmds t <> []).
    { destruct (List.length cmd =? 0)%nat; [discriminate|].
      apply Z.leb_le in Ei. eapply match_from_nil; [|exact Ei]. lia. }
    apply good_bind.
    + eapply good_incl; [|now apply good_expand].
      intros m. now apply process_messages_macro.
    + intros _ s6 Hs6.
      apply good_bind; [now apply good_get|]. intros c2 s7 Hs7. now apply IH.
  - apply good_bind; [now apply good_emits|]. intros _ s6 Hs6.
    apply good_bind; [now apply good_emits|]. intros _ s7 Hs7.
    apply good_bind;
      [apply good_echo_comment; auto; apply Hscan; msg|].
    intros _ s8 Hs8.
    apply good_bind; [now apply good_get|]. intros c2 s9 Hs9. now apply IH.
Qed.

Lemma good_process (t : tables) (s : state) :
  good 1 (process_messages t) (process t s).
Proof.
  unfold process.
  apply good_bind; [unfold good, modify; simpl; lia|]. intros _ s1 Hs1.
  apply good_bind; [now apply good_get|]. intros c s2 Hs2.
  unfold bind, read. now apply good_process_loop.
Qed.

End ScanDiagnostics.

(** * The output is only added to *)

Section Frame.

Lemma framed_ret {A} (a : A) : framed (ret a).
Proof. intros o s. reflexivity. Qed.

Lemma framed_bind {A B} (m : M A) (k : A -> M B) :
  framed m -> (forall a, framed (k a)) -> framed (bind m k).
Proof.
  intros Hm Hk o s. unfold bind. rewrite Hm.
  destruct (m s); simpl; auto. apply Hk.
Qed.

Lemma framed_error {A} msg : framed (@error A msg).
Proof. intros o s. reflexivity. Qed.

Lemma framed_out_of_fuel {A} : framed (@out_of_fuel A).
Proof. intros o s. reflexivity. Qed.

Lemma framed_undefined {A} : framed (@undefined A).
Proof. intros o s. reflexivity. Qed.

Lemma framed_emit c : framed (emit c).
Proof.
  intros o s. unfold emit, shift_result, shift, set_out.
  destruct (0 <? c); simpl.
  - rewrite app_assoc. reflexivity.
  - reflexivity.
Qed.

Lemma framed_emits l : framed (emits l).
Proof.
  intros o s. unfold emits, shift_result, shift, set_out. simpl.
  rewrite app_assoc. reflexivity.
Qed.

Lemma framed_fgetc : framed fgetc.
Proof. intros o s. unfold fgetc. simpl. destruct (input s); reflexivity. Qed.

Lemma framed_read {A} (f : state -> A) :
  (forall o s, f (shift o s) = f s) -> framed (read f).
Proof. intros H o s. unfold read. rewrite H. reflexivity. Qed.

Lemma framed_modify (g : state -> state) :
  (forall o s, g (shift o s) = shift o (g s)) -> framed (modify g).
Proof. intros H o s. unfold modify. rewrite H. reflexivity. Qed.

Ltac framed_step :=
  first
    [ match goal with H : _ |- _ => apply H end
    | apply framed_ret | apply framed_error | apply framed_out_of_fuel
    | apply framed_undefined
    | apply framed_emit | apply framed_emits | apply framed_fgetc
    | apply framed_read; reflexivity | apply framed_modify; reflexivity
    | apply framed_bind; [|intro]
    | match goal with
      | |- framed (if ?b then _ else _) => destruct b
      | |- framed (match ?x with _ => _ end) => destruct x
      | |- framed (let (_, _) := ?x in _) => destruct x
      end ].

Ltac framed_tac := repeat framed_step.

Lemma framed_peek : framed peek.
Proof. unfold peek. framed_tac. Qed.

Lemma framed_get e : framed (get e).
Proof. unfold get. framed_tac. Qed.

Lemma framed_unget c : framed (unget c).
Proof. unfold unget. framed_tac. Qed.

Lemma framed_peek_is x : framed (peek_is x).
Proof. unfold peek_is. pose proof framed_peek. framed_tac. Qed.

Lemma framed_peek_comment : framed peek_comment.
Proof. unfold peek_comment. pose proof framed_peek_is. framed_tac. Qed.

Lemma framed_string_loop fuel : forall q ic was, framed (string_loop fuel q ic was).
Proof.
  pose proof framed_get. pose proof framed_peek_is.
  induction fuel as [|fuel IH]; intros q ic was; cbn [string_loop]; framed_tac.
Qed.

Lemma framed_string fuel q ic : framed (string fuel q ic).
Proof. unfold string. pose proof (framed_string_loop fuel). framed_tac. Qed.

Lemma framed_regexp_set fuel : forall ic, framed (regexp_set fuel ic).
Proof.
  pose proof framed_get. pose proof framed_peek_is.
  induction fuel as [|fuel IH]; intros ic; cbn [regexp_set]; framed_tac.
Qed.

Lemma framed_regexp_loop fuel : forall ic was, framed (regexp_loop fuel ic was).
Proof.
  pose proof framed_get. pose proof framed_peek_is. pose proof framed_peek_comment.
  induction fuel as [|fuel IH]; intros ic was; [apply framed_out_of_fuel|];
    cbn [regexp_loop];
    pose proof (framed_regexp_set (S fuel)); framed_tac.
Qed.

Lemma framed_regexp fuel ic : framed (regexp fuel ic).
Proof. unfold regexp. pose proof (framed_regexp_loop fuel). framed_tac. Qed.

Lemma framed_condition_loop fuel : forall left paren, framed (condition_loop fuel left paren).
Proof.
  pose proof framed_get. pose proof framed_peek_is. pose proof framed_peek_comment.
  induction fuel as [|fuel IH]; intros left paren; [apply framed_out_of_fuel|];
    cbn [condition_loop];
    pose proof (framed_string (S fuel)); pose proof (framed_regexp (S fuel));
    framed_tac.
Qed.

Lemma framed_stuff_stars fuel : framed (stuff_stars fuel).
Proof.
  pose proof framed_get. pose proof framed_peek_is.
  induction fuel as [|fuel IH]; cbn [stuff_stars]; framed_tac.
Qed.

Lemma framed_stuff_loop fuel : forall left, framed (stuff_loop fuel left).
Proof.
  pose proof framed_get. pose proof framed_peek_comment.
  induction fuel as [|fuel IH]; intros left; [apply framed_out_of_fuel|];
    cbn [stuff_loop];
    pose proof (framed_string (S fuel)); pose proof (framed_regexp (S fuel));
    pose proof (framed_stuff_stars (S fuel)); framed_tac.
Qed.

Lemma framed_expand fuel t cmd_nr : framed (expand fuel t cmd_nr).
Proof.
  unfold expand, condition, stuff.
  pose proof framed_peek. pose proof (framed_condition_loop fuel).
  pose proof (framed_stuff_loop fuel). framed_tac.
Qed.

Lemma framed_line_comment fuel : framed (line_comment fuel).
Proof.
  pose proof framed_get.
  induction fuel as [|fuel IH]; cbn [line_comment]; framed_tac.
Qed.

Lemma framed_read_cmd k : forall c cmd, framed (read_cmd k c cmd).
Proof.
  pose proof framed_get.
  induction k as [|k IH]; intros c cmd; cbn [read_cmd]; framed_tac.
Qed.

Lemma framed_echo_comment fuel : forall c, framed (echo_comment fuel c).
Proof.
  pose proof framed_get.
  induction fuel as [|fuel IH]; intros c; cbn [echo_comment]; framed_tac.
Qed.

Lemma framed_process_loop t fuel : forall c left, framed (process_loop fuel t c left).
Proof.
  pose proof framed_get. pose proof framed_peek_is. pose proof framed_unget.
  induction fuel as [|fuel IH]; intros c left; [apply framed_out_of_fuel|];
    cbn [process_loop];
    pose proof (framed_string (S fuel)); pose proof (framed_regexp (S fuel));
    pose proof (framed_line_comment (S fuel));
    pose proof (framed_read_cmd MAX_CMD_LENGTH);
    pose proof (framed_expand (S fuel) t);
    pose proof (framed_echo_comment (S fuel)); framed_tac.
Qed.

Lemma framed_process t : framed (process t).
Proof.
  unfold process. pose proof framed_get. pose proof (framed_process_loop t).
  framed_tac.
Qed.

Lemma framed_declare arg t : framed (declare arg t).
Proof. unfold declare. framed_tac. Qed.

Lemma framed_arguments argv : forall comment t, framed (arguments argv comment t).
Proof.
  pose proof framed_declare.
  induction argv as [|arg argv IH]; intros comment t; cbn [arguments]; framed_tac.
Qed.

Lemma framed_main argv : framed (main argv).
Proof.
  unfold main. pose proof framed_arguments. pose proof framed_process.
  framed_tac.
Qed.

(** X3.  [-comment text] at the head of the command line puts the line
    [// text] in front of the output and changes nothing else of the run. *)
Theorem comment_option (txt : list Z) (argv : list (list Z)) (stdin : list Z) :
  main (bytes "-comment" :: txt :: argv) (initial stdin) =
  shift_result (bytes "// " ++ txt ++ [LF]) (main argv (initial stdin)).
Proof.
  set (line := bytes "// " ++ txt ++ [LF]).
  set (s0 := set_line_nr 0 (set_cr false (initial stdin))).
  set (run := bind (arguments argv false (mkTables [] [])) (fun t => process t)).
  change (main argv (initial stdin)) with (run s0).
  change (main (bytes "-comment" :: txt :: argv) (initial stdin))
    with (run (set_out (((out s0 ++ bytes "// ") ++ txt) ++ [LF]) s0)).
  change (set_out (((out s0 ++ bytes "// ") ++ txt) ++ [LF]) s0)
    with (set_out ((bytes "// " ++ txt) ++ [LF]) s0).
  rewrite <- app_assoc.
  replace (set_out (bytes "// " ++ txt ++ [LF]) s0) with (shift line s0)
    by (unfold shift; change (out s0) with (@nil Z); now rewrite app_nil_r).
  apply framed_bind; [apply framed_arguments | intros t; apply framed_process].
Qed.

End Frame.

(** * Lookahead and pushback *)

Section Lookahead.

(** X4.  Looking ahead is invisible to the read that follows, unless the
    byte looked at is a NUL: [peek] then [get] is [get] alone, for the
    character returned, the line counter, the echo and the input left.  A
    NUL met by [peek] is dropped instead, and the [get] that follows reads
    the byte after it. *)
Theorem peek_then_get (e : bool) (s : state) :
  (preview s = 0 -> hd 1 (input s) <> 0 -> (peek ;; get e) s = get e s) /\
  (preview s <> 0 -> (peek ;; get e) s = get e s) /\
  (preview s = 0 -> hd 1 (input s) = 0 ->
   (peek ;; get e) s = get e (set_input (tl (input s)) s)).
Proof.
  destruct s as [i p c l o]. simpl. splits.
  - intros -> Hhd. destruct i as [|b i]; [reflexivity|].
    simpl in Hhd. unfold bind, peek, get, bind, read, modify, fgetc, ret.
    simpl. apply Z.eqb_neq in Hhd. rewrite Hhd. reflexivity.
  - intros Hp. unfold bind at 1. unfold peek, bind, read, ret. simpl.
    apply Z.eqb_neq in Hp. rewrite Hp. reflexivity.
  - intros -> Hhd. destruct i as [|b i]; [discriminate|].
    simpl in Hhd. subst b. reflexivity.
Qed.

Lemma peek_then_get_witness :
  (peek ;; get true) (initial (bytes "ab")) = get true (initial (bytes "ab")) /\
  (peek ;; get true) (initial (0 :: bytes "b")) = get true (initial (bytes "b")).
Proof.
  split.
  - apply (proj1 (peek_then_get true (initial (bytes "ab"))));
      [reflexivity | discriminate].
  - apply (proj2 (proj2 (peek_then_get true (initial (0 :: bytes "b")))));
      reflexivity.
Defined.

(** X5.  A character pushed back is read again as if it were the next
    byte of the input: [get] counts it and clears or sets the [cr] flag a
    second time, so a line terminator that is pushed back after it was
    read is counted twice. *)
Theorem unget_then_get (e : bool) (c : Z) (s : state) :
  c <> 0 ->
  (unget c ;; get e) s = get e (set_preview 0 (set_input (c :: input s) s)) /\
  forall r, preview s = 0 -> input s = c :: r ->
    (c = CR \/ (c = LF /\ cr s = false)) ->
    exists s',
      (d <- get false ;; unget d ;; get e) s = Ok c s' /\
      line_nr s' = line_nr s + 2 /\ input s' = r /\ preview s' = 0.
Proof.
  intros Hc. destruct s as [i p k l o]. split.
  - unfold bind, unget, modify, get, bind, read, modify, fgetc, ret. simpl.
    apply Z.eqb_neq in Hc. rewrite Hc. simpl.
    destruct (c <=? 0) eqn:E; simpl.
    + reflexivity.
    + destruct (c =? 13); simpl; [reflexivity|].
      destruct ((c =? 10) && negb k); reflexivity.
  - simpl. intros r -> -> H.
    exists (mkState r 0 (c =? 13) (l + 1 + 1) (if e then o ++ [c] else o)).
    split; [|simpl; split; [lia | auto]].
    destruct H as [-> | [-> ->]]; destruct e; reflexivity.
Qed.

Lemma unget_then_get_witness :
  exists s',
    (d <- get false ;; unget d ;; get true) (initial [LF; 97]) = Ok LF s' /\
    line_nr s' = line_nr (initial [LF; 97]) + 2 /\ input s' = [97] /\
    preview s' = 0.
Proof.
  apply (proj2 (unget_then_get true LF (initial [LF; 97]) ltac:(discriminate))
               [97] eq_refl eq_refl).
  right. split; reflexivity.
Defined.

End Lookahead.

(** * The command table *)

Section Match.

Lemma str_eqb_eq (a b : list Z) : str_eqb a b = true <-> a = b.
Proof.
  revert b. induction a as [|x a IH]; intros [|y b]; simpl;
    try (split; [discriminate | congruence]); [tauto|].
  rewrite andb_true_iff, Z.eqb_eq, IH. split; [intros [-> ->]; reflexivity|].
  intros H. injection H as -> ->. auto.
Qed.

Lemma match_from_spec (cmd : list Z) (l : list (list Z)) :
  forall n : Z,
    0 <= n ->
    (match_from cmd l n = EOF /\ ~ In cmd l) \/
    exists i : nat,
      match_from cmd l n = n + Z.of_nat i /\
      nth_error l i = Some cmd /\ ~ In cmd (firstn i l).
Proof.
  induction l as [|x l IH]; intros n Hn; simpl.
  - left. auto.
  - destruct (str_eqb cmd x) eqn:E.
    + apply str_eqb_eq in E. subst x. right. exists 0%nat. simpl.
      split; [lia | auto].
    + assert (Hx : x <> cmd).
      { intros ->. assert (H : str_eqb cmd cmd = true) by now apply str_eqb_eq.
        congruence. }
      destruct (IH (n + 1) ltac:(lia)) as [[H1 H2] | (i & H1 & H2 & H3)].
      * left. split; [exact H1|]. intros [H | H]; auto.
      * right. exists (S i). simpl. splits; auto; [lia|].
        intros [H | H]; auto.
Qed.

Lemma nth_error_in_firstn {X} (l : list X) (i j : nat) (x : X) :
  nth_error l i = Some x -> (i < j)%nat -> In x (firstn j l).
Proof.
  intros H Hij. apply (nth_error_In _ i). rewrite nth_error_firstn.
  apply Nat.ltb_lt in Hij. rewrite Hij. exact H.
Qed.

(** X6.  [match] returns the index of the first entry of the table equal
    to the command, and -1 when there is none: of two declarations of the
    same trigger the earlier one is used. *)
Theorem match_first (t : tables) (cmd : list Z) :
  (match_cmd t cmd = EOF <-> ~ In cmd (cmds t)) /\
  (forall i : nat,
      match_cmd t cmd = Z.of_nat i <->
      nth_error (cmds t) i = Some cmd /\ ~ In cmd (firstn i (cmds t))) /\
  EOF <= match_cmd t cmd < Z.of_nat (List.length (cmds t)).
Proof.
  unfold match_cmd.
  destruct (match_from_spec cmd (cmds t) 0 ltac:(lia))
    as [[H1 H2] | (i & H1 & H2 & H3)].
  - rewrite H1. split; [|split].
    + tauto.
    + intros i. unfold EOF. split; [lia|]. intros [H _].
      apply nth_error_In in H. contradiction.
    + unfold EOF. lia.
  - rewrite H1. simpl.
    assert (Hi : (i < List.length (cmds t))%nat)
      by (apply nth_error_Some; congruence).
    split; [|split].
    + unfold EOF. split; [lia|]. intros H. exfalso. apply H.
      eapply nth_error_In; eauto.
    + intros j. split.
      * intros Hj. apply Nat2Z.inj in Hj. subst j. auto.
      * intros [Hj1 Hj2]. f_equal.
        destruct (Nat.lt_trichotomy i j) as [Hlt | [-> | Hgt]]; auto; exfalso.
        -- apply Hj2. apply (nth_error_in_firstn _ i j); auto.
        -- apply H3. apply (nth_error_in_firstn _ j i); auto.
    + unfold EOF. lia.
Qed.

End Match.

(** * Literals cut short and regular expressions *)

Section Literals.

Lemma star_slash_free_tail c l :
  star_slash_free (c :: l) = true -> star_slash_free l = true.
Proof. simpl. intros H. apply andb_prop in H. tauto. Qed.

Lemma star_slash_free_head c d l :
  star_slash_free (c :: d :: l) = true -> c = 42 -> d <> 47.
Proof.
  simpl. intros H -> ->. apply andb_prop in H as [H _]. discriminate.
Qed.

Lemma star_slash_free_app (l tail : list Z) :
  star_slash_free l = true -> star_slash_free tail = true ->
  hd 0 tail <> 47 -> star_slash_free (l ++ tail) = true.
Proof.
  intros Hl Ht Hhd. induction l as [|c l IH]; [exact Ht|].
  assert (Hl' := star_slash_free_tail _ _ Hl).
  change (star_slash_free (c :: l ++ tail) = true). cbn [star_slash_free].
  rewrite (IH Hl'), andb_true_r.
  destruct l as [|d l]; simpl in *.
  - destruct tail as [|d tail]; [now rewrite andb_false_r|].
    simpl in Hhd. apply Z.eqb_neq in Hhd. rewrite Hhd. now rewrite andb_false_r.
  - apply andb_prop in Hl as [Hl _]. exact Hl.
Qed.

(** The check lets [c] through when the text that follows it holds no
    slash right after a star. *)
Lemma close_check_free (ic : bool) (c : Z) (l : list Z) (s : state) :
  wf s -> pending s = l ->
  (ic = true -> star_slash_free (c :: l) = true) ->
  exists s1,
    (if ic && (c =? 42) then peek_is 47 else ret false) s = Ok false s1 /\
    wf s1 /\ pending s1 = l /\ out s1 = out s /\
    line_nr s1 = line_nr s /\ cr s1 = cr s.
Proof.
  intros Hwf Hp Hfree.
  destruct (close_check_pass ic c s Hwf) as (s1 & H1 & H2 & H3 & H4).
  - intros Hic Hc d r Hd. rewrite Hd in Hp. subst l.
    exact (star_slash_free_head c d r (Hfree Hic) Hc).
  - exists s1. rewrite H3, Hp in *. splits; tauto.
Qed.

Lemma string_loop_unterminated (fuel : nat) :
  forall (q : Z) (ic : bool) (was : Z) (s : state) (body tail : list Z),
    wf s ->
    is_quote q = true ->
    str_body q body = true ->
    (ic = true -> star_slash_free (body ++ tail) = true) ->
    tail = [] \/ tail = [92] ->
    pending s = body ++ tail ->
    (List.length body < fuel)%nat ->
    exists s',
      string_loop fuel q ic was s = Fatal "unterminated string literal." s' /\
      out s' = out s ++ body ++ tail /\ line_nr s' = was /\ pending s' = [].
Proof.
  induction fuel as [|fuel IH];
    intros q ic was s body tail Hwf Hq Hbody Hfree Htail Hp Hlen;
    [inversion Hlen|].
  assert (Hall : Forall byte (body ++ tail))
    by (rewrite <- Hp; now apply wf_pending).
  destruct (is_quote_facts q Hq) as (Hq92 & Hq47 & Hq42 & HqE).
  assert (HEq : (EOF =? q) = false) by (rewrite Z.eqb_sym; exact HqE).
  assert (Hend : forall s0, wf s0 -> pending s0 = [] ->
            exists s',
              (c <- get true ;;
               close <- (if ic && (c =? 42) then peek_is 47 else ret false) ;;
               if close then error "unexpected close comment in string."
               else if c =? EOF then
                      modify (set_line_nr was) ;;
                      error "unterminated string literal."
                    else string_loop fuel q ic was) s0 =
                Fatal "unterminated string literal." s' /\
              out s' = out s0 /\ line_nr s' = was /\ pending s' = []).
  { intros s0 Hwf0 Hp0.
    rewrite (bind_ok _ _ _ _ _ (get_nil true s0 Hwf0 Hp0)).
    change (EOF =? 42) with false. rewrite andb_false_r. rewrite bind_ret.
    change (EOF =? EOF) with true. cbv iota.
    eexists. split; [reflexivity|]. auto. }
  cbn [string_loop].
  destruct body as [|c b]; simpl in Hp.
  - destruct Htail as [-> | ->].
    + rewrite (bind_ok _ _ _ _ _ (get_nil true s Hwf Hp)).
      rewrite HEq. change (EOF =? 92) with false. cbv iota. rewrite bind_ret.
      change (EOF =? 42) with false. rewrite andb_false_r. rewrite bind_ret.
      change (EOF =? EOF) with true. cbv iota.
      eexists. split; [reflexivity|]. simpl. rewrite app_nil_r. auto.
    + rewrite (bind_ok _ _ _ _ _ (get_cons true s 92 [] Hwf Hp)).
      rewrite Z.eqb_sym, Hq92. change (92 =? 92) with true. cbv iota.
      destruct (Hend (fetched true 92 [] s)) as (s' & Hrun & Ho & Hl & Hpe);
        [apply wf_fetched; constructor | reflexivity |].
      exists s'. split; [exact Hrun|]. rewrite Ho. auto.
  - rewrite (bind_ok _ _ _ _ _ (get_cons true s c _ Hwf Hp)).
    simpl in Hbody. inversion Hall as [|? ? Hc Hall']; subst.
    destruct (c =? q) eqn:Ecq; [discriminate|].
    destruct (c =? 92) eqn:Ec92.
    + destruct b as [|e b']; [discriminate|].
      simpl in Hall'. inversion Hall' as [|? ? He Hall'']; subst.
      set (s1 := fetched true c (e :: b' ++ tail) s).
      assert (Hwf1 : wf s1) by (apply wf_fetched; assumption).
      rewrite (bind_ok _ _ _ _ _ (get_cons true s1 e (b' ++ tail) Hwf1 eq_refl)).
      set (s2 := fetched true e (b' ++ tail) s1).
      assert (Hwf2 : wf s2) by (apply wf_fetched; assumption).
      destruct (close_check_free ic e (b' ++ tail) s2 Hwf2 eq_refl)
        as (s3 & Hs3 & Hwf3 & Hp3 & Ho3 & _).
      { intros Hic. specialize (Hfree Hic).
        now apply star_slash_free_tail in Hfree. }
      rewrite (bind_ok _ _ _ _ _ Hs3).
      assert (HeE : (e =? EOF) = false) by (unfold EOF; destruct He; lia).
      rewrite HeE.
      destruct (IH q ic was s3 b' tail Hwf3 Hq Hbody) as (s' & Hrun & Hout & Hl & Hpend);
        auto.
      { intros Hic. specialize (Hfree Hic).
        now apply star_slash_free_tail, star_slash_free_tail in Hfree. }
      { simpl in Hlen. lia. }
      exists s'. split; [exact Hrun|]. split; [|tauto].
      rewrite Hout, Ho3. simpl. apply Z.eqb_eq in Ec92. subst c.
      rewrite <- !app_assoc. reflexivity.
    + set (s1 := fetched true c (b ++ tail) s).
      assert (Hwf1 : wf s1) by (apply wf_fetched; assumption).
      rewrite bind_ret.
      destruct (close_check_free ic c (b ++ tail) s1 Hwf1 eq_refl)
        as (s3 & Hs3 & Hwf3 & Hp3 & Ho3 & _).
      { intros Hic. exact (Hfree Hic). }
      rewrite (bind_ok _ _ _ _ _ Hs3).
      assert (HcE : (c =? EOF) = false) by (unfold EOF; destruct Hc; lia).
      rewrite HcE.
      destruct (IH q ic was s3 b tail Hwf3 Hq Hbody) as (s' & Hrun & Hout & Hl & Hpend);
        auto.
      { intros Hic. specialize (Hfree Hic).
        now apply star_slash_free_tail in Hfree. }
      { simpl in Hlen. lia. }
      exists s'. split; [exact Hrun|]. split; [|tauto].
      rewrite Hout, Ho3. simpl. rewrite <- !app_assoc. reflexivity.
Qed.

(** X7.  A string literal that the end of the input cuts short, after a
    complete body or after a backslash, is written out in full and then
    reported as unterminated with the line number that was current when
    [string] was called, however many lines the literal runs over. *)
Theorem string_unterminated (fuel : nat) (q : Z) (ic : bool) (s : state)
        (body tail : list Z) :
  wf s ->
  is_quote q = true ->
  str_body q body = true ->
  (ic = true -> star_slash_free body = true) ->
  tail = [] \/ tail = [92] ->
  pending s = body ++ tail ->
  (List.length body < fuel)%nat ->
  exists s',
    string fuel q ic s = Fatal "unterminated string literal." s' /\
    out s' = out s ++ body ++ tail /\ line_nr s' = line_nr s /\
    pending s' = [].
Proof.
  intros Hwf Hq Hbody Hfree Htail Hp Hlen. unfold string, bind, read.
  apply string_loop_unterminated; auto.
  intros Hic. apply star_slash_free_app; auto.
  - destruct Htail as [-> | ->]; reflexivity.
  - destruct Htail as [-> | ->]; simpl; lia.
Qed.

Lemma string_unterminated_witness :
  exists s',
    string 4 BACKTICK true (initial (bytes "a" ++ [LF] ++ bytes "b"))
      = Fatal "unterminated string literal." s' /\
    out s' = [] ++ (bytes "a" ++ [LF] ++ bytes "b") ++ [] /\
    line_nr s' = 0 /\ pending s' = [].
Proof.
  apply (string_unterminated 4 BACKTICK true
           (initial (bytes "a" ++ [LF] ++ bytes "b"))
           (bytes "a" ++ [LF] ++ bytes "b") []).
  - apply wf_initial. repeat constructor; unfold byte; lia.
  - reflexivity.
  - reflexivity.
  - reflexivity.
  - left. reflexivity.
  - reflexivity.
  - simpl. lia.
Defined.

Lemma star_slash_free_app_l (a b : list Z) :
  star_slash_free (a ++ b) = true -> star_slash_free a = true.
Proof.
  induction a as [|c a IH]; [reflexivity|]. intros H.
  change (star_slash_free (c :: a ++ b) = true) in H.
  assert (H' := star_slash_free_tail _ _ H).
  cbn [star_slash_free]. rewrite (IH H'), andb_true_r.
  destruct a as [|d a]; [now rewrite andb_false_r|].
  simpl in H. apply andb_prop in H as [H _]. exact H.
Qed.

Lemma star_slash_free_app_r (a b : list Z) :
  star_slash_free (a ++ b) = true -> star_slash_free b = true.
Proof.
  induction a as [|c a IH]; [auto|]. intros H. apply IH.
  exact (star_slash_free_tail _ _ H).
Qed.

(** The loop over a bracketed set, on the inside of a set followed by the
    closing bracket. *)
Lemma regexp_set_skips (fuel : nat) :
  forall (ic : bool) (s : state) (body rest : list Z),
    wf s ->
    str_body 93 body = true ->
    (ic = true -> star_slash_free body = true) ->
    pending s = body ++ 93 :: rest ->
    (List.length body < fuel)%nat ->
    exists s',
      regexp_set fuel ic s = Ok 93 s' /\
      out s' = out s ++ body ++ [93] /\
      pending s' = rest /\ preview s' = 0 /\ wf s'.
Proof.
  induction fuel as [|fuel IH]; intros ic s body rest Hwf Hbody Hfree Hp Hlen;
    [inversion Hlen|].
  assert (Hall : Forall byte (body ++ 93 :: rest))
    by (rewrite <- Hp; now apply wf_pending).
  cbn [regexp_set].
  destruct body as [|c b]; simpl in Hp.
  - rewrite (bind_ok _ _ _ _ _ (get_cons true s 93 rest Hwf Hp)).
    change (93 =? 93) with true. cbv iota. eexists; split; [reflexivity|].
    inversion Hall; subst. simpl. splits; auto with jsdev.
  - rewrite (bind_ok _ _ _ _ _ (get_cons true s c _ Hwf Hp)).
    simpl in Hbody. inversion Hall as [|? ? Hc Hall']; subst.
    destruct (c =? 93) eqn:Ecq; [discriminate|].
    destruct (c =? 92) eqn:Ec92.
    + destruct b as [|e b']; [discriminate|].
      simpl in Hall'. inversion Hall' as [|? ? He Hall'']; subst.
      set (s1 := fetched true c (e :: b' ++ 93 :: rest) s).
      assert (Hwf1 : wf s1) by (apply wf_fetched; assumption).
      rewrite (bind_ok _ _ _ _ _ (get_cons true s1 e (b' ++ 93 :: rest) Hwf1 eq_refl)).
      set (s2 := fetched true e (b' ++ 93 :: rest) s1).
      assert (Hwf2 : wf s2) by (apply wf_fetched; assumption).
      destruct (close_check_pass ic e s2 Hwf2) as (s3 & Hs3 & Hwf3 & Hp3 & Ho3 & _).
      { intros Hic He42 d r Hd. specialize (Hfree Hic).
        apply star_slash_free_tail in Hfree.
        change (pending s2) with (b' ++ 93 :: rest) in Hd.
        destruct b' as [|d' b'']; simpl in Hd; injection Hd as <- <-.
        - discriminate.
        - exact (star_slash_free_head e d' b'' Hfree He42). }
      rewrite (bind_ok _ _ _ _ _ Hs3).
      assert (HeE : (e =? EOF) = false) by (unfold EOF; destruct He; lia).
      rewrite HeE.
      destruct (IH ic s3 b' rest Hwf3 Hbody) as (s' & Hrun & Hout & Hpend & Hwf').
      { intros Hic. specialize (Hfree Hic).
        now apply star_slash_free_tail, star_slash_free_tail in Hfree. }
      { rewrite Hp3. reflexivity. }
      { simpl in Hlen. lia. }
      exists s'. split; [exact Hrun|]. split; [|tauto].
      rewrite Hout, Ho3. simpl. apply Z.eqb_eq in Ec92. subst c.
      rewrite <- !app_assoc. reflexivity.
    + set (s1 := fetched true c (b ++ 93 :: rest) s).
      assert (Hwf1 : wf s1) by (apply wf_fetched; assumption).
      rewrite bind_ret.
      destruct (close_check_pass ic c s1 Hwf1) as (s3 & Hs3 & Hwf3 & Hp3 & Ho3 & _).
      { intros Hic Hc42 d r Hd. specialize (Hfree Hic).
        change (pending s1) with (b ++ 93 :: rest) in Hd.
        destruct b as [|d' b'']; simpl in Hd; injection Hd as <- <-.
        - discriminate.
        - exact (star_slash_free_head c d' b'' Hfree Hc42). }
      rewrite (bind_ok _ _ _ _ _ Hs3).
      assert (HcE : (c =? EOF) = false) by (unfold EOF; destruct Hc; lia).
      rewrite HcE.
      destruct (IH ic s3 b rest Hwf3 Hbody) as (s' & Hrun & Hout & Hpend & Hwf').
      { intros Hic. specialize (Hfree Hic).
        now apply star_slash_free_tail in Hfree. }
      { rewrite Hp3. reflexivity. }
      { simpl in Hlen. lia. }
      exists s'. split; [exact Hrun|]. split; [|tauto].
      rewrite Hout, Ho3. simpl. rewrite <- !app_assoc. reflexivity.
Qed.

Lemma peek_comment_spec (s : state) :
  wf s ->
  exists s',
    peek_comment s =
      Ok (match pending s with
          | d :: _ => (d =? 47) || (d =? 42)
          | [] => false
          end) s' /\
    wf s' /\ pending s' = pending s /\ out s' = out s.
Proof.
  intros Hwf. unfold peek_comment.
  destruct (peek_is_spec 47 s Hwf ltac:(lia)) as (s1 & H1 & Hwf1 & Hp1 & Ho1).
  rewrite (bind_ok _ _ _ _ _ H1).
  destruct (pending s) as [|d r] eqn:Hp.
  - destruct (peek_is_spec 42 s1 Hwf1 ltac:(lia)) as (s2 & H2 & Hwf2 & Hp2 & Ho2).
    rewrite Hp1 in H2. exists s2. rewrite H2. splits; auto; congruence.
  - destruct (d =? 47) eqn:E.
    + exists s1. unfold ret. splits; auto.
    + destruct (peek_is_spec 42 s1 Hwf1 ltac:(lia)) as (s2 & H2 & Hwf2 & Hp2 & Ho2).
      rewrite Hp1 in H2. exists s2. rewrite H2. splits; auto; congruence.
Qed.

(** The loop of [regexp] on the parts of a body followed by the closing
    slash. *)
Lemma regexp_loop_skips (items : list re_item) :
  forall (fuel : nat) (ic : bool) (was : Z) (s : state) (rest : list Z),
    wf s ->
    forallb re_ok items = true ->
    (ic = true ->
     star_slash_free (flat_map re_text items ++ [47]) = true /\
     hd 0 rest <> 47 /\ hd 0 rest <> 42) ->
    pending s = flat_map re_text items ++ 47 :: rest ->
    (List.length (flat_map re_text items) < fuel)%nat ->
    exists s',
      regexp_loop fuel ic was s = Ok tt s' /\
      out s' = out s ++ flat_map re_text items ++ [47] /\
      pending s' = rest /\ wf s'.
Proof.
  induction items as [|i items IH];
    intros fuel ic was s rest Hwf Hok Hfree Hp Hlen;
    (destruct fuel as [|fuel]; [inversion Hlen|]);
    assert (Hall : Forall byte (pending s)) by (now apply wf_pending);
    rewrite Hp in Hall; cbn [regexp_loop]; simpl in Hp.
  - rewrite (bind_ok _ _ _ _ _ (get_cons true s 47 rest Hwf Hp)).
    change (47 =? 91) with false. change (47 =? 47) with true. cbv iota.
    inversion Hall as [|? ? _ Hrest]; subst.
    set (s1 := fetched true 47 rest s).
    assert (Hwf1 : wf s1) by (apply wf_fetched; assumption).
    destruct ic.
    + destruct (Hfree eq_refl) as (_ & H47 & H42).
      destruct (peek_comment_spec s1 Hwf1) as (s2 & H2 & Hwf2 & Hp2 & Ho2).
      change (pending s1) with rest in *.
      assert (E : match rest with d :: _ => (d =? 47) || (d =? 42) | [] => false end
                  = false).
      { destruct rest as [|d r]; [reflexivity|]. simpl in H47, H42.
        apply Z.eqb_neq in H47, H42. now rewrite H47, H42. }
      rewrite E in H2. rewrite bind_assoc, (bind_ok _ _ _ _ _ H2).
      exists s2. split; [reflexivity|]. rewrite Ho2. splits; auto.
    + exists s1. split; [reflexivity|]. splits; auto.
  - cbn [forallb] in Hok. apply andb_prop in Hok as [Hi Hok].
    cbn [flat_map] in Hp, Hlen, Hfree, Hall |- *.
    rewrite length_app in Hlen.
    assert (Hfree' : ic = true ->
              star_slash_free (flat_map re_text items ++ [47]) = true /\
              hd 0 rest <> 47 /\ hd 0 rest <> 42).
    { intros Hic. destruct (Hfree Hic) as (H1 & H2). split; [|exact H2].
      rewrite <- app_assoc in H1. now apply star_slash_free_app_r in H1. }
    set (more := flat_map re_text items) in *.
    destruct i as [c | e | l]; cbn [re_text] in *.
    + (* a plain byte *)
      simpl in Hp.
      rewrite (bind_ok _ _ _ _ _ (get_cons true s c _ Hwf Hp)).
      simpl in Hi. apply andb_prop in Hi as [Hi H91]. apply andb_prop in Hi as [H47 H92].
      apply negb_true_iff in H47, H92, H91. rewrite H91, H47, H92.
      rewrite bind_ret.
      simpl in Hall. inversion Hall as [|? ? Hc Hall']; subst.
      set (s1 := fetched true c (more ++ 47 :: rest) s).
      assert (Hwf1 : wf s1) by (apply wf_fetched; assumption).
      destruct (close_check_pass ic c s1 Hwf1) as (s3 & Hs3 & Hwf3 & Hp3 & Ho3 & _).
      { intros Hic Hc42 d r Hd. destruct (Hfree Hic) as (H1 & _).
        change (pending s1) with (more ++ 47 :: rest) in Hd.
        change (star_slash_free (c :: more ++ [47]) = true) in H1.
        clearbody more.
        destruct more as [|d' m']; simpl in Hd; injection Hd as <- <-.
        - subst c. discriminate H1.
        - exact (star_slash_free_head c d' _ H1 Hc42). }
      rewrite (bind_ok _ _ _ _ _ Hs3).
      assert (HcE : (c =? EOF) = false) by (unfold EOF; destruct Hc; lia).
      rewrite HcE.
      destruct (IH fuel ic was s3 rest Hwf3 Hok Hfree') as (s' & Hrun & Hout & Hpend & Hwf');
        [rewrite Hp3; reflexivity | simpl in Hlen; lia |].
      exists s'. split; [exact Hrun|]. rewrite Hout, Ho3. simpl.
      rewrite <- !app_assoc. splits; auto.
    + (* an escaped byte *)
      simpl in Hp.
      rewrite (bind_ok _ _ _ _ _ (get_cons true s 92 _ Hwf Hp)).
      change (92 =? 91) with false. change (92 =? 47) with false.
      change (92 =? 92) with true. cbv iota.
      simpl in Hall. inversion Hall as [|? ? _ Hall']; subst.
      inversion Hall' as [|? ? He Hall'']; subst.
      set (s1 := fetched true 92 (e :: more ++ 47 :: rest) s).
      assert (Hwf1 : wf s1) by (apply wf_fetched; assumption).
      rewrite bind_assoc.
      rewrite (bind_ok _ _ _ _ _ (get_cons true s1 e _ Hwf1 eq_refl)).
      rewrite bind_ret.
      set (s2 := fetched true e (more ++ 47 :: rest) s1).
      assert (Hwf2 : wf s2) by (apply wf_fetched; assumption).
      destruct (close_check_pass ic e s2 Hwf2) as (s3 & Hs3 & Hwf3 & Hp3 & Ho3 & _).
      { intros Hic He42 d r Hd. destruct (Hfree Hic) as (H1 & _).
        change (pending s2) with (more ++ 47 :: rest) in Hd.
        change (star_slash_free (92 :: e :: more ++ [47]) = true) in H1.
        apply star_slash_free_tail in H1.
        clearbody more.
        destruct more as [|d' m']; simpl in Hd; injection Hd as <- <-.
        - subst e. discriminate H1.
        - exact (star_slash_free_head e d' _ H1 He42). }
      rewrite (bind_ok _ _ _ _ _ Hs3).
      assert (HeE : (e =? EOF) = false) by (unfold EOF; destruct He; lia).
      rewrite HeE.
      destruct (IH fuel ic was s3 rest Hwf3 Hok Hfree') as (s' & Hrun & Hout & Hpend & Hwf');
        [rewrite Hp3; reflexivity | simpl in Hlen; lia |].
      exists s'. split; [exact Hrun|]. rewrite Hout, Ho3. simpl.
      rewrite <- !app_assoc. splits; auto.
    + (* a bracketed set *)
      assert (Hp' : pending s = 91 :: l ++ 93 :: more ++ 47 :: rest).
      { rewrite Hp. simpl. rewrite <- !app_assoc. reflexivity. }
      rewrite (bind_ok _ _ _ _ _ (get_cons true s 91 _ Hwf Hp')).
      change (91 =? 91) with true. cbv iota.
      assert (Hall' : Forall byte (l ++ 93 :: more ++ 47 :: rest)).
      { apply wf_pending in Hwf. rewrite Hp' in Hwf. now inversion Hwf. }
      set (s1 := fetched true 91 (l ++ 93 :: more ++ 47 :: rest) s).
      assert (Hwf1 : wf s1) by (apply wf_fetched; exact Hall').
      simpl in Hi, Hlen. rewrite length_app in Hlen. simpl in Hlen.
      destruct (regexp_set_skips (S fuel) ic s1 l (more ++ 47 :: rest) Hwf1 Hi)
        as (s2 & H2 & Ho2 & Hp2 & Hpv2 & Hwf2); [| reflexivity | lia |].
      { intros Hic. destruct (Hfree Hic) as (H1 & _).
        change (star_slash_free (91 :: ((l ++ [93]) ++ more) ++ [47]) = true) in H1.
        apply star_slash_free_tail in H1.
        rewrite <- !app_assoc in H1. now apply star_slash_free_app_l in H1. }
      rewrite bind_assoc, (bind_ok _ _ _ _ _ H2), bind_ret.
      destruct (close_check_pass ic 93 s2 Hwf2) as (s3 & Hs3 & Hwf3 & Hp3 & Ho3 & _);
        [intros; discriminate|].
      rewrite (bind_ok _ _ _ _ _ Hs3).
      change (93 =? EOF) with false. cbv iota.
      destruct (IH fuel ic was s3 rest Hwf3 Hok Hfree') as (s' & Hrun & Hout & Hpend & Hwf');
        [rewrite Hp3, Hp2; reflexivity | lia |].
      exists s'. split; [exact Hrun|]. rewrite Hout, Ho3, Ho2. simpl.
      rewrite <- !app_assoc. simpl. rewrite <- ?app_assoc. splits; auto.
Qed.

(** X8.  [regexp] consumes and echoes a regular expression literal up to
    and including the slash that closes it.  A slash does not close the
    literal after a backslash nor inside a bracketed set, where only an
    unescaped closing bracket ends the set.  Inside a pattern comment the
    literal must hold no star followed by a slash, and no slash or star
    may follow it. *)
Theorem regexp_skips (fuel : nat) (ic : bool) (s : state)
        (items : list re_item) (rest : list Z) :
  wf s ->
  forallb re_ok items = true ->
  (ic = true ->
   star_slash_free (flat_map re_text items ++ [47]) = true /\
   hd 0 rest <> 47 /\ hd 0 rest <> 42) ->
  pending s = flat_map re_text items ++ 47 :: rest ->
  (List.length (flat_map re_text items) < fuel)%nat ->
  exists s',
    regexp fuel ic s = Ok tt s' /\
    out s' = out s ++ flat_map re_text items ++ [47] /\
    pending s' = rest /\ wf s'.
Proof.
  intros Hwf Hok Hfree Hp Hlen. unfold regexp, bind, read.
  now apply regexp_loop_skips.
Qed.

Lemma regexp_skips_witness :
  exists s',
    regexp 10 true (initial (bytes "a\/[/\]]b/.x")) = Ok tt s' /\
    out s' = [] ++ flat_map re_text
                     [Chr 97; Esc 47; Class (bytes "/\]"); Chr 98] ++ [47] /\
    pending s' = bytes ".x" /\ wf s'.
Proof.
  apply (regexp_skips 10 true (initial (bytes "a\/[/\]]b/.x"))
           [Chr 97; Esc 47; Class (bytes "/\]"); Chr 98] (bytes ".x")).
  - apply wf_initial. repeat constructor; unfold byte; lia.
  - reflexivity.
  - intros _. split; [reflexivity|]. split; discriminate.
  - reflexivity.
  - simpl. lia.
Defined.

End Literals.

(** * Pattern comments: bodies and conditions *)

Section Macro.

Lemma get_spec (e : bool) (s : state) (c : Z) (r : list Z) :
  wf s -> pending s = c :: r ->
  exists s',
    get e s = Ok c s' /\ wf s' /\ pending s' = r /\ preview s' = 0 /\
    out s' = out s ++ (if e then [c] else []) /\
    line_nr s' = line_nr s + newline (cr s) c /\ cr s' = (c =? CR).
Proof.
  intros Hwf Hp. exists (fetched e c r s).
  assert (Hb : Forall byte (c :: r)) by (rewrite <- Hp; now apply wf_pending).
  inversion Hb; subst.
  split; [now apply get_cons|]. splits; auto with jsdev.
  simpl. destruct e; [reflexivity | now rewrite app_nil_r].
Qed.

Lemma get_end (e : bool) (s : state) :
  wf s -> pending s = [] ->
  exists s',
    get e s = Ok EOF s' /\ wf s' /\ pending s' = [] /\ preview s' = 0 /\
    out s' = out s /\ line_nr s' = line_nr s /\ cr s' = cr s.
Proof.
  intros Hwf Hp. exists (drained s).
  split; [now apply get_nil|]. splits; auto with jsdev.
Qed.

Lemma peek_is_full (x : Z) (s : state) :
  wf s -> 0 < x ->
  exists s',
    peek_is x s =
      Ok (match pending s with d :: _ => d =? x | [] => false end) s' /\
    wf s' /\ pending s' = pending s /\ out s' = out s /\
    line_nr s' = line_nr s /\ cr s' = cr s.
Proof.
  intros Hwf Hx. unfold peek_is.
  destruct (pending s) as [|d r] eqn:Hp.
  - rewrite (bind_ok _ _ _ _ _ (peek_nil s Hwf Hp)). exists (peeked EOF [] s).
    assert (E : (EOF =? x) = false) by (unfold EOF; lia).
    unfold ret. rewrite E. splits; auto using wf_peeked_eof.
  - assert (Hb : Forall byte (d :: r)) by (rewrite <- Hp; now apply wf_pending).
    inversion Hb; subst.
    rewrite (bind_ok _ _ _ _ _ (peek_cons s d r Hwf Hp)). exists (peeked d r s).
    splits; auto using wf_peeked, pending_peeked.
Qed.

(** The loop over the stars of a macro body: a run of stars that the
    closing slash does not follow is written out. *)
Lemma stuff_stars_run (n : nat) :
  forall (fuel : nat) (s : state) (tail : list Z),
    wf s -> pending s = repeat 42 n ++ tail ->
    hd 0 tail <> 42 -> (n = 0%nat \/ hd 0 tail <> 47) ->
    (n < fuel)%nat ->
    exists s',
      stuff_stars fuel s = Ok false s' /\ wf s' /\ pending s' = tail /\
      out s' = out s ++ repeat 42 n.
Proof.
  induction n as [|n IH]; intros fuel s tail Hwf Hp H42 H47 Hlen;
    (destruct fuel as [|fuel]; [inversion Hlen|]); cbn [stuff_stars];
    simpl in Hp.
  - destruct (peek_is_full 42 s Hwf ltac:(lia)) as (s1 & H1 & Hwf1 & Hp1 & Ho1 & _).
    rewrite (bind_ok _ _ _ _ _ H1). rewrite Hp.
    assert (E : match tail with d :: _ => d =? 42 | [] => false end = false).
    { destruct tail as [|d r]; [reflexivity|]. simpl in H42. now apply Z.eqb_neq. }
    rewrite E. exists s1. split; [reflexivity|]. rewrite Ho1, app_nil_r.
    splits; auto. congruence.
  - destruct (peek_is_full 42 s Hwf ltac:(lia)) as (s1 & H1 & Hwf1 & Hp1 & Ho1 & _).
    rewrite (bind_ok _ _ _ _ _ H1). rewrite Hp. change (42 =? 42) with true.
    cbv iota. rewrite Hp in Hp1.
    destruct (get_spec false s1 42 _ Hwf1 Hp1) as (s2 & H2 & Hwf2 & Hp2 & _ & Ho2 & _).
    rewrite (bind_ok _ _ _ _ _ H2).
    destruct (peek_is_full 47 s2 Hwf2 ltac:(lia)) as (s3 & H3 & Hwf3 & Hp3 & Ho3 & _).
    rewrite (bind_ok _ _ _ _ _ H3). rewrite Hp2.
    assert (E : match repeat 42 n ++ tail with d :: _ => d =? 47 | [] => false end
                = false).
    { destruct n as [|n]; simpl; [|reflexivity].
      destruct tail as [|d r]; [reflexivity|]. simpl in H47.
      destruct H47 as [H47 | H47]; [discriminate | now apply Z.eqb_neq]. }
    rewrite E.
    rewrite (bind_ok _ _ _ _ _ (emit_byte 42 s3 ltac:(unfold byte; lia))).
    assert (Hp4 : pending (set_out (out s3 ++ [42]) s3) = repeat 42 n ++ tail).
    { change (pending s3 = repeat 42 n ++ tail). congruence. }
    assert (H47' : n = 0%nat \/ hd 0 tail <> 47).
    { destruct H47 as [H47 | H47]; [discriminate | now right]. }
    destruct (IH fuel (set_out (out s3 ++ [42]) s3) tail
                (wf_set_out _ _ Hwf3) Hp4 H42 H47' ltac:(lia))
      as (s' & Hrun & Hwf' & Hp' & Ho').
    exists s'. split; [exact Hrun|]. splits; auto.
    rewrite Ho'. simpl. rewrite Ho3, Ho2, Ho1, app_nil_r, <- app_assoc.
    reflexivity.
Qed.

(** The run of stars that ends with the star and slash that close the
    comment. *)
Lemma stuff_stars_close (n : nat) :
  forall (fuel : nat) (s : state) (rest : list Z),
    wf s -> pending s = repeat 42 n ++ 42 :: 47 :: rest ->
    (n < fuel)%nat ->
    exists s',
      stuff_stars fuel s = Ok true s' /\ wf s' /\ pending s' = rest /\
      preview s' = 0 /\ out s' = out s ++ repeat 42 n.
Proof.
  induction n as [|n IH]; intros fuel s rest Hwf Hp Hlen;
    (destruct fuel as [|fuel]; [inversion Hlen|]); cbn [stuff_stars];
    simpl in Hp;
    destruct (peek_is_full 42 s Hwf ltac:(lia)) as (s1 & H1 & Hwf1 & Hp1 & Ho1 & _);
    rewrite (bind_ok _ _ _ _ _ H1); rewrite Hp; change (42 =? 42) with true;
    cbv iota; rewrite Hp in Hp1;
    destruct (get_spec false s1 42 _ Hwf1 Hp1) as (s2 & H2 & Hwf2 & Hp2 & _ & Ho2 & _);
    rewrite (bind_ok _ _ _ _ _ H2);
    destruct (peek_is_full 47 s2 Hwf2 ltac:(lia)) as (s3 & H3 & Hwf3 & Hp3 & Ho3 & _);
    rewrite (bind_ok _ _ _ _ _ H3); rewrite Hp2.
  - change (47 =? 47) with true. cbv iota. rewrite Hp2 in Hp3.
    destruct (get_spec false s3 47 _ Hwf3 Hp3) as (s4 & H4 & Hwf4 & Hp4 & Hpv4 & Ho4 & _).
    rewrite (bind_ok _ _ _ _ _ H4). exists s4. split; [reflexivity|].
    splits; auto. rewrite Ho4, Ho3, Ho2, Ho1, !app_nil_r. reflexivity.
  - assert (E : match repeat 42 n ++ 42 :: 47 :: rest with
                | d :: _ => d =? 47 | [] => false end = false)
      by (destruct n; reflexivity).
    rewrite E.
    rewrite (bind_ok _ _ _ _ _ (emit_byte 42 s3 ltac:(unfold byte; lia))).
    assert (Hp4 : pending (set_out (out s3 ++ [42]) s3)
                  = repeat 42 n ++ 42 :: 47 :: rest).
    { change (pending s3 = repeat 42 n ++ 42 :: 47 :: rest). congruence. }
    destruct (IH fuel (set_out (out s3 ++ [42]) s3) rest
                (wf_set_out _ _ Hwf3) Hp4 ltac:(lia))
      as (s' & Hrun & Hwf' & Hp' & Hpv' & Ho').
    exists s'. split; [exact Hrun|]. splits; auto.
    rewrite Ho'. simpl. rewrite Ho3, Ho2, Ho1, app_nil_r, <- app_assoc.
    reflexivity.
Qed.

(** The stars at the head of a body. *)
Lemma leading_stars (ps : list piece) :
  forallb piece_ok ps = true ->
  exists n ps',
    pieces_text ps = repeat 42 n ++ pieces_text ps' /\
    forallb piece_ok ps' = true /\
    match ps' with
    | Byte c :: _ => c <> 42
    | _ => True
    end.
Proof.
  induction ps as [|p ps IH]; intros Hok.
  - exists 0%nat, []. splits; auto.
  - cbn [forallb] in Hok. apply andb_prop in Hok as [Hp Hok].
    destruct p as [c | q b].
    + destruct (Z.eq_dec c 42) as [-> | Hc].
      * destruct (IH Hok) as (n & ps' & H1 & H2 & H3).
        exists (S n), ps'. unfold pieces_text in *. cbn [flat_map piece_text].
        rewrite H1. splits; auto.
      * exists 0%nat, (Byte c :: ps). cbn [forallb]. rewrite Hp, Hok.
        splits; auto.
    + exists 0%nat, (Quoted q b :: ps). cbn [forallb]. rewrite Hp, Hok.
      splits; auto.
Qed.

Lemma stars_then_slash (n : nat) :
  star_slash_free (repeat 42 n ++ [47]) = true -> n = 0%nat.
Proof.
  induction n as [|n IH]; [reflexivity|]. intros H. exfalso.
  destruct n as [|n]; [discriminate H|].
  apply star_slash_free_tail in H. specialize (IH H). discriminate.
Qed.

Lemma stuff_ends_shift (o a b : list Z) (e : body_end) (r : result unit) :
  stuff_ends (o ++ a) b e r -> stuff_ends o (a ++ b) e r.
Proof.
  destruct e; simpl; intros (s' & H1 & H2); exists s'; (split; [exact H1|]).
  - destruct H2 as (H2 & H3). split; [|exact H3]. now rewrite <- app_assoc in H2.
  - now rewrite <- !app_assoc in *.
  - now rewrite <- app_assoc in H2.
Qed.

(** [stuff] on the pieces of a body, whatever comes after them. *)
Lemma stuff_loop_pieces (fuel : nat) :
  forall (left : Z) (s : state) (ps : list piece) (e : body_end),
    wf s ->
    forallb piece_ok ps = true ->
    match e with
    | Comment x _ =>
        (x = 47 \/ x = 42) /\ star_slash_free (pieces_text ps ++ [47]) = true
    | _ => True
    end ->
    pending s = pieces_text ps ++ body_end_text e ->
    (List.length (pieces_text ps) < fuel)%nat ->
    stuff_ends (out s) (pieces_text ps) e (stuff_loop fuel left s).
Proof.
  induction fuel as [|fuel IH]; intros left s ps e Hwf Hok He Hp Hlen;
    [inversion Hlen|].
  destruct (leading_stars ps Hok) as (n & ps' & Htext & Hok' & Hhead).
  rewrite Htext in *. rewrite length_app, repeat_length in Hlen.
  rewrite <- app_assoc in Hp.
  cbn [stuff_loop].
  destruct ps' as [|p ps''].
  - (* only stars are left *)
    simpl in Hp. cbn [pieces_text flat_map] in *. rewrite app_nil_r in *.
    destruct e as [rest | x rest |]; cbn [body_end_text] in Hp.
    + destruct (stuff_stars_close n (S fuel) s rest Hwf Hp ltac:(lia))
        as (s1 & H1 & Hwf1 & Hp1 & Hpv1 & Ho1).
      rewrite (bind_ok _ _ _ _ _ H1). exists s1. splits; auto.
    + destruct He as [Hx He]. apply stars_then_slash in He. subst n.
      simpl in Hp |- *.
      destruct (stuff_stars_run 0 (S fuel) s (47 :: x :: rest) Hwf Hp)
        as (s1 & H1 & Hwf1 & Hp1 & Ho1); [discriminate | now left | lia |].
      rewrite (bind_ok _ _ _ _ _ H1).
      destruct (get_spec true s1 47 _ Hwf1 Hp1) as (s2 & H2 & Hwf2 & Hp2 & _ & Ho2 & _).
      rewrite (bind_ok _ _ _ _ _ H2).
      change (47 =? EOF) with false. change (is_quote 47) with false.
      change (47 =? 47) with true. cbv iota.
      destruct (peek_comment_spec s2 Hwf2) as (s3 & H3 & Hwf3 & Hp3 & Ho3).
      rewrite Hp2 in H3.
      assert (E : (x =? 47) || (x =? 42) = true)
        by (destruct Hx as [-> | ->]; reflexivity).
      rewrite E in H3. rewrite !bind_assoc, (bind_ok _ _ _ _ _ H3).
      eexists. split; [reflexivity|]. simpl.
      rewrite Ho3, Ho2, Ho1. simpl. now rewrite app_nil_r.
    + rewrite app_nil_r in Hp.
      destruct (stuff_stars_run n (S fuel) s [] Hwf)
        as (s1 & H1 & Hwf1 & Hp1 & Ho1);
        [now rewrite app_nil_r | discriminate | right; discriminate | lia |].
      rewrite (bind_ok _ _ _ _ _ H1).
      destruct (get_end true s1 Hwf1 Hp1) as (s2 & H2 & Hwf2 & Hp2 & _ & Ho2 & _).
      rewrite (bind_ok _ _ _ _ _ H2).
      change (EOF =? EOF) with true. cbv iota.
      eexists. split; [reflexivity|]. simpl. now rewrite Ho2, Ho1.
  - (* a piece that is no star comes next *)
    cbn [forallb] in Hok'. apply andb_prop in Hok' as [Hpok Hok''].
    change (pieces_text (p :: ps'')) with (piece_text p ++ pieces_text ps'') in *.
    rewrite length_app in Hlen.
    assert (He' : match e with
                  | Comment x _ =>
                      (x = 47 \/ x = 42) /\
                      star_slash_free (pieces_text ps'' ++ [47]) = true
                  | _ => True
                  end).
    { destruct e; auto. destruct He as [Hx He]. split; [exact Hx|].
      rewrite <- !app_assoc in He.
      now apply star_slash_free_app_r, star_slash_free_app_r in He. }
    apply stuff_ends_shift.
    destruct p as [c | q b]; cbn [piece_text piece_ok] in *.
    + destruct (plain_ordinary c Hpok) as (HE & Hq & H47).
      assert (Hcb := plain_byte c Hpok).
      simpl in Hp.
      destruct (stuff_stars_run n (S fuel) s _ Hwf Hp)
        as (s1 & H1 & Hwf1 & Hp1 & Ho1);
        [exact Hhead | right; simpl; now apply Z.eqb_neq | lia |].
      rewrite (bind_ok _ _ _ _ _ H1).
      destruct (get_spec true s1 c _ Hwf1 Hp1) as (s2 & H2 & Hwf2 & Hp2 & _ & Ho2 & _).
      rewrite (bind_ok _ _ _ _ _ H2). rewrite HE, Hq, H47. rewrite bind_ret.
      apply stuff_ends_shift.
      replace ((out s ++ repeat 42 n) ++ [c]) with (out s2)
        by (rewrite Ho2, Ho1; reflexivity).
      apply IH; auto. simpl in Hlen. lia.
    + apply andb_prop in Hpok as [Hpok Hfree]. apply andb_prop in Hpok as [Hq Hbody].
      destruct (is_quote_facts q Hq) as (Hq92 & Hq47 & Hq42 & HqE).
      assert (Hp' : pending s =
                    repeat 42 n ++
                    q :: b ++ q :: pieces_text ps'' ++ body_end_text e).
      { rewrite Hp. simpl. rewrite <- ?app_assoc. reflexivity. }
      destruct (stuff_stars_run n (S fuel) s _ Hwf Hp')
        as (s1 & H1 & Hwf1 & Hp1 & Ho1);
        [simpl; now apply Z.eqb_neq | right; simpl; now apply Z.eqb_neq | lia |].
      rewrite (bind_ok _ _ _ _ _ H1).
      destruct (get_spec true s1 q _ Hwf1 Hp1) as (s2 & H2 & Hwf2 & Hp2 & _ & Ho2 & _).
      rewrite (bind_ok _ _ _ _ _ H2). rewrite HqE, Hq.
      simpl in Hlen. rewrite length_app in Hlen. simpl in Hlen.
      destruct (string_loop_skips (S fuel) q true (line_nr s2) s2 b
                  (pieces_text ps'' ++ body_end_text e) Hwf2 Hq Hbody
                  (fun _ => Hfree) Hp2 ltac:(lia))
        as (s3 & H3 & Ho3 & Hp3 & Hpv3 & Hwf3).
      change (string_loop (S fuel) q true (line_nr s2) s2)
        with (string (S fuel) q true s2) in H3.
      rewrite (bind_ok _ _ _ _ _ H3).
      apply stuff_ends_shift.
      replace ((out s ++ repeat 42 n) ++ q :: b ++ [q]) with (out s3)
        by (rewrite Ho3, Ho2, Ho1; rewrite <- !app_assoc; reflexivity).
      apply IH; auto. lia.
Qed.

Lemma piece_head (p : piece) (ps : list piece) (tail : list Z) :
  piece_ok p = true ->
  exists d r, pieces_text (p :: ps) ++ tail = d :: r /\ d <> 47.
Proof.
  intros Hok. destruct p as [c | q b]; simpl in *.
  - exists c. eexists. split; [reflexivity|].
    destruct (plain_ordinary c Hok) as (_ & _ & H). now apply Z.eqb_neq.
  - exists q. eexists. split; [reflexivity|].
    apply andb_prop in Hok as [Hok _]. apply andb_prop in Hok as [Hq _].
    destruct (is_quote_facts q Hq) as (_ & H & _). now apply Z.eqb_neq.
Qed.

(** [condition] on the pieces of a condition, from the count [paren]. *)
Lemma condition_loop_pieces (ps : list piece) :
  forall (fuel : nat) (left paren : Z) (s : state) (rest : list Z),
    wf s ->
    forallb piece_ok ps = true ->
    closes paren ps = true ->
    pending s = pieces_text ps ++ rest ->
    (List.length (pieces_text ps) <= fuel)%nat ->
    exists s',
      condition_loop fuel left paren s = Ok tt s' /\
      out s' = out s ++ pieces_text ps /\ pending s' = rest /\
      preview s' = 0 /\ wf s'.
Proof.
  induction ps as [|p ps IH]; intros fuel left paren s rest Hwf Hok Hcl Hp Hlen;
    [discriminate|].
  cbn [forallb] in Hok. apply andb_prop in Hok as [Hpok Hok].
  change (pieces_text (p :: ps)) with (piece_text p ++ pieces_text ps) in *.
  rewrite length_app in Hlen. rewrite <- app_assoc in Hp.
  destruct p as [c | q b]; cbn [piece_text piece_ok closes] in *.
  - destruct fuel as [|fuel]; [simpl in Hlen; lia|].
    destruct (plain_ordinary c Hpok) as (HE & Hq & H47).
    simpl in Hp.
    destruct (get_spec true s c _ Hwf Hp) as (s1 & H1 & Hwf1 & Hp1 & Hpv1 & Ho1 & _).
    cbn [condition_loop]. rewrite (bind_ok _ _ _ _ _ H1).
    unfold opener, closer in Hcl.
    assert (Hnext : forall s2 l p',
              wf s2 -> pending s2 = pieces_text ps ++ rest -> out s2 = out s1 ->
              closes p' ps = true ->
              exists s',
                condition_loop fuel l p' s2 = Ok tt s' /\
                out s' = out s ++ [c] ++ pieces_text ps /\ pending s' = rest /\
                preview s' = 0 /\ wf s').
    { intros s2 l p' Hwf2 Hp2 Ho2 Hcl2.
      destruct (IH fuel l p' s2 rest Hwf2 Hok Hcl2 Hp2 ltac:(simpl in Hlen; lia))
        as (s' & Hrun & Hout & Hrest).
      exists s'. split; [exact Hrun|]. split; [|exact Hrest].
      rewrite Hout, Ho2, Ho1. now rewrite <- app_assoc. }
    destruct ((c =? 40) || (c =? 123) || (c =? 91)).
    { rewrite bind_ret. now apply Hnext. }
    destruct ((c =? 41) || (c =? 125) || (c =? 93)).
    { destruct (paren - 1 =? 0).
      - destruct ps; [|discriminate]. rewrite bind_ret. exists s1.
        splits; auto.
      - rewrite bind_ret. now apply Hnext. }
    rewrite HE, Hq, H47.
    destruct (c =? 42).
    + destruct (peek_is_full 47 s1 Hwf1 ltac:(lia)) as (s2 & H2 & Hwf2 & Hp2 & Ho2 & _).
      rewrite !bind_assoc, (bind_ok _ _ _ _ _ H2). rewrite Hp1.
      assert (E : match pieces_text ps ++ rest with
                  | d :: _ => d =? 47 | [] => false end = false).
      { destruct ps as [|p' ps']; [discriminate|].
        cbn [forallb] in Hok. apply andb_prop in Hok as [Hp' _].
        destruct (piece_head p' ps' rest Hp') as (d & r & -> & Hd).
        now apply Z.eqb_neq. }
      rewrite E. cbv iota. rewrite bind_ret. apply Hnext; auto. congruence.
    + mstep. now apply Hnext.
  - apply andb_prop in Hpok as [Hpok Hfree]. apply andb_prop in Hpok as [Hq Hbody].
    destruct (is_quote_facts q Hq) as (Hq92 & Hq47 & Hq42 & HqE).
    destruct fuel as [|fuel]; [simpl in Hlen; lia|].
    assert (Hp' : pending s = q :: b ++ q :: pieces_text ps ++ rest).
    { rewrite Hp. simpl. rewrite <- ?app_assoc. reflexivity. }
    destruct (get_spec true s q _ Hwf Hp') as (s1 & H1 & Hwf1 & Hp1 & Hpv1 & Ho1 & _).
    cbn [condition_loop]. rewrite (bind_ok _ _ _ _ _ H1).
    assert (Eo : (q =? 40) || (q =? 123) || (q =? 91) = false)
      by (destruct (is_quote_cases q Hq) as [-> | [-> | ->]]; reflexivity).
    assert (Ec : (q =? 41) || (q =? 125) || (q =? 93) = false)
      by (destruct (is_quote_cases q Hq) as [-> | [-> | ->]]; reflexivity).
    rewrite Eo, Ec, HqE, Hq.
    simpl in Hlen. rewrite length_app in Hlen. simpl in Hlen.
    destruct (string_loop_skips (S fuel) q true (line_nr s1) s1 b
                (pieces_text ps ++ rest) Hwf1 Hq Hbody
                (fun _ => Hfree) Hp1 ltac:(lia))
      as (s3 & H3 & Ho3 & Hp3 & Hpv3 & Hwf3).
    change (string_loop (S fuel) q true (line_nr s1) s1)
      with (string (S fuel) q true s1) in H3.
    rewrite !bind_assoc, (bind_ok _ _ _ _ _ H3), bind_ret.
    destruct (IH fuel (if 32 <? q then q else left) paren s3 rest Hwf3 Hok Hcl Hp3
                ltac:(lia))
      as (s' & Hrun & Hout & Hrest).
    exists s'. split; [exact Hrun|]. split; [|exact Hrest].
    rewrite Hout, Ho3, Ho1. simpl. rewrite <- !app_assoc. reflexivity.
Qed.

(** X9.  [stuff] copies a macro body made of bytes and string literals,
    stars and brackets included, and ends in one of three ways: at the
    star and slash that close the comment it returns, having consumed
    them without writing them; at a slash that opens a comment it writes
    the slash and stops with "unexpected comment."; at the end of the
    input it stops with "Unterminated stuff.". *)
Theorem stuff_outcomes (fuel : nat) (s : state) (ps : list piece)
        (e : body_end) :
  wf s ->
  forallb piece_ok ps = true ->
  match e with
  | Comment x _ =>
      (x = 47 \/ x = 42) /\ star_slash_free (pieces_text ps ++ [47]) = true
  | _ => True
  end ->
  pending s = pieces_text ps ++ body_end_text e ->
  (List.length (pieces_text ps) < fuel)%nat ->
  stuff_ends (out s) (pieces_text ps) e (stuff fuel s).
Proof. intros. unfold stuff. now apply stuff_loop_pieces. Qed.

Lemma stuff_outcomes_witness :
  stuff_ends [] (bytes "a*b('x')") (Close (bytes ";"))
             (stuff 10 (initial (bytes "a*b('x')*/;"))) /\
  stuff_ends [] (bytes "x = 1; ") (Comment 47 (bytes " note"))
             (stuff 10 (initial (bytes "x = 1; // note"))) /\
  stuff_ends [] (bytes "f(x") Cut (stuff 10 (initial (bytes "f(x"))).
Proof.
  splits.
  - apply (stuff_outcomes 10 (initial (bytes "a*b('x')*/;"))
             [Byte 97; Byte 42; Byte 98; Byte 40; Quoted 39 (bytes "x"); Byte 41]
             (Close (bytes ";"))).
    + apply wf_initial. repeat constructor; unfold byte; lia.
    + reflexivity.
    + exact I.
    + reflexivity.
    + simpl. lia.
  - apply (stuff_outcomes 10 (initial (bytes "x = 1; // note"))
             (map Byte (bytes "x = 1; ")) (Comment 47 (bytes " note"))).
    + apply wf_initial. repeat constructor; unfold byte; lia.
    + reflexivity.
    + split; [now left | reflexivity].
    + reflexivity.
    + simpl. lia.
  - apply (stuff_outcomes 10 (initial (bytes "f(x")) (map Byte (bytes "f(x")) Cut).
    + apply wf_initial. repeat constructor; unfold byte; lia.
    + reflexivity.
    + exact I.
    + reflexivity.
    + simpl. lia.
Defined.

(** X10.  [condition] copies a condition up to and including the closing
    bracket that matches its first one, and returns.  It counts brackets,
    braces and parentheses outside strings without telling their kinds
    apart, so any closing one answers any opening one. *)
Theorem condition_copies (fuel : nat) (left0 : Z) (s : state)
        (ps : list piece) (rest : list Z) :
  wf s ->
  forallb piece_ok ps = true ->
  closes 0 ps = true ->
  pending s = pieces_text ps ++ rest ->
  (List.length (pieces_text ps) <= fuel)%nat ->
  exists s',
    condition fuel left0 s = Ok tt s' /\
    out s' = out s ++ pieces_text ps /\ pending s' = rest /\
    preview s' = 0 /\ wf s'.
Proof. intros. unfold condition. now apply condition_loop_pieces. Qed.

Lemma condition_copies_witness :
  exists s',
    condition 12 0 (initial (bytes "(a[')']>0} y")) = Ok tt s' /\
    out s' = [] ++ bytes "(a[')']>0}" /\ pending s' = bytes " y" /\
    preview s' = 0 /\ wf s'.
Proof.
  apply (condition_copies 12 0 (initial (bytes "(a[')']>0} y"))
           [Byte 40; Byte 97; Byte 91; Quoted 39 (bytes ")"); Byte 93; Byte 62;
            Byte 48; Byte 125]
           (bytes " y")).
  - apply wf_initial. repeat constructor; unfold byte; lia.
  - reflexivity.
  - reflexivity.
  - reflexivity.
  - simpl. lia.
Defined.

Lemma expand_pieces (fuel : nat) (t : tables) (cmd_nr : Z) (s : state)
      (cond : option (list piece)) (body : list piece) (rest : list Z) :
  wf s ->
  match cond with
  | Some cps =>
      forallb piece_ok cps = true /\ closes 0 cps = true /\
      hd 0 (pieces_text cps) = 40
  | None => hd 0 (pieces_text body ++ [42]) <> 40
  end ->
  forallb piece_ok body = true ->
  pending s =
    match cond with Some cps => pieces_text cps | None => [] end
    ++ pieces_text body ++ 42 :: 47 :: rest ->
  (List.length (pending s) < fuel)%nat ->
  exists s',
    expand fuel t cmd_nr s = Ok tt s' /\
    out s' = out s ++ expansion (option_map pieces_text cond)
                        (nth (Z.to_nat cmd_nr) (commands t) [])
                        (pieces_text body) /\
    pending s' = rest /\ preview s' = 0 /\ wf s'.
Proof.
  intros Hwf Hcond Hbody Hp Hlen.
  assert (Hlen1 : (List.length (pieces_text body) < fuel)%nat).
  { rewrite Hp in Hlen. rewrite !length_app in Hlen. lia. }
  assert (Hstuff : forall s1 o,
            wf s1 -> pending s1 = pieces_text body ++ 42 :: 47 :: rest ->
            out s1 = out s ++ o ->
            exists s',
              (emit 123 ;;
               (match nth (Z.to_nat cmd_nr) (commands t) [] with
                | [] => stuff fuel
                | _ :: _ =>
                    emits (nth (Z.to_nat cmd_nr) (commands t) []) ;;
                    emit 40 ;; stuff fuel ;; emit 41 ;; ret tt
                end) ;;
               emits (bytes ";}")) s1 = Ok tt s' /\
              out s' =
                out s ++ o ++ [123] ++
                match nth (Z.to_nat cmd_nr) (commands t) [] with
                | [] => pieces_text body
                | _ :: _ =>
                    nth (Z.to_nat cmd_nr) (commands t) [] ++ [40] ++
                    pieces_text body ++ [41]
                end ++ bytes ";}" /\
              pending s' = rest /\ preview s' = 0 /\ wf s').
  { intros s1 o Hwf1 Hp1 Ho1.
    rewrite (bind_ok _ _ _ _ _ (emit_byte 123 s1 ltac:(unfold byte; lia))).
    set (s2 := set_out (out s1 ++ [123]) s1).
    destruct (nth (Z.to_nat cmd_nr) (commands t) []) as [|x command] eqn:Ecmd.
    - destruct (stuff_loop_pieces fuel 123 s2 body (Close rest)
                  (wf_set_out _ _ Hwf1) Hbody I Hp1 Hlen1)
        as (s' & Hrun & Hout & Hpend & Hpv' & Hwf').
      unfold stuff. rewrite (bind_ok _ _ _ _ _ Hrun).
      eexists. split; [reflexivity|]. simpl. rewrite Hout. simpl. rewrite Ho1.
      rewrite <- !app_assoc. splits; auto.
    - rewrite !bind_assoc. unfold emits at 1. unfold bind at 1.
      rewrite !bind_assoc.
      set (s3 := set_out _ s2).
      rewrite (bind_ok _ _ _ _ _ (emit_byte 40 s3 ltac:(unfold byte; lia))).
      rewrite !bind_assoc.
      set (s4 := set_out (out s3 ++ [40]) s3).
      destruct (stuff_loop_pieces fuel 123 s4 body (Close rest)
                  (wf_set_out _ _ (wf_set_out _ _ (wf_set_out _ _ Hwf1)))
                  Hbody I Hp1 Hlen1)
        as (s' & Hrun & Hout & Hpend & Hpv' & Hwf').
      unfold stuff. rewrite (bind_ok _ _ _ _ _ Hrun).
      rewrite !bind_assoc.
      rewrite (bind_ok _ _ _ _ _ (emit_byte 41 s' ltac:(unfold byte; lia))).
      rewrite !bind_ret.
      eexists. split; [reflexivity|]. simpl. rewrite Hout. simpl. rewrite Ho1.
      split; [|splits; auto].
      repeat (rewrite <- app_assoc; simpl). reflexivity. }
  unfold expand, expansion.
  destruct cond as [cps|]; cbn [option_map].
  - destruct Hcond as (Hok & Hcl & Hhd).
    destruct (pieces_text cps) as [|c0 ctext] eqn:Ect; [discriminate|].
    simpl in Hhd. subst c0. simpl in Hp.
    rewrite (bind_ok _ _ _ _ _ (peek_cons s 40 _ Hwf Hp)).
    change (40 =? 40) with true. cbv iota.
    set (s1 := peeked 40 (ctext ++ pieces_text body ++ 42 :: 47 :: rest) s).
    assert (Hb : Forall byte (40 :: ctext ++ pieces_text body ++ 42 :: 47 :: rest))
      by (rewrite <- Hp; now apply wf_pending).
    inversion Hb; subst.
    assert (Hwf1 : wf s1) by (apply wf_peeked; assumption).
    rewrite !bind_assoc. unfold emits at 1. unfold bind at 1.
    set (s2 := set_out _ s1).
    assert (Hwf2 : wf s2) by (apply wf_set_out; exact Hwf1).
    assert (Hp2 : pending s2 =
                  pieces_text cps ++ pieces_text body ++ 42 :: 47 :: rest).
    { rewrite Ect. unfold s2, s1. apply pending_peeked. assumption. }
    assert (Hlen2 : (List.length (pieces_text cps) <= fuel)%nat).
    { rewrite Hp in Hlen. rewrite Ect. simpl in Hlen |- *.
      rewrite !length_app in Hlen. lia. }
    destruct (condition_loop_pieces cps fuel 0 0 s2 _ Hwf2 Hok Hcl Hp2 Hlen2)
      as (s3 & Hrun & Hout & Hpend & Hpv3 & Hwf3).
    unfold condition.
    rewrite ?bind_assoc. rewrite (bind_ok _ _ _ _ _ Hrun).
    destruct (Hstuff s3 (bytes "if " ++ pieces_text cps) Hwf3 Hpend)
      as (s' & Hrun' & Hout' & Hrest').
    { rewrite Hout. simpl. rewrite <- app_assoc. reflexivity. }
    exists s'. split; [exact Hrun'|]. split; [|exact Hrest'].
    rewrite Hout', Ect. rewrite <- !app_assoc. reflexivity.
  - simpl in Hp.
    assert (Hpeek : exists c l, pending s = c :: l /\ (c =? 40) = false).
    { rewrite Hp. destruct (pieces_text body) as [|c l].
      - exists 42, (47 :: rest). split; reflexivity.
      - exists c, (l ++ 42 :: 47 :: rest). split; [reflexivity|].
        simpl in Hcond. now apply Z.eqb_neq. }
    destruct Hpeek as (c & l & Hcl & Hc40).
    rewrite (bind_ok _ _ _ _ _ (peek_cons s c l Hwf Hcl)).
    rewrite Hc40. rewrite bind_ret.
    assert (Hb : Forall byte (c :: l)) by (rewrite <- Hcl; now apply wf_pending).
    inversion Hb; subst.
    destruct (Hstuff (peeked c l s) []) as (s' & Hrun' & Hout' & Hrest').
    + apply wf_peeked; assumption.
    + rewrite pending_peeked by assumption. rewrite <- Hcl. exact Hp.
    + simpl. now rewrite app_nil_r.
    + exists s'. split; [exact Hrun'|]. split; [|exact Hrest'].
      rewrite Hout'. reflexivity.
Qed.

(** X11.  [expand] writes the expansion of a pattern comment whose
    condition and body are made of bytes and string literals: "if " and
    the condition as it stands, when the trigger is followed by an
    opening parenthesis, then the body between braces, as the argument of
    the replacement when the trigger has one, and a semicolon.  The body
    is copied from the first character after the trigger or the condition
    to the last before the star and slash, blanks included. *)
Theorem expand_writes (fuel : nat) (t : tables) (cmd_nr : Z) (s : state)
        (cond : option (list piece)) (body : list piece) (rest : list Z) :
  wf s ->
  match cond with
  | Some cps =>
      forallb piece_ok cps = true /\ closes 0 cps = true /\
      hd 0 (pieces_text cps) = 40
  | None => hd 0 (pieces_text body ++ [42]) <> 40
  end ->
  forallb piece_ok body = true ->
  pending s =
    match cond with Some cps => pieces_text cps | None => [] end
    ++ pieces_text body ++ 42 :: 47 :: rest ->
  (List.length (pending s) < fuel)%nat ->
  exists s',
    expand fuel t cmd_nr s = Ok tt s' /\
    out s' = out s ++ expansion (option_map pieces_text cond)
                        (nth (Z.to_nat cmd_nr) (commands t) [])
                        (pieces_text body) /\
    pending s' = rest /\ preview s' = 0 /\ wf s'.
Proof. apply expand_pieces. Qed.

Lemma expand_writes_witness :
  exists s',
    expand 20 (mkTables [bytes "alarm"] [bytes "alert"]) 0
           (initial (bytes "(x>0) 'go'*/;")) = Ok tt s' /\
    out s' = [] ++ expansion (Some (bytes "(x>0)")) (bytes "alert") (bytes " 'go'") /\
    pending s' = bytes ";" /\ preview s' = 0 /\ wf s'.
Proof.
  apply (expand_writes 20 (mkTables [bytes "alarm"] [bytes "alert"]) 0
           (initial (bytes "(x>0) 'go'*/;"))
           (Some (map Byte (bytes "(x>0)")))
           [Byte 32; Quoted 39 (bytes "go")] (bytes ";")).
  - apply wf_initial. repeat constructor; unfold byte; lia.
  - splits; reflexivity.
  - reflexivity.
  - reflexivity.
  - simpl. lia.
Defined.

End Macro.

(** * The close-comment check inside literals *)

Section CloseComment.

(** The check stops at a star that a slash follows. *)
Lemma close_check_hit (s : state) (rest : list Z) :
  wf s -> pending s = 47 :: rest ->
  exists s1,
    (if true && (42 =? 42) then peek_is 47 else ret false) s = Ok true s1 /\
    out s1 = out s /\ line_nr s1 = line_nr s.
Proof.
  intros Hwf Hp.
  destruct (peek_is_full 47 s Hwf ltac:(lia)) as (s1 & H1 & _ & _ & Ho & Hl & _).
  rewrite Hp in H1. exists s1. change (true && (42 =? 42)) with true.
  cbv iota. auto.
Qed.

(** After a star of a text without star-slash comes no slash, when none
    opens what follows the text. *)
Lemma star_not_closing (c : Z) (more tail : list Z) :
  star_slash_free (c :: more) = true -> hd 0 tail <> 47 ->
  c = 42 -> forall d r, more ++ tail = d :: r -> d <> 47.
Proof.
  intros Hfree Htail Hc d r Hd.
  destruct more as [|d' m]; simpl in Hd.
  - rewrite Hd in Htail. exact Htail.
  - injection Hd as <- <-. exact (star_slash_free_head c d' m Hfree Hc).
Qed.

Lemma esc_star_head (esc rest : list Z) :
  esc = [] \/ esc = [92] -> hd 0 (esc ++ 42 :: 47 :: rest) <> 47.
Proof. intros [-> | ->]; simpl; lia. Qed.

(** The loop of [string] inside a pattern comment, on a body that a star
    and a slash follow. *)
Lemma string_loop_close (fuel : nat) :
  forall (q was : Z) (s : state) (body esc rest : list Z),
    wf s ->
    is_quote q = true ->
    str_body q body = true ->
    star_slash_free body = true ->
    esc = [] \/ esc = [92] ->
    pending s = body ++ esc ++ 42 :: 47 :: rest ->
    (List.length body < fuel)%nat ->
    exists s',
      string_loop fuel q true was s =
        Fatal "unexpected close comment in string." s' /\
      out s' = out s ++ body ++ esc ++ [42].
Proof.
  induction fuel as [|fuel IH];
    intros q was s body esc rest Hwf Hq Hbody Hfree Hesc Hp Hlen;
    [inversion Hlen|].
  assert (Hall : Forall byte (body ++ esc ++ 42 :: 47 :: rest))
    by (rewrite <- Hp; now apply wf_pending).
  destruct (is_quote_facts q Hq) as (Hq92 & Hq47 & Hq42 & HqE).
  assert (Hhit : forall s0, wf s0 -> pending s0 = 47 :: rest ->
            exists s',
              (close <- (if true && (42 =? 42) then peek_is 47 else ret false) ;;
               if close then error "unexpected close comment in string."
               else if 42 =? EOF then
                      modify (set_line_nr was) ;;
                      error "unterminated string literal."
                    else string_loop fuel q true was) s0 =
                Fatal "unexpected close comment in string." s' /\
              out s' = out s0).
  { intros s0 Hwf0 Hp0.
    destruct (close_check_hit s0 rest Hwf0 Hp0) as (s1 & H1 & Ho1 & _).
    rewrite (bind_ok _ _ _ _ _ H1). eexists. split; [reflexivity | exact Ho1]. }
  cbn [string_loop].
  destruct body as [|c b]; simpl in Hp.
  - destruct Hesc as [-> | ->]; simpl in Hp, Hall.
    + rewrite (bind_ok _ _ _ _ _ (get_cons true s 42 _ Hwf Hp)).
      rewrite Z.eqb_sym, Hq42. change (42 =? 92) with false. cbv iota.
      rewrite bind_ret.
      inversion Hall as [|? ? _ Hall']; subst.
      destruct (Hhit (fetched true 42 (47 :: rest) s)) as (s' & Hrun & Ho);
        [apply wf_fetched; assumption | reflexivity |].
      exists s'. split; [exact Hrun|]. rewrite Ho. reflexivity.
    + rewrite (bind_ok _ _ _ _ _ (get_cons true s 92 _ Hwf Hp)).
      rewrite Z.eqb_sym, Hq92. change (92 =? 92) with true. cbv iota.
      inversion Hall as [|? ? _ Hall']; subst.
      set (s1 := fetched true 92 (42 :: 47 :: rest) s).
      assert (Hwf1 : wf s1) by (apply wf_fetched; assumption).
      rewrite (bind_ok _ _ _ _ _ (get_cons true s1 42 _ Hwf1 eq_refl)).
      inversion Hall' as [|? ? _ Hall'']; subst.
      destruct (Hhit (fetched true 42 (47 :: rest) s1)) as (s' & Hrun & Ho);
        [apply wf_fetched; assumption | reflexivity |].
      exists s'. split; [exact Hrun|]. rewrite Ho. simpl.
      rewrite <- app_assoc. reflexivity.
  - rewrite (bind_ok _ _ _ _ _ (get_cons true s c _ Hwf Hp)).
    simpl in Hbody. simpl in Hall. inversion Hall as [|? ? Hc Hall']; subst.
    destruct (c =? q) eqn:Ecq; [discriminate|].
    destruct (c =? 92) eqn:Ec92.
    + destruct b as [|e b']; [discriminate|].
      simpl in Hall'. inversion Hall' as [|? ? He Hall'']; subst.
      set (s1 := fetched true c (e :: b' ++ esc ++ 42 :: 47 :: rest) s).
      assert (Hwf1 : wf s1) by (apply wf_fetched; assumption).
      rewrite (bind_ok _ _ _ _ _ (get_cons true s1 e _ Hwf1 eq_refl)).
      set (s2 := fetched true e (b' ++ esc ++ 42 :: 47 :: rest) s1).
      assert (Hwf2 : wf s2) by (apply wf_fetched; assumption).
      destruct (close_check_pass true e s2 Hwf2) as (s3 & Hs3 & Hwf3 & Hp3 & Ho3 & _).
      { intros _. apply (star_not_closing e b').
        - now apply star_slash_free_tail in Hfree.
        - now apply esc_star_head. }
      rewrite (bind_ok _ _ _ _ _ Hs3).
      assert (HeE : (e =? EOF) = false) by (unfold EOF; destruct He; lia).
      rewrite HeE.
      destruct (IH q was s3 b' esc rest Hwf3 Hq Hbody) as (s' & Hrun & Hout); auto.
      { now apply star_slash_free_tail, star_slash_free_tail in Hfree. }
      { simpl in Hlen. lia. }
      exists s'. split; [exact Hrun|].
      rewrite Hout, Ho3. simpl. apply Z.eqb_eq in Ec92. subst c.
      rewrite <- !app_assoc. reflexivity.
    + set (s1 := fetched true c (b ++ esc ++ 42 :: 47 :: rest) s).
      assert (Hwf1 : wf s1) by (apply wf_fetched; assumption).
      rewrite bind_ret.
      destruct (close_check_pass true c s1 Hwf1) as (s3 & Hs3 & Hwf3 & Hp3 & Ho3 & _).
      { intros _. apply (star_not_closing c b); [exact Hfree|].
        now apply esc_star_head. }
      rewrite (bind_ok _ _ _ _ _ Hs3).
      assert (HcE : (c =? EOF) = false) by (unfold EOF; destruct Hc; lia).
      rewrite HcE.
      destruct (IH q was s3 b esc rest Hwf3 Hq Hbody) as (s' & Hrun & Hout); auto.
      { now apply star_slash_free_tail in Hfree. }
      { simpl in Hlen. lia. }
      exists s'. split; [exact Hrun|].
      rewrite Hout, Ho3. simpl. rewrite <- !app_assoc. reflexivity.
Qed.

(** The loop over a bracketed set, on the inside of a set that a star and
    a slash follow. *)
Lemma regexp_set_close (fuel : nat) :
  forall (s : state) (body esc rest : list Z),
    wf s ->
    str_body 93 body = true ->
    star_slash_free body = true ->
    esc = [] \/ esc = [92] ->
    pending s = body ++ esc ++ 42 :: 47 :: rest ->
    (List.length body < fuel)%nat ->
    exists s',
      regexp_set fuel true s =
        Fatal "unexpected close comment in regexp." s' /\
      out s' = out s ++ body ++ esc ++ [42].
Proof.
  induction fuel as [|fuel IH];
    intros s body esc rest Hwf Hbody Hfree Hesc Hp Hlen; [inversion Hlen|].
  assert (Hall : Forall byte (body ++ esc ++ 42 :: 47 :: rest))
    by (rewrite <- Hp; now apply wf_pending).
  assert (Hhit : forall s0, wf s0 -> pending s0 = 47 :: rest ->
            exists s',
              (close <- (if true && (42 =? 42) then peek_is 47 else ret false) ;;
               if close then error "unexpected close comment in regexp."
               else if 42 =? EOF then
                      error "unterminated set in Regular Expression literal."
                    else regexp_set fuel true) s0 =
                Fatal "unexpected close comment in regexp." s' /\
              out s' = out s0).
  { intros s0 Hwf0 Hp0.
    destruct (close_check_hit s0 rest Hwf0 Hp0) as (s1 & H1 & Ho1 & _).
    rewrite (bind_ok _ _ _ _ _ H1). eexists. split; [reflexivity | exact Ho1]. }
  cbn [regexp_set].
  destruct body as [|c b]; simpl in Hp.
  - destruct Hesc as [-> | ->]; simpl in Hp, Hall.
    + rewrite (bind_ok _ _ _ _ _ (get_cons true s 42 _ Hwf Hp)).
      change (42 =? 93) with false. change (42 =? 92) with false. cbv iota.
      rewrite bind_ret.
      inversion Hall as [|? ? _ Hall']; subst.
      destruct (Hhit (fetched true 42 (47 :: rest) s)) as (s' & Hrun & Ho);
        [apply wf_fetched; assumption | reflexivity |].
      exists s'. split; [exact Hrun|]. rewrite Ho. reflexivity.
    + rewrite (bind_ok _ _ _ _ _ (get_cons true s 92 _ Hwf Hp)).
      change (92 =? 93) with false. change (92 =? 92) with true. cbv iota.
      inversion Hall as [|? ? _ Hall']; subst.
      set (s1 := fetched true 92 (42 :: 47 :: rest) s).
      assert (Hwf1 : wf s1) by (apply wf_fetched; assumption).
      rewrite (bind_ok _ _ _ _ _ (get_cons true s1 42 _ Hwf1 eq_refl)).
      inversion Hall' as [|? ? _ Hall'']; subst.
      destruct (Hhit (fetched true 42 (47 :: rest) s1)) as (s' & Hrun & Ho);
        [apply wf_fetched; assumption | reflexivity |].
      exists s'. split; [exact Hrun|]. rewrite Ho. simpl.
      rewrite <- app_assoc. reflexivity.
  - rewrite (bind_ok _ _ _ _ _ (get_cons true s c _ Hwf Hp)).
    simpl in Hbody. simpl in Hall. inversion Hall as [|? ? Hc Hall']; subst.
    destruct (c =? 93) eqn:Ecq; [discriminate|].
    destruct (c =? 92) eqn:Ec92.
    + destruct b as [|e b']; [discriminate|].
      simpl in Hall'. inversion Hall' as [|? ? He Hall'']; subst.
      set (s1 := fetched true c (e :: b' ++ esc ++ 42 :: 47 :: rest) s).
      assert (Hwf1 : wf s1) by (apply wf_fetched; assumption).
      rewrite (bind_ok _ _ _ _ _ (get_cons true s1 e _ Hwf1 eq_refl)).
      set (s2 := fetched true e (b' ++ esc ++ 42 :: 47 :: rest) s1).
      assert (Hwf2 : wf s2) by (apply wf_fetched; assumption).
      destruct (close_check_pass true e s2 Hwf2) as (s3 & Hs3 & Hwf3 & Hp3 & Ho3 & _).
      { intros _. apply (star_not_closing e b').
        - now apply star_slash_free_tail in Hfree.
        - now apply esc_star_head. }
      rewrite (bind_ok _ _ _ _ _ Hs3).
      assert (HeE : (e =? EOF) = false) by (unfold EOF; destruct He; lia).
      rewrite HeE.
      destruct (IH s3 b' esc rest Hwf3 Hbody) as (s' & Hrun & Hout); auto.
      { now apply star_slash_free_tail, star_slash_free_tail in Hfree. }
      { simpl in Hlen. lia. }
      exists s'. split; [exact Hrun|].
      rewrite Hout, Ho3. simpl. apply Z.eqb_eq in Ec92. subst c.
      rewrite <- !app_assoc. reflexivity.
    + set (s1 := fetched true c (b ++ esc ++ 42 :: 47 :: rest) s).
      assert (Hwf1 : wf s1) by (apply wf_fetched; assumption).
      rewrite bind_ret.
      destruct (close_check_pass true c s1 Hwf1) as (s3 & Hs3 & Hwf3 & Hp3 & Ho3 & _).
      { intros _. apply (star_not_closing c b); [exact Hfree|].
        now apply esc_star_head. }
      rewrite (bind_ok _ _ _ _ _ Hs3).
      assert (HcE : (c =? EOF) = false) by (unfold EOF; destruct Hc; lia).
      rewrite HcE.
      destruct (IH s3 b esc rest Hwf3 Hbody) as (s' & Hrun & Hout); auto.
      { now apply star_slash_free_tail in Hfree. }
      { simpl in Hlen. lia. }
      exists s'. split; [exact Hrun|].
      rewrite Hout, Ho3. simpl. rewrite <- !app_assoc. reflexivity.
Qed.

Lemma re_open_head (set : option (list Z)) (esc rest : list Z) :
  esc = [] \/ esc = [92] ->
  hd 0 (re_open set ++ esc ++ 42 :: 47 :: rest) <> 47.
Proof.
  intros Hesc. destruct set as [l|]; [simpl; lia | now apply esc_star_head].
Qed.

(** The loop of [regexp] inside a pattern comment, on the parts of a body
    that a star and a slash follow, outside a set or inside one. *)
Lemma regexp_loop_close (items : list re_item) :
  forall (fuel : nat) (was : Z) (s : state) (set : option (list Z))
         (esc rest : list Z),
    wf s ->
    forallb re_ok items = true ->
    star_slash_free (flat_map re_text items) = true ->
    match set with
    | Some l => str_body 93 l = true /\ star_slash_free l = true
    | None => True
    end ->
    esc = [] \/ esc = [92] ->
    pending s =
      flat_map re_text items ++ re_open set ++ esc ++ 42 :: 47 :: rest ->
    (List.length (flat_map re_text items ++ re_open set) < fuel)%nat ->
    exists s',
      regexp_loop fuel true was s = Fatal (close_message set) s' /\
      out s' = out s ++ flat_map re_text items ++ re_open set ++ esc ++ [42].
Proof.
  induction items as [|i items IH];
    intros fuel was s set esc rest Hwf Hok Hfree Hset Hesc Hp Hlen;
    (destruct fuel as [|fuel]; [inversion Hlen|]);
    assert (Hall : Forall byte (pending s)) by (now apply wf_pending);
    rewrite Hp in Hall; cbn [regexp_loop].
  - cbn [flat_map app] in *.
    assert (Hhit : forall s0, wf s0 -> pending s0 = 47 :: rest ->
              exists s',
                (close <- (if true && (42 =? 42) then peek_is 47 else ret false) ;;
                 if close then error "unexpected comment."
                 else if 42 =? EOF then
                        modify (set_line_nr was) ;;
                        error "unterminated regexp literal."
                      else regexp_loop fuel true was) s0 =
                  Fatal "unexpected comment." s' /\
                out s' = out s0).
    { intros s0 Hwf0 Hp0.
      destruct (close_check_hit s0 rest Hwf0 Hp0) as (s1 & H1 & Ho1 & _).
      rewrite (bind_ok _ _ _ _ _ H1). eexists. split; [reflexivity | exact Ho1]. }
    destruct set as [l|]; cbn [re_open close_message app] in *.
    + rewrite (bind_ok _ _ _ _ _ (get_cons true s 91 _ Hwf Hp)).
      change (91 =? 91) with true. cbv iota.
      inversion Hall as [|? ? _ Hall']; subst.
      set (s1 := fetched true 91 (l ++ esc ++ 42 :: 47 :: rest) s).
      assert (Hwf1 : wf s1) by (apply wf_fetched; assumption).
      destruct Hset as [Hl Hlfree].
      destruct (regexp_set_close (S fuel) s1 l esc rest Hwf1 Hl Hlfree Hesc eq_refl)
        as (s' & Hrun & Hout); [simpl in Hlen; lia|].
      exists s'. split.
      * unfold bind at 1. unfold bind at 1. rewrite Hrun. reflexivity.
      * rewrite Hout. simpl. rewrite <- app_assoc. reflexivity.
    + destruct Hesc as [-> | ->]; simpl in Hp, Hall.
      * rewrite (bind_ok _ _ _ _ _ (get_cons true s 42 _ Hwf Hp)).
        change (42 =? 91) with false. change (42 =? 47) with false.
        change (42 =? 92) with false. cbv iota. rewrite bind_ret.
        inversion Hall as [|? ? _ Hall']; subst.
        destruct (Hhit (fetched true 42 (47 :: rest) s)) as (s' & Hrun & Ho);
          [apply wf_fetched; assumption | reflexivity |].
        exists s'. split; [exact Hrun|]. rewrite Ho. reflexivity.
      * rewrite (bind_ok _ _ _ _ _ (get_cons true s 92 _ Hwf Hp)).
        change (92 =? 91) with false. change (92 =? 47) with false.
        change (92 =? 92) with true. cbv iota.
        inversion Hall as [|? ? _ Hall']; subst.
        set (s1 := fetched true 92 (42 :: 47 :: rest) s).
        assert (Hwf1 : wf s1) by (apply wf_fetched; assumption).
        rewrite bind_assoc.
        rewrite (bind_ok _ _ _ _ _ (get_cons true s1 42 _ Hwf1 eq_refl)).
        rewrite bind_ret.
        inversion Hall' as [|? ? _ Hall'']; subst.
        destruct (Hhit (fetched true 42 (47 :: rest) s1)) as (s' & Hrun & Ho);
          [apply wf_fetched; assumption | reflexivity |].
        exists s'. split; [exact Hrun|]. rewrite Ho. simpl.
        rewrite <- app_assoc. reflexivity.
  - cbn [forallb] in Hok. apply andb_prop in Hok as [Hi Hok].
    cbn [flat_map] in Hp, Hlen, Hfree, Hall |- *.
    rewrite <- app_assoc in Hp, Hall, Hlen. rewrite !length_app in Hlen.
    assert (Hfree' : star_slash_free (flat_map re_text items) = true)
      by (now apply star_slash_free_app_r in Hfree).
    assert (Htail := re_open_head set esc rest Hesc).
    set (more := flat_map re_text items) in *.
    set (tail := re_open set ++ esc ++ 42 :: 47 :: rest) in *.
    assert (Hnext : forall c, star_slash_free (c :: more) = true -> c = 42 ->
              forall d r, more ++ tail = d :: r -> d <> 47).
    { intros c Hc. now apply star_not_closing. }
    destruct i as [c | e | l]; cbn [re_text] in *.
    + (* a plain byte *)
      simpl in Hp.
      rewrite (bind_ok _ _ _ _ _ (get_cons true s c _ Hwf Hp)).
      simpl in Hi. apply andb_prop in Hi as [Hi H91]. apply andb_prop in Hi as [H47 H92].
      apply negb_true_iff in H47, H92, H91. rewrite H91, H47, H92.
      rewrite bind_ret.
      simpl in Hall. inversion Hall as [|? ? Hc Hall']; subst.
      set (s1 := fetched true c (more ++ tail) s).
      assert (Hwf1 : wf s1) by (apply wf_fetched; assumption).
      destruct (close_check_pass true c s1 Hwf1) as (s3 & Hs3 & Hwf3 & Hp3 & Ho3 & _).
      { intros _. apply Hnext. exact Hfree. }
      rewrite (bind_ok _ _ _ _ _ Hs3).
      assert (HcE : (c =? EOF) = false) by (unfold EOF; destruct Hc; lia).
      rewrite HcE.
      destruct (IH fuel was s3 set esc rest Hwf3 Hok Hfree' Hset Hesc)
        as (s' & Hrun & Hout);
        [rewrite Hp3; reflexivity | rewrite length_app; simpl in Hlen; lia |].
      exists s'. split; [exact Hrun|]. rewrite Hout, Ho3. simpl.
      rewrite <- !app_assoc. reflexivity.
    + (* an escaped byte *)
      simpl in Hp.
      rewrite (bind_ok _ _ _ _ _ (get_cons true s 92 _ Hwf Hp)).
      change (92 =? 91) with false. change (92 =? 47) with false.
      change (92 =? 92) with true. cbv iota.
      simpl in Hall. inversion Hall as [|? ? _ Hall']; subst.
      inversion Hall' as [|? ? He Hall'']; subst.
      set (s1 := fetched true 92 (e :: more ++ tail) s).
      assert (Hwf1 : wf s1) by (apply wf_fetched; assumption).
      rewrite bind_assoc.
      rewrite (bind_ok _ _ _ _ _ (get_cons true s1 e _ Hwf1 eq_refl)).
      rewrite bind_ret.
      set (s2 := fetched true e (more ++ tail) s1).
      assert (Hwf2 : wf s2) by (apply wf_fetched; assumption).
      destruct (close_check_pass true e s2 Hwf2) as (s3 & Hs3 & Hwf3 & Hp3 & Ho3 & _).
      { intros _. apply Hnext.
        change (star_slash_free (92 :: e :: more) = true) in Hfree.
        now apply star_slash_free_tail in Hfree. }
      rewrite (bind_ok _ _ _ _ _ Hs3).
      assert (HeE : (e =? EOF) = false) by (unfold EOF; destruct He; lia).
      rewrite HeE.
      destruct (IH fuel was s3 set esc rest Hwf3 Hok Hfree' Hset Hesc)
        as (s' & Hrun & Hout);
        [rewrite Hp3; reflexivity | rewrite length_app; simpl in Hlen; lia |].
      exists s'. split; [exact Hrun|]. rewrite Hout, Ho3. simpl.
      rewrite <- !app_assoc. reflexivity.
    + (* a bracketed set *)
      assert (Hp' : pending s = 91 :: l ++ 93 :: more ++ tail).
      { rewrite Hp. simpl. rewrite <- !app_assoc. reflexivity. }
      rewrite (bind_ok _ _ _ _ _ (get_cons true s 91 _ Hwf Hp')).
      change (91 =? 91) with true. cbv iota.
      assert (Hall' : Forall byte (l ++ 93 :: more ++ tail)).
      { apply wf_pending in Hwf. rewrite Hp' in Hwf. now inversion Hwf. }
      set (s1 := fetched true 91 (l ++ 93 :: more ++ tail) s).
      assert (Hwf1 : wf s1) by (apply wf_fetched; exact Hall').
      simpl in Hi, Hlen. rewrite length_app in Hlen. simpl in Hlen.
      destruct (regexp_set_skips (S fuel) true s1 l (more ++ tail) Hwf1 Hi)
        as (s2 & H2 & Ho2 & Hp2 & Hpv2 & Hwf2); [| reflexivity | lia |].
      { intros _.
        change (star_slash_free (91 :: (l ++ [93]) ++ more) = true) in Hfree.
        apply star_slash_free_tail in Hfree.
        rewrite <- !app_assoc in Hfree. now apply star_slash_free_app_l in Hfree. }
      rewrite bind_assoc, (bind_ok _ _ _ _ _ H2), bind_ret.
      destruct (close_check_pass true 93 s2 Hwf2) as (s3 & Hs3 & Hwf3 & Hp3 & Ho3 & _);
        [intros; discriminate|].
      rewrite (bind_ok _ _ _ _ _ Hs3).
      change (93 =? EOF) with false. cbv iota.
      destruct (IH fuel was s3 set esc rest Hwf3 Hok Hfree' Hset Hesc)
        as (s' & Hrun & Hout);
        [rewrite Hp3, Hp2; reflexivity | rewrite length_app; lia |].
      exists s'. split; [exact Hrun|]. rewrite Hout, Ho3, Ho2. simpl.
      rewrite <- !app_assoc. simpl. rewrite <- ?app_assoc. reflexivity.
Qed.

(** C10.  Inside a pattern comment a star followed by a slash is fatal
    wherever it stands in a string or in a regular-expression literal:
    after any body read so far, outside a bracketed set or inside one,
    and whether or not a backslash precedes the star ([esc] is that
    backslash, or nothing).  The literal is written up to the star and the
    slash is not read.  The diagnostic is "unexpected close comment in
    string." in a string, "unexpected close comment in regexp." inside a
    bracketed set and "unexpected comment." elsewhere in a regular
    expression. *)
Theorem close_comment_in_literal :
  (forall (fuel : nat) (q : Z) (s : state) (body esc rest : list Z),
      wf s ->
      is_quote q = true ->
      str_body q body = true ->
      star_slash_free body = true ->
      esc = [] \/ esc = [92] ->
      pending s = body ++ esc ++ 42 :: 47 :: rest ->
      (List.length body < fuel)%nat ->
      exists s',
        string fuel q true s =
          Fatal "unexpected close comment in string." s' /\
        out s' = out s ++ body ++ esc ++ [42]) /\
  (forall (fuel : nat) (s : state) (items : list re_item)
          (set : option (list Z)) (esc rest : list Z),
      wf s ->
      forallb re_ok items = true ->
      star_slash_free (flat_map re_text items) = true ->
      match set with
      | Some l => str_body 93 l = true /\ star_slash_free l = true
      | None => True
      end ->
      esc = [] \/ esc = [92] ->
      pending s =
        flat_map re_text items ++ re_open set ++ esc ++ 42 :: 47 :: rest ->
      (List.length (flat_map re_text items ++ re_open set) < fuel)%nat ->
      exists s',
        regexp fuel true s = Fatal (close_message set) s' /\
        out s' =
          out s ++ flat_map re_text items ++ re_open set ++ esc ++ [42]).
Proof.
  split.
  - intros fuel q s body esc rest Hwf Hq Hbody Hfree Hesc Hp Hlen.
    unfold string, bind, read. now apply string_loop_close with (rest := rest).
  - intros fuel s items set esc rest Hwf Hok Hfree Hset Hesc Hp Hlen.
    unfold regexp, bind, read. now apply regexp_loop_close with (rest := rest).
Qed.

Lemma close_comment_in_literal_witness :
  (exists s',
      string 2 DQUOTE true (initial (bytes "a\*/x")) =
        Fatal "unexpected close comment in string." s' /\
      out s' = [] ++ bytes "a" ++ [BACKSLASH] ++ [STAR]) /\
  (exists s',
      regexp 4 true (initial (bytes "a[b\*/]/")) =
        Fatal "unexpected close comment in regexp." s' /\
      out s' = [] ++ flat_map re_text [Chr 97] ++ re_open (Some (bytes "b"))
                  ++ [BACKSLASH] ++ [STAR]) /\
  (exists s',
      regexp 3 true (initial (bytes "ab*/")) = Fatal "unexpected comment." s' /\
      out s' = [] ++ flat_map re_text [Chr 97; Chr 98] ++ re_open None
                  ++ [] ++ [STAR]).
Proof.
  split; [|split].
  - apply (proj1 close_comment_in_literal 2%nat DQUOTE (initial (bytes "a\*/x"))
             (bytes "a") [BACKSLASH] (bytes "x")).
    + apply wf_initial. repeat constructor; unfold byte; lia.
    + reflexivity.
    + reflexivity.
    + reflexivity.
    + right. reflexivity.
    + reflexivity.
    + simpl. lia.
  - apply (proj2 close_comment_in_literal 4%nat (initial (bytes "a[b\*/]/"))
             [Chr 97] (Some (bytes "b")) [BACKSLASH] (bytes "]/")).
    + apply wf_initial. repeat constructor; unfold byte; lia.
    + reflexivity.
    + reflexivity.
    + split; reflexivity.
    + right. reflexivity.
    + reflexivity.
    + simpl. lia.
  - apply (proj2 close_comment_in_literal 3%nat (initial (bytes "ab*/"))
             [Chr 97; Chr 98] None [] []).
    + apply wf_initial. repeat constructor; unfold byte; lia.
    + reflexivity.
    + reflexivity.
    + exact I.
    + left. reflexivity.
    + reflexivity.
    + simpl. lia.
Defined.

End CloseComment.

(** * The scan of a program without bare slashes *)

Section Scan.

(** The identifier at the head of a text ends at the first character that
    is not of the identifier class. *)
Lemma ident_stop (k : nat) :
  forall (a : list Z) (d : Z) (x : list Z),
    is_alphanum d = false -> ident k (a ++ d :: x) = ident k (a ++ [d]).
Proof.
  induction k as [|k IH]; intros a d x Hd; [reflexivity|].
  destruct a as [|c a]; simpl.
  - now rewrite Hd.
  - destruct (is_alphanum c); [f_equal; now apply IH | reflexivity].
Qed.

Lemma ident_exact (name : list Z) :
  forall (k : nat) (after : list Z),
    forallb is_alphanum name = true -> (List.length name < k)%nat ->
    stops after = true -> ident k (name ++ after) = name.
Proof.
  induction name as [|c name IH]; intros k after Hname Hlen Hstop;
    (destruct k as [|k]; [inversion Hlen|]).
  - simpl. destruct after as [|d x]; [reflexivity|].
    simpl in Hstop. apply negb_true_iff in Hstop. now rewrite Hstop.
  - cbn [forallb] in Hname. apply andb_prop in Hname as [Hc Hname].
    simpl. rewrite Hc. f_equal. apply IH; auto. simpl in Hlen. lia.
Qed.

Lemma ident_alphanum (k : nat) :
  forall l, forallb is_alphanum (ident k l) = true.
Proof.
  induction k as [|k IH]; intros [|c l]; simpl; auto.
  destruct (is_alphanum c) eqn:E; [|reflexivity]. simpl. now rewrite E, IH.
Qed.

Lemma spec_comment_closed (body : list Z) :
  forall rest,
    closed_body body = true ->
    spec_comment (body ++ 42 :: 47 :: rest) = Closed (body ++ [42; 47]) rest.
Proof.
  unfold closed_body.
  induction body as [|c b IH]; intros rest H; [reflexivity|].
  destruct b as [|d b'].
  - change (match spec_comment (c :: 42 :: [47]) with
            | Closed _ [] => true | _ => false end = true) in H.
    change (spec_comment (c :: 42 :: 47 :: rest) = Closed [c; 42; 47] rest).
    rewrite spec_comment_cons in H |- *.
    destruct ((c =? 47) && (42 =? 42)); [discriminate|].
    destruct ((c =? 42) && (42 =? 47)); [discriminate|].
    reflexivity.
  - change (match spec_comment (c :: d :: b' ++ [42; 47]) with
            | Closed _ [] => true | _ => false end = true) in H.
    change (spec_comment (c :: d :: b' ++ 42 :: 47 :: rest) =
            Closed (c :: (d :: b') ++ [42; 47]) rest).
    rewrite spec_comment_cons in H |- *.
    destruct ((c =? 47) && (d =? 42)); [discriminate|].
    destruct ((c =? 42) && (d =? 47)).
    + destruct b'; discriminate.
    + change (d :: b' ++ 42 :: 47 :: rest) with ((d :: b') ++ 42 :: 47 :: rest).
      rewrite (IH rest); [reflexivity|].
      change (d :: b' ++ [42; 47]) with ((d :: b') ++ [42; 47]) in H.
      destruct (spec_comment ((d :: b') ++ [42; 47])) as [x r| |];
        try discriminate. exact H.
Qed.

Lemma spec_comment_ident (a : list Z) :
  forall w,
    forallb is_alphanum a = true ->
    spec_comment (a ++ w) = fold_right and_body (spec_comment w) a.
Proof.
  induction a as [|x a IH]; intros w Ha; [reflexivity|].
  cbn [forallb] in Ha. apply andb_prop in Ha as [Hx Ha].
  change ((x :: a) ++ w) with (x :: a ++ w). cbn [fold_right].
  rewrite <- (IH w Ha).
  destruct (a ++ w) as [|d l] eqn:E.
  - reflexivity.
  - rewrite spec_comment_cons.
    assert (H47 : (x =? 47) = false) by (unfold is_alphanum in Hx; lia).
    assert (H42 : (x =? 42) = false) by (unfold is_alphanum in Hx; lia).
    now rewrite H47, H42.
Qed.

Lemma and_body_closed (a : list Z) :
  forall e b r,
    fold_right and_body e a = Closed b r ->
    exists b', e = Closed b' r /\ b = a ++ b'.
Proof.
  induction a as [|x a IH]; intros e b r H.
  - exists b. auto.
  - cbn [fold_right] in H.
    destruct (fold_right and_body e a) as [b0 r0| |] eqn:E; try discriminate.
    injection H as <- <-. destruct (IH e b0 r0 E) as (b' & -> & ->).
    exists b'. auto.
Qed.

(** The loop over a line comment copies the line and the character that
    ends it. *)
Lemma line_comment_copies (text : list Z) :
  forall (fuel : nat) (s : state) (tail : list Z),
    wf s -> one_line text = true ->
    pending s = text ++ tail ->
    match tail with
    | [] => True
    | c :: _ => (c =? 10) || (c =? 13) = true
    end ->
    (List.length text < fuel)%nat ->
    exists c s',
      line_comment fuel s = Ok c s' /\ out s' = out s ++ text ++ firstn 1 tail /\
      pending s' = skipn 1 tail /\ preview s' = 0 /\ wf s'.
Proof.
  induction text as [|x text IH]; intros fuel s tail Hwf Hone Hp Htail Hlen;
    (destruct fuel as [|fuel]; [inversion Hlen|]); cbn [line_comment];
    simpl in Hp.
  - destruct tail as [|c r].
    + destruct (get_end true s Hwf Hp) as (s1 & H1 & Hwf1 & Hp1 & Hpv1 & Ho1 & _).
      rewrite (bind_ok _ _ _ _ _ H1).
      change ((EOF =? 10) || (EOF =? 13) || (EOF =? EOF)) with true. cbv iota.
      exists EOF, s1. split; [reflexivity|]. simpl. rewrite app_nil_r.
      splits; auto.
    + destruct (get_spec true s c r Hwf Hp) as (s1 & H1 & Hwf1 & Hp1 & Hpv1 & Ho1 & _).
      rewrite (bind_ok _ _ _ _ _ H1). rewrite Htail. cbv iota.
      exists c, s1. split; [reflexivity|]. simpl. splits; auto.
  - simpl in Hone. apply andb_prop in Hone as [Hx Hone].
    apply andb_prop in Hx as [H13 H10]. apply negb_true_iff in H13, H10.
    destruct (get_spec true s x _ Hwf Hp) as (s1 & H1 & Hwf1 & Hp1 & Hpv1 & Ho1 & _).
    rewrite (bind_ok _ _ _ _ _ H1).
    assert (Hxb : byte x).
    { apply wf_pending in Hwf. rewrite Hp in Hwf. now inversion Hwf. }
    assert (HE : (x =? EOF) = false) by (unfold EOF; destruct Hxb; lia).
    rewrite H10, H13, HE. cbv iota. simpl orb. cbv iota.
    destruct (IH fuel s1 tail Hwf1 Hone Hp1 Htail ltac:(simpl in Hlen; lia))
      as (c & s' & Hrun & Hout & Hrest).
    exists c, s'. split; [exact Hrun|]. split; [|exact Hrest].
    rewrite Hout, Ho1. simpl. now rewrite <- app_assoc.
Qed.

(** The copy of a comment that is not a pattern, entered with the
    pushed-back character. *)
Lemma echo_comment_pushed (fuel : nat) (c : Z) (s : state) :
  wf s -> c = hd EOF (pending s) ->
  (List.length (pending s) + 1 < fuel)%nat ->
  ends (out s) (echo_comment fuel c s) (spec_comment (pending s)).
Proof.
  intros Hwf Hc Hlen. destruct fuel as [|fuel]; [inversion Hlen|].
  destruct (pending s) as [|d l] eqn:Hp; simpl in Hc; subst c.
  - simpl. eexists. split; [reflexivity|]. now rewrite app_nil_r.
  - assert (Hb : Forall byte (d :: l)) by (rewrite <- Hp; now apply wf_pending).
    inversion Hb as [|? ? Hd Hl]; subst.
    assert (HdE : (d =? EOF) = false) by (unfold EOF; destruct Hd; lia).
    assert (Hrec : ends (out s) (echo_comment fuel d (fetched true d l s))
                     (spec_comment (d :: l))).
    { apply (echo_comment_from fuel d (fetched true d l s) (out s));
        auto with jsdev. norm. simpl in Hlen. lia. }
    cbn [echo_comment]. rewrite HdE, bind_ret.
    destruct (d =? 47) eqn:E47; [|destruct (d =? 42) eqn:E42];
      rewrite (bind_ok _ _ _ _ _ (get_cons true s d l Hwf Hp)).
    + assert (E : (d =? 42) = false) by (apply Z.eqb_eq in E47; subst d; reflexivity).
      rewrite E, bind_ret. exact Hrec.
    + rewrite E47. exact Hrec.
    + exact Hrec.
Qed.

Ltac norm_app := repeat (progress (rewrite <- ?app_assoc; cbn [app])).

(** The main loop fetches the character it looks at next. *)
Lemma resume (t : tables) (fuel : nat) (left : Z) (s : state) :
  wf s ->
  exists c s1,
    (c <- get false ;; process_loop fuel t c left) s =
      process_loop fuel t c left s1 /\
    wf s1 /\ out s1 = out s /\ cur c ++ pending s1 = pending s /\
    ((c = EOF /\ pending s1 = []) \/ byte c).
Proof.
  intros Hwf. destruct (pending s) as [|d l] eqn:Hp.
  - destruct (get_end false s Hwf Hp) as (s1 & H1 & Hwf1 & Hp1 & _ & Ho1 & _).
    exists EOF, s1. rewrite (bind_ok _ _ _ _ _ H1). splits; auto.
  - destruct (get_spec false s d l Hwf Hp) as (s1 & H1 & Hwf1 & Hp1 & _ & Ho1 & _).
    assert (Hd : byte d).
    { apply wf_pending in Hwf. rewrite Hp in Hwf. now inversion Hwf. }
    exists d, s1. rewrite (bind_ok _ _ _ _ _ H1). splits; auto.
    + now rewrite Ho1, app_nil_r.
    + unfold cur. rewrite (byte_pos d Hd), Hp1. reflexivity.
Qed.

Lemma segment_text_cons (g : segment) :
  exists x r, segment_text g = x :: r.
Proof. destruct g; simpl; eauto. Qed.

(** The main loop on the segments of a program. *)
Lemma scan_from (t : tables) (gs : list segment) :
  forall (fuel : nat) (c left : Z) (s : state),
    wf s ->
    (c = EOF /\ pending s = []) \/ byte c ->
    cur c ++ pending s = program_text gs ->
    program_ok t gs = true ->
    (List.length (program_text gs) < fuel)%nat ->
    exists s',
      process_loop fuel t c left s = Ok tt s' /\
      out s' = out s ++ flat_map (segment_image t) gs.
Proof.
  induction gs as [|g gs IH]; intros fuel c left s Hwf Hheld Htext Hok Hlen;
    (destruct fuel as [|fuel]; [inversion Hlen|]).
  - destruct Hheld as [[-> _] | Hc].
    + exists s. split; [reflexivity|]. now rewrite app_nil_r.
    + unfold cur in Htext. rewrite (byte_pos c Hc) in Htext. discriminate.
  - assert (Hres : forall f l s1,
              wf s1 -> pending s1 = program_text gs ->
              (List.length (program_text gs) < f)%nat ->
              exists s',
                (c' <- get false ;; process_loop f t c' l) s1 = Ok tt s' /\
                out s' = out s1 ++ flat_map (segment_image t) gs).
    { intros f l s1 Hwf1 Hp1 Hf.
      destruct (resume t f l s1 Hwf1) as (c' & s2 & Hrun & Hwf2 & Ho2 & Hp2 & Hh2).
      rewrite Hrun, <- Ho2. apply IH; auto.
      - congruence.
      - cbn [program_ok] in Hok. apply andb_prop in Hok. tauto. }
    cbn [program_ok] in Hok. apply andb_prop in Hok as [Hg Hok].
    change (program_text (g :: gs)) with (segment_text g ++ program_text gs) in *.
    cbn [flat_map]. rewrite length_app in Hlen.
    assert (Hc : byte c).
    { destruct Hheld as [[-> Hp] | Hc]; [|exact Hc].
      rewrite Hp in Htext. destruct (segment_text_cons g) as (x & r & E).
      rewrite E in Htext. discriminate. }
    unfold cur in Htext. rewrite (byte_pos c Hc) in Htext. simpl in Htext.
    clear Hheld.
    destruct g as [x | q b | text nl | body | name cond body];
      cbn [segment_text segment_ok segment_image] in *.
    + (* an ordinary byte *)
      injection Htext as -> Hp.
      destruct (plain_ordinary x Hg) as (HE & Hq & H47).
      cbn [process_loop]. rewrite HE, Hq, H47.
      rewrite (bind_ok _ _ _ _ _ (emit_byte x s Hc)).
      destruct (Hres fuel (if 32 <? x then x else left)
                  (set_out (out s ++ [x]) s) (wf_set_out _ _ Hwf) Hp
                  ltac:(simpl in Hlen; lia))
        as (s' & Hrun & Hout).
      exists s'. split; [exact Hrun|]. rewrite Hout. simpl.
      now rewrite <- app_assoc.
    + (* a string literal *)
      injection Htext as -> Hp. rewrite <- app_assoc in Hp. simpl in Hp.
      apply andb_prop in Hg as [Hq Hbody].
      destruct (is_quote_facts q Hq) as (_ & _ & _ & HE).
      cbn [process_loop]. rewrite HE, Hq.
      rewrite (bind_ok _ _ _ _ _ (emit_byte q s Hc)).
      set (s1 := set_out (out s ++ [q]) s).
      simpl in Hlen. rewrite length_app in Hlen. simpl in Hlen.
      destruct (string_loop_skips (S fuel) q false (line_nr s1) s1 b
                  (program_text gs) (wf_set_out _ _ Hwf) Hq Hbody
                  ltac:(intros; discriminate) Hp ltac:(lia))
        as (s3 & H3 & Ho3 & Hp3 & Hpv3 & Hwf3).
      change (string_loop (S fuel) q false (line_nr s1) s1)
        with (string (S fuel) q false s1) in H3.
      rewrite (bind_ok _ _ _ _ _ H3).
      destruct fuel as [|fuel]; [lia|].
      cbn [process_loop].
      change (0 =? EOF) with false. change (is_quote 0) with false.
      change (0 =? 47) with false. cbv iota.
      unfold emit at 1. unfold bind at 1. change (0 <? 0) with false. cbv iota.
      destruct (Hres fuel (if 32 <? 0 then 0 else left) s3 Hwf3 Hp3 ltac:(lia))
        as (s' & Hrun & Hout).
      exists s'. split; [exact Hrun|]. rewrite Hout, Ho3. simpl.
      rewrite <- !app_assoc. reflexivity.
    + (* a line comment *)
      injection Htext as -> Hp.
      apply andb_prop in Hg as [Hone Hnl].
      cbn [process_loop].
      change (47 =? EOF) with false. change (is_quote 47) with false.
      change (47 =? 47) with true. cbv iota.
      destruct (peek_is_full 47 s Hwf ltac:(lia)) as (s1 & H1 & Hwf1 & Hp1 & Ho1 & _).
      rewrite (bind_ok _ _ _ _ _ H1), Hp. change (47 =? 47) with true. cbv iota.
      rewrite (bind_ok _ _ _ _ _ (emit_byte 47 s1 ltac:(unfold byte; lia))).
      set (s2 := set_out (out s1 ++ [47]) s1).
      set (tail := match nl with Some c => [c] | None => [] end ++ program_text gs).
      assert (Hp2 : pending s2 = (47 :: text) ++ tail).
      { change (pending s2) with (pending s1). rewrite Hp1, Hp. unfold tail.
        simpl. rewrite <- app_assoc. reflexivity. }
      assert (Htail : match tail with
                      | [] => True
                      | c :: _ => (c =? 10) || (c =? 13) = true
                      end /\
                      firstn 1 tail = match nl with Some c => [c] | None => [] end /\
                      skipn 1 tail = program_text gs).
      { unfold tail. destruct nl as [c|]; [simpl; auto|].
        destruct gs; [simpl; auto | discriminate]. }
      destruct Htail as (Ht1 & Ht2 & Ht3).
      destruct (line_comment_copies (47 :: text) (S fuel) s2 tail
                  (wf_set_out _ _ Hwf1)
                  ltac:(simpl; rewrite Hone; reflexivity) Hp2 Ht1
                  ltac:(simpl in Hlen |- *; rewrite length_app in Hlen; lia))
        as (c' & s3 & H3 & Ho3 & Hp3 & Hpv3 & Hwf3).
      rewrite (bind_ok _ _ _ _ _ H3).
      rewrite Ht3 in Hp3.
      destruct (Hres fuel left s3 Hwf3 Hp3 ltac:(simpl in Hlen; lia))
        as (s' & Hrun & Hout).
      exists s'. split; [exact Hrun|]. rewrite Hout, Ho3, Ht2. simpl out.
      rewrite Ho1. norm_app. reflexivity.
    + (* a comment that is not a pattern *)
      injection Htext as -> Hp.
      apply andb_prop in Hg as [Hnot Hclosed].
      set (r := body ++ 42 :: 47 :: program_text gs).
      assert (Hp' : pending s = 42 :: r).
      { rewrite Hp. unfold r. simpl. rewrite <- app_assoc. reflexivity. }
      assert (Hnot' : not_a_pattern t r = true).
      { unfold not_a_pattern, r in *.
        rewrite (ident_stop _ body 42 _ eq_refl). exact Hnot. }
      apply not_a_pattern_index in Hnot' as [Hidlen Hidx].
      cbn [process_loop].
      change (47 =? EOF) with false. change (is_quote 47) with false.
      change (47 =? 47) with true. cbv iota.
      destruct (peek_is_full 47 s Hwf ltac:(lia)) as (s1 & H1 & Hwf1 & Hp1 & Ho1 & _).
      rewrite (bind_ok _ _ _ _ _ H1), Hp'. change (42 =? 47) with false. cbv iota.
      destruct (peek_is_full 42 s1 Hwf1 ltac:(lia)) as (s2 & H2 & Hwf2 & Hp2 & Ho2 & _).
      rewrite (bind_ok _ _ _ _ _ H2), Hp1, Hp'. change (42 =? 42) with true. cbv iota.
      rewrite Hp1, Hp' in Hp2.
      destruct (get_spec false s2 42 r Hwf2 Hp2) as (s3 & H3 & Hwf3 & Hp3 & Hpv3 & Ho3 & _).
      rewrite (bind_ok _ _ _ _ _ H3).
      rewrite <- Hp3 in Hidlen.
      destruct (read_cmd_unget MAX_CMD_LENGTH 47 [] s3 Hwf3 Hpv3 Hidlen)
        as (c' & s4 & Hrun & Hwf4 & Hp4 & Ho4 & Hc').
      rewrite Hp3 in *.
      rewrite (bind_ok _ _ _ _ _ Hrun). rewrite app_nil_l.
      unfold unget. unfold modify at 1. unfold bind at 1.
      rewrite Hidx.
      unfold emits at 1. unfold bind at 1. unfold emits at 1. unfold bind at 1.
      set (cmd := ident MAX_CMD_LENGTH r) in *.
      set (se := set_out _ _).
      assert (Hpse : pending se = pending (set_preview c' s4)) by reflexivity.
      assert (Hose : out se = out s ++ [47; 42] ++ cmd).
      { unfold se. simpl. rewrite Ho4, Ho3, Ho2, Ho1, app_nil_r, <- app_assoc.
        reflexivity. }
      assert (Hcmd : forallb is_alphanum cmd = true) by apply ident_alphanum.
      assert (Hspec : spec_comment r = Closed (body ++ [42; 47]) (program_text gs))
        by (apply spec_comment_closed; exact Hclosed).
      rewrite Hp4, (spec_comment_ident cmd _ Hcmd) in Hspec.
      apply and_body_closed in Hspec as (w & Hw & Hbw).
      assert (Hends : ends (out se) (echo_comment (S fuel) c' se)
                        (spec_comment (pending se))).
      { apply echo_comment_pushed.
        - exact Hwf4.
        - rewrite Hpse. destruct (c' =? EOF) eqn:E.
          + apply Z.eqb_eq in E. rewrite Hc'. exact E.
          + destruct Hc' as (l & ->). reflexivity.
        - rewrite Hpse. apply (f_equal (@List.length Z)) in Hp4.
          rewrite length_app in Hp4. unfold r in Hp4.
          rewrite length_app in Hp4. simpl in Hp4, Hlen.
          rewrite length_app in Hlen. simpl in Hlen. lia. }
      rewrite Hpse, Hw in Hends. destruct Hends as (s5 & H5 & Ho5 & Hp5 & Hpv5 & Hwf5).
      rewrite (bind_ok _ _ _ _ _ H5).
      destruct (Hres fuel left s5 Hwf5 Hp5 ltac:(simpl in Hlen; lia))
        as (s' & Hrun' & Hout').
      exists s'. split; [exact Hrun'|]. rewrite Hout', Ho5, Hose, Hbw.
      norm_app. reflexivity.
    + (* a pattern comment *)
      injection Htext as -> Hp.
      apply andb_prop in Hg as [Hg Hbody]. apply andb_prop in Hg as [Hg Hcond].
      apply andb_prop in Hg as [Hg Hmatch]. apply andb_prop in Hg as [Hg Hlt].
      apply andb_prop in Hg as [Hname Hpos].
      apply Nat.ltb_lt in Hpos, Hlt.
      set (after := cond_text cond ++ pieces_text body
                    ++ 42 :: 47 :: program_text gs).
      assert (Hp' : pending s = 42 :: name ++ after).
      { rewrite Hp. unfold after. norm_app. reflexivity. }
      assert (Hstop : stops after = true).
      { unfold after. destruct cond as [cps|]; cbn [cond_text].
        - apply andb_prop in Hcond as [_ Hhd].
          destruct (pieces_text cps) as [|x l]; [discriminate|].
          simpl in Hhd. apply Z.eqb_eq in Hhd. subst x. reflexivity.
        - apply andb_prop in Hcond as [Hst _]. simpl.
          destruct (pieces_text body); exact Hst. }
      assert (Hid : ident MAX_CMD_LENGTH (name ++ after) = name)
        by (apply ident_exact; auto).
      cbn [process_loop].
      change (47 =? EOF) with false. change (is_quote 47) with false.
      change (47 =? 47) with true. cbv iota.
      destruct (peek_is_full 47 s Hwf ltac:(lia)) as (s1 & H1 & Hwf1 & Hp1 & Ho1 & _).
      rewrite (bind_ok _ _ _ _ _ H1), Hp'. change (42 =? 47) with false. cbv iota.
      destruct (peek_is_full 42 s1 Hwf1 ltac:(lia)) as (s2 & H2 & Hwf2 & Hp2 & Ho2 & _).
      rewrite (bind_ok _ _ _ _ _ H2), Hp1, Hp'. change (42 =? 42) with true. cbv iota.
      rewrite Hp1, Hp' in Hp2.
      destruct (get_spec false s2 42 _ Hwf2 Hp2) as (s3 & H3 & Hwf3 & Hp3 & Hpv3 & Ho3 & _).
      rewrite (bind_ok _ _ _ _ _ H3).
      destruct (read_cmd_unget MAX_CMD_LENGTH 47 [] s3 Hwf3 Hpv3
                  ltac:(rewrite Hp3, Hid; exact Hlt))
        as (c' & s4 & Hrun & Hwf4 & Hp4 & Ho4 & Hc').
      rewrite Hp3, Hid in *. apply app_inv_head in Hp4.
      rewrite (bind_ok _ _ _ _ _ Hrun). rewrite app_nil_l.
      unfold unget. unfold modify at 1. unfold bind at 1.
      assert (E0 : (List.length name =? 0)%nat = false) by (apply Nat.eqb_neq; lia).
      rewrite E0, Hmatch.
      set (s5 := set_preview c' s4) in *.
      assert (Hcond' : match cond with
                       | Some cps =>
                           forallb piece_ok cps = true /\ closes 0 cps = true /\
                           hd 0 (pieces_text cps) = 40
                       | None => hd 0 (pieces_text body ++ [42]) <> 40
                       end).
      { destruct cond as [cps|].
        - apply andb_prop in Hcond as [Hcond H3']. apply andb_prop in Hcond as [H1' H2'].
          apply Z.eqb_eq in H3'. auto.
        - apply andb_prop in Hcond as [_ Hhd]. apply negb_true_iff in Hhd.
          now apply Z.eqb_neq. }
      assert (Hlen5 : (List.length (pending s5) < S fuel)%nat).
      { rewrite <- Hp4. unfold after.
        repeat (rewrite length_app in Hlen || cbn [List.length] in Hlen).
        rewrite !length_app. cbn [List.length]. lia. }
      destruct (expand_pieces (S fuel) t (match_cmd t name) s5 cond body
                  (program_text gs) Hwf4 Hcond' Hbody (eq_sym Hp4) Hlen5)
        as (s6 & H6 & Ho6 & Hp6 & Hpv6 & Hwf6).
      rewrite (bind_ok _ _ _ _ _ H6).
      destruct (Hres fuel left s6 Hwf6 Hp6 ltac:(simpl in Hlen; lia))
        as (s' & Hrun' & Hout').
      exists s'. split; [exact Hrun'|]. rewrite Hout', Ho6.
      change (out s5) with (out s4).
      rewrite Ho4, Ho3, Ho2, Ho1, app_nil_r. norm_app. reflexivity.
Qed.


(** X12.  On a NUL-free program made of ordinary bytes, string literals,
    line comments, block comments that are not patterns and pattern
    comments, [process] returns and has written the program with every
    pattern comment replaced by its expansion and everything else as it
    stands.  What looks like a pattern inside a string literal or a line
    comment is not expanded. *)
Theorem scan_program (t : tables) (gs : list segment) :
  program_ok t gs = true ->
  Forall byte (program_text gs) ->
  exists s',
    process t (initial (program_text gs)) = Ok tt s' /\
    out s' = flat_map (segment_image t) gs.
Proof.
  intros Hok Hbytes. unfold process.
  unfold bind at 1. unfold modify at 1.
  set (s1 := set_line_nr 1 (initial (program_text gs))).
  assert (Hwf1 : wf s1) by (apply wf_set_line_nr, wf_initial; exact Hbytes).
  assert (Hp1 : pending s1 = program_text gs) by reflexivity.
  destruct (program_text gs) as [|d l] eqn:Htext.
  - destruct (get_end false s1 Hwf1 Hp1) as (s2 & H2 & Hwf2 & Hp2 & _ & Ho2 & _).
    rewrite (bind_ok _ _ _ _ _ H2). unfold bind, read.
    destruct (scan_from t gs (fuel_of s2) EOF 0 s2 Hwf2) as (s' & Hrun & Hout).
    + left. auto.
    + rewrite Htext. simpl. exact Hp2.
    + exact Hok.
    + rewrite Htext. unfold fuel_of. simpl. lia.
    + exists s'. split; [exact Hrun|]. rewrite Hout, Ho2. reflexivity.
  - destruct (get_spec false s1 d l Hwf1 Hp1) as (s2 & H2 & Hwf2 & Hp2 & Hpv2 & Ho2 & _).
    rewrite (bind_ok _ _ _ _ _ H2). unfold bind, read.
    assert (Hd : byte d) by (now inversion Hbytes).
    destruct (scan_from t gs (fuel_of s2) d 0 s2 Hwf2) as (s' & Hrun & Hout).
    + right. exact Hd.
    + rewrite Htext. unfold cur. rewrite (byte_pos d Hd), Hp2. reflexivity.
    + exact Hok.
    + rewrite Htext. unfold fuel_of.
      assert (Hi : input s2 = l).
      { unfold pending in Hp2. rewrite Hpv2 in Hp2. exact Hp2. }
      rewrite Hi. simpl. lia.
    + exists s'. split; [exact Hrun|]. rewrite Hout, Ho2. reflexivity.
Qed.

Lemma scan_program_witness :
  exists s',
    process (mkTables [bytes "debug"; bytes "alarm"] [[]; bytes "alert"])
            (initial (bytes "a='/*debug x*/';/*alarm(x>0) 'go'*//* note *///b"))
      = Ok tt s' /\
    out s' = bytes "a='/*debug x*/';if (x>0){alert( 'go');}/* note *///b".
Proof.
  apply (scan_program
           (mkTables [bytes "debug"; bytes "alarm"] [[]; bytes "alert"])
           [Plain 97; Plain 61; Str 39 (bytes "/*debug x*/"); Plain 59;
            Pattern (bytes "alarm") (Some (map Byte (bytes "(x>0)")))
                    [Byte 32; Quoted 39 (bytes "go")];
            Block (bytes " note "); Line (bytes "b") None]).
  - reflexivity.
  - repeat constructor; unfold byte; lia.
Defined.

End Scan.

(** * Declarations *)

Section Declarations.

Lemma span_ident_spec (l : list Z) :
  forallb is_alphanum (fst (span_ident l)) = true /\
  l = fst (span_ident l) ++ snd (span_ident l) /\
  stops (snd (span_ident l)) = true.
Proof.
  induction l as [|c r IH]; [auto|]. simpl.
  destruct (is_alphanum c) eqn:E.
  - destruct (span_ident r) as [a b]. simpl in *.
    destruct IH as (H1 & H2 & H3). rewrite E, H1. splits; auto. now f_equal.
  - simpl. rewrite E. auto.
Qed.

(** The copy loop on any argument: it takes the identifier characters at
    the place it starts from, [n] at most. *)
Lemma copy_name_span (n : nat) (pre l : list Z) (c0 : Z) :
  let name := fst (span_ident l) in
  let rest := snd (span_ident l) in
  copy_name n (pre ++ l) (List.length pre) c0 [] =
  if (List.length name <? n)%nat
  then ((List.length pre + List.length name)%nat, hd 0 rest, name)
  else ((List.length pre + n)%nat, last (firstn n name) c0, firstn n name).
Proof.
  intros name rest.
  destruct (span_ident_spec l) as (Hname & Hl & Hstop).
  fold name in Hname, Hl. fold rest in Hl, Hstop.
  destruct (List.length name <? n)%nat eqn:E.
  - apply Nat.ltb_lt in E. rewrite Hl.
    now rewrite (copy_name_stops name n pre rest c0 [] Hname E Hstop).
  - apply Nat.ltb_ge in E.
    assert (Hl' : l = firstn n name ++ (skipn n name ++ rest)).
    { rewrite app_assoc, firstn_skipn. exact Hl. }
    rewrite Hl'.
    rewrite (copy_name_full n (firstn n name) pre _ c0 []).
    + reflexivity.
    + rewrite <- (firstn_skipn n name), forallb_app in Hname.
      apply andb_prop in Hname. tauto.
    + rewrite length_firstn. lia.
Qed.

Lemma alphanum_facts c :
  is_alphanum c = true -> (c =? 0) = false /\ (c =? 58) = false.
Proof. unfold is_alphanum. lia. Qed.

(** [declare] against the reading of its argument. *)
Lemma declare_spec (arg : list Z) (t : tables) (s : state) :
  ~ In 0 arg ->
  (List.length (cmds t) < MAX_NR_CMDS)%nat ->
  declare arg t s =
  match parse_declaration arg with
  | Some (name, command) =>
      Ok (mkTables (cmds t ++ [name]) (commands t ++ [command])) s
  | None => Fatal (text arg) s
  end.
Proof.
  intros Hnul Hfull. unfold declare, parse_declaration.
  assert (E : (MAX_NR_CMDS <=? List.length (cmds t))%nat = false)
    by (apply Nat.leb_gt; exact Hfull).
  rewrite E.
  pose proof (copy_name_span MAX_CMD_LENGTH [] arg 0) as Hcopy.
  destruct (span_ident_spec arg) as (Hname & Harg & Hstop).
  destruct (span_ident arg) as [name rest]. cbn [fst snd] in *.
  cbn [app List.length Nat.add] in Hcopy. rewrite Hcopy. clear Hcopy.
  unfold fits.
  destruct (List.length name <? MAX_CMD_LENGTH)%nat eqn:Elt.
  - destruct name as [|x name'] eqn:En; [reflexivity|]. rewrite <- En in *.
    assert (Hpos : (0 <? List.length name)%nat = true)
      by (subst name; reflexivity).
    assert (Hj : (List.length name =? 0)%nat = false)
      by (subst name; reflexivity).
    rewrite Hpos, Hj. cbn [andb]. rewrite bind_ret.
    destruct rest as [|c r]; [reflexivity|]. cbn [hd].
    assert (Hc0 : (c =? 0) = false).
    { apply Z.eqb_neq. intros ->. apply Hnul. rewrite Harg.
      apply in_or_app. right. now left. }
    rewrite Hc0.
    destruct (c =? 58) eqn:Ec; [|reflexivity].
    apply Z.eqb_eq in Ec. subst c.
    pose proof (copy_name_span MAX_CMD_LENGTH (name ++ [58]) r 58) as Hcopy.
    destruct (span_ident_spec r) as (Hcommand & Hr & Hstop').
    destruct (span_ident r) as [command rest']. cbn [fst snd] in *.
    rewrite <- app_assoc in Hcopy. cbn [app] in Hcopy. rewrite <- Harg in Hcopy.
    rewrite length_app in Hcopy. cbn [List.length] in Hcopy.
    rewrite Hcopy. clear Hcopy.
    destruct (List.length command <? MAX_CMD_LENGTH)%nat eqn:Elt'.
    + destruct rest' as [|y rest''].
      * cbn [hd]. change (0 =? 0) with true. cbn [negb]. rewrite orb_false_r.
        destruct command as [|z command'].
        -- rewrite Nat.add_0_r, Nat.eqb_refl. reflexivity.
        -- assert (Ek : (List.length name + 1 + List.length (z :: command') =?
                          List.length name + 1)%nat = false)
             by (apply Nat.eqb_neq; simpl; lia).
           rewrite Ek. reflexivity.
      * cbn [hd].
        assert (Hy0 : (y =? 0) = false).
        { apply Z.eqb_neq. intros ->. apply Hnul. rewrite Harg, Hr.
          apply in_or_app. right. right. apply in_or_app. right. now left. }
        rewrite Hy0. cbn [negb]. rewrite orb_true_r. reflexivity.
    + apply Nat.ltb_ge in Elt'.
      assert (Hne : firstn MAX_CMD_LENGTH command <> []).
      { destruct command; [simpl in Elt'; unfold MAX_CMD_LENGTH in Elt'; lia|].
        discriminate. }
      assert (Hfn : forallb is_alphanum (firstn MAX_CMD_LENGTH command) = true).
      { rewrite <- (firstn_skipn MAX_CMD_LENGTH command), forallb_app in Hcommand.
        apply andb_prop in Hcommand. tauto. }
      destruct (alphanum_facts _ (last_alphanum _ 58 Hfn Hne)) as [H0 _].
      rewrite H0. cbn [negb]. rewrite orb_true_r.
      destruct rest'; [rewrite andb_false_r|]; reflexivity.
  - apply Nat.ltb_ge in Elt.
    assert (Hne : firstn MAX_CMD_LENGTH name <> []).
    { destruct name; [simpl in Elt; unfold MAX_CMD_LENGTH in Elt; lia|].
      discriminate. }
    assert (Hfn : forallb is_alphanum (firstn MAX_CMD_LENGTH name) = true).
    { rewrite <- (firstn_skipn MAX_CMD_LENGTH name), forallb_app in Hname.
      apply andb_prop in Hname. tauto. }
    destruct (alphanum_facts _ (last_alphanum _ 0 Hfn Hne)) as [H0 H58].
    rewrite H0, H58. rewrite andb_false_r.
    change (MAX_CMD_LENGTH =? 0)%nat with false. reflexivity.
Qed.

(** X13.  What the command line takes as a declaration: an argument is
    added to the tables exactly when it is a trigger of 1 to 79 identifier
    characters, alone or followed by a colon and a replacement of 1 to 79
    identifier characters; any other argument is the fatal error whose
    message is the argument itself.  Nothing is read or written. *)
Theorem declare_parses (arg : list Z) (t : tables) (s : state) :
  ~ In 0 arg ->
  (List.length (cmds t) < MAX_NR_CMDS)%nat ->
  declare arg t s =
  match parse_declaration arg with
  | Some (name, command) =>
      Ok (mkTables (cmds t ++ [name]) (commands t ++ [command])) s
  | None => Fatal (text arg) s
  end.
Proof. apply declare_spec. Qed.

Lemma declare_parses_witness :
  declare (bytes "log:console.log") (mkTables [bytes "debug"] [[]]) (initial []) =
    Ok (mkTables [bytes "debug"; bytes "log"] [[]; bytes "console.log"])
       (initial []) /\
  declare (bytes "log:") (mkTables [] []) (initial []) =
    Fatal "log:" (initial []) /\
  declare (bytes "a b") (mkTables [] []) (initial []) =
    Fatal "a b" (initial []).
Proof.
  splits.
  - apply (declare_parses (bytes "log:console.log") (mkTables [bytes "debug"] [[]])
             (initial [])); [simpl; intuition discriminate | unfold MAX_NR_CMDS; simpl; lia].
  - apply (declare_parses (bytes "log:") (mkTables [] []) (initial []));
      [simpl; intuition discriminate | unfold MAX_NR_CMDS; simpl; lia].
  - apply (declare_parses (bytes "a b") (mkTables [] []) (initial []));
      [simpl; intuition discriminate | unfold MAX_NR_CMDS; simpl; lia].
Defined.

Lemma arguments_declared (argv : list (list Z)) :
  forall (ds : list (list Z * list Z)) (t : tables) (s : state),
    Forall (fun arg => ~ In 0 arg) argv ->
    map parse_declaration argv = map Some ds ->
    (List.length (cmds t) + List.length argv <= MAX_NR_CMDS)%nat ->
    arguments argv false t s =
    Ok (mkTables (cmds t ++ map fst ds) (commands t ++ map snd ds)) s.
Proof.
  induction argv as [|arg argv IH]; intros ds t s Hnul Hparse Hlen.
  - destruct ds; [|discriminate]. simpl. rewrite !app_nil_r.
    destruct t; reflexivity.
  - destruct ds as [|[name command] ds]; [discriminate|].
    simpl in Hparse. injection Hparse as Hp Hps.
    inversion Hnul as [|? ? Hn Hnul']; subst.
    cbn [arguments].
    assert (E : str_eqb arg (bytes "-comment") = false).
    { destruct (str_eqb arg (bytes "-comment")) eqn:E; [|reflexivity].
      apply str_eqb_eq in E. subst arg. discriminate Hp. }
    rewrite E.
    rewrite (bind_ok _ _ _ _ _
               (eq_trans (declare_spec arg t s Hn ltac:(simpl in Hlen; lia))
                         ltac:(rewrite Hp; reflexivity))).
    rewrite (IH ds _ s Hnul' Hps).
    + simpl. rewrite <- !app_assoc. reflexivity.
    + simpl in *. rewrite length_app. simpl. lia.
Qed.

(** X14.  A command line of declarations, 100 at most, builds the table
    in the order of the command line and touches neither stdin nor
    stdout: [main] then scans with that table. *)
Theorem main_declares (argv : list (list Z)) (ds : list (list Z * list Z))
        (s : state) :
  Forall (fun arg => ~ In 0 arg) argv ->
  map parse_declaration argv = map Some ds ->
  (List.length argv <= MAX_NR_CMDS)%nat ->
  main argv s =
  process (mkTables (map fst ds) (map snd ds)) (set_line_nr 0 (set_cr false s)).
Proof.
  intros Hnul Hparse Hlen. unfold main.
  unfold bind at 1. unfold modify at 1. unfold bind at 1. unfold modify at 1.
  rewrite (bind_ok _ _ _ _ _
             (arguments_declared argv ds (mkTables [] []) _ Hnul Hparse Hlen)).
  reflexivity.
Qed.

Lemma main_declares_witness :
  main [bytes "debug"; bytes "log:console.log"] (initial (bytes "x")) =
  process (mkTables [bytes "debug"; bytes "log"] [[]; bytes "console.log"])
          (set_line_nr 0 (set_cr false (initial (bytes "x")))).
Proof.
  apply (main_declares [bytes "debug"; bytes "log:console.log"]
           [(bytes "debug", []); (bytes "log", bytes "console.log")]
           (initial (bytes "x"))).
  - repeat constructor; simpl; intuition discriminate.
  - reflexivity.
  - unfold MAX_NR_CMDS. simpl. lia.
Defined.

Lemma declare_ends (arg : list Z) (t : tables) (s : state) :
  (List.length (cmds t) < MAX_NR_CMDS)%nat ->
  (exists t', declare arg t s = Ok t' s /\
              List.length (cmds t') = S (List.length (cmds t))) \/
  declare arg t s = Fatal (text arg) s.
Proof.
  intros Hfull. unfold declare.
  assert (E : (MAX_NR_CMDS <=? List.length (cmds t))%nat = false)
    by (apply Nat.leb_gt; exact Hfull).
  rewrite E.
  destruct (copy_name MAX_CMD_LENGTH arg 0 0 []) as [[j c] name].
  destruct (j =? 0)%nat; [now right|]. rewrite bind_ret.
  destruct (c =? 0).
  { left. eexists. split; [reflexivity|]. simpl. rewrite length_app. simpl. lia. }
  destruct (c =? 58); [|now right].
  destruct (copy_name MAX_CMD_LENGTH arg (j + 1) c []) as [[k c'] command].
  destruct ((k =? j + 1)%nat || negb (c' =? 0)); [now right|].
  left. eexists. split; [reflexivity|]. simpl. rewrite length_app. simpl. lia.
Qed.

Lemma arguments_ends (argv : list (list Z)) :
  forall (comment : bool) (t : tables) (s : state),
    (List.length (cmds t) + List.length argv <= MAX_NR_CMDS)%nat ->
    match arguments argv comment t s with
    | Ok _ _ | Fatal _ _ => True
    | _ => False
    end.
Proof.
  induction argv as [|arg argv IH]; intros comment t s Hlen; [exact I|].
  cbn [arguments]. simpl in Hlen. destruct comment.
  - unfold bind, emits, emit. apply IH. lia.
  - destruct (str_eqb arg (bytes "-comment")); [apply IH; lia|].
    destruct (declare_ends arg t s ltac:(lia)) as [(t' & H & Ht') | H];
      unfold bind at 1; rewrite H; [|exact I].
    apply IH. lia.
Qed.

(** X15.  [main] always ends, whatever the command line of 100 arguments
    at most and whatever the input, NUL bytes included: it returns or it
    stops at a fatal error.  No loop of the program runs for ever, and no
    table is written past its end. *)
Theorem main_ends (argv : list (list Z)) (s : state) :
  (List.length argv <= MAX_NR_CMDS)%nat ->
  match main argv s with
  | Ok _ _ | Fatal _ _ => True
  | _ => False
  end.
Proof.
  intros Hlen. unfold main.
  unfold bind at 1. unfold modify at 1. unfold bind at 1. unfold modify at 1.
  pose proof (arguments_ends argv false (mkTables [] [])
                (set_line_nr 0 (set_cr false s)) Hlen) as Ha.
  unfold bind.
  destruct (arguments argv false (mkTables [] []) (set_line_nr 0 (set_cr false s)))
    as [t s1| | |]; try tauto.
  pose proof (process_total t s1) as Hp. unfold returns in Hp.
  destruct (process t s1); tauto.
Qed.

Lemma main_ends_witness :
  match main [bytes "debug"] (initial (bytes "/*debug (" ++ [0])) with
  | Ok _ _ | Fatal _ _ => True
  | _ => False
  end.
Proof.
  apply (main_ends [bytes "debug"] (initial (bytes "/*debug (" ++ [0]))).
  unfold MAX_NR_CMDS. simpl. lia.
Defined.

Lemma arguments_fatal_message (argv : list (list Z)) :
  forall comment t s msg s',
    (List.length (cmds t) + List.length argv <= MAX_NR_CMDS)%nat ->
    arguments argv comment t s = Fatal msg s' ->
    exists arg, In arg argv /\ msg = text arg.
Proof.
  induction argv as [|arg argv IH]; intros comment t s msg s' Hlen H;
    [discriminate|].
  cbn [arguments] in H. simpl in Hlen. destruct comment.
  - unfold bind, emits, emit in H. apply IH in H; [|lia].
    destruct H as (a & Ha & Hm). exists a. split; [now right | exact Hm].
  - destruct (str_eqb arg (bytes "-comment")).
    + apply IH in H; [|lia].
      destruct H as (a & Ha & Hm). exists a. split; [now right | exact Hm].
    + unfold bind at 1 in H.
      destruct (declare_ends arg t s ltac:(lia)) as [(t' & Hd & Ht') | Hd];
        rewrite Hd in H.
      * apply IH in H; [|lia].
        destruct H as (a & Ha & Hm). exists a. split; [now right | exact Hm].
      * injection H as <- _. exists arg. split; [now left | reflexivity].
Qed.

End Declarations.

(** * The expansion of a pattern comment *)

Section PatternComment.

(** The scan of a program of segments, from any state that holds it as
    the text still to be read. *)
Lemma process_segments (t : tables) (gs : list segment) (s : state) :
  wf s ->
  pending s = program_text gs ->
  program_ok t gs = true ->
  exists s',
    process t s = Ok tt s' /\
    out s' = out s ++ flat_map (segment_image t) gs.
Proof.
  intros Hwf Hp Hok. unfold process.
  unfold bind at 1. unfold modify at 1.
  set (s1 := set_line_nr 1 s).
  assert (Hwf1 : wf s1) by (apply wf_set_line_nr; exact Hwf).
  assert (Hp1 : pending s1 = program_text gs) by exact Hp.
  assert (Hbytes : Forall byte (program_text gs))
    by (rewrite <- Hp; now apply wf_pending).
  destruct (program_text gs) as [|d l] eqn:Htext.
  - destruct (get_end false s1 Hwf1 Hp1) as (s2 & H2 & Hwf2 & Hp2 & _ & Ho2 & _).
    rewrite (bind_ok _ _ _ _ _ H2). unfold bind, read.
    destruct (scan_from t gs (fuel_of s2) EOF 0 s2 Hwf2) as (s' & Hrun & Hout).
    + left. auto.
    + rewrite Htext. simpl. exact Hp2.
    + exact Hok.
    + rewrite Htext. unfold fuel_of. simpl. lia.
    + exists s'. split; [exact Hrun|]. rewrite Hout, Ho2. reflexivity.
  - destruct (get_spec false s1 d l Hwf1 Hp1) as (s2 & H2 & Hwf2 & Hp2 & Hpv2 & Ho2 & _).
    rewrite (bind_ok _ _ _ _ _ H2). unfold bind, read.
    assert (Hd : byte d) by (now inversion Hbytes).
    destruct (scan_from t gs (fuel_of s2) d 0 s2 Hwf2) as (s' & Hrun & Hout).
    + right. exact Hd.
    + rewrite Htext. unfold cur. rewrite (byte_pos d Hd), Hp2. reflexivity.
    + exact Hok.
    + rewrite Htext. unfold fuel_of.
      assert (Hi : input s2 = l).
      { unfold pending in Hp2. rewrite Hpv2 in Hp2. exact Hp2. }
      rewrite Hi. simpl. lia.
    + exists s'. split; [exact Hrun|]. rewrite Hout, Ho2, app_nil_r.
      reflexivity.
Qed.

(** C1, as amended.  For every command line of declarations and every
    pattern comment whose trigger is declared and whose condition and body
    are made of bytes and string literals, the program writes the
    expansion and nothing else: "if " and the condition as it stands when
    there is one, the opening brace right after it, the body, as the
    argument of the replacement when the trigger has one, and ";}".  The
    body is everything between the trigger, or the condition, and the
    closing star and slash, from its first character on, so the blank that
    separates it from the trigger is part of the output. *)
Theorem pattern_expansion (argv : list (list Z)) (ds : list (list Z * list Z))
        (name : list Z) (cond : option (list piece)) (body : list piece) :
  Forall (fun arg => ~ In 0 arg) argv ->
  map parse_declaration argv = map Some ds ->
  (List.length argv <= MAX_NR_CMDS)%nat ->
  segment_ok (mkTables (map fst ds) (map snd ds)) true
             (Pattern name cond body) = true ->
  Forall byte (segment_text (Pattern name cond body)) ->
  exists s',
    main argv (initial (segment_text (Pattern name cond body))) = Ok tt s' /\
    out s' =
      expansion (option_map pieces_text cond)
                (nth (Z.to_nat (match_from name (map fst ds) 0)) (map snd ds) [])
                (pieces_text body).
Proof.
  intros Hnul Hparse Hlen Hok Hbytes. unfold main.
  unfold bind at 1. unfold modify at 1. unfold bind at 1. unfold modify at 1.
  rewrite (bind_ok _ _ _ _ _
             (arguments_declared argv ds (mkTables [] []) _ Hnul Hparse Hlen)).
  set (t := mkTables (map fst ds) (map snd ds)) in *.
  destruct (process_segments t [Pattern name cond body]
              (initial (segment_text (Pattern name cond body))))
    as (s' & Hrun & Hout).
  - apply wf_initial. exact Hbytes.
  - simpl program_text. now rewrite app_nil_r.
  - cbn [program_ok]. rewrite Hok. reflexivity.
  - exists s'. split; [exact Hrun|]. rewrite Hout. simpl.
    now rewrite app_nil_r.
Qed.

Lemma pattern_expansion_witness :
  (exists s',
      main sample_argv (initial log_hi) = Ok tt s' /\
      out s' = bytes "{console.log( " ++ [DQUOTE] ++ bytes "hi" ++ [DQUOTE]
               ++ bytes ");}") /\
  (exists s',
      main sample_argv (initial debug_x) = Ok tt s' /\
      out s' = bytes "{ x=1;}") /\
  (exists s',
      main sample_argv (initial alarm_go) = Ok tt s' /\
      out s' = bytes "if (x>0){alert( " ++ [DQUOTE] ++ bytes "go" ++ [DQUOTE]
               ++ bytes ");}") /\
  (exists s',
      main sample_argv (initial debug_cond) = Ok tt s' /\
      out s' = bytes "if (x>0){ y;}").
Proof.
  assert (Hargv : Forall (fun arg : list Z => ~ In 0 arg) sample_argv)
    by (repeat constructor; simpl; intuition discriminate).
  assert (Hlen : (List.length sample_argv <= MAX_NR_CMDS)%nat)
    by (unfold MAX_NR_CMDS; simpl; lia).
  pose (ds := [(bytes "debug", @nil Z); (bytes "log", bytes "console.log");
               (bytes "alarm", bytes "alert")]).
  splits.
  - apply (pattern_expansion sample_argv ds (bytes "log") None
             [Byte 32; Quoted DQUOTE (bytes "hi")] Hargv eq_refl Hlen eq_refl).
    repeat constructor; unfold byte; lia.
  - apply (pattern_expansion sample_argv ds (bytes "debug") None
             (map Byte (bytes " x=1")) Hargv eq_refl Hlen eq_refl).
    repeat constructor; unfold byte; lia.
  - apply (pattern_expansion sample_argv ds (bytes "alarm")
             (Some (map Byte (bytes "(x>0)")))
             [Byte 32; Quoted DQUOTE (bytes "go")] Hargv eq_refl Hlen eq_refl).
    repeat constructor; unfold byte; lia.
  - apply (pattern_expansion sample_argv ds (bytes "debug")
             (Some (map Byte (bytes "(x>0)")))
             (map Byte (bytes " y")) Hargv eq_refl Hlen eq_refl).
    repeat constructor; unfold byte; lia.
Defined.

End PatternComment.

(** * The character pushed back after the command *)

Section Pushback.

Lemma read_cmd_S (k : nat) (c : Z) (cmd : list Z) :
  read_cmd (S k) c cmd =
  (c <- get false ;;
   if negb (is_alphanum c) then ret (cmd, c)
   else read_cmd k c (cmd ++ [c])).
Proof. reflexivity. Qed.

(** The loop that reads the command on a name that fills [cmd]: it is
    left with the last character stored, not with the one that follows. *)
Lemma read_cmd_full (k : nat) :
  forall (name rest : list Z) (c0 : Z) (cmd : list Z) (s : state),
    wf s -> forallb is_alphanum name = true -> List.length name = k ->
    pending s = name ++ rest ->
    exists s',
      read_cmd k c0 cmd s = Ok (cmd ++ name, last name c0) s' /\
      out s' = out s /\
      ((k = 0%nat /\ s' = s) \/
       (wf s' /\ pending s' = rest /\ preview s' = 0 /\ cr s' = false /\
        line_nr s' = line_nr s)).
Proof.
  induction k as [|k IH]; intros name rest c0 cmd s Hwf Hname Hlen Hp.
  - destruct name; [|discriminate]. exists s. simpl. rewrite app_nil_r. auto.
  - destruct name as [|x name]; [discriminate|]. rewrite read_cmd_S.
    cbn [forallb] in Hname. apply andb_prop in Hname as [Hx Hname].
    simpl in Hp.
    destruct (get_spec false s x _ Hwf Hp) as (s1 & H1 & Hwf1 & Hp1 & Hpv1 & Ho1 & Hl1 & Hcr1).
    rewrite (bind_ok _ _ _ _ _ H1). rewrite Hx. cbn [negb].
    destruct (IH name rest x (cmd ++ [x]) s1 Hwf1 Hname ltac:(simpl in Hlen; lia) Hp1)
      as (s' & Hrun & Ho' & Hs').
    exists s'. rewrite Hrun, <- app_assoc. split.
    { simpl. destruct name as [|y name']; [reflexivity|].
      now rewrite (last_indep (y :: name') x c0). }
    split; [rewrite Ho', Ho1; now rewrite app_nil_r|].
    right.
    assert (Hx13 : (x =? 13) = false) by (unfold is_alphanum in Hx; lia).
    assert (Hx10 : (x =? 10) = false) by (unfold is_alphanum in Hx; lia).
    assert (Hn : newline (cr s) x = 0).
    { unfold newline. now rewrite Hx13, Hx10. }
    destruct Hs' as [[-> ->] | (Hwf' & Hp' & Hpv' & Hcr' & Hl')].
    + destruct name; [|discriminate]. splits; auto; [congruence | lia].
    + splits; auto. lia.
Qed.

(** The copy of a comment body that holds no star and no slash, with the
    lines it runs over. *)
Lemma echo_comment_plain (body : list Z) :
  forall (fuel : nat) (c : Z) (s : state) (rest : list Z) (prev : Z),
    wf s ->
    (c =? EOF) = false -> (c =? 47) = false -> (c =? 42) = false ->
    forallb (fun x => negb (x =? 42) && negb (x =? 47)) body = true ->
    pending s = body ++ 42 :: 47 :: rest ->
    cr s = (prev =? 13) ->
    (List.length body + 1 < fuel)%nat ->
    exists s',
      echo_comment fuel c s = Ok tt s' /\
      out s' = out s ++ body ++ [42; 47] /\ pending s' = rest /\
      line_nr s' = line_nr s + line_breaks prev body /\
      wf s' /\ preview s' = 0.
Proof.
  induction body as [|x body IH];
    intros fuel c s rest prev Hwf HE H47 H42 Hbody Hp Hcr Hlen;
    (destruct fuel as [|fuel]; [inversion Hlen|]);
    cbn [echo_comment]; rewrite HE, H47, H42, bind_ret; simpl in Hp.
  - destruct (get_spec true s 42 _ Hwf Hp) as (s1 & H1 & Hwf1 & Hp1 & Hpv1 & Ho1 & Hl1 & Hcr1).
    rewrite (bind_ok _ _ _ _ _ H1).
    destruct fuel as [|fuel]; [simpl in Hlen; lia|].
    cbn [echo_comment]. change (42 =? EOF) with false.
    change (42 =? 47) with false. change (42 =? 42) with true. cbv iota.
    rewrite bind_ret.
    destruct (get_spec true s1 47 _ Hwf1 Hp1) as (s2 & H2 & Hwf2 & Hp2 & Hpv2 & Ho2 & Hl2 & Hcr2).
    rewrite (bind_ok _ _ _ _ _ H2). change (47 =? 47) with true. cbv iota.
    exists s2. split; [reflexivity|]. splits; auto.
    + rewrite Ho2, Ho1. now rewrite <- app_assoc.
    + rewrite Hl2, Hl1. unfold newline. simpl. lia.
  - cbn [forallb] in Hbody. apply andb_prop in Hbody as [Hx Hbody].
    apply andb_prop in Hx as [Hx42 Hx47]. apply negb_true_iff in Hx42, Hx47.
    destruct (get_spec true s x _ Hwf Hp) as (s1 & H1 & Hwf1 & Hp1 & Hpv1 & Ho1 & Hl1 & Hcr1).
    rewrite (bind_ok _ _ _ _ _ H1).
    assert (Hxb : byte x).
    { apply wf_pending in Hwf. rewrite Hp in Hwf. now inversion Hwf. }
    assert (HxE : (x =? EOF) = false) by (unfold EOF; destruct Hxb; lia).
    destruct (IH fuel x s1 rest x Hwf1 HxE Hx47 Hx42 Hbody Hp1 Hcr1
                ltac:(simpl in Hlen; lia))
      as (s' & Hrun & Hout & Hrest & Hline & Hwf' & Hpv').
    exists s'. split; [exact Hrun|]. splits; auto.
    + rewrite Hout, Ho1. now rewrite <- app_assoc.
    + rewrite Hline, Hl1. cbn [line_breaks]. unfold newline. rewrite Hcr.
      destruct (x =? 13); cbn [orb]; [lia|].
      destruct ((x =? 10) && negb (prev =? 13)); lia.
Qed.

(** The scan up to the command of a block comment that opens the
    input. *)
Lemma process_block_start (t : tables) (r : list Z) :
  Forall byte r ->
  exists s3,
    wf s3 /\ pending s3 = r /\ preview s3 = 0 /\ out s3 = [] /\
    line_nr s3 = 1 /\ cr s3 = false /\
    process t (initial (47 :: 42 :: r)) =
    (rc <- read_cmd MAX_CMD_LENGTH 47 [] ;;
     let (cmd, c) := rc in
     unget c ;;
     let i := if (List.length cmd =? 0)%nat then -1 else match_cmd t cmd in
     if 0 <=? i then
       expand (4 + List.length r) t i ;;
       c <- get false ;;
       process_loop (3 + List.length r) t c 0
     else
       emits (bytes "/*") ;;
       emits cmd ;;
       echo_comment (4 + List.length r) c ;;
       c <- get false ;;
       process_loop (3 + List.length r) t c 0) s3.
Proof.
  intros Hr. unfold process. unfold bind at 1. unfold modify at 1.
  set (s1 := set_line_nr 1 (initial (47 :: 42 :: r))).
  assert (Hwf1 : wf s1).
  { apply wf_set_line_nr, wf_initial. repeat constructor; auto; unfold byte; lia. }
  destruct (get_spec false s1 47 (42 :: r) Hwf1 eq_refl)
    as (s2 & H2 & Hwf2 & Hp2 & Hpv2 & Ho2 & Hl2 & Hcr2).
  rewrite (bind_ok _ _ _ _ _ H2). unfold bind at 1. unfold read at 1.
  assert (Hf : fuel_of s2 = S (3 + List.length r)).
  { unfold fuel_of. unfold pending in Hp2. rewrite Hpv2 in Hp2. simpl in Hp2.
    rewrite Hp2. reflexivity. }
  rewrite Hf. cbn [process_loop].
  change (47 =? EOF) with false. change (is_quote 47) with false.
  change (47 =? 47) with true. cbv iota.
  destruct (peek_is_full 47 s2 Hwf2 ltac:(lia)) as (s3 & H3 & Hwf3 & Hp3 & Ho3 & Hl3 & Hcr3).
  rewrite (bind_ok _ _ _ _ _ H3), Hp2. change (42 =? 47) with false. cbv iota.
  destruct (peek_is_full 42 s3 Hwf3 ltac:(lia)) as (s4 & H4 & Hwf4 & Hp4 & Ho4 & Hl4 & Hcr4).
  rewrite (bind_ok _ _ _ _ _ H4), Hp3, Hp2. change (42 =? 42) with true. cbv iota.
  rewrite Hp3, Hp2 in Hp4.
  destruct (get_spec false s4 42 r Hwf4 Hp4)
    as (s5 & H5 & Hwf5 & Hp5 & Hpv5 & Ho5 & Hl5 & Hcr5).
  rewrite (bind_ok _ _ _ _ _ H5).
  exists s5. splits; auto.
  - rewrite Ho5, Ho4, Ho3, Ho2. reflexivity.
  - rewrite Hl5, Hl4, Hl3, Hl2. reflexivity.
Qed.

(** X17.  A line terminator that comes right after the slash and star of
    a block comment is counted twice: it is read as the character that
    ends the command, pushed back, and read again.  The diagnostic of an
    error met after such a comment carries a line number one higher than
    the line of the error. *)
Theorem comment_newline_counted_twice (t : tables) (nl : Z) (body : list Z)
        (q : Z) :
  nl = CR \/ nl = LF ->
  Forall byte body ->
  forallb (fun x => negb (x =? 42) && negb (x =? 47)) body = true ->
  is_quote q = true ->
  exists s',
    process t (initial (bytes "/*" ++ nl :: body ++ bytes "*/" ++ [q])) =
      Fatal "unterminated string literal." s' /\
    line_nr s' = 2 + line_breaks 0 (nl :: body) /\
    out s' = bytes "/*" ++ nl :: body ++ bytes "*/" ++ [q].
Proof.
  intros Hnl Hbytes Hbody Hq.
  assert (Hqb := is_quote_byte q Hq).
  assert (Hnlb : byte nl) by (destruct Hnl as [-> | ->]; unfold byte; lia).
  set (r := nl :: body ++ [42; 47; q]).
  assert (Hr : Forall byte r).
  { unfold r. constructor; [exact Hnlb|]. apply Forall_app. split; [exact Hbytes|].
    repeat (constructor; [first [exact Hqb | unfold byte; lia]|]). constructor. }
  destruct (process_block_start t r Hr)
    as (s3 & Hwf3 & Hp3 & Hpv3 & Ho3 & Hl3 & Hcr3 & Hrun).
  change (bytes "/*" ++ nl :: body ++ bytes "*/" ++ [q]) with (47 :: 42 :: r).
  rewrite Hrun. clear Hrun.
  change MAX_CMD_LENGTH with (S 79). rewrite read_cmd_S.
  destruct (get_spec false s3 nl _ Hwf3 Hp3)
    as (s4 & H4 & Hwf4 & Hp4 & Hpv4 & Ho4 & Hl4 & Hcr4).
  rewrite !bind_assoc, (bind_ok _ _ _ _ _ H4).
  assert (Ha : is_alphanum nl = false) by (destruct Hnl as [-> | ->]; reflexivity).
  rewrite Ha. cbn [negb]. rewrite bind_ret.
  unfold unget. unfold modify at 1. unfold bind at 1.
  change (List.length (@nil Z) =? 0)%nat with true. cbv iota.
  change (0 <=? -1) with false. cbv iota.
  unfold emits at 1. unfold bind at 1. unfold emits at 1. unfold bind at 1.
  set (s5 := set_out _ _).
  assert (Hwf5 : wf s5).
  { destruct Hwf4 as [Hi _]. split; [exact Hi|]. right. left. exact Hnlb. }
  assert (Hp5 : pending s5 = (nl :: body) ++ 42 :: 47 :: [q]).
  { unfold pending in Hp4 |- *. rewrite Hpv4 in Hp4. simpl in Hp4.
    change (preview s5) with nl. change (input s5) with (input s4).
    rewrite (byte_pos nl Hnlb), Hp4. reflexivity. }
  assert (HnlE : (nl =? EOF) = false) by (destruct Hnl as [-> | ->]; reflexivity).
  assert (Hnl47 : (nl =? 47) = false) by (destruct Hnl as [-> | ->]; reflexivity).
  assert (Hnl42 : (nl =? 42) = false) by (destruct Hnl as [-> | ->]; reflexivity).
  destruct (echo_comment_plain (nl :: body) (4 + List.length r) nl s5 [q] nl
              Hwf5 HnlE Hnl47 Hnl42)
    as (s6 & H6 & Ho6 & Hp6 & Hl6 & Hwf6 & Hpv6).
  { cbn [forallb]. rewrite Hnl42, Hnl47. exact Hbody. }
  { exact Hp5. }
  { exact Hcr4. }
  { unfold r. simpl. rewrite length_app. simpl. lia. }
  rewrite (bind_ok _ _ _ _ _ H6).
  destruct (get_spec false s6 q [] Hwf6 Hp6)
    as (s7 & H7 & Hwf7 & Hp7 & Hpv7 & Ho7 & Hl7 & Hcr7).
  rewrite (bind_ok _ _ _ _ _ H7).
  change (3 + List.length r)%nat with (S (2 + List.length r)).
  rewrite (process_loop_open_string _ t q 0 s7 Hwf7 Hq Hp7).
  eexists. split; [reflexivity|]. simpl. split.
  - rewrite Hl7, Hl6. change (line_nr s5) with (line_nr s4).
    rewrite Hl4, Hl3, Hcr3.
    destruct (is_quote_cases q Hq) as [-> | [-> | ->]];
      destruct Hnl as [-> | ->]; unfold newline; simpl; lia.
  - rewrite Ho7, Ho6. change (out s5) with ((out s4 ++ bytes "/*") ++ []).
    rewrite Ho4, Ho3. simpl. rewrite <- !app_assoc. reflexivity.
Qed.

Lemma comment_newline_counted_twice_witness :
  exists s',
    process (mkTables [] [])
            (initial (bytes "/*" ++ LF :: bytes " a" ++ bytes "*/" ++ [DQUOTE])) =
      Fatal "unterminated string literal." s' /\
    line_nr s' = 2 + line_breaks 0 (LF :: bytes " a") /\
    out s' = bytes "/*" ++ LF :: bytes " a" ++ bytes "*/" ++ [DQUOTE].
Proof.
  apply (comment_newline_counted_twice (mkTables [] []) LF (bytes " a") DQUOTE).
  - right. reflexivity.
  - repeat constructor; unfold byte; lia.
  - reflexivity.
  - reflexivity.
Defined.

(** X18.  A block comment that opens with [MAX_CMD_LENGTH] identifier
    characters or more is copied with the last of the first
    [MAX_CMD_LENGTH] written twice: the loop that reads the command stops
    with it, and it is pushed back although it is already stored.  No
    trigger of a table built by the command line is that long, so the
    comment is never a pattern. *)
Theorem long_identifier_doubled (t : tables) (name body : list Z) :
  forallb is_alphanum name = true ->
  List.length name = MAX_CMD_LENGTH ->
  match_cmd t name < 0 ->
  Forall byte body ->
  forallb (fun x => negb (x =? 42) && negb (x =? 47)) body = true ->
  exists s',
    process t (initial (bytes "/*" ++ name ++ body ++ bytes "*/")) = Ok tt s' /\
    out s' = bytes "/*" ++ name ++ [last name 0] ++ body ++ bytes "*/".
Proof.
  intros Hname Hlen Hmatch Hbytes Hbody.
  assert (Hne : name <> []) by (intros ->; discriminate).
  set (c := last name 47).
  assert (Hca : is_alphanum c = true) by (apply last_alphanum; auto).
  assert (Hcb := is_alphanum_byte c Hca).
  set (r := name ++ body ++ [42; 47]).
  assert (Hr : Forall byte r).
  { unfold r. apply Forall_app. split.
    - apply Forall_forall. intros x Hx. apply is_alphanum_byte.
      rewrite forallb_forall in Hname. auto.
    - apply Forall_app. split; [exact Hbytes|].
      repeat (constructor; [unfold byte; lia|]). constructor. }
  destruct (process_block_start t r Hr)
    as (s3 & Hwf3 & Hp3 & Hpv3 & Ho3 & Hl3 & Hcr3 & Hrun).
  change (bytes "/*" ++ name ++ body ++ bytes "*/") with (47 :: 42 :: r).
  rewrite Hrun. clear Hrun.
  destruct (read_cmd_full MAX_CMD_LENGTH name (body ++ [42; 47]) 47 [] s3
              Hwf3 Hname Hlen Hp3)
    as (s4 & H4 & Ho4 & [[Hk _] | (Hwf4 & Hp4 & Hpv4 & Hcr4 & Hl4)]);
    [discriminate|].
  rewrite (bind_ok _ _ _ _ _ H4). rewrite app_nil_l. fold c.
  unfold unget. unfold modify at 1. unfold bind at 1.
  assert (E0 : (List.length name =? 0)%nat = false) by (now rewrite Hlen).
  assert (Ei : (0 <=? match_cmd t name) = false) by lia.
  rewrite E0, Ei.
  unfold emits at 1. unfold bind at 1. unfold emits at 1. unfold bind at 1.
  set (s5 := set_out _ _).
  assert (Hwf5 : wf s5).
  { destruct Hwf4 as [Hi _]. split; [exact Hi|]. right. left. exact Hcb. }
  assert (Hp5 : pending s5 = (c :: body) ++ 42 :: 47 :: []).
  { unfold pending in Hp4 |- *. rewrite Hpv4 in Hp4. simpl in Hp4.
    change (preview s5) with c. change (input s5) with (input s4).
    rewrite (byte_pos c Hcb), Hp4. reflexivity. }
  assert (HcE : (c =? EOF) = false) by (unfold EOF; destruct Hcb; lia).
  assert (Hc47 : (c =? 47) = false) by (unfold is_alphanum in Hca; lia).
  assert (Hc42 : (c =? 42) = false) by (unfold is_alphanum in Hca; lia).
  destruct (echo_comment_plain (c :: body) (4 + List.length r) c s5 [] 0
              Hwf5 HcE Hc47 Hc42)
    as (s6 & H6 & Ho6 & Hp6 & Hl6 & Hwf6 & Hpv6).
  { cbn [forallb]. rewrite Hc42, Hc47. exact Hbody. }
  { exact Hp5. }
  { exact Hcr4. }
  { unfold r. simpl. rewrite !length_app. simpl. lia. }
  rewrite (bind_ok _ _ _ _ _ H6).
  destruct (get_end false s6 Hwf6 Hp6) as (s7 & H7 & Hwf7 & Hp7 & _ & Ho7 & _).
  rewrite (bind_ok _ _ _ _ _ H7).
  exists s7. split; [reflexivity|].
  rewrite Ho7, Ho6. change (out s5) with ((out s4 ++ bytes "/*") ++ name).
  rewrite Ho4, Ho3. unfold c. rewrite (last_indep name 47 0 Hne).
  rewrite app_nil_l, <- !app_assoc. reflexivity.
Qed.

Lemma long_identifier_doubled_witness :
  exists s',
    process (mkTables [bytes "debug"] [[]])
            (initial (bytes "/*" ++ repeat 97 80 ++ bytes " b" ++ bytes "*/")) =
      Ok tt s' /\
    out s' = bytes "/*" ++ repeat 97 80 ++ [last (repeat 97 80) 0] ++ bytes " b"
             ++ bytes "*/".
Proof.
  apply (long_identifier_doubled (mkTables [bytes "debug"] [[]]) (repeat 97 80)
           (bytes " b")).
  - reflexivity.
  - reflexivity.
  - reflexivity.
  - repeat constructor; unfold byte; lia.
  - reflexivity.
Defined.

End Pushback.

(** * Writes that fail *)

Section SinkRuns.

Variable accepts : list Z -> list Z -> bool.

Lemma grows_same {A} n (s : state) (r : result A) :
  match r with
  | Ok _ s1 => n <= line_nr s1 /\ out s1 = out s
  | Fatal _ s1 => n <= line_nr s1 /\ out s1 = out s
  | _ => True
  end -> grows n s r.
Proof.
  destruct r; simpl; auto; intros [H E]; (split; [exact H|]);
    exists []; now rewrite app_nil_r.
Qed.

Lemma grows_trans {A} n (s s1 : state) (r : result A) :
  (exists u, out s1 = out s ++ u) -> grows n s1 r -> grows n s r.
Proof.
  intros (u & Hu) H. destruct r; simpl in *; auto;
    destruct H as (H & v & Hv); (split; [exact H|]);
    exists (u ++ v); now rewrite Hv, Hu, app_assoc.
Qed.

Lemma follows_ret {A} n (a : A) : follows accepts n (ret a) (ret a).
Proof.
  intros s Hs. split; [|left; reflexivity]. apply grows_same. simpl. auto.
Qed.

Lemma follows_error {A} n msg : follows accepts n (@error A msg) (error msg).
Proof.
  intros s Hs. split; [|left; reflexivity]. apply grows_same. simpl. auto.
Qed.

Lemma follows_out_of_fuel {A} n : follows accepts n (@out_of_fuel A) out_of_fuel.
Proof. intros s Hs. split; [exact I | left; reflexivity]. Qed.

Lemma follows_undefined {A} n : follows accepts n (@undefined A) undefined.
Proof. intros s Hs. split; [exact I | left; reflexivity]. Qed.

Lemma follows_read {A} n (f : state -> A) : follows accepts n (read f) (read f).
Proof.
  intros s Hs. split; [|left; reflexivity]. apply grows_same. simpl. auto.
Qed.

Lemma follows_modify n (g : state -> state) :
  (forall s, n <= line_nr s -> n <= line_nr (g s) /\ out (g s) = out s) ->
  follows accepts n (modify g) (modify g).
Proof.
  intros Hg s Hs. split; [|left; reflexivity]. apply grows_same. simpl.
  now apply Hg.
Qed.

Lemma follows_fgetc n : follows accepts n fgetc fgetc.
Proof.
  intros s Hs. split; [|left; reflexivity]. apply grows_same.
  unfold fgetc. destruct (input s); simpl; auto.
Qed.

Lemma follows_bind {A B} n (m m' : M A) (k k' : A -> M B) :
  follows accepts n m m' -> (forall a, follows accepts n (k a) (k' a)) ->
  follows accepts n (bind m k) (bind m' k').
Proof.
  intros Hm Hk s Hs. destruct (Hm s Hs) as [Hg Hr]. unfold bind.
  assert (G : grows n s
                match m s with
                | Ok a s1 => k a s1
                | Fatal msg s1 => Fatal msg s1
                | OutOfFuel => OutOfFuel
                | Undefined => Undefined
                end).
  { destruct (m s) as [a s1|msg s1| |]; auto.
    destruct Hg as (Hl & Hu). apply (grows_trans n s s1); [exact Hu|].
    exact (proj1 (Hk a s1 Hl)). }
  split; [exact G|].
  destruct Hr as [E | (s' & w & E & Hw & Hl & Hu & Hv)]; rewrite E.
  - destruct (m s) as [a s1|msg s1| |]; try (left; reflexivity).
    destruct Hg as (Hl & u1 & Hu1).
    destruct (Hk a s1 Hl) as [_ [E' | (s' & w & E' & Hw & Hl' & (u & Hu) & Hv)]];
      [left; exact E'|].
    right. exists s', w. splits; auto.
    exists (u1 ++ u). now rewrite Hu, Hu1, app_assoc.
  - right. exists s', w. splits; auto.
    destruct (m s) as [a s1|msg s1| |]; auto.
    destruct Hv as (v & Hv). destruct Hg as (Hl1 & _).
    pose proof (proj1 (Hk a s1 Hl1)) as G1.
    destruct (k a s1) as [b s2|msg s2| |]; simpl in G1; auto;
      destruct G1 as (_ & u2 & Hu2); exists (v ++ u2);
      now rewrite Hu2, Hv, app_assoc.
Qed.

(** The line read into [was] is [n] at least. *)
Lemma follows_was {B} n (k k' : Z -> M B) :
  (forall was, n <= was -> follows accepts n (k was) (k' was)) ->
  follows accepts n (bind (read line_nr) k) (bind (read line_nr) k').
Proof. intros Hk s Hs. unfold bind, read. exact (Hk (line_nr s) Hs s Hs). Qed.

Lemma follows_emit n c : follows accepts n (emit c) (Sink.emit accepts c).
Proof.
  intros s Hs. unfold emit, Sink.emit. split.
  - destruct (0 <? c); simpl; (split; [exact Hs|]);
      [eexists; reflexivity | exists []; now rewrite app_nil_r].
  - destruct (0 <? c); [|left; reflexivity].
    destruct (accepts (out s) [c mod 256]) eqn:E; [left; reflexivity|].
    right. exists s, [c mod 256]. splits; auto.
    + exists []. now rewrite app_nil_r.
    + eexists. reflexivity.
Qed.

Lemma follows_emits n l : follows accepts n (emits l) (Sink.emits accepts l).
Proof.
  intros s Hs. unfold emits, Sink.emits. split.
  - simpl. split; [exact Hs|]. eexists; reflexivity.
  - destruct (accepts (out s) l) eqn:E; [left; reflexivity|].
    right. exists s, l. splits; auto.
    + exists []. now rewrite app_nil_r.
    + eexists. reflexivity.
Qed.

Ltac follows_step :=
  first
    [ match goal with H : _ |- _ => apply H end
    | apply follows_ret | apply follows_error | apply follows_out_of_fuel
    | apply follows_undefined
    | apply follows_emit | apply follows_emits | apply follows_fgetc
    | apply follows_read
    | apply follows_modify; intros; simpl; split; [lia | reflexivity]
    | apply follows_bind; [|intro]
    | match goal with
      | |- follows _ _ (if ?b then _ else _) _ => destruct b
      | |- follows _ _ (match ?x with _ => _ end) _ => destruct x
      | |- follows _ _ (let (_, _) := ?x in _) _ => destruct x
      end ].

Ltac follows_tac := repeat follows_step.

Lemma follows_peek n : follows accepts n peek peek.
Proof. unfold peek. follows_tac. Qed.

Lemma follows_unget n c : follows accepts n (unget c) (unget c).
Proof. unfold unget. follows_tac. Qed.

Lemma follows_peek_is n x : follows accepts n (peek_is x) (peek_is x).
Proof. unfold peek_is. pose proof follows_peek. follows_tac. Qed.

Lemma follows_peek_comment n : follows accepts n peek_comment peek_comment.
Proof. unfold peek_comment. pose proof follows_peek_is. follows_tac. Qed.

Lemma follows_get n e : follows accepts n (get e) (Sink.get accepts e).
Proof. unfold get, Sink.get. follows_tac. Qed.

Lemma follows_string_loop n fuel :
  forall q ic was, n <= was ->
    follows accepts n (string_loop fuel q ic was)
            (Sink.string_loop accepts fuel q ic was).
Proof.
  pose proof follows_get. pose proof follows_peek_is.
  induction fuel as [|fuel IH]; intros q ic was Hwas;
    cbn [string_loop Sink.string_loop]; follows_tac.
Qed.

Lemma follows_string n fuel q ic :
  follows accepts n (string fuel q ic) (Sink.string accepts fuel q ic).
Proof.
  unfold string, Sink.string. apply follows_was. intros was Hwas.
  now apply follows_string_loop.
Qed.

Lemma follows_regexp_set n fuel :
  forall ic, follows accepts n (regexp_set fuel ic)
                     (Sink.regexp_set accepts fuel ic).
Proof.
  pose proof follows_get. pose proof follows_peek_is.
  induction fuel as [|fuel IH]; intros ic;
    cbn [regexp_set Sink.regexp_set]; follows_tac.
Qed.

Lemma follows_regexp_loop n fuel :
  forall ic was, n <= was ->
    follows accepts n (regexp_loop fuel ic was)
            (Sink.regexp_loop accepts fuel ic was).
Proof.
  pose proof follows_get. pose proof follows_peek_is.
  pose proof follows_peek_comment.
  induction fuel as [|fuel IH]; intros ic was Hwas;
    [apply follows_out_of_fuel|];
    cbn [regexp_loop Sink.regexp_loop];
    pose proof (follows_regexp_set n (S fuel)); follows_tac.
Qed.

Lemma follows_regexp n fuel ic :
  follows accepts n (regexp fuel ic) (Sink.regexp accepts fuel ic).
Proof.
  unfold regexp, Sink.regexp. apply follows_was. intros was Hwas.
  now apply follows_regexp_loop.
Qed.

Lemma follows_condition_loop n fuel :
  forall left paren,
    follows accepts n (condition_loop fuel left paren)
            (Sink.condition_loop accepts fuel left paren).
Proof.
  pose proof follows_get. pose proof follows_peek_is.
  pose proof follows_peek_comment.
  induction fuel as [|fuel IH]; intros left paren;
    [apply follows_out_of_fuel|];
    cbn [condition_loop Sink.condition_loop];
    pose proof (follows_string n (S fuel));
    pose proof (follows_regexp n (S fuel)); follows_tac.
Qed.

Lemma follows_stuff_stars n fuel :
  follows accepts n (stuff_stars fuel) (Sink.stuff_stars accepts fuel).
Proof.
  pose proof follows_get. pose proof follows_peek_is.
  induction fuel as [|fuel IH]; cbn [stuff_stars Sink.stuff_stars];
    follows_tac.
Qed.

Lemma follows_stuff_loop n fuel :
  forall left,
    follows accepts n (stuff_loop fuel left) (Sink.stuff_loop accepts fuel left).
Proof.
  pose proof follows_get. pose proof follows_peek_comment.
  induction fuel as [|fuel IH]; intros left; [apply follows_out_of_fuel|];
    cbn [stuff_loop Sink.stuff_loop];
    pose proof (follows_string n (S fuel));
    pose proof (follows_regexp n (S fuel));
    pose proof (follows_stuff_stars n (S fuel)); follows_tac.
Qed.

Lemma follows_expand n fuel t cmd_nr :
  follows accepts n (expand fuel t cmd_nr) (Sink.expand accepts fuel t cmd_nr).
Proof.
  unfold expand, Sink.expand, condition, Sink.condition, stuff, Sink.stuff.
  pose proof follows_peek. pose proof (follows_condition_loop n fuel).
  pose proof (follows_stuff_loop n fuel). follows_tac.
Qed.

Lemma follows_line_comment n fuel :
  follows accepts n (line_comment fuel) (Sink.line_comment accepts fuel).
Proof.
  pose proof follows_get.
  induction fuel as [|fuel IH]; cbn [line_comment Sink.line_comment];
    follows_tac.
Qed.

Lemma follows_read_cmd n k :
  forall c cmd,
    follows accepts n (read_cmd k c cmd) (Sink.read_cmd accepts k c cmd).
Proof.
  pose proof follows_get.
  induction k as [|k IH]; intros c cmd; cbn [read_cmd Sink.read_cmd];
    follows_tac.
Qed.

Lemma follows_echo_comment n fuel :
  forall c,
    follows accepts n (echo_comment fuel c) (Sink.echo_comment accepts fuel c).
Proof.
  pose proof follows_get.
  induction fuel as [|fuel IH]; intros c;
    cbn [echo_comment Sink.echo_comment]; follows_tac.
Qed.

Lemma follows_process_loop n t fuel :
  forall c left,
    follows accepts n (process_loop fuel t c left)
            (Sink.process_loop accepts fuel t c left).
Proof.
  pose proof follows_get. pose proof follows_peek_is. pose proof follows_unget.
  induction fuel as [|fuel IH]; intros c left; [apply follows_out_of_fuel|];
    cbn [process_loop Sink.process_loop];
    pose proof (follows_string n (S fuel));
    pose proof (follows_regexp n (S fuel));
    pose proof (follows_line_comment n (S fuel));
    pose proof (follows_read_cmd n MAX_CMD_LENGTH);
    pose proof (follows_expand n (S fuel) t);
    pose proof (follows_echo_comment n (S fuel)); follows_tac.
Qed.

Lemma follows_process n t :
  n <= 1 -> follows accepts n (process t) (Sink.process accepts t).
Proof.
  intros Hn. unfold process, Sink.process.
  pose proof follows_get. pose proof (follows_process_loop n t). follows_tac.
Qed.

(** The scan against a sink that can refuse a write is the scan against
    one that accepts them all, up to the first write refused. *)
Lemma process_refused (t : tables) (s : state) :
  Sink.process accepts t s = process t s \/
  exists s' w,
    Sink.process accepts t s = Fatal "write error." s' /\
    accepts (out s') w = false /\ 1 <= line_nr s'.
Proof.
  unfold process, Sink.process.
  unfold bind at 1. unfold modify at 1.
  unfold bind at 2. unfold modify at 1.
  assert (H : follows accepts 1
                (c <- get false ;; fuel <- read fuel_of ;; process_loop fuel t c 0)
                (c <- Sink.get accepts false ;; fuel <- read fuel_of ;;
                 Sink.process_loop accepts fuel t c 0)).
  { pose proof follows_get. pose proof (follows_process_loop 1 t). follows_tac. }
  destruct (H (set_line_nr 1 s)) as [_ [E | (s' & w & E & Hw & Hl & _)]];
    [simpl; lia | left; exact E | right; exists s', w; auto].
Qed.

Lemma follows_declare n arg t : follows accepts n (declare arg t) (declare arg t).
Proof. unfold declare. follows_tac. Qed.

Lemma follows_arguments n argv :
  forall comment t,
    follows accepts n (arguments argv comment t)
            (Sink.arguments accepts argv comment t).
Proof.
  pose proof follows_declare.
  induction argv as [|arg argv IH]; intros comment t;
    cbn [arguments Sink.arguments]; follows_tac.
Qed.

Lemma declare_keeps (arg : list Z) (t t' : tables) (s s1 : state) :
  declare arg t s = Ok t' s1 -> s1 = s.
Proof.
  unfold declare. intros E.
  destruct (MAX_NR_CMDS <=? List.length (cmds t))%nat; [discriminate|].
  destruct (copy_name MAX_CMD_LENGTH arg 0 0 []) as [[j c] name].
  destruct (j =? 0)%nat; [discriminate|]. rewrite bind_ret in E.
  destruct (c =? 0); [injection E as _ <-; reflexivity|].
  destruct (c =? 58); [|discriminate].
  destruct (copy_name MAX_CMD_LENGTH arg (j + 1) c []) as [[k c'] command].
  destruct ((k =? j + 1)%nat || negb (c' =? 0)); [discriminate|].
  injection E as _ <-. reflexivity.
Qed.

(** The command line against a sink that can refuse a write: the line of
    a [-comment] option is the only thing written, and a write refused
    there stops the program before the line counter is set and before
    stdin is read. *)
Lemma arguments_refused (argv : list (list Z)) :
  forall (comment : bool) (t : tables) (s : state),
    Sink.arguments accepts argv comment t s = arguments argv comment t s \/
    exists s' w,
      Sink.arguments accepts argv comment t s = Fatal "write error." s' /\
      accepts (out s') w = false /\
      line_nr s' = line_nr s /\ input s' = input s /\ preview s' = preview s.
Proof.
  induction argv as [|arg argv IH]; intros comment t s; [left; reflexivity|].
  cbn [arguments Sink.arguments]. destruct comment.
  - unfold bind, emits, emit, Sink.emits, Sink.emit.
    destruct (accepts (out s) (bytes "// ")) eqn:E1;
      [|right; exists s, (bytes "// "); auto].
    cbn [out set_out].
    destruct (accepts (out s ++ bytes "// ") arg) eqn:E2;
      [|right; eexists; exists arg; splits; [reflexivity | exact E2 | | |];
        reflexivity].
    change (0 <? 10) with true. cbv iota. cbn [out set_out].
    destruct (accepts ((out s ++ bytes "// ") ++ arg) [10 mod 256]) eqn:E3;
      [|right; eexists; exists [10 mod 256]; splits;
        [reflexivity | exact E3 | | |]; reflexivity].
    match goal with
    | |- Sink.arguments _ _ _ _ ?s3 = _ \/ _ =>
        destruct (IH false t s3) as [E | (s' & w & E & Hw & Hl & Hi & Hp)]
    end.
    + left. exact E.
    + right. exists s', w. splits; auto.
  - destruct (str_eqb arg (bytes "-comment")); [apply IH|].
    unfold bind.
    destruct (declare arg t s) as [t' s1|m s1| |] eqn:E;
      try (left; reflexivity).
    apply declare_keeps in E. subst s1. apply IH.
Qed.

(** The whole run: the same as against a sink that accepts every write,
    or stopped at the first write refused. *)
Lemma main_refused (argv : list (list Z)) (s : state) :
  Sink.main accepts argv s = main argv s \/
  exists s' w,
    Sink.main accepts argv s = Fatal "write error." s' /\
    accepts (out s') w = false /\
    ((line_nr s' = 0 /\ input s' = input s /\ preview s' = preview s) \/
     1 <= line_nr s').
Proof.
  set (s0 := set_line_nr 0 (set_cr false s)).
  change (Sink.main accepts argv s)
    with (bind (Sink.arguments accepts argv false (mkTables [] []))
               (fun t => Sink.process accepts t) s0).
  change (main argv s)
    with (bind (arguments argv false (mkTables [] [])) (fun t => process t) s0).
  unfold bind.
  destruct (arguments_refused argv false (mkTables [] []) s0)
    as [E | (s' & w & E & Hw & Hl & Hi & Hp)]; rewrite E.
  - destruct (arguments argv false (mkTables [] []) s0) as [t s1|m s1| |];
      try (left; reflexivity).
    destruct (process_refused t s1) as [E' | (s' & w & E' & Hw & Hl)].
    + left. exact E'.
    + right. exists s', w. auto.
  - right. exists s', w. splits; auto.
Qed.

(** X1.  A fatal error that stops the scan carries a line number, 1 at
    least, so that stderr reads "JSDev: ", the line, ". " and the message.
    The message is "write error.", when a write to stdout fails, or one of
    the five of the plain scan or, when commands are declared, one of the
    six raised inside a pattern comment: with an empty command line the
    latter never occur. *)
Theorem scan_errors (t : tables) (s : state) (msg : String.string)
        (s' : state) :
  Sink.process accepts t s = Fatal msg s' ->
  1 <= line_nr s' /\ In msg (sink_messages t) /\
  stderr_text msg s' =
    String.append "JSDev: "
      (String.append (String.append (decimal (line_nr s')) ". ")
         (String.append msg (text [CR; LF]))).
Proof.
  intros H.
  assert (G : 1 <= line_nr s' /\ In msg (sink_messages t)).
  { unfold sink_messages.
    destruct (process_refused t s) as [E | (s1 & w & E & _ & Hl)];
      rewrite H in E.
    - pose proof (good_process t s) as G. rewrite <- E in G.
      destruct G as [G1 G2]. split; [exact G1|]. apply in_or_app. now left.
    - injection E as -> ->. split; [exact Hl|]. apply in_or_app. right.
      now left. }
  destruct G as [G1 G2]. splits; auto.
  unfold stderr_text.
  assert (E : (line_nr s' =? 0) = false) by lia. rewrite E. reflexivity.
Qed.

(** X16.  The fatal errors of [main], when a write can fail.  An error
    met while the command line is read carries no line number, and no
    byte of stdin has been read: it is a declaration that was refused,
    with the argument for its message, or a write of the [-comment] line
    that failed; stderr reads "JSDev: bad command line " and the message
    in both cases, "write error." included.  Every other error comes from
    the scan and carries a line number of 1 at least. *)
Theorem main_fatal_errors (argv : list (list Z)) (s : state)
        (msg : String.string) (s' : state) :
  (List.length argv <= MAX_NR_CMDS)%nat ->
  Sink.main accepts argv s = Fatal msg s' ->
  (line_nr s' = 0 /\ input s' = input s /\ preview s' = preview s /\
   ((exists arg, In arg argv /\ msg = text arg) \/
    msg = "write error."%string) /\
   stderr_text msg s' =
     String.append "JSDev: bad command line "
                   (String.append msg (text [CR; LF]))) \/
  (1 <= line_nr s' /\
   stderr_text msg s' =
     String.append "JSDev: "
       (String.append (String.append (decimal (line_nr s')) ". ")
          (String.append msg (text [CR; LF])))).
Proof.
  intros Hlen H.
  assert (Hzero : forall m s1, line_nr s1 = 0 ->
            stderr_text m s1 =
            String.append "JSDev: bad command line "
                          (String.append m (text [CR; LF]))).
  { intros m s1 E. unfold stderr_text. rewrite E. reflexivity. }
  assert (Hpos : forall m s1, 1 <= line_nr s1 ->
            stderr_text m s1 =
            String.append "JSDev: "
              (String.append (String.append (decimal (line_nr s1)) ". ")
                 (String.append m (text [CR; LF])))).
  { intros m s1 G. unfold stderr_text.
    assert (E : (line_nr s1 =? 0) = false) by lia. rewrite E. reflexivity. }
  destruct (main_refused argv s)
    as [E | (s1 & w & E & _ & [(Hl & Hi & Hp) | Hl])]; rewrite H in E.
  - symmetry in E. unfold main in E.
    unfold bind at 1 in E. unfold modify at 1 in E.
    unfold bind at 1 in E. unfold modify at 1 in E.
    set (s0 := set_line_nr 0 (set_cr false s)) in E.
    unfold bind in E.
    destruct (arguments argv false (mkTables [] []) s0) as [t s1|m s1| |] eqn:Ea;
      try discriminate.
    + right. pose proof (good_process t s1) as G. rewrite E in G.
      destruct G as [G _]. auto.
    + injection E as -> ->. left.
      destruct (arguments_fatal argv false _ s0 _ _ Ea) as (H1 & H2 & H3).
      destruct (arguments_fatal_message argv false (mkTables [] []) s0 _ _ Hlen Ea)
        as (arg & Ha & Hm).
      simpl in H1. splits; auto. left. exists arg. auto.
  - injection E as -> ->. left. splits; auto.
  - injection E as -> ->. right. auto.
Qed.

Lemma main_prefix (argv : list (list Z)) (s : state) :
  Sink.main accepts argv s = main argv s \/
  exists s' w,
    Sink.main accepts argv s = Fatal "write error." s' /\
    accepts (out s') w = false /\
    (exists u, out s' = out s ++ u) /\
    match main argv s with
    | Ok _ s1 => exists v, out s1 = out s' ++ v
    | Fatal _ s1 => exists v, out s1 = out s' ++ v
    | _ => True
    end.
Proof.
  set (s0 := set_line_nr 0 (set_cr false s)).
  change (Sink.main accepts argv s)
    with (bind (Sink.arguments accepts argv false (mkTables [] []))
               (fun t => Sink.process accepts t) s0).
  change (main argv s)
    with (bind (arguments argv false (mkTables [] [])) (fun t => process t) s0).
  assert (H : follows accepts 0
                (bind (arguments argv false (mkTables [] [])) (fun t => process t))
                (bind (Sink.arguments accepts argv false (mkTables [] []))
                      (fun t => Sink.process accepts t))).
  { apply follows_bind; [apply follows_arguments|].
    intros t. apply follows_process. lia. }
  destruct (H s0) as [_ [E | (s' & w & E & Hw & _ & Hu & Hv)]];
    [simpl; lia | left; exact E | right; exists s', w; auto].
Qed.

(** X22.  A run in which a write to stdout fails is the run in which
    every write succeeds, cut at the first write that fails: there it
    stops with "write error.", and what it has written by then is the
    beginning of what the other run writes.  When no write fails the two
    runs are the same. *)
Theorem write_error_only_stops (argv : list (list Z)) (s : state) :
  (List.length argv <= MAX_NR_CMDS)%nat ->
  (Sink.main accepts argv s = main argv s \/
   exists s' w,
     Sink.main accepts argv s = Fatal "write error." s' /\
     accepts (out s') w = false /\
     (exists u, out s' = out s ++ u) /\
     exists v, stdout (main argv s) = out s' ++ v) /\
  ((forall o w, accepts o w = true) -> Sink.main accepts argv s = main argv s).
Proof.
  intros Hlen.
  assert (Hends : match main argv s with
                  | Ok _ _ | Fatal _ _ => True
                  | _ => False
                  end).
  { unfold main.
    unfold bind at 1. unfold modify at 1. unfold bind at 1. unfold modify at 1.
    pose proof (arguments_ends argv false (mkTables [] [])
                  (set_line_nr 0 (set_cr false s)) Hlen) as Ha.
    unfold bind.
    destruct (arguments argv false (mkTables [] [])
                (set_line_nr 0 (set_cr false s))) as [t s1| | |]; try tauto.
    pose proof (process_total t s1) as Hp. unfold returns in Hp.
    destruct (process t s1); tauto. }
  assert (H : Sink.main accepts argv s = main argv s \/
              exists s' w,
                Sink.main accepts argv s = Fatal "write error." s' /\
                accepts (out s') w = false /\
                (exists u, out s' = out s ++ u) /\
                exists v, stdout (main argv s) = out s' ++ v).
  { destruct (main_prefix argv s) as [E | (s' & w & E & Hw & Hu & Hv)];
      [left; exact E|].
    right. exists s', w. splits; auto.
    destruct (main argv s); simpl; tauto. }
  split; [exact H|]. intros Hall.
  destruct H as [E | (s' & w & _ & Hw & _)]; [exact E|].
  rewrite Hall in Hw. discriminate.
Qed.

End SinkRuns.

Lemma scan_errors_witness :
  let s' := mkState (bytes "ef") 0 false 1 (bytes "abc") in
  1 <= line_nr s' /\
  In "write error."%string (sink_messages (mkTables [] [])) /\
  stderr_text "write error." s' =
    String.append "JSDev: "
      (String.append (String.append (decimal (line_nr s')) ". ")
         (String.append "write error." (text [CR; LF]))).
Proof.
  apply (scan_errors (fun o w => (List.length o + List.length w <=? 3)%nat)
           (mkTables [] []) (initial (bytes "abcdef"))).
  vm_compute. reflexivity.
Defined.

Lemma main_fatal_errors_witness :
  (line_nr (initial (bytes "x")) = 0 /\
   input (initial (bytes "x")) = input (initial (bytes "x")) /\
   preview (initial (bytes "x")) = preview (initial (bytes "x")) /\
   ((exists arg, In arg [bytes "-comment"; bytes "made by hand"] /\
                 "write error."%string = text arg) \/
    "write error."%string = "write error."%string) /\
   stderr_text "write error." (initial (bytes "x")) =
     String.append "JSDev: bad command line "
                   (String.append "write error." (text [CR; LF]))) \/
  (1 <= line_nr (initial (bytes "x")) /\
   stderr_text "write error." (initial (bytes "x")) =
     String.append "JSDev: "
       (String.append
          (String.append (decimal (line_nr (initial (bytes "x")))) ". ")
          (String.append "write error." (text [CR; LF])))).
Proof.
  apply (main_fatal_errors (fun _ _ => false)
           [bytes "-comment"; bytes "made by hand"] (initial (bytes "x"))
           "write error." (initial (bytes "x"))).
  - unfold MAX_NR_CMDS. simpl. lia.
  - reflexivity.
Defined.

Lemma write_error_only_stops_witness :
  let accepts := fun o w : list Z => (List.length o + List.length w <=? 3)%nat in
  let s := initial (bytes "a/*b*/") in
  (Sink.main accepts [] s = main [] s \/
   exists s' w,
     Sink.main accepts [] s = Fatal "write error." s' /\
     accepts (out s') w = false /\
     (exists u, out s' = out s ++ u) /\
     exists v, stdout (main [] s) = out s' ++ v) /\
  ((forall o w, accepts o w = true) -> Sink.main accepts [] s = main [] s).
Proof.
  apply (write_error_only_stops
           (fun o w => (List.length o + List.length w <=? 3)%nat) []
           (initial (bytes "a/*b*/"))).
  unfold MAX_NR_CMDS. simpl. lia.
Defined.

(** * A comment that is not a pattern, in the scan *)

Section CommentScan.

Lemma and_body_fold (a : list Z) (e : comment_end) :
  fold_right and_body e a =
  match e with
  | Closed b r => Closed (a ++ b) r
  | Nested b => Nested (a ++ b)
  | Unterminated b => Unterminated (a ++ b)
  end.
Proof.
  induction a as [|x a IH]; [destruct e; reflexivity|].
  cbn [fold_right]. rewrite IH. destruct e; reflexivity.
Qed.

(** X23.  A block comment that opens the input and is not a pattern (its
    first word is empty or not declared, and shorter than
    [MAX_CMD_LENGTH]) goes through [process] as follows.  If a slash and
    a star come before the closing star and slash, the scan stops with
    "nested comment.", having written the comment up to and including
    them.  If the input ends first, it stops with "unterminated
    comment.", having written all of it.  Otherwise the comment is
    written as it stands through its closing star and slash, and the main
    loop goes on with the text that follows, [left] unchanged. *)
Theorem block_comment_scanned (t : tables) (text : list Z) :
  Forall byte text ->
  not_a_pattern t text = true ->
  match spec_comment text with
  | Closed body rest =>
      exists c s1,
        process t (initial (bytes "/*" ++ text)) =
          process_loop (3 + List.length text) t c 0 s1 /\
        out s1 = bytes "/*" ++ body /\ cur c ++ pending s1 = rest /\ wf s1
  | Nested body =>
      exists s',
        process t (initial (bytes "/*" ++ text)) = Fatal "nested comment." s' /\
        out s' = bytes "/*" ++ body
  | Unterminated body =>
      exists s',
        process t (initial (bytes "/*" ++ text)) =
          Fatal "unterminated comment." s' /\
        out s' = bytes "/*" ++ body
  end.
Proof.
  intros Hbytes Hnot.
  change (bytes "/*" ++ text) with (47 :: 42 :: text).
  assert (Hrun : exists c' se,
            process t (initial (47 :: 42 :: text)) =
              (echo_comment (4 + List.length text) c' ;;
               c <- get false ;;
               process_loop (3 + List.length text) t c 0) se /\
            wf se /\ c' = hd EOF (pending se) /\
            out se = [47; 42] ++ ident MAX_CMD_LENGTH text /\
            text = ident MAX_CMD_LENGTH text ++ pending se).
  { destruct (process_block_start t text Hbytes)
      as (s3 & Hwf3 & Hp3 & Hpv3 & Ho3 & Hl3 & Hcr3 & Hrun).
    rewrite Hrun. clear Hrun.
    apply not_a_pattern_index in Hnot as [Hidlen Hidx].
    rewrite <- Hp3 in Hidlen.
    destruct (read_cmd_unget MAX_CMD_LENGTH 47 [] s3 Hwf3 Hpv3 Hidlen)
      as (c' & s4 & Hrun & Hwf4 & Hp4 & Ho4 & Hc').
    rewrite Hp3 in *.
    rewrite (bind_ok _ _ _ _ _ Hrun). rewrite app_nil_l.
    unfold unget. unfold modify at 1. unfold bind at 1.
    rewrite Hidx.
    unfold emits at 1. unfold bind at 1. unfold emits at 1. unfold bind at 1.
    set (se := set_out _ _).
    exists c', se. split; [reflexivity|].
    assert (Hpse : pending se = pending (set_preview c' s4)) by reflexivity.
    rewrite Hpse. split; [exact Hwf4|]. split; [|split; [|exact Hp4]].
    - destruct (c' =? EOF) eqn:E.
      + apply Z.eqb_eq in E. rewrite Hc'. exact E.
      + destruct Hc' as (l & ->). reflexivity.
    - unfold se. simpl. rewrite Ho4, Ho3. reflexivity. }
  destruct Hrun as (c' & se & Hrun & Hwf & Hc' & Hose & Htext).
  rewrite Hrun. clear Hrun.
  set (cmd := ident MAX_CMD_LENGTH text) in *.
  assert (Hcmd : forallb is_alphanum cmd = true) by apply ident_alphanum.
  assert (Hends : ends (out se) (echo_comment (4 + List.length text) c' se)
                    (spec_comment (pending se))).
  { apply echo_comment_pushed; auto.
    apply (f_equal (@List.length Z)) in Htext.
    rewrite length_app in Htext. lia. }
  assert (Hspec : spec_comment text =
                  fold_right and_body (spec_comment (pending se)) cmd).
  { transitivity (spec_comment (cmd ++ pending se));
      [f_equal; exact Htext | apply spec_comment_ident; exact Hcmd]. }
  rewrite Hspec, and_body_fold.
  destruct (spec_comment (pending se)) as [b rest|b|b]; cbn [ends] in Hends.
  - destruct Hends as (s5 & H5 & Ho5 & Hp5 & Hpv5 & Hwf5).
    rewrite (bind_ok _ _ _ _ _ H5).
    destruct (resume t (3 + List.length text) 0 s5 Hwf5)
      as (c & s1 & Hres & Hwf1 & Ho1 & Hp1 & _).
    exists c, s1. split; [exact Hres|]. splits; auto.
    + rewrite Ho1, Ho5, Hose, <- app_assoc. reflexivity.
    + rewrite Hp1. exact Hp5.
  - destruct Hends as (s5 & H5 & Ho5).
    exists s5. split.
    + unfold bind. rewrite H5. reflexivity.
    + rewrite Ho5, Hose, <- app_assoc. reflexivity.
  - destruct Hends as (s5 & H5 & Ho5).
    exists s5. split.
    + unfold bind. rewrite H5. reflexivity.
    + rewrite Ho5, Hose, <- app_assoc. reflexivity.
Qed.

Lemma block_comment_scanned_witness :
  exists s',
    process (mkTables [bytes "debug"] [[]])
            (initial (bytes "/*" ++ bytes "debugger /* x */")) =
      Fatal "nested comment." s' /\
    out s' = bytes "/*" ++ bytes "debugger /*".
Proof.
  apply (block_comment_scanned (mkTables [bytes "debug"] [[]])
           (bytes "debugger /* x */")).
  - repeat constructor; unfold byte; lia.
  - reflexivity.
Defined.

End CommentScan.

(** * Further examples *)

Section MoreExamples.

(** X19.  Whatever the input, when [string] stops at an unterminated
    string literal and when [regexp] stops at an unterminated regular
    expression literal, the line number left for the diagnostic is the
    one that was current when the function was called, not the one at
    which the input ended. *)
Theorem unterminated_literal_line (fuel : nat) (q : Z) (ic : bool)
        (s s' : state) :
  (string fuel q ic s = Fatal "unterminated string literal." s' ->
   line_nr s' = line_nr s) /\
  (regexp fuel ic s = Fatal "unterminated regexp literal." s' ->
   line_nr s' = line_nr s).
Proof.
  split.
  - unfold string, bind, read. apply string_loop_reports_opening.
  - unfold regexp, bind, read. apply regexp_loop_reports_opening.
Qed.

Lemma unterminated_literal_line_witness :
  line_nr (mkState [] 0 false 7 (bytes "a" ++ [LF] ++ bytes "b")) =
  line_nr (mkState (bytes "a" ++ [LF] ++ bytes "b") 0 false 7 []).
Proof.
  apply (proj2 (unterminated_literal_line 5 DQUOTE false
                  (mkState (bytes "a" ++ [LF] ++ bytes "b") 0 false 7 [])
                  (mkState [] 0 false 7 (bytes "a" ++ [LF] ++ bytes "b")))).
  reflexivity.
Defined.

Lemma slash_context_witness :
  exists s',
    wf s' /\ pending s' = 120 :: bytes "/" /\
    out s' = [] ++ (97 :: bytes "= ") ++ [47] /\
    process_loop (List.length (bytes "= ") + S (S 3)) (mkTables [] []) 97 0
                 (mkState (bytes "= /x/") 0 false 1 []) =
    ((if pre_regexp (significant 0 (97 :: bytes "= "))
      then regexp (S 3) false else ret tt) ;;
     c' <- get false ;; process_loop 3 (mkTables [] []) c' 47) s'.
Proof.
  apply (slash_context (mkTables [] []) (bytes "= ") 3 97 0 120 (bytes "/")
           (mkState (bytes "= /x/") 0 false 1 [])).
  - split; [repeat constructor; unfold byte; lia | left; reflexivity].
  - reflexivity.
  - reflexivity.
  - reflexivity.
  - discriminate.
  - discriminate.
Defined.

Lemma diagnostic_line_styles_witness :
  exists s,
    process (mkTables [] [])
            (initial (unlines [CR; LF] [bytes "a"; bytes "b"] ++ [34])) =
      Fatal "unterminated string literal." s /\
    line_nr s = 1 + Z.of_nat (List.length [bytes "a"; bytes "b"]) /\
    out s = unlines [CR; LF] [bytes "a"; bytes "b"] ++ [34].
Proof.
  apply (diagnostic_line_styles (mkTables [] []) [CR; LF] [bytes "a"; bytes "b"]).
  - left. reflexivity.
  - reflexivity.
  - reflexivity.
Defined.

End MoreExamples.
